(* ===== verification/_CoqProject ===== *)
-Q . S2P
Prelude.v
CLib.v
Alloc.v
Protocol.v
ProtocolFacts.v
RespFacts.v
Engine.v
Owner.v
Bag.v
Array.v
Hash.v
Skiplist.v
SkiplistFacts.v
Rbtree.v
RbTheory.v
RbHeap.v
RbMirror.v
RbLoops.v
RbFacts.v
RbEngine.v
EngineClaims.v
Store.v
StoreFacts.v
Uring.v
Log.v
LogFacts.v
Save.v
SaveFacts.v
LoadFacts.v
SaveStatus.v
Net.v
Server.v
RequestFacts.v
ServerFacts.v
Sync.v
SyncFacts.v
System.v
RecoveryFacts.v
Config.v
ConfigFacts.v
Main.v
MainFacts.v
AgentDs.v
AgentDsFacts.v
Agent.v
AgentFacts.v
AgentLife.v
Mempool.v
MempoolFacts.v
MempoolOps.v
MempoolEnd.v
MempoolClaims.v
SystemClaims.v
AgentClaims.v
FaultClaims.v
Rdma.v
RdmaFacts.v
RdmaClaims.v
SyncSend.v
SyncSendFacts.v
SyncSendClaims.v
Reactor.v
ReactorFacts.v
ReactorClaims.v
ReplicaClaims.v
