(* ===== verification/Prelude.v ===== *)
(** * lidis: a verification of the key-value store

    lidis is an in-memory key-value store in C: a server with four storage
    engines, two request protocols, an append-only log, snapshots, a memory pool
    and master/slave replication with an agent that captures the traffic of the
    master in the kernel. This development translates its own code function by
    function and proves what the parts promise to each other and to a client.
    The configuration is that of the build: the coroutine server (ntyco.c), the
    memory pool, full synchronisation with sendfile, increments through the
    agent (ENABLE_EBPF 1, ENABLE_SEND 0, ENABLE_RDMA 0). The code the build can
    select instead is modelled beside it: the transfer by RDMA, increments over
    the connection of the slave, the epoll and the io_uring server.

    ** How the code is modelled

    A C function is a Rocq function with the state it works on as argument and
    result. Its outcome is a [res]: [Ok], [Undef] for an action C leaves
    undefined (an access outside an object, a NULL dereference, a free of
    something that is not a block), [NoFuel] for a loop that does not end within
    the iterations of the model. No theorem takes [Ok] as a premise where the
    code has to reach it: the theorems state that the outcome is [Ok] and what it
    is. Buffers are lists of bytes of the length of the object, pointers into
    them offsets; an [int], a [size_t] and their conversions are integers with
    the wrap-around written out ([to_int], [to_size_t]); linked structures are
    heaps from addresses to nodes where the code shares nodes (red-black tree,
    skip list), lists where each node has one owner (chains, slabs).

    What is not in the repository is a parameter with its documented behaviour as
    a class: [mmap] and [malloc] place fresh objects ([PlacementLaws]), liburing
    queues what was prepared and carries it out after the submission, at any time
    and in any order ([UringLaws]), the RDMA network places what a
    request inside a region asks for ([FabricLaws]), sockets are oracles for
    [recv] and [send], xxhash is any function, [random] any stream.

    ** The conditions of the theorems

    They are hypotheses or classes of the statements, and several of them are
    needed: the theorems named here show what happens otherwise.

    - [AllocatorLaws]: the contract of kvs_malloc, kvs_free and kvs_realloc with
      the sizes of the blocks. Allocations can fail, and [kvs_realloc] can give
      less than was asked for: the callers' buffers get the size that was
      [granted], and writing past it is [Undef]. The pool satisfies it.
    - [AllocatorTotal]: allocations of a positive size succeed and [kvs_realloc]
      gives the size asked for, as the C library does while memory is left
      (MEM_POOL 0). The theorems on the command layer, the log, the snapshots
      and the replication assume it. The pool of the build does not satisfy it:
      [realloc_short_block], [reply_past_block] and [realloc_past_slab] of
      MempoolClaims.v.
    - [Unmarked]: the bytes of the clients in front of a block of the pool that has
      no header do not look like a header ([forged_header_free]).
    - Zero-filled tables: the array and the hash engine do not initialise their
      tables. Their contents are an argument of the creation; the theorems say
      where they have to be zero ([array_stale_table], [hash_stale_table]).
    - [UringTotal]: no disk write fails or is short; the code does not look at
      the results.
    - Files below 2 GB ([big_file_ignored]), and room in the array engine where a
      log is replayed over a snapshot ([array_capacity_replay]).
    - Sends: the coroutine server and the agent survive short sends, and so do
      their theorems; for the code that loses the rest of a short send
      (ENABLE_SEND, reactor.c, proactor.c) the theorems say what arrives.

    ** The parts, from the bottom

    - Prelude.v: outcomes, bytes, machine integers, buffers, automation. CLib.v:
      what is used of the C library ([sprintf], [atoi], [memcmp]).
    - Alloc.v: the interface of kvs_malloc, kvs_free and kvs_realloc
      ([Allocator], [AllocatorLaws], [AllocatorTotal]); Owner.v: blocks shared out between
      components; Bag.v: the entries of a pointer structure.
    - Mempool.v (kvs-mempool/kvs_mempool.c): slabs, size classes, headers.
      MempoolFacts.v has the invariant, MempoolOps.v its preservation,
      MempoolEnd.v the live blocks, [mp_destroy] and the instance of the interface.
    - Engine.v: [Engine] and [EngineLaws], the contract of a storage engine: the
      operations of a finite map, with ownership of blocks. Array.v, Hash.v,
      Skiplist.v with SkiplistFacts.v, Rbtree.v with RbTheory.v, RbHeap.v,
      RbMirror.v, RbLoops.v, RbFacts.v and RbEngine.v (kvs-engine/): the four
      engines and their refinement proofs.
    - Protocol.v with ProtocolFacts.v and RespFacts.v
      (kvs-protocol/kvs_protocol.c): framing, tokenizing and frame building.
    - Store.v with StoreFacts.v (kvstore.c): the command layer, proved against
      [EngineLaws] and [ModulesLaws].
    - Uring.v, Log.v with LogFacts.v (kvs-module/kvs_log.c); Save.v with
      SaveFacts.v, LoadFacts.v and SaveStatus.v (kvs-module/kvs_save.c); Net.v,
      Sync.v with SyncFacts.v (kvs-module/kvs_sync.c).
    - Server.v with RequestFacts.v and ServerFacts.v (kvs-server/ntyco.c);
      System.v: the modules as the server runs them; Config.v with ConfigFacts.v
      (kvstore.c): the configuration file; Main.v with RecoveryFacts.v and
      MainFacts.v (kvstore.c): start, stop, restart.
    - AgentDs.v with AgentDsFacts.v (kvs-ebpf/kvs_agent_ds.c), Agent.v with
      AgentFacts.v and AgentLife.v (kvs-ebpf/kvs_agent.c and kvs_agent.bpf.c).
    - Rdma.v with RdmaFacts.v (kvs-module/rdma_com.c and the ENABLE_RDMA branches
      of kvs_sync.c): client and server as functions of what the library calls
      answer, with the trace of the calls. SyncSend.v with SyncSendFacts.v (the
      ENABLE_SEND branches of kvs_sync.c): the server and the sending thread as
      interleaved steps on the ring of AgentDs.v. Reactor.v with ReactorFacts.v
      (kvs-server/reactor.c, proactor.c and server.h): the table of connections
      and the interest list of epoll; the shared buffers and the operations in
      flight of io_uring. Their request handler is a parameter ([HandlerLaws]),
      since [kvs_protocol] has lost the signature they call.

    ** What the theorems show

    - The pool (MempoolClaims.v): it satisfies the laws of the allocation
      interface against which the engines are proved; the blocks of [mp_malloc]
      have the requested size and do not overlap; sequences of calls do not lead
      to an undefined action, but for a reallocation whose copy leaves the slab;
      at the end every region is given back, and with an engine on top nothing
      is left.
    - The engines (EngineClaims.v): an instance, from its creation to its end,
      answers any requests as a finite map and returns every block, also when
      allocations fail (the red-black tree: when they do not); a search of the
      red-black tree is logarithmic, every level of the skip list lists in order
      exactly the nodes that reach it.
    - The protocol (ProtocolFacts.v, RespFacts.v): frames are read back exactly,
      arbitrary bytes never lead outside the buffer.
    - The server (SystemClaims.v): a request is answered as four finite maps
      answer it; a connection is served whatever the segmentation of its stream;
      the log holds exactly the successful writes; a restart from the log, or from
      a snapshot and the log, finds the contents; a full synchronisation copies
      them; and a start on a torn log loses every later write. SaveStatus.v: at
      most one snapshot is written at a time.
    - The agent (AgentClaims.v): the ring between its threads is a queue; under
      every interleaving it forwards the writes of one captured stream in order
      and none is lost; over a whole life, with slaves that come and go, it
      returns every block and closes every descriptor. ReplicaClaims.v joins it
      with the server: a slave that executes the increments follows its master.
    - The other configurations. RdmaClaims.v: a full synchronisation by RDMA
      copies the contents, the size is read from any message without an overflow,
      every resource is given back on every path. SyncSendClaims.v: under every
      interleaving the slave gets a part of the accepted writes in order, all of
      them when no send is short. ReactorClaims.v: the epoll server refines a
      specification in which every connection gets the handler's answers in
      order, but for what short sends lose; the io_uring server does so
      for one connection, and mixes up several.
    - Where the code leaves its contract (FaultClaims.v and the ends of the other
      claim files): inputs that overflow a buffer, lose a write or stop a
      component, as general statements or as closed runs of the definitions.

    ** Bounds and fuel

    Loops over a buffer take its length, loops over the red-black tree the number
    of its nodes, the server's loops the number of segments and requests, and
    the theorems prove that this is enough. The capacity of the array engine and
    the number of chains of the hash engine are parameters. The theorems on the
    pool are for requests up to 31 bytes below SIZE_MAX, where [ALIGN_UP] does
    not wrap around. Concurrency is interleaving of the steps between two calls
    of the coroutine library, or under one mutex; the slaves of the agent join
    and leave between the rounds of its consumer.

    ** Not modelled

    The vendored code (NtyCo, xxhash.h); the tests and tools, which are clients
    of the server; printing; the set-up of sockets, threads and signals, which
    only calls the operating system. *)

(** ** Prelude *)

From stdpp Require Export prelude gmap.
From stdpp Require Export strings.
From Stdlib Require Import Ascii.

Declare Scope lidis_scope.
Delimit Scope lidis_scope with lidis.

(** ** Outcomes of C code

    A computation of the program ends normally ([Ok]), performs an undefined
    action such as an access outside an object ([Undef]), or is cut short by
    the bound on the number of loop iterations of the model ([NoFuel]). *)

Inductive res (A : Type) : Type :=
| Ok (a : A)
| Undef
| NoFuel.

Arguments Ok {A} a.
Arguments Undef {A}.
Arguments NoFuel {A}.

#[export] Instance res_ret : MRet res := @Ok.

#[export] Instance res_bind : MBind res := fun A B k m =>
  match m with
  | Ok a => k a
  | Undef => Undef
  | NoFuel => NoFuel
  end.

#[export] Instance res_eq_dec {A} `{EqDecision A} : EqDecision (res A).
Proof. solve_decision. Defined.

Definition of_option {A} (o : option A) : res A :=
  match o with
  | Some a => Ok a
  | None => Undef
  end.

Definition res_map {A B} (f : A -> B) (m : res A) : res B :=
  match m with
  | Ok a => Ok (f a)
  | Undef => Undef
  | NoFuel => NoFuel
  end.

(** ** Bytes, C strings and machine integers *)

Open Scope list_scope.
Open Scope Z_scope.

(** A character of an OCaml-style string literal as its byte. *)
Definition byte_of (c : ascii) : Z := Z.of_N (N_of_ascii c).

(** The bytes of a string literal, without its terminating NUL. *)
Definition bytes_of (s : string) : list Z := map byte_of (String.list_ascii_of_string s).

Notation "'BS' s" := (bytes_of s%string) (at level 9, s at level 9) : lidis_scope.
Open Scope lidis_scope.

Definition CR : Z := 13.
Definition LF : Z := 10.
Definition CRLF : list Z := [CR; LF].

Definition INT_MAX : Z := 2 ^ 31 - 1.
Definition INT_MIN : Z := - 2 ^ 31.
Definition SIZE_MAX : Z := 2 ^ 64 - 1.

(** Conversion of an integer to [size_t] and to [int]. *)
Definition to_size_t (z : Z) : Z := z mod 2 ^ 64.
Definition to_int (z : Z) : Z := (z + 2 ^ 31) mod 2 ^ 32 - 2 ^ 31.

(** Length of a buffer as an integer. *)
Definition zlen {A} (l : list A) : Z := Z.of_nat (length l).

(** Read and write of one cell of a buffer; outside the object the behaviour
    is undefined. *)
Definition rd {A} (buf : list A) (i : Z) : res A :=
  if i <? 0 then Undef else of_option (buf !! Z.to_nat i).

Definition wr {A} (buf : list A) (i : Z) (x : A) : res (list A) :=
  if (0 <=? i) && (i <? zlen buf) then Ok (<[Z.to_nat i := x]> buf) else Undef.

(** [n] consecutive cells from [i] on. *)
Definition rd_range {A} (buf : list A) (i n : Z) : res (list A) :=
  if (0 <=? i) && (0 <=? n) && (i + n <=? zlen buf)
  then Ok (take (Z.to_nat n) (drop (Z.to_nat i) buf)) else Undef.

(** [memcpy] of [src] into [buf] at [i]. *)
Definition wr_range {A} (buf : list A) (i : Z) (src : list A) : res (list A) :=
  if (0 <=? i) && (i + zlen src <=? zlen buf)
  then Ok (take (Z.to_nat i) buf ++ src ++ drop (Z.to_nat i + length src) buf) else Undef.

(** The C string at offset [i]: the bytes up to the next NUL, which has to be
    inside the object. *)
Fixpoint cstr_of (buf : list Z) : res (list Z) :=
  match buf with
  | [] => Undef
  | c :: buf' => if c =? 0 then Ok [] else s ← cstr_of buf'; Ok (c :: s)
  end.

Definition rd_cstr (buf : list Z) (i : Z) : res (list Z) :=
  if (0 <=? i) && (i <=? zlen buf) then cstr_of (drop (Z.to_nat i) buf) else Undef.

(** Strings without a NUL, the ones a C string can hold. *)
Definition nul_free (s : list Z) : Prop := Forall (fun c => c <> 0) s.

(** [strcmp] on the bytes before the terminating NUL: its sign. *)
Fixpoint strcmp (s t : list Z) : Z :=
  match s, t with
  | [], [] => 0
  | [], _ :: _ => -1
  | _ :: _, [] => 1
  | a :: s', b :: t' => if a =? b then strcmp s' t' else if a <? b then -1 else 1
  end.

(** ** Automation *)

Create HintDb lidis discriminated.

(** Splits the boolean guards of the goal and of the hypotheses into the
    propositions they decide. *)
Ltac guards :=
  repeat match goal with
    | H : context [?a <? ?b] |- _ => destruct (Z.ltb_spec a b)
    | H : context [?a <=? ?b] |- _ => destruct (Z.leb_spec a b)
    | H : context [?a =? ?b] |- _ => destruct (Z.eqb_spec a b)
    | |- context [?a <? ?b] => destruct (Z.ltb_spec a b)
    | |- context [?a <=? ?b] => destruct (Z.leb_spec a b)
    | |- context [?a =? ?b] => destruct (Z.eqb_spec a b)
    end; cbn [andb orb negb] in *.

Ltac zguard := guards; try lia; try done.

(** Runs the monadic binds and boolean connectives of the goal. *)
Ltac run := cbn [mbind res_bind mret res_ret of_option negb orb andb fst snd].

(** Inverts the binds of a hypothesis [m >>= k = Ok _]. *)
Ltac bind_ok :=
  repeat match goal with
    | H : (?m ≫= _) = Ok _ |- _ =>
        let E := fresh "E" in destruct m eqn:E; [cbn in H | discriminate H | discriminate H]
    end.

(** ** Generic lemmas *)

Section Buffers.
Context {A : Type}.
Implicit Types (buf src : list A) (x : A).

Lemma zlen_nonneg buf : 0 <= zlen buf.
Proof. unfold zlen. lia. Qed.

Lemma zlen_nil : zlen (@nil A) = 0.
Proof. done. Qed.

Lemma zlen_cons x buf : zlen (x :: buf) = 1 + zlen buf.
Proof. unfold zlen. cbn [length]. lia. Qed.

Lemma zlen_app buf src : zlen (buf ++ src) = zlen buf + zlen src.
Proof. unfold zlen. rewrite length_app. lia. Qed.

Lemma zlen_insert buf i x : zlen (<[i := x]> buf) = zlen buf.
Proof. unfold zlen. by rewrite length_insert. Qed.

Lemma rd_spec buf i x : rd buf i = Ok x <-> 0 <= i /\ buf !! Z.to_nat i = Some x.
Proof.
  unfold rd, of_option. destruct (Z.ltb_spec i 0); [naive_solver lia |].
  destruct (buf !! Z.to_nat i); naive_solver.
Qed.

Lemma rd_in_range buf i : 0 <= i < zlen buf -> exists x, rd buf i = Ok x.
Proof.
  intros Hi. destruct (lookup_lt_is_Some_2 buf (Z.to_nat i)) as [x Hx];
    [unfold zlen in Hi; lia |].
  exists x. apply rd_spec. split; [lia | done].
Qed.

Lemma rd_app_l buf src i : 0 <= i < zlen buf -> rd (buf ++ src) i = rd buf i.
Proof.
  intros Hi. unfold rd. zguard. rewrite lookup_app_l; [done | unfold zlen in *; lia].
Qed.

Lemma rd_app_r buf src i : zlen buf <= i -> rd (buf ++ src) i = rd src (i - zlen buf).
Proof.
  intros Hi. pose proof (zlen_nonneg buf). unfold rd. zguard.
  rewrite lookup_app_r; [| unfold zlen in *; lia].
  do 2 f_equal. unfold zlen in *. lia.
Qed.

Lemma rd_cons_0 x buf : rd (x :: buf) 0 = Ok x.
Proof. done. Qed.

Lemma rd_cons_S x buf i : 0 < i -> rd (x :: buf) i = rd buf (i - 1).
Proof.
  intros Hi. unfold rd. zguard.
  replace (Z.to_nat i) with (S (Z.to_nat (i - 1))) by lia. done.
Qed.

Lemma rd_at buf x src : rd (buf ++ x :: src) (zlen buf) = Ok x.
Proof. by rewrite rd_app_r, Z.sub_diag by lia. Qed.

Lemma rd_at_1 buf x y src : rd (buf ++ x :: y :: src) (zlen buf + 1) = Ok y.
Proof. rewrite rd_app_r by lia. by replace (zlen buf + 1 - zlen buf) with 1 by lia. Qed.

Lemma wr_in_range buf i x : 0 <= i < zlen buf -> wr buf i x = Ok (<[Z.to_nat i := x]> buf).
Proof. intros Hi. unfold wr. zguard. Qed.

Lemma wr_length buf i x buf' : wr buf i x = Ok buf' -> zlen buf' = zlen buf.
Proof. unfold wr. zguard. intros [= <-]. apply zlen_insert. Qed.

Lemma wr_app_mid buf x y src : wr (buf ++ x :: src) (zlen buf) y = Ok (buf ++ y :: src).
Proof.
  rewrite wr_in_range.
  - f_equal. unfold zlen. rewrite Nat2Z.id. by rewrite insert_app_r_alt, Nat.sub_diag by lia.
  - rewrite zlen_app, zlen_cons. pose proof (zlen_nonneg buf). pose proof (zlen_nonneg src). lia.
Qed.

Lemma rd_range_app_mid buf src rest :
  rd_range (buf ++ src ++ rest) (zlen buf) (zlen src) = Ok src.
Proof.
  unfold rd_range. rewrite !zlen_app.
  pose proof (zlen_nonneg buf). pose proof (zlen_nonneg src). pose proof (zlen_nonneg rest).
  zguard. f_equal. unfold zlen. rewrite !Nat2Z.id.
  by rewrite drop_app_length, take_app_length.
Qed.

Lemma rd_range_length buf i n s : rd_range buf i n = Ok s -> zlen s = n.
Proof.
  unfold rd_range. zguard. intros [= <-]. unfold zlen in *.
  rewrite length_take, length_drop. lia.
Qed.

Lemma wr_range_length buf i src buf' : wr_range buf i src = Ok buf' -> zlen buf' = zlen buf.
Proof.
  unfold wr_range. zguard. intros [= <-]. unfold zlen in *.
  rewrite !length_app, length_take, length_drop. lia.
Qed.

End Buffers.

Create Rewrite HintDb zlen.
#[export] Hint Rewrite @zlen_nil @zlen_cons @zlen_app @zlen_insert : zlen.

Ltac zlen_simpl := autorewrite with zlen in *.

(** *** C strings *)

Lemma cstr_of_app s rest : nul_free s -> cstr_of (s ++ 0 :: rest) = Ok s.
Proof.
  induction 1 as [| c s Hc _ IH]; [done |].
  cbn. destruct (Z.eqb_spec c 0); [done |]. by rewrite IH.
Qed.

Lemma rd_cstr_app pre s rest :
  nul_free s -> rd_cstr (pre ++ s ++ 0 :: rest) (zlen pre) = Ok s.
Proof.
  intros Hs. unfold rd_cstr. zlen_simpl.
  pose proof (zlen_nonneg pre). pose proof (zlen_nonneg s). pose proof (zlen_nonneg rest).
  zguard. unfold zlen. rewrite Nat2Z.id, drop_app_length. by apply cstr_of_app.
Qed.

Lemma cstr_of_nul_free buf s : cstr_of buf = Ok s -> nul_free s.
Proof.
  revert s. induction buf as [| c buf IH]; intros s H; [done |].
  cbn in H. destruct (Z.eqb_spec c 0).
  - injection H as <-. constructor.
  - destruct (cstr_of buf) eqn:E; [| done | done]. injection H as <-.
    constructor; [done | by apply IH].
Qed.

Lemma rd_cstr_nul_free buf i s : rd_cstr buf i = Ok s -> nul_free s.
Proof. unfold rd_cstr. zguard. apply cstr_of_nul_free. Qed.

(** *** The order of [strcmp] *)

Lemma strcmp_refl s : strcmp s s = 0.
Proof. induction s as [| a s IH]; cbn; [done |]. by rewrite Z.eqb_refl. Qed.

Lemma strcmp_eq s t : strcmp s t = 0 <-> s = t.
Proof.
  split; [| intros ->; apply strcmp_refl].
  revert t. induction s as [| a s IH]; intros [| b t]; cbn; try done.
  intros Hst. zguard. subst. f_equal. by apply IH.
Qed.

Lemma strcmp_antisym s t : strcmp s t = - strcmp t s.
Proof.
  revert t. induction s as [| a s IH]; intros [| b t]; cbn; try done.
  zguard.
Qed.

Lemma strcmp_lt_trans s t u : strcmp s t < 0 -> strcmp t u < 0 -> strcmp s u < 0.
Proof.
  revert t u. induction s as [| a s IH]; intros [| b t] [| c u]; cbn; try done; try lia.
  zguard. subst. apply IH.
Qed.

Lemma strcmp_trichotomy s t : strcmp s t < 0 \/ s = t \/ strcmp t s < 0.
Proof.
  destruct (Z.ltb_spec (strcmp s t) 0) as [Hlt | Hge]; [by left |].
  destruct (Z.eqb_spec (strcmp s t) 0) as [He | Hne]; [right; left; by apply strcmp_eq |].
  right; right. rewrite strcmp_antisym. lia.
Qed.

#[export] Hint Resolve zlen_nonneg strcmp_refl strcmp_lt_trans : lidis.

(** *** Searching a list *)

(** First element of [l] that satisfies [p], with its index: the [for] loops
    that stop at the first match. *)
Fixpoint find_idx {A} (p : A -> bool) (l : list A) : option (nat * A) :=
  match l with
  | [] => None
  | x :: l' => if p x then Some (O, x) else
      match find_idx p l' with
      | Some (i, y) => Some (S i, y)
      | None => None
      end
  end.

Lemma find_idx_some {A} (p : A -> bool) l i x :
  find_idx p l = Some (i, x) ->
  exists l1 l2, l = l1 ++ x :: l2 /\ length l1 = i /\ p x = true /\ Forall (fun y => p y = false) l1.
Proof.
  revert i. induction l as [| y l IH]; intros i; cbn; [done |].
  destruct (p y) eqn:Hp; [intros [= <- <-]; by exists [], l |].
  destruct (find_idx p l) as [[j z] |] eqn:Hf; [| done]. intros [= <- <-].
  destruct (IH j eq_refl) as (l1 & l2 & -> & <- & Hx & Hl1).
  exists (y :: l1), l2. repeat split; [done |]. by constructor.
Qed.

Lemma find_idx_none {A} (p : A -> bool) l :
  find_idx p l = None -> Forall (fun y => p y = false) l.
Proof.
  induction l as [| y l IH]; cbn; [by constructor |].
  destruct (p y) eqn:Hp; [done |]. destruct (find_idx p l) as [[j z] |]; [done |].
  intros _. constructor; [done | by apply IH].
Qed.

Lemma insert_mid {A} (l1 l2 : list A) x y : <[length l1 := y]> (l1 ++ x :: l2) = l1 ++ y :: l2.
Proof. by rewrite insert_app_r_alt, Nat.sub_diag by lia. Qed.

Lemma list_to_map_mid (l1 l2 : list (list Z * list Z)) k v :
  NoDup (l1 ++ (k, v) :: l2).*1 ->
  list_to_map (l1 ++ (k, v) :: l2)
  = <[k := v]> (list_to_map (l1 ++ l2) : gmap (list Z) (list Z)).
Proof.
  intros Hnd. rewrite <- list_to_map_cons. apply list_to_map_proper; [done |].
  by rewrite Permutation_middle.
Qed.

Lemma list_to_map_fresh (l : list (list Z * list Z)) k :
  k ∉ l.*1 <-> (list_to_map l : gmap (list Z) (list Z)) !! k = None.
Proof. split; [apply not_elem_of_list_to_map_1 | apply not_elem_of_list_to_map_2]. Qed.

Lemma omap_mid {A B} (f : A -> option B) l1 x l2 :
  omap f (l1 ++ x :: l2)
  = omap f l1 ++ (match f x with Some y => [y] | None => [] end) ++ omap f l2.
Proof. rewrite omap_app. f_equal. cbn. by destruct (f x). Qed.

Lemma bind_mid {A B} (f : A -> list B) l1 x l2 :
  (l1 ++ x :: l2) ≫= f = (l1 ≫= f) ++ f x ++ (l2 ≫= f).
Proof. by rewrite bind_app. Qed.

Lemma NoDup_mid2 {A} (p a b : A) l1 l2 :
  NoDup (p :: l1 ++ a :: b :: l2) <-> NoDup (a :: b :: p :: l1 ++ l2).
Proof.
  change (p :: l1 ++ a :: b :: l2) with ((p :: l1) ++ a :: b :: l2).
  by rewrite <- !Permutation_middle.
Qed.

Lemma perm_mid_app {A} (p : A) l1 x l2 : p :: l1 ++ x ++ l2 ≡ₚ x ++ p :: l1 ++ l2.
Proof. change (p :: l1 ++ x ++ l2) with ((p :: l1) ++ x ++ l2). apply Permutation_app_swap_app. Qed.

Lemma insert_cell {A} (l : list A) i x :
  l !! i = Some x -> exists l1 l2, l = l1 ++ x :: l2 /\ length l1 = i /\
    forall y, <[i := y]> l = l1 ++ y :: l2.
Proof.
  intros Hi. exists (take i l), (drop (S i) l).
  pose proof (take_drop_middle l i x Hi) as Hl. pose proof (lookup_lt_Some _ _ _ Hi).
  assert (Hlen : length (take i l) = i) by (rewrite length_take; lia).
  split; [done |]. split; [done |]. intros y. rewrite <- Hl at 1. rewrite <- Hlen at 1. apply insert_mid.
Qed.

(** ** [omap] *)

Lemma omap_const_none {A B} (f : A -> option B) (l : list A) : (forall x, f x = None) -> omap f l = [].
Proof. intros Hf. induction l as [| x l IH]; [done |]. cbn. rewrite Hf. exact IH. Qed.

Lemma omap_some {A B} (f : A -> option B) (h : A -> B) (l : list A) : (forall x, f x = Some (h x)) -> omap f l = h <$> l.
Proof. intros Hf. induction l as [| x l IH]; [done |]. cbn. rewrite Hf. unfold omap, fmap in *. by rewrite IH. Qed.

Lemma omap_pointwise {A B} (f h : A -> option B) (l : list A) : (forall x, f x = h x) -> omap f l = omap h l.
Proof. intros Hf. induction l as [| x l IH]; [done |]. cbn. rewrite Hf. destruct (h x); unfold omap in *; by rewrite IH. Qed.

Lemma fmap_omap {A B C} (f : A -> option B) (h : B -> C) (l : list A) : h <$> omap f l = omap (fun x => h <$> f x) l.
Proof.
  induction l as [| x l IH]; [done |]. cbn. destruct (f x); cbn; unfold omap, fmap in *; by rewrite IH.
Qed.

(** ** [filter] *)

Lemma filter_all {A} (P : A -> Prop) `{!forall x, Decision (P x)} (l : list A) : Forall P l -> filter P l = l.
Proof. induction 1 as [| x l Hx _ IH]; [done |]. by rewrite filter_cons_True, IH. Qed.

Lemma filter_none {B} (P : B -> Prop) `{!forall x, Decision (P x)} (l : list B) : Forall (fun x => ~ P x) l -> filter P l = [].
Proof. induction 1 as [| x l Hx _ IH]; [done |]. by rewrite filter_cons_False, IH. Qed.

(** ** Streams with gaps

    What arrives of a stream when some of its bytes are lost on the way: a part of it, in
    its order, and under [full] all of it. *)
Definition goes_out {X} (full : Prop) (a b : list X) : Prop := sublist a b /\ (full -> a = b).

Lemma goes_out_refl {X} full (l : list X) : goes_out full l l.
Proof. by split. Qed.

Lemma goes_out_take {X} n (l : list X) : goes_out False (take n l) l.
Proof. split; [apply sublist_take | done]. Qed.

Lemma goes_out_app {X} (P Q R : Prop) (a b c d : list X) :
  goes_out P a b -> goes_out Q c d -> (R -> P /\ Q) -> goes_out R (a ++ c) (b ++ d).
Proof.
  intros [H1 H2] [H3 H4] HR. split; [by apply sublist_app |]. intros [HP HQ]%HR. by rewrite (H2 HP), (H4 HQ).
Qed.

Lemma goes_out_trans {X} (P Q R : Prop) (a b c : list X) :
  goes_out P a b -> goes_out Q b c -> (R -> P /\ Q) -> goes_out R a c.
Proof. intros [H1 H2] [H3 H4] HR. split; [by etrans |]. intros [HP HQ]%HR. by rewrite (H2 HP), (H4 HQ). Qed.
