(* ===== verification/CLib.v ===== *)
(** * CLib: the parts of the C library the program formats and parses with

    [sprintf]'s ["%d"] on non-negative integers ([dec]), the sizes [snprintf]
    reports, [atoi] as glibc implements it, and [memcmp] for equality. *)

From S2P Require Import Prelude.

(** The decimal digits of [n >= 0], most significant first, as ["%d"] and
    ["%zu"] print them. [fuel] bounds the number of digits. *)
Fixpoint dec_aux (fuel : nat) (n : Z) (acc : list Z) : list Z :=
  match fuel with
  | O => acc
  | S f => if n <? 10 then (48 + n) :: acc else dec_aux f (n / 10) ((48 + n mod 10) :: acc)
  end.

Definition dec (n : Z) : list Z := dec_aux (S (Z.to_nat (Z.log2 n))) n [].

Arguments dec n : simpl never.

(** Value of a string of digits read after the prefix of value [acc]. *)
Definition dval (acc : Z) (ds : list Z) : Z := fold_left (fun a d => 10 * a + (d - 48)) ds acc.

Arguments dval acc ds : simpl never.

Definition is_digit (c : Z) : bool := (48 <=? c) && (c <=? 57).

(** The value [snprintf] returns for a text of [n] bytes: negative when the
    count does not fit an [int]. *)
Definition snprintf_ret (n : Z) : Z := if n <=? INT_MAX then n else -1.

(** [isspace] in the C locale. *)
Definition is_space (c : Z) : bool := (c =? 32) || ((9 <=? c) && (c <=? 13)).

Definition LONG_MAX : Z := 2 ^ 63 - 1.

(** The digits part of [strtol]: reads digits from offset [i] on until a byte
    that is not one; the value saturates at [LONG_MAX] when the number leaves
    the range of [long]. *)
Fixpoint strtol_digits (buf : list Z) (acc : Z) : res Z :=
  match buf with
  | [] => Undef
  | c :: buf' =>
      if is_digit c then strtol_digits buf' (Z.min (10 * acc + (c - 48)) (LONG_MAX + 1))
      else Ok acc
  end.

Definition strtol_clamp (neg : bool) (m : Z) : Z :=
  if neg then - m else Z.min m LONG_MAX.

Fixpoint atoi_at (buf : list Z) : res Z :=
  match buf with
  | [] => Undef
  | c :: buf' =>
      if is_space c then atoi_at buf'
      else if c =? 45 then m ← strtol_digits buf' 0; Ok (to_int (strtol_clamp true m))
      else if c =? 43 then m ← strtol_digits buf' 0; Ok (to_int (strtol_clamp false m))
      else m ← strtol_digits buf 0; Ok (to_int (strtol_clamp false m))
  end.

(** [atoi (buf + i)]. Running off the end of the object is undefined. *)
Definition atoi (buf : list Z) (i : Z) : res Z :=
  if (0 <=? i) && (i <=? zlen buf) then atoi_at (drop (Z.to_nat i) buf) else Undef.

(** [memcmp (buf + i) s (strlen s) == 0]. *)
Definition memeq (buf : list Z) (i : Z) (s : list Z) : res bool :=
  t ← rd_range buf i (zlen s); Ok (bool_decide (t = s)).

(** ** Lemmas *)

Lemma dec_aux_app fuel n acc : dec_aux fuel n acc = dec_aux fuel n [] ++ acc.
Proof.
  revert n acc. induction fuel as [| f IH]; intros n acc; cbn; [done |].
  destruct (n <? 10); [done |].
  rewrite IH, (IH _ [_]), <- app_assoc. done.
Qed.

Lemma dval_app acc s t : dval acc (s ++ t) = dval (dval acc s) t.
Proof. unfold dval. apply fold_left_app. Qed.

Lemma log2_div10 n : 10 <= n -> (Z.to_nat (Z.log2 (n / 10)) < Z.to_nat (Z.log2 n))%nat.
Proof.
  intros Hn.
  assert (Hpos : 0 < n / 10) by (apply Z.div_str_pos; lia).
  assert (Z.log2 (n / 10) < Z.log2 n).
  { apply Z.log2_lt_pow2; [done |].
    pose proof (Z.log2_spec n ltac:(lia)) as [_ Hup].
    rewrite Z.pow_succ_r in Hup by apply Z.log2_nonneg.
    apply Z.div_lt_upper_bound; lia. }
  pose proof (Z.log2_nonneg (n / 10)). lia.
Qed.

Lemma dec_aux_dval fuel n :
  0 <= n -> (Z.to_nat (Z.log2 n) < fuel)%nat -> dval 0 (dec_aux fuel n []) = n.
Proof.
  revert n. induction fuel as [| f IH]; intros n Hn Hf; [lia |].
  cbn [dec_aux]. destruct (Z.ltb_spec n 10) as [Hlt | Hge].
  - unfold dval. cbn [fold_left]. lia.
  - pose proof (log2_div10 n Hge).
    rewrite dec_aux_app, dval_app, IH; [| apply Z.div_pos; lia | lia].
    unfold dval. cbn [fold_left]. pose proof (Z.div_mod n 10 ltac:(lia)). lia.
Qed.

Lemma dec_dval n : 0 <= n -> dval 0 (dec n) = n.
Proof. intros Hn. apply dec_aux_dval; [done | lia]. Qed.

Lemma dec_aux_digits fuel n acc :
  0 <= n -> Forall (fun c => is_digit c = true) acc ->
  Forall (fun c => is_digit c = true) (dec_aux fuel n acc).
Proof.
  revert n acc. induction fuel as [| f IH]; intros n acc Hn Hacc; cbn; [done |].
  destruct (Z.ltb_spec n 10).
  - constructor; [unfold is_digit; zguard | done].
  - apply IH; [apply Z.div_pos; lia |]. constructor; [| done].
    pose proof (Z.mod_pos_bound n 10 ltac:(lia)). unfold is_digit. zguard.
Qed.

Lemma dec_digits n : 0 <= n -> Forall (fun c => is_digit c = true) (dec n).
Proof. intros Hn. by apply dec_aux_digits. Qed.

Lemma dec_nonempty n : exists c ds, dec n = c :: ds.
Proof.
  unfold dec. cbn [dec_aux]. destruct (n <? 10); [by eauto |].
  rewrite dec_aux_app. destruct (dec_aux _ _ []); cbn; eauto.
Qed.

Lemma dec_length_pos n : 0 < zlen (dec n).
Proof. destruct (dec_nonempty n) as (c & ds & ->). rewrite zlen_cons. pose proof (zlen_nonneg ds). lia. Qed.

Lemma dval_mono acc s : 0 <= acc -> Forall (fun c => is_digit c = true) s -> acc <= dval acc s.
Proof.
  intros Hacc Hs. revert acc Hacc.
  induction Hs as [| c s Hc _ IH]; intros acc Hacc; unfold dval in *; cbn [fold_left]; [done |].
  unfold is_digit in Hc.
  assert (Hd : 48 <= c <= 57) by (destruct (Z.leb_spec 48 c), (Z.leb_spec c 57); naive_solver lia).
  etrans; [| apply IH]; lia.
Qed.

Lemma memeq_app pre s rest : memeq (pre ++ s ++ rest) (zlen pre) s = Ok true.
Proof. unfold memeq. rewrite rd_range_app_mid. cbn. by rewrite bool_decide_true. Qed.
