(* ===== verification/Alloc.v ===== *)
(** * Alloc: the allocation interface of the engines

    [kvs_malloc], [kvs_free] and [kvs_realloc] of kvstore.c are what the
    engines, the protocol code and the persistence code see of the memory
    pool, or of the C library when [MEM_POOL] is 0. The class [Allocator] gives
    the three operations over an abstract allocator state and [AllocatorLaws]
    what the callers rely on: a returned pointer is not in use, [kvs_malloc]
    gives at least the bytes asked for, the set of blocks in use changes by
    exactly the blocks returned and released, and the others keep their size.
    The laws promise nothing on the size of a block [kvs_realloc] returns,
    because [mp_realloc] may return one that is too small, and
    [kvs_realloc] may be undefined, because its copy may read past a slab.
    Clients are proved against the class. *)

From S2P Require Import Prelude.

(** An owned block: its address and the C string or buffer stored in it. *)
Record block := Block { b_addr : Z; b_str : list Z }.

#[export] Instance block_eq_dec : EqDecision block.
Proof. solve_decision. Defined.

Class Allocator (A : Type) := {
  kvs_malloc : Z -> A -> option Z * A;
  kvs_free : Z -> A -> A;
  kvs_realloc : Z -> Z -> A -> res (option Z * A);
  al_live : A -> gset Z;
  (** the usable bytes of a block *)
  al_size : A -> Z -> Z;
  al_inv : A -> Prop
}.

Class AllocatorLaws (A : Type) `{Allocator A} : Prop := {
  malloc_some n a p a' :
    al_inv a -> kvs_malloc n a = (Some p, a') ->
    p ∉ al_live a ∧ al_live a' = {[p]} ∪ al_live a /\ al_inv a';
  malloc_none n a a' :
    al_inv a -> kvs_malloc n a = (None, a') -> al_live a' = al_live a /\ al_inv a';
  free_live p a :
    al_inv a -> p ∈ al_live a ->
    al_live (kvs_free p a) = al_live a ∖ {[p]} /\ al_inv (kvs_free p a);
  realloc_some p n a p' a' :
    al_inv a -> p ∈ al_live a -> kvs_realloc p n a = Ok (Some p', a') ->
    p' ∉ al_live a ∖ {[p]} ∧ al_live a' = {[p']} ∪ (al_live a ∖ {[p]}) /\ al_inv a';
  realloc_none p n a a' :
    al_inv a -> p ∈ al_live a -> kvs_realloc p n a = Ok (None, a') ->
    al_live a' = al_live a /\ al_inv a';
  malloc_size n a p a' :
    al_inv a -> kvs_malloc n a = (Some p, a') ->
    n <= al_size a' p /\ forall q, q ∈ al_live a -> al_size a' q = al_size a q;
  free_size p a q :
    al_inv a -> p ∈ al_live a -> q ∈ al_live a -> q <> p -> al_size (kvs_free p a) q = al_size a q;
  realloc_others p n a p' a' q :
    al_inv a -> p ∈ al_live a -> kvs_realloc p n a = Ok (Some p', a') ->
    q ∈ al_live a -> q <> p -> al_size a' q = al_size a q
}.

(** The bytes of a block of [n] bytes asked for with [kvs_realloc] that are
    really there. *)
Definition granted {A} `{Allocator A} (p n : Z) (a : A) : Z := Z.min n (al_size a p).

(** Contents of a block after [kvs_realloc] granted it [n] bytes; the added bytes are not
    initialised by the code and read as 0 here. *)
Definition resize (buf : list Z) (n : Z) : list Z :=
  take (Z.to_nat n) buf ++ replicate (Z.to_nat n - length buf) 0.

Lemma take_resize buf n m : (m <= n)%nat -> (m <= length buf)%nat -> take m (resize buf (Z.of_nat n)) = take m buf.
Proof.
  intros Hn Hb. unfold resize. rewrite Nat2Z.id, take_app_le by (rewrite length_take; lia).
  rewrite take_take. f_equal. lia.
Qed.

Lemma zlen_resize buf n : 0 <= n -> zlen (resize buf n) = n.
Proof. intros Hn. unfold zlen, resize. rewrite length_app, length_take, length_replicate. lia. Qed.

(** Sizes the program asks for. *)
Ltac pos_size :=
  solve [done | lia | vm_compute; reflexivity
        | match goal with |- context [zlen ?l] => pose proof (zlen_nonneg l); lia end].

(** The premise of the statements about runs without memory exhaustion, on an
    allocator whose [realloc] gives the bytes asked for: what the C library
    documents ([MEM_POOL] set to 0), as long as memory is left. The pool does not
    keep the second part: see [realloc_short_block] and [realloc_past_slab] of
    MempoolClaims.v. *)
Class AllocatorTotal (A : Type) `{Allocator A} : Prop := {
  malloc_total n a : 0 < n -> exists p a', kvs_malloc n a = (Some p, a');
  realloc_total p n a :
    al_inv a -> p ∈ al_live a -> 0 < n ->
    exists p' a', kvs_realloc p n a = Ok (Some p', a') /\ granted p' n a' = n
}.

(** Some request is answered with NULL. *)
Definition al_can_fail (A : Type) `{Allocator A} : Prop :=
  exists n (a : A), 0 < n /\ (kvs_malloc n a).1 = None.

(** Duplicate of a C string in a fresh block: the sequence
    [kvs_malloc(strlen(s) + 1)], [memset] to 0, [strncpy] of [strlen(s)] bytes
    (or [strcpy]) that every engine writes out. *)
Definition dup_str {A} `{Allocator A} (s : list Z) (a : A) : option block * A :=
  match kvs_malloc (zlen s + 1) a with
  | (Some p, a') => (Some (Block p s), a')
  | (None, a') => (None, a')
  end.

(** ** A bump allocator

    A concrete allocator for evaluating the models: fresh addresses, an
    optional budget of allocations after which NULL is answered. *)
Module Bump.

Record t := mk { next : Z; live : gset Z; sizes : gmap Z Z; budget : option nat }.

Definition start (b : option nat) : t := mk 16 ∅ ∅ b.

(** A block of [n] bytes at the next address. *)
Definition place (n : Z) (b : option nat) (a : t) : t :=
  mk (next a + Z.max 16 n) ({[next a]} ∪ live a) (<[next a := n]> (sizes a)) b.

Definition malloc (n : Z) (a : t) : option Z * t :=
  match budget a with
  | Some O => (None, a)
  | Some (S b) => (Some (next a), place n (Some b) a)
  | None => (Some (next a), place n None a)
  end.

Definition free (p : Z) (a : t) : t := mk (next a) (live a ∖ {[p]}) (sizes a) (budget a).

Definition realloc (p n : Z) (a : t) : res (option Z * t) :=
  match malloc n a with
  | (Some p', a') => Ok (Some p', free p a')
  | (None, a') => Ok (None, a')
  end.

Definition size (a : t) (p : Z) : Z := default 0 (sizes a !! p).

Definition inv (a : t) : Prop := forall p, p ∈ live a -> p < next a.

#[global] Instance allocator : Allocator t := {
  kvs_malloc := malloc; kvs_free := free; kvs_realloc := realloc;
  al_live := live; al_size := size; al_inv := inv }.

Lemma start_inv b : inv (start b).
Proof. intros p Hp. cbn in Hp. set_solver. Qed.

Lemma place_inv n b a : inv a -> next a ∉ live a /\ inv (place n b a).
Proof.
  intros Hinv. split; [intros Hin; specialize (Hinv _ Hin); lia |].
  intros q. cbn. rewrite elem_of_union, elem_of_singleton. intros [-> | Hq]; [lia |]. specialize (Hinv q Hq). lia.
Qed.

Lemma place_size n b a : inv a ->
  size (place n b a) (next a) = n /\ forall q, q ∈ live a -> size (place n b a) q = size a q.
Proof.
  intros Hinv. unfold size. cbn. split; [by rewrite lookup_insert_eq |]. intros q Hq. specialize (Hinv q Hq).
  by rewrite lookup_insert_ne by lia.
Qed.

Lemma malloc_place n a p a' : malloc n a = (Some p, a') -> p = next a /\ exists b, a' = place n b a.
Proof. unfold malloc. destruct (budget a) as [[| b] |]; intros [=]; subst; eauto. Qed.

Lemma malloc_null n a a' : malloc n a = (None, a') -> a' = a.
Proof. unfold malloc. destruct (budget a) as [[| b] |]; congruence. Qed.

(** A block replaced by a new one. *)
Lemma place_free n b p a : inv a -> p ∈ live a ->
  next a ∉ live a ∖ {[p]} /\ live (free p (place n b a)) = {[next a]} ∪ (live a ∖ {[p]}) /\ inv (free p (place n b a)).
Proof.
  intros Hinv Hp. destruct (place_inv n b a Hinv) as [Hn Hi]. split; [set_solver |]. cbn. split.
  - apply set_eq. intros x. destruct (decide (x = p)); set_solver.
  - intros q Hq. cbn in Hq. apply Hi. cbn. set_solver.
Qed.

#[global] Instance laws : AllocatorLaws t.
Proof.
  split; cbn.
  - intros n a p a' Hinv [-> [b ->]]%malloc_place. destruct (place_inv n b a Hinv). done.
  - intros n a a' Hinv Hm. by rewrite (malloc_null _ _ _ Hm).
  - intros p a Hinv Hp. split; [done |]. intros q Hq. cbn in *. apply Hinv. set_solver.
  - intros p n a p' a' Hinv Hp Hr. unfold realloc in Hr.
    destruct (malloc n a) as [[q |] a1] eqn:Hm; [| done]. injection Hr as -> <-.
    apply malloc_place in Hm as [-> [b ->]]. destruct (place_free n b p a Hinv Hp) as (? & ? & ?). done.
  - intros p n a a' Hinv Hp Hr. unfold realloc in Hr.
    destruct (malloc n a) as [[q |] a1] eqn:Hm; [done |]. injection Hr as <-.
    by rewrite (malloc_null _ _ _ Hm).
  - intros n a p a' Hinv [-> [b ->]]%malloc_place. destruct (place_size n b a Hinv) as [-> ?]. split; [lia | done].
  - done.
  - intros p n a p' a' q Hinv Hp Hr Hq _. unfold realloc in Hr.
    destruct (malloc n a) as [[q' |] a1] eqn:Hm; [| done]. injection Hr as -> <-.
    apply malloc_place in Hm as [-> [b ->]]. by apply (place_size n b a).
Qed.

End Bump.

(** The bump allocator without a budget: it never answers NULL, and a new block
    has the bytes asked for. *)
Module Unlimited.

Record t := mk { under : Bump.t }.

Definition start : t := mk (Bump.start None).

Definition malloc (n : Z) (a : t) : option Z * t := (Some (Bump.next (under a)), mk (Bump.place n None (under a))).

Definition free (p : Z) (a : t) : t := mk (Bump.free p (under a)).

Definition realloc (p n : Z) (a : t) : res (option Z * t) :=
  let '(r, a') := malloc n a in Ok (r, free p a').

#[global] Instance allocator : Allocator t := {
  kvs_malloc := malloc; kvs_free := free; kvs_realloc := realloc;
  al_live := fun a => Bump.live (under a); al_size := fun a => Bump.size (under a);
  al_inv := fun a => Bump.inv (under a) }.

#[global] Instance total : AllocatorTotal t.
Proof.
  split; cbn; [intros; eexists _, _; done |]. intros p n a Hinv _ _. eexists _, _. split; [done |].
  unfold granted. cbn. change (Bump.size (Bump.free p ?a) ?q) with (Bump.size a q).
  destruct (Bump.place_size n None (under a) Hinv) as [-> _]. lia.
Qed.

#[global] Instance laws : AllocatorLaws t.
Proof.
  split; cbn.
  - intros n a p a' Hinv [= <- <-]. destruct (Bump.place_inv n None (under a) Hinv). done.
  - done.
  - intros p a Hinv Hp. split; [done |]. intros q Hq. cbn in *. apply Hinv. set_solver.
  - intros p n a p' a' Hinv Hp [= <- <-]. destruct (Bump.place_free n None p (under a) Hinv Hp) as (? & ? & ?). done.
  - done.
  - intros n a p a' Hinv [= <- <-]. destruct (Bump.place_size n None (under a) Hinv) as [Hs ?]. cbn.
    change (Bump.size _ _) with (Bump.size (Bump.place n None (under a)) (Bump.next (under a))) at 1. rewrite Hs. split; [lia | done].
  - done.
  - intros p n a p' a' q Hinv Hp [= <- <-] Hq _. by apply (Bump.place_size n None (under a)).
Qed.

End Unlimited.

(** ** Lemmas on [dup_str] *)

Section Dup.
Context {A : Type} `{AllocatorLaws A}.

Lemma dup_str_some s (a : A) b a' :
  al_inv a -> dup_str s a = (Some b, a') ->
  b_str b = s /\ b_addr b ∉ al_live a ∧ al_live a' = {[b_addr b]} ∪ al_live a /\ al_inv a'.
Proof.
  intros Hinv. unfold dup_str. destruct (kvs_malloc _ a) as [[p |] a1] eqn:Hm; [| done].
  intros [= <- <-]. cbn. destruct (malloc_some _ _ _ _ Hinv Hm) as (? & ? & ?). done.
Qed.

Lemma dup_str_none s (a a' : A) :
  al_inv a -> dup_str s a = (None, a') -> al_live a' = al_live a /\ al_inv a'.
Proof.
  intros Hinv. unfold dup_str. destruct (kvs_malloc _ a) as [[p |] a1] eqn:Hm; [done |].
  intros [= <-]. by eapply malloc_none.
Qed.

Lemma dup_str_fails s (a a' : A) : dup_str s a = (None, a') -> al_can_fail A.
Proof.
  unfold dup_str. destruct (kvs_malloc _ a) as [[p |] a1] eqn:Hm; [done |].
  intros _. exists (zlen s + 1), a. split; [pos_size | by rewrite Hm].
Qed.

Lemma total_no_fail `{!AllocatorTotal A} : ~ al_can_fail A.
Proof. intros (n & a & Hn & Hf). destruct (malloc_total n a Hn) as (p & a' & Hm). by rewrite Hm in Hf. Qed.

Lemma dup_str_total `{!AllocatorTotal A} s (a : A) : exists b a', dup_str s a = (Some b, a').
Proof.
  unfold dup_str. destruct (malloc_total (zlen s + 1) a ltac:(pos_size)) as (p & a' & ->). eauto.
Qed.

End Dup.
