(* ===== verification/Protocol.v ===== *)
(** * Protocol: request framing and tokenizing (kvs-protocol/kvs_protocol.c)

    The data of a connection ([client_info] of kvstore.h), the two framing
    functions that find the end of a request in a receive buffer, the detection
    of the protocol, the in-place tokenizer and the builder of KVSP frames.
    Buffers are lists of bytes as long as the allocated object; a pointer into
    the receive buffer is an offset. *)

From S2P Require Import Prelude CLib Alloc.

(** ** Data *)

(** [kvs_protocol_t] *)
Inductive kvs_protocol_t := PROTO_UNKNOWN | PROTO_RESP | PROTO_KVSP.

#[export] Instance kvs_protocol_t_eq_dec : EqDecision kvs_protocol_t.
Proof. solve_decision. Defined.

(** [kvs_recv_protocol]: buffer, its size, the old value of [*head_len]; the
    result and the new [*head_len]. *)
Definition kvs_recv_protocol : Type := list Z -> Z -> Z -> res (Z * Z).

(** [client_info]. [rbuf] and [wbuf] are the contents of the two blocks, as
    long as the blocks are; [rbuf_p] and [wbuf_p] their addresses. *)
Record client_info := ClientInfo {
  fd : Z;
  rbuf_p : Z;
  rbuf : list Z;
  r_cap : Z;
  r_pos : Z;
  cmd_tl : Z;
  cmd_hl : Z;
  wbuf_p : Z;
  wbuf : list Z;
  w_cap : Z;
  w_pos : Z;
  role : Z;
  protocol : kvs_protocol_t;
  recv_protocol : option kvs_recv_protocol
}.

Definition set_rbuf (b : list Z) (c : client_info) : client_info :=
  ClientInfo (fd c) (rbuf_p c) b (r_cap c) (r_pos c) (cmd_tl c) (cmd_hl c)
    (wbuf_p c) (wbuf c) (w_cap c) (w_pos c) (role c) (protocol c) (recv_protocol c).

Definition set_rblock (p : Z) (b : list Z) (cap : Z) (c : client_info) : client_info :=
  ClientInfo (fd c) p b cap (r_pos c) (cmd_tl c) (cmd_hl c)
    (wbuf_p c) (wbuf c) (w_cap c) (w_pos c) (role c) (protocol c) (recv_protocol c).

Definition set_r_pos (n : Z) (c : client_info) : client_info :=
  ClientInfo (fd c) (rbuf_p c) (rbuf c) (r_cap c) n (cmd_tl c) (cmd_hl c)
    (wbuf_p c) (wbuf c) (w_cap c) (w_pos c) (role c) (protocol c) (recv_protocol c).

Definition set_cmd (tl hl : Z) (c : client_info) : client_info :=
  ClientInfo (fd c) (rbuf_p c) (rbuf c) (r_cap c) (r_pos c) tl hl
    (wbuf_p c) (wbuf c) (w_cap c) (w_pos c) (role c) (protocol c) (recv_protocol c).

Definition set_wbuf (b : list Z) (c : client_info) : client_info :=
  ClientInfo (fd c) (rbuf_p c) (rbuf c) (r_cap c) (r_pos c) (cmd_tl c) (cmd_hl c)
    (wbuf_p c) b (w_cap c) (w_pos c) (role c) (protocol c) (recv_protocol c).

Definition set_wblock (p : Z) (b : list Z) (cap : Z) (c : client_info) : client_info :=
  ClientInfo (fd c) (rbuf_p c) (rbuf c) (r_cap c) (r_pos c) (cmd_tl c) (cmd_hl c)
    p b cap (w_pos c) (role c) (protocol c) (recv_protocol c).

Definition set_w_pos (n : Z) (c : client_info) : client_info :=
  ClientInfo (fd c) (rbuf_p c) (rbuf c) (r_cap c) (r_pos c) (cmd_tl c) (cmd_hl c)
    (wbuf_p c) (wbuf c) (w_cap c) n (role c) (protocol c) (recv_protocol c).

Definition set_role (n : Z) (c : client_info) : client_info :=
  ClientInfo (fd c) (rbuf_p c) (rbuf c) (r_cap c) (r_pos c) (cmd_tl c) (cmd_hl c)
    (wbuf_p c) (wbuf c) (w_cap c) (w_pos c) n (protocol c) (recv_protocol c).

Definition set_protocol (p : kvs_protocol_t) (f : kvs_recv_protocol) (c : client_info) : client_info :=
  ClientInfo (fd c) (rbuf_p c) (rbuf c) (r_cap c) (r_pos c) (cmd_tl c) (cmd_hl c)
    (wbuf_p c) (wbuf c) (w_cap c) (w_pos c) (role c) p (Some f).

(** ** Constants of the frame format *)

Definition KVSP_START_STR : list Z := BS "#".
Definition KVSP_START_STR_LEN : Z := 1.
Definition KVSP_HEAD_TAIL_STR : list Z := CRLF.
Definition KVSP_HEAD_TAIL_STR_LEN : Z := 2.
Definition KVSP_TOK_LEN_START_CHAR : Z := 94.
Definition KVSP_TOK_START_CHAR : Z := 38.
Definition KVSP_END_STR : list Z := CRLF.
Definition KVSP_END_STR_LEN : Z := 2.
Definition KVS_MAX_TOKENS : Z := 128.

(** ** The digit loop

    [while (pos < lim && buf[pos] <= '9' && buf[pos] >= '0')] with its
    overflow test, the loop [kvsp_parse_bulk_size] and [kvs_split_token] share.
    [base + pos] is the offset read. *)
Inductive digits_result :=
| DigitsOverflow
| DigitsStop (pos acc : Z) (has_digit : bool).

Fixpoint digits_loop (fuel : nat) (buf : list Z) (base pos lim acc : Z) (has_digit : bool)
    : res digits_result :=
  match fuel with
  | O => Ok (DigitsStop pos acc has_digit)
  | S f =>
      if pos <? lim then
        c ← rd buf (base + pos);
        if is_digit c then
          let digit := c - 48 in
          if (INT_MAX - digit) / 10 <? acc then Ok DigitsOverflow
          else digits_loop f buf base (pos + 1) lim (10 * acc + digit) true
        else Ok (DigitsStop pos acc has_digit)
      else Ok (DigitsStop pos acc has_digit)
  end.

(** [kvsp_parse_bulk_size]: the total length of the KVSP request at the start
    of [buf], 0 when it is not complete, a negative value for a malformed
    header. *)
Definition kvsp_parse_bulk_size : kvs_recv_protocol := fun buf buf_size head_len =>
  if buf_size <=? 0 then Ok (-1, head_len) else
  if buf_size <? KVSP_START_STR_LEN then Ok (0, head_len) else
  start ← memeq buf 0 KVSP_START_STR;
  if negb start then Ok (-2, head_len) else
  d ← digits_loop (Z.to_nat buf_size) buf 0 KVSP_START_STR_LEN buf_size 0 false;
  match d with
  | DigitsOverflow => Ok (-2, head_len)
  | DigitsStop pos body_len has_digit =>
      if negb has_digit then
        if buf_size <=? pos then Ok (0, head_len) else Ok (-2, head_len)
      else
      if (buf_size <=? pos) || (buf_size - pos <? KVSP_HEAD_TAIL_STR_LEN)
      then Ok (0, head_len) else
      tail ← memeq buf pos KVSP_HEAD_TAIL_STR;
      if negb tail then Ok (-2, head_len) else
      let pos := pos + KVSP_HEAD_TAIL_STR_LEN in
      if INT_MAX - pos <? body_len then Ok (-2, head_len) else
      let total_len := body_len + pos in
      Ok (if buf_size <? total_len then 0 else total_len, pos)
  end.

(** ** RESP framing *)

(** [while (pos < buf_size) { if (buf[pos] == '\n' && buf[pos-1] == '\r') break; ++pos; }]
    from [pos] on; the result is [buf_size] when no end of line is found. *)
Fixpoint crlf_scan (fuel : nat) (buf : list Z) (pos buf_size : Z) : res Z :=
  match fuel with
  | O => Ok pos
  | S f =>
      if pos <? buf_size then
        c ← rd buf pos;
        if c =? LF then
          p ← rd buf (pos - 1);
          if p =? CR then Ok pos else crlf_scan f buf (pos + 1) buf_size
        else crlf_scan f buf (pos + 1) buf_size
      else Ok pos
  end.

(** The loop over the [argc] bulk strings; [None] stands for falling out of
    the loop with the final [pos], [Some r] for [return r]. *)
Fixpoint resp_bulks (argc : nat) (buf : list Z) (pos buf_size : Z) : res (option Z * Z) :=
  match argc with
  | O => Ok (None, pos)
  | S n =>
      let pos := to_size_t (pos + 1) in
      if buf_size <=? pos then Ok (Some 0, pos) else
      c ← rd buf pos;
      if negb (c =? 36) then Ok (Some (-2), pos) else
      let pc_pos := pos in
      e ← crlf_scan (Z.to_nat (buf_size - pos)) buf pos buf_size;
      if e <? buf_size then
        bs_len ← atoi buf (pc_pos + 1);
        if INT_MAX <? bs_len + 2 then Undef else
        let pos := to_size_t (e + (bs_len + 2)) in
        if buf_size <=? pos then Ok (Some 0, pos) else resp_bulks n buf pos buf_size
      else Ok (Some 0, e)
  end.

(** [resp_parse_bulk_size] *)
Definition resp_parse_bulk_size : kvs_recv_protocol := fun buf buf_size head_len =>
  if buf_size <=? 0 then Ok (-1, head_len) else
  c ← rd buf 0;
  if negb (c =? 42) then Ok (-2, head_len) else
  e ← crlf_scan (Z.to_nat buf_size) buf 1 buf_size;
  if buf_size <=? e then Ok (0, head_len) else
  argc ← atoi buf 1;
  let head_len := to_int (e + 1) in
  '(r, pos) ← resp_bulks (Z.to_nat argc) buf e buf_size;
  match r with
  | Some r => Ok (r, head_len)
  | None => Ok (to_int (pos + 1), head_len)
  end.

(** ** Protocol detection *)

Definition kvs_detect_protocol (cli : client_info) : res (Z * client_info) :=
  if r_pos cli =? 0 then Ok (1, cli) else
  c ← rd (rbuf cli) 0;
  if c =? 42 then Ok (0, set_protocol PROTO_RESP resp_parse_bulk_size cli) else
  if r_pos cli <? KVSP_START_STR_LEN then Ok (1, cli) else
  b ← memeq (rbuf cli) 0 KVSP_START_STR;
  if (b : bool) then Ok (0, set_protocol PROTO_KVSP kvsp_parse_bulk_size cli) else Ok (-2, cli).

(** ** The tokenizer

    Both loops write NUL bytes into the receive buffer; [toks] lists the
    offsets stored in the [tokens] array, which has [KVS_MAX_TOKENS] cells. *)
Definition split_result : Type := Z * list Z * list Z.

Fixpoint split_kvsp (fuel : nat) (buf : list Z) (base parse_end pos : Z) (toks : list Z)
    : res split_result :=
  match fuel with
  | O => NoFuel
  | S f =>
      if pos <? parse_end then
        c ← rd buf (base + pos);
        if negb (c =? KVSP_TOK_LEN_START_CHAR) then Ok (-2, buf, toks) else
        buf ← (if 0 <? zlen toks then wr buf (base + pos) 0 else Ok buf);
        d ← digits_loop (Z.to_nat parse_end) buf base (pos + 1) parse_end 0 false;
        match d with
        | DigitsOverflow => Ok (-2, buf, toks)
        | DigitsStop pos tok_len has_digit =>
            if negb has_digit then Ok (-2, buf, toks) else
            if parse_end <=? pos then Ok (-2, buf, toks) else
            c ← rd buf (base + pos);
            if negb (c =? KVSP_TOK_START_CHAR) then Ok (-2, buf, toks) else
            let pos := pos + 1 in
            if parse_end - pos <? tok_len then Ok (-2, buf, toks) else
            if KVS_MAX_TOKENS <=? zlen toks then Ok (-2, buf, toks) else
            split_kvsp f buf base parse_end (pos + tok_len) (toks ++ [base + pos])
        end
      else
        if negb (pos =? parse_end) then Ok (-2, buf, toks) else
        buf ← wr buf (base + parse_end) 0;
        Ok (zlen toks, buf, toks)
  end.

(** [while (body[pos] != '\r') pos++] *)
Fixpoint cr_scan (fuel : nat) (buf : list Z) (i : Z) : res Z :=
  match fuel with
  | O => NoFuel
  | S f => c ← rd buf i; if c =? CR then Ok i else cr_scan f buf (i + 1)
  end.

Fixpoint split_resp (fuel : nat) (buf : list Z) (base pos : Z) (toks : list Z)
    : res split_result :=
  match fuel with
  | O => NoFuel
  | S f =>
      c ← rd buf (base + pos);
      if c =? 0 then Ok (zlen toks, buf, toks) else
      if c =? 36 then
        let pos := pos + 1 in
        bs_len ← atoi buf (base + pos);
        i ← cr_scan (S (length buf)) buf (base + pos);
        let pos := i - base + 2 in
        if KVS_MAX_TOKENS <=? zlen toks then Undef else
        buf ← wr buf (base + pos + bs_len) 0;
        split_resp f buf base (pos + bs_len + 2) (toks ++ [base + pos])
      else Ok (-2, buf, toks)
  end.

(** [kvs_split_token]: the token count or a negative code, the connection with
    its rewritten receive buffer, and the token offsets. *)
Definition kvs_split_token (cli : client_info) : res (Z * client_info * list Z) :=
  let base := cmd_hl cli in
  match protocol cli with
  | PROTO_KVSP =>
      let body_len := cmd_tl cli - cmd_hl cli in
      if body_len <? KVSP_END_STR_LEN then Ok (-2, cli, []) else
      let parse_end := body_len - KVSP_END_STR_LEN in
      e ← memeq (rbuf cli) (base + parse_end) KVSP_END_STR;
      if negb e then Ok (-2, cli, []) else
      '(r, b, toks) ← split_kvsp (S (Z.to_nat parse_end)) (rbuf cli) base parse_end 0 [];
      Ok (r, set_rbuf b cli, toks)
  | PROTO_RESP =>
      '(r, b, toks) ← split_resp (S (length (rbuf cli))) (rbuf cli) base 0 [];
      Ok (r, set_rbuf b cli, toks)
  | PROTO_UNKNOWN => Ok (-3, cli, [])
  end.

(** ** Building frames *)

(** ["^%zu&%s"] *)
Definition fmt_token (s : list Z) : list Z :=
  [KVSP_TOK_LEN_START_CHAR] ++ dec (zlen s) ++ [KVSP_TOK_START_CHAR] ++ s.

(** ["#%d\r\n"] *)
Definition fmt_head (body_len : Z) : list Z := KVSP_START_STR ++ dec body_len ++ CRLF.

(** First loop of [kvs_build_kvsp_frame]: the length of the body, [None] for
    [return NULL]; the [int] addition may overflow. *)
Fixpoint frame_body_len (argv : list (option (list Z))) (body_len : Z) : res (option Z) :=
  match argv with
  | [] => Ok (Some body_len)
  | None :: _ => Ok None
  | Some s :: rest =>
      let ret := snprintf_ret (zlen (fmt_token s)) in
      if ret <? 0 then Ok None else
      if INT_MAX <? body_len + ret then Undef else frame_body_len rest (body_len + ret)
  end.

(** Second loop: the tokens printed one after the other at [offset]. *)
Fixpoint frame_write (argv : list (option (list Z))) (buf : list Z) (offset : Z)
    : res (list Z * Z) :=
  match argv with
  | [] => Ok (buf, offset)
  | None :: _ => Undef
  | Some s :: rest =>
      let t := fmt_token s in
      buf ← wr_range buf offset (t ++ [0]);
      frame_write rest buf (offset + zlen t)
  end.

(** [kvs_build_kvsp_frame]: the block with the frame (one byte longer than
    the frame, for the NUL [snprintf] writes) and its length, or NULL. *)
Definition kvs_build_kvsp_frame {A} `{Allocator A} (argv : list (option (list Z))) (a : A)
    : res (option (block * Z) * A) :=
  if zlen argv <=? 0 then Ok (None, a) else
  bl ← frame_body_len argv 0;
  match bl with
  | None => Ok (None, a)
  | Some bl =>
      if INT_MAX <? bl + KVSP_END_STR_LEN then Undef else
      let body_len := bl + KVSP_END_STR_LEN in
      let head_len := zlen (fmt_head body_len) in
      if INT_MAX <? head_len + body_len + 1 then Undef else
      let total_len := head_len + body_len in
      match kvs_malloc (total_len + 1) a with
      | (None, a) => Ok (None, a)
      | (Some p, a) =>
          let buf := replicate (Z.to_nat (total_len + 1)) 0 in
          buf ← wr_range buf 0 (fmt_head body_len ++ [0]);
          '(buf, offset) ← frame_write argv buf head_len;
          buf ← wr_range buf offset KVSP_END_STR;
          let offset := offset + KVSP_END_STR_LEN in
          if negb (offset =? total_len) then Ok (None, kvs_free p a)
          else Ok (Some (Block p buf, total_len), a)
      end
  end.

(** The frame of a command as the format comment of the file describes it:
    [#<body_length>\r\n^<tok_len>&<tok>^<tok_len>&<tok>...\r\n]. *)
Definition kvsp_body (argv : list (list Z)) : list Z := (argv ≫= fmt_token) ++ KVSP_END_STR.
Definition kvsp_frame (argv : list (list Z)) : list Z :=
  fmt_head (zlen (kvsp_body argv)) ++ kvsp_body argv.
