(* ===== verification/ProtocolFacts.v ===== *)
(** * ProtocolFacts: correctness of framing and tokenizing

    Memory safety of the KVSP framing and tokenizer on arbitrary input, the
    round trip from [kvs_build_kvsp_frame] through framing and tokenizing, the
    behaviour on partial frames, and the RESP counterparts. *)

From S2P Require Import Prelude CLib Alloc Protocol.

(** ** The digit loop *)

Lemma digit_range c : is_digit c = true <-> 48 <= c <= 57.
Proof. unfold is_digit. rewrite andb_true_iff, !Z.leb_le. done. Qed.

Lemma overflow_test acc digit :
  0 <= digit <= 9 -> (INT_MAX - digit) / 10 < acc <-> INT_MAX < 10 * acc + digit.
Proof.
  intros Hd. unfold INT_MAX. split; intros H.
  - apply Z.lt_nge. intros Hle. apply Z.lt_nge in H. apply H.
    apply Z.div_le_lower_bound; lia.
  - apply Z.div_lt_upper_bound; lia.
Qed.

Lemma digits_loop_safe fuel buf base pos lim acc h :
  0 <= base + pos -> base + lim <= zlen buf -> 0 <= acc <= INT_MAX ->
  (Z.to_nat (lim - pos) <= fuel)%nat ->
  digits_loop fuel buf base pos lim acc h = Ok DigitsOverflow \/
  exists p n h', digits_loop fuel buf base pos lim acc h = Ok (DigitsStop p n h') /\
    pos <= p <= Z.max pos lim /\ 0 <= n <= INT_MAX /\ (h' = true -> h = true \/ pos < p) /\
    (p < lim -> exists c, rd buf (base + p) = Ok c /\ is_digit c = false).
Proof.
  revert pos acc h. induction fuel as [| f IH]; intros pos acc h Hb Hl Ha Hf.
  - right. exists pos, acc, h. cbn. repeat split; try lia; auto.
  - cbn [digits_loop]. destruct (Z.ltb_spec pos lim) as [Hlt | Hge].
    2: { right. exists pos, acc, h. repeat split; try lia; auto. }
    destruct (rd_in_range buf (base + pos)) as [c Hc]; [lia |].
    rewrite Hc. cbn. destruct (is_digit c) eqn:Hd.
    2: { right. exists pos, acc, h. repeat split; try lia; eauto. }
    pose proof Hd as Hr. apply digit_range in Hr.
    destruct (Z.ltb_spec ((INT_MAX - (c - 48)) / 10) acc) as [Ho | Ho]; [by left |].
    assert (Hn : 10 * acc + (c - 48) <= INT_MAX).
    { apply Z.nlt_ge. rewrite <- overflow_test by lia. lia. }
    destruct (IH (pos + 1) (10 * acc + (c - 48)) true) as [-> | (p & n & h' & -> & Hp & Hn' & Hh & Hs)];
      try lia; [by left |].
    right. exists p, n, h'. repeat split; try lia; done.
Qed.

Lemma digits_loop_run fuel ds buf base pre c rest lim acc h :
  buf = pre ++ ds ++ c :: rest -> zlen pre + zlen ds < base + lim ->
  Forall (fun c => is_digit c = true) ds -> is_digit c = false ->
  0 <= acc -> dval acc ds <= INT_MAX -> (length ds < fuel)%nat ->
  digits_loop fuel buf base (zlen pre - base) lim acc h
  = Ok (DigitsStop (zlen pre - base + zlen ds) (dval acc ds) (h || bool_decide (ds <> []))).
Proof.
  intros -> Hlim Hds Hc. revert pre acc h fuel Hlim.
  induction Hds as [| d ds Hd Hds IH]; intros pre acc h fuel Hlim Ha Hv Hf;
    (destruct fuel as [| f]; [cbn in Hf; lia |]); cbn [digits_loop].
  - zlen_simpl. cbn [app dval fold_left].
    destruct (Z.ltb_spec (zlen pre - base) lim); [| lia].
    replace (base + (zlen pre - base)) with (zlen pre) by lia.
    rewrite rd_at. cbn. rewrite Hc.
    rewrite orb_false_r. do 2 f_equal; lia.
  - cbn [app] in *. zlen_simpl. pose proof (zlen_nonneg ds).
    destruct (Z.ltb_spec (zlen pre - base) lim); [| lia].
    replace (base + (zlen pre - base)) with (zlen pre) by lia.
    rewrite rd_at. run. rewrite Hd.
    pose proof Hd as Hr. apply digit_range in Hr.
    assert (Hstep : 10 * acc + (d - 48) <= dval acc (d :: ds)).
    { apply (dval_mono (10 * acc + (d - 48)) ds); [lia | done]. }
    destruct (Z.ltb_spec ((INT_MAX - (d - 48)) / 10) acc) as [Ho | Ho].
    { apply overflow_test in Ho; lia. }
    specialize (IH (pre ++ [d]) (10 * acc + (d - 48)) true f).
    zlen_simpl. rewrite <- app_assoc in IH. cbn [app] in IH.
    replace (zlen pre + (1 + 0) - base) with (zlen pre - base + 1) in IH by lia.
    rewrite IH; [| lia | lia | done | cbn in Hf; lia].
    rewrite orb_true_r, orb_true_l. do 2 f_equal; lia.
Qed.

(** The loop on the decimal representation of a number of type [int]. *)
Lemma digits_loop_dec fuel n buf base pre c rest lim :
  buf = pre ++ dec n ++ c :: rest -> zlen pre + zlen (dec n) < base + lim ->
  is_digit c = false -> 0 <= n <= INT_MAX -> (length (dec n) < fuel)%nat ->
  digits_loop fuel buf base (zlen pre - base) lim 0 false
  = Ok (DigitsStop (zlen pre - base + zlen (dec n)) n true).
Proof.
  intros Hb Hl Hc Hn Hf.
  erewrite (digits_loop_run fuel (dec n)); eauto; [| apply dec_digits; lia | lia | rewrite dec_dval; lia].
  rewrite dec_dval by lia. cbn.
  destruct (dec_nonempty n) as (d & ds & ->). by rewrite bool_decide_true.
Qed.

(** ** Framing *)

Lemma memeq_0 s rest : memeq (s ++ rest) 0 s = Ok true.
Proof. apply (memeq_app []). Qed.

Lemma memeq_in_range buf i s :
  0 <= i -> i + zlen s <= zlen buf -> exists b, memeq buf i s = Ok b.
Proof.
  intros Hi Hs. unfold memeq, rd_range. pose proof (zlen_nonneg s). zguard. eauto.
Qed.

Lemma CRLF_len : zlen CRLF = 2.
Proof. done. Qed.

Lemma START_len : zlen KVSP_START_STR = 1.
Proof. done. Qed.

(** Safety and bounds of [kvsp_parse_bulk_size] on arbitrary bytes. *)
Lemma kvsp_parse_safe buf n h :
  n <= zlen buf -> 
  exists r h', kvsp_parse_bulk_size buf n h = Ok (r, h') /\
    (0 < r -> 3 < h' /\ h' <= r /\ r <= n).
Proof.
  intros Hn. unfold kvsp_parse_bulk_size, KVSP_START_STR_LEN, KVSP_HEAD_TAIL_STR_LEN, KVSP_HEAD_TAIL_STR.
  destruct (Z.leb_spec n 0); [eexists _, _; split; [done | lia] |].
  destruct (Z.ltb_spec n 1); [eexists _, _; split; [done | lia] |].
  destruct (memeq_in_range buf 0 KVSP_START_STR) as [[] ->]; [lia | rewrite START_len; lia | |];
    run; [| eexists _, _; split; [done | lia]].
  destruct (digits_loop_safe (Z.to_nat n) buf 0 1 n 0 false)
    as [-> | (p & b & h' & -> & Hp & Hb & Hh & _)]; try (unfold INT_MAX; lia);
    [eexists _, _; split; [done | lia] |].
  destruct h'; run.
  2: { destruct (n <=? p); (eexists _, _; split; [done | lia]). }
  destruct (Z.leb_spec n p); cbn [orb]; [eexists _, _; split; [done | lia] |].
  destruct (Z.ltb_spec (n - p) 2); cbn [orb]; [eexists _, _; split; [done | lia] |].
  destruct (memeq_in_range buf p CRLF) as [[] ->]; [lia | rewrite CRLF_len; lia | |];
    run; [| eexists _, _; split; [done | lia]].
  destruct (Z.ltb_spec (INT_MAX - (p + 2)) b); [eexists _, _; split; [done | lia] |].
  eexists _, _; split; [done |]. destruct Hh as [| Hh]; [done | done |].
  destruct (Z.ltb_spec n (b + (p + 2))); lia.
Qed.

(** The header of a frame. *)
Lemma fmt_head_len n : zlen (fmt_head n) = 1 + zlen (dec n) + 2.
Proof. unfold fmt_head. rewrite !zlen_app, CRLF_len, START_len. lia. Qed.

(** Framing of any buffer that starts with a well-formed header. *)
Lemma kvsp_parse_head body_len rest n h :
  0 <= body_len -> zlen (fmt_head body_len) + body_len <= INT_MAX ->
  zlen (fmt_head body_len) <= n -> n <= zlen (fmt_head body_len ++ rest) ->
  kvsp_parse_bulk_size (fmt_head body_len ++ rest) n h
  = Ok (if n <? body_len + zlen (fmt_head body_len) then 0 else body_len + zlen (fmt_head body_len),
        zlen (fmt_head body_len)).
Proof.
  intros Hb Hmax Hn Hlen. rewrite fmt_head_len in *.
  pose proof (dec_length_pos body_len). pose proof (zlen_nonneg rest).
  unfold kvsp_parse_bulk_size, KVSP_START_STR_LEN, KVSP_HEAD_TAIL_STR_LEN, KVSP_HEAD_TAIL_STR.
  destruct (Z.leb_spec n 0); [lia |]. destruct (Z.ltb_spec n 1); [lia |].
  unfold fmt_head. rewrite <- !app_assoc, memeq_0. run.
  rewrite (digits_loop_dec _ body_len _ 0 KVSP_START_STR CR (LF :: rest));
    [| done | rewrite START_len; lia | done | lia | unfold zlen in *; lia].
  replace (zlen KVSP_START_STR - 0) with 1 by done. run.
  destruct (Z.leb_spec n (1 + zlen (dec body_len))); [lia |].
  destruct (Z.ltb_spec (n - (1 + zlen (dec body_len))) 2); [lia |]. cbn [orb].
  replace (KVSP_START_STR ++ dec body_len ++ CRLF ++ rest)
    with ((KVSP_START_STR ++ dec body_len) ++ CRLF ++ rest) by (by rewrite <- app_assoc).
  replace (1 + zlen (dec body_len)) with (zlen (KVSP_START_STR ++ dec body_len))
    by (rewrite zlen_app; done).
  rewrite memeq_app. run. rewrite zlen_app.
  replace (zlen KVSP_START_STR) with 1 by done.
  destruct (Z.ltb_spec (INT_MAX - (1 + zlen (dec body_len) + 2)) body_len); [lia |]. done.
Qed.

(** Framing looks only at the bytes received: what the buffer holds behind
    [n] does not matter. *)
Lemma rd_local {A} (buf buf' : list A) n i :
  take (Z.to_nat n) buf = take (Z.to_nat n) buf' -> i < n -> rd buf i = rd buf' i.
Proof.
  intros Heq Hi. unfold rd. destruct (Z.ltb_spec i 0); [done |]. f_equal.
  rewrite <- (lookup_take_lt buf (Z.to_nat n)), Heq, lookup_take_lt by lia. done.
Qed.

Lemma rd_range_local {A} (buf buf' : list A) n i m :
  take (Z.to_nat n) buf = take (Z.to_nat n) buf' -> n <= zlen buf -> n <= zlen buf' ->
  i + m <= n -> rd_range buf i m = rd_range buf' i m.
Proof.
  intros Heq H1 H2 Hm. unfold rd_range.
  destruct (Z.leb_spec 0 i), (Z.leb_spec 0 m), (Z.leb_spec (i + m) (zlen buf)),
    (Z.leb_spec (i + m) (zlen buf')); run; try done; try lia.
  f_equal. apply (f_equal (drop (Z.to_nat i))) in Heq.
  rewrite !skipn_firstn_comm in Heq. apply (f_equal (take (Z.to_nat m))) in Heq.
  rewrite !take_take in Heq.
  replace (Z.to_nat m `min` (Z.to_nat n - Z.to_nat i))%nat with (Z.to_nat m) in Heq by lia. done.
Qed.

Lemma digits_loop_local fuel buf buf' n pos acc h :
  take (Z.to_nat n) buf = take (Z.to_nat n) buf' ->
  digits_loop fuel buf 0 pos n acc h = digits_loop fuel buf' 0 pos n acc h.
Proof.
  intros Heq. revert pos acc h. induction fuel as [| f IH]; intros pos acc h; [done |].
  cbn [digits_loop]. destruct (Z.ltb_spec pos n); [| done].
  rewrite (rd_local buf buf' n) by (done || lia). destruct (rd buf' (0 + pos)) as [c | |]; [| done..].
  run. destruct (is_digit c); [| done]. destruct (_ <? acc); [done | apply IH].
Qed.

Lemma kvsp_parse_local buf buf' n h :
  take (Z.to_nat n) buf = take (Z.to_nat n) buf' -> n <= zlen buf -> n <= zlen buf' ->
  kvsp_parse_bulk_size buf n h = kvsp_parse_bulk_size buf' n h.
Proof.
  intros Heq H1 H2.
  unfold kvsp_parse_bulk_size, memeq, KVSP_START_STR_LEN, KVSP_HEAD_TAIL_STR_LEN, KVSP_HEAD_TAIL_STR.
  destruct (Z.leb_spec n 0); [done |]. destruct (Z.ltb_spec n 1); [done |].
  rewrite (rd_range_local buf buf' n) by (done || rewrite ?START_len; lia).
  rewrite (digits_loop_local _ buf buf' n) by done.
  destruct (rd_range buf' 0 _); run; [| done..]. destruct (bool_decide _); run; [| done].
  destruct (digits_loop _ buf' _ _ _ _ _) as [[| p b h'] | |]; run; try done.
  destruct h'; run; [| done].
  destruct (Z.leb_spec n p); run; [done |]. destruct (Z.ltb_spec (n - p) 2); run; [done |].
  rewrite (rd_range_local buf buf' n) by (done || rewrite ?CRLF_len; lia). done.
Qed.

Lemma digits_loop_end fuel pre ds acc h :
  Forall (fun c => is_digit c = true) ds -> 0 <= acc -> dval acc ds <= INT_MAX ->
  (length ds <= fuel)%nat ->
  digits_loop fuel (pre ++ ds) 0 (zlen pre) (zlen pre + zlen ds) acc h
  = Ok (DigitsStop (zlen pre + zlen ds) (dval acc ds) (h || bool_decide (ds <> []))).
Proof.
  intros Hds. revert pre acc h fuel.
  induction Hds as [| d ds Hd Hds IH]; intros pre acc h fuel Ha Hv Hf.
  - zlen_simpl. unfold dval. cbn [fold_left]. rewrite orb_false_r, Z.add_0_r.
    destruct fuel; cbn [digits_loop]; [done |]. by rewrite Z.ltb_irrefl.
  - destruct fuel as [| f]; [cbn in Hf; lia |]. cbn [digits_loop]. zlen_simpl.
    pose proof (zlen_nonneg ds). destruct (Z.ltb_spec (zlen pre) (zlen pre + (1 + zlen ds))); [| lia].
    rewrite Z.add_0_l, rd_app_r, Z.sub_diag, rd_cons_0 by lia. run. rewrite Hd.
    pose proof Hd as Hr. apply digit_range in Hr.
    assert (Hstep : 10 * acc + (d - 48) <= dval acc (d :: ds)).
    { apply (dval_mono (10 * acc + (d - 48)) ds); [lia | done]. }
    destruct (Z.ltb_spec ((INT_MAX - (d - 48)) / 10) acc) as [Ho | Ho].
    { apply overflow_test in Ho; lia. }
    specialize (IH (pre ++ [d]) (10 * acc + (d - 48)) true f). zlen_simpl.
    rewrite <- app_assoc in IH. cbn [app] in IH.
    replace (zlen pre + (1 + 0)) with (zlen pre + 1) in IH by lia.
    replace (zlen pre + 1 + zlen ds) with (zlen pre + (1 + zlen ds)) in IH by lia.
    rewrite IH; [| lia | done | cbn in Hf; lia].
    rewrite orb_true_l, orb_true_r. done.
Qed.

(** A header cut short is reported as incomplete. *)
(** A header that is cut: inside the number, or behind the first byte of its
    end of line. *)
Lemma cut_head_shape body_len k :
  0 < k < zlen (fmt_head body_len) ->
  (exists ds1 ds2, dec body_len = ds1 ++ ds2 /\ take (Z.to_nat k) (fmt_head body_len) = KVSP_START_STR ++ ds1 /\ k = 1 + zlen ds1)
  \/ take (Z.to_nat k) (fmt_head body_len) = KVSP_START_STR ++ dec body_len ++ [CR] /\ k = 2 + zlen (dec body_len).
Proof.
  rewrite fmt_head_len. intros Hk. unfold fmt_head. destruct (Z.leb_spec k (1 + zlen (dec body_len))) as [Hle | Hgt].
  - left. exists (take (Z.to_nat (k - 1)) (dec body_len)), (drop (Z.to_nat (k - 1)) (dec body_len)).
    split; [by rewrite take_drop |]. unfold zlen in *. rewrite length_take. split; [| lia].
    replace (Z.to_nat k) with (S (Z.to_nat (k - 1))) by lia. cbn. rewrite take_app_le by lia. done.
  - right. split; [| lia]. replace k with (zlen (KVSP_START_STR ++ dec body_len ++ [CR]))
      by (rewrite !zlen_app, START_len; zlen_simpl; lia).
    replace (KVSP_START_STR ++ dec body_len ++ CRLF) with ((KVSP_START_STR ++ dec body_len ++ [CR]) ++ [LF])
      by (by rewrite <- !app_assoc).
    unfold zlen. by rewrite Nat2Z.id, take_app_length.
Qed.

(** The beginning of a number is not greater. *)
Lemma dval_prefix n ds1 ds2 : 0 <= n -> dec n = ds1 ++ ds2 ->
  Forall (fun c => is_digit c = true) ds1 /\ 0 <= dval 0 ds1 <= n.
Proof.
  intros Hn Hd. pose proof (dec_digits n Hn) as Hds. pose proof (dec_dval n Hn) as Hdv. rewrite Hd in Hds, Hdv.
  apply Forall_app in Hds as [Hd1 Hd2]. rewrite dval_app in Hdv.
  assert (0 <= dval 0 ds1) by (by apply dval_mono). split; [done |]. split; [done |]. rewrite <- Hdv. by apply dval_mono.
Qed.

Lemma kvsp_parse_cut_head body_len k h :
  0 <= body_len <= INT_MAX -> 0 < k < zlen (fmt_head body_len) ->
  kvsp_parse_bulk_size (take (Z.to_nat k) (fmt_head body_len)) k h = Ok (0, h).
Proof.
  intros Hb Hk. pose proof (cut_head_shape body_len k Hk) as Hshape. rewrite fmt_head_len in Hk.
  unfold kvsp_parse_bulk_size, KVSP_START_STR_LEN, KVSP_HEAD_TAIL_STR_LEN.
  destruct (Z.leb_spec k 0); [lia |]. destruct (Z.ltb_spec k 1); [lia |].
  destruct Hshape as [(ds1 & ds2 & Hds & -> & Hkl) | [-> Hkl]]; rewrite memeq_0; run.
  - destruct (dval_prefix body_len ds1 ds2 ltac:(lia) Hds) as [Hd1 Hv].
    replace k with (zlen KVSP_START_STR + zlen ds1) by (rewrite START_len; lia).
    replace 1 with (zlen KVSP_START_STR) at 2 by done.
    rewrite digits_loop_end by (done || unfold zlen in *; lia). run.
    rewrite Z.leb_refl. by destruct (bool_decide _).
  - pose proof (dec_length_pos body_len).
    rewrite (digits_loop_dec _ body_len _ 0 KVSP_START_STR CR []);
      [| done | rewrite START_len; lia | done | lia | unfold zlen in *; lia].
    run. rewrite START_len.
    destruct (Z.leb_spec k (1 - 0 + zlen (dec body_len))); [lia |].
    destruct (Z.ltb_spec (k - (1 - 0 + zlen (dec body_len))) 2); [done | lia].
Qed.

(** A number that is not followed by the end of the header line. *)
Lemma kvsp_parse_no_tail ds c rest h :
  let buf := KVSP_START_STR ++ ds ++ c :: rest in
  Forall (fun c => is_digit c = true) ds -> dval 0 ds <= INT_MAX -> is_digit c = false -> take 2 (c :: rest) <> CRLF ->
  exists r, kvsp_parse_bulk_size buf (zlen buf) h = Ok (r, h) /\ r <= 0.
Proof.
  intros buf Hds Hv Hc Hno. assert (Hl : zlen buf = 1 + zlen ds + 1 + zlen rest).
  { unfold buf. rewrite !zlen_app, START_len, zlen_cons. lia. }
  pose proof (zlen_nonneg ds). pose proof (zlen_nonneg rest).
  unfold kvsp_parse_bulk_size, KVSP_START_STR_LEN, KVSP_HEAD_TAIL_STR_LEN.
  rewrite (proj2 (Z.leb_gt (zlen buf) 0)), (proj2 (Z.ltb_ge (zlen buf) 1)) by lia.
  assert (Hs : memeq buf 0 KVSP_START_STR = Ok true) by apply memeq_0. rewrite Hs. run.
  pose proof (digits_loop_run (Z.to_nat (zlen buf)) ds buf 0 KVSP_START_STR c rest (zlen buf) 0 false eq_refl) as Hd.
  rewrite START_len, Z.sub_0_r in Hd. rewrite Hd by (done || unfold zlen in *; lia). run. cbn [orb].
  destruct (bool_decide (ds <> [])); cbn [negb].
  - rewrite (proj2 (Z.leb_gt (zlen buf) (1 + zlen ds))) by lia. cbn [orb].
    destruct (Z.ltb_spec (zlen buf - (1 + zlen ds)) 2); [by exists 0 |].
    assert (Hm : memeq buf (1 + zlen ds) KVSP_HEAD_TAIL_STR = Ok false).
    { destruct rest as [| c2 rest]; [rewrite zlen_nil in *; lia |].
      unfold memeq, buf. replace (KVSP_START_STR ++ ds ++ c :: c2 :: rest) with ((KVSP_START_STR ++ ds) ++ [c; c2] ++ rest)
        by (by rewrite <- app_assoc).
      replace (1 + zlen ds) with (zlen (KVSP_START_STR ++ ds)) by (rewrite zlen_app, START_len; lia).
      change (zlen KVSP_HEAD_TAIL_STR) with (zlen [c; c2]). rewrite rd_range_app_mid. run. by rewrite bool_decide_false. }
    rewrite Hm. run. by exists (-2).
  - rewrite (proj2 (Z.leb_gt (zlen buf) (1 + zlen ds))) by lia. by exists (-2).
Qed.

(** The next frame behind a header that is cut. *)
Lemma kvsp_parse_broken_head body_len k rest h :
  0 <= body_len <= INT_MAX -> 0 < k < zlen (fmt_head body_len) ->
  let buf := take (Z.to_nat k) (fmt_head body_len) ++ KVSP_START_STR ++ rest in
  exists r, kvsp_parse_bulk_size buf (zlen buf) h = Ok (r, h) /\ r <= 0.
Proof.
  intros Hb Hk. cbv zeta. destruct (cut_head_shape body_len k Hk) as [(ds1 & ds2 & Hds & -> & _) | [-> _]]; rewrite <- !app_assoc.
  - destruct (dval_prefix body_len ds1 ds2 ltac:(lia) Hds) as [Hd1 Hv].
    apply (kvsp_parse_no_tail ds1 35 rest); [done | lia | done |]. by destruct rest.
  - destruct (dval_prefix body_len (dec body_len) [] ltac:(lia)) as [Hd1 Hv]; [by rewrite app_nil_r |].
    apply (kvsp_parse_no_tail (dec body_len) CR (KVSP_START_STR ++ rest)); [done | lia | done | done].
Qed.

(** ** Tokenizing a well-formed body *)

(** What the tokenizer leaves of the token [s]: the ['^'] of every token but
    the first becomes a NUL. *)
Definition tok_image (first : bool) (s : list Z) : list Z :=
  [if first then KVSP_TOK_LEN_START_CHAR else 0] ++ dec (zlen s) ++ [KVSP_TOK_START_CHAR] ++ s.

Fixpoint body_image (first : bool) (argv : list (list Z)) : list Z :=
  match argv with
  | [] => []
  | s :: rest => tok_image first s ++ body_image false rest
  end.

Fixpoint tok_offsets (base : Z) (argv : list (list Z)) : list Z :=
  match argv with
  | [] => []
  | s :: rest =>
      (base + 2 + zlen (dec (zlen s))) :: tok_offsets (base + zlen (fmt_token s)) rest
  end.

Lemma fmt_token_len s : zlen (fmt_token s) = 2 + zlen (dec (zlen s)) + zlen s.
Proof. unfold fmt_token. zlen_simpl. lia. Qed.

Lemma tok_image_len b s : zlen (tok_image b s) = zlen (fmt_token s).
Proof. unfold tok_image, fmt_token. by zlen_simpl. Qed.

Lemma tok_offsets_len base argv : length (tok_offsets base argv) = length argv.
Proof. revert base. induction argv as [| s argv IH]; intros base; cbn; [done |]. by rewrite IH. Qed.

Lemma flat_tokens_len (argv : list (list Z)) : 3 * zlen argv <= zlen (argv ≫= fmt_token).
Proof.
  induction argv as [| s argv IH]; [done |].
  change ((s :: argv) ≫= fmt_token) with (fmt_token s ++ (argv ≫= fmt_token)).
  rewrite zlen_app, zlen_cons, fmt_token_len.
  pose proof (dec_length_pos (zlen s)). pose proof (zlen_nonneg s). lia.
Qed.

(** One round of the tokenizer. *)
Lemma split_kvsp_step fuel pre s rest base parse_end toks :
  zlen pre + zlen (fmt_token s) <= base + parse_end -> 0 <= base -> 
  zlen s <= INT_MAX -> zlen toks < KVS_MAX_TOKENS -> base <= zlen pre ->
  split_kvsp (S fuel) (pre ++ fmt_token s ++ rest) base parse_end (zlen pre - base) toks
  = split_kvsp fuel (pre ++ tok_image (negb (0 <? zlen toks)) s ++ rest) base parse_end
      (zlen pre - base + zlen (fmt_token s)) (toks ++ [zlen pre + 2 + zlen (dec (zlen s))]).
Proof.
  intros Hend Hbase Hs Htok Hpre.
  pose proof (fmt_token_len s) as Hlen. pose proof (dec_length_pos (zlen s)).
  pose proof (zlen_nonneg s). cbn [split_kvsp].
  destruct (Z.ltb_spec (zlen pre - base) parse_end); [| lia].
  replace (base + (zlen pre - base)) with (zlen pre) by lia.
  assert (Hc : rd (pre ++ fmt_token s ++ rest) (zlen pre) = Ok KVSP_TOK_LEN_START_CHAR)
    by (rewrite rd_app_r, Z.sub_diag by lia; done).
  rewrite Hc. run. rewrite Z.eqb_refl. run.
  assert (Hw : (if 0 <? zlen toks
                then wr (pre ++ fmt_token s ++ rest) (zlen pre) 0
                else Ok (pre ++ fmt_token s ++ rest))
               = Ok (pre ++ tok_image (negb (0 <? zlen toks)) s ++ rest)).
  { destruct (0 <? zlen toks); [| done]. unfold fmt_token. cbn [app]. by rewrite wr_app_mid. }
  rewrite Hw. run. set (c := if negb (0 <? zlen toks) then KVSP_TOK_LEN_START_CHAR else 0).
  replace (zlen pre - base + 1) with (zlen (pre ++ [c]) - base) by (zlen_simpl; lia).
  rewrite (digits_loop_dec _ (zlen s) _ base (pre ++ [c]) KVSP_TOK_START_CHAR (s ++ rest));
    [| unfold tok_image; fold c; by rewrite <- !app_assoc
     | zlen_simpl; lia | done | lia | unfold zlen in *; lia].
  run. zlen_simpl.
  set (p := zlen pre + (1 + 0) - base + zlen (dec (zlen s))).
  destruct (Z.leb_spec parse_end p); [unfold p in *; lia |].
  replace (pre ++ tok_image (negb (0 <? zlen toks)) s ++ rest)
    with ((pre ++ [c] ++ dec (zlen s)) ++ KVSP_TOK_START_CHAR :: s ++ rest) at 1
    by (unfold tok_image; fold c; rewrite <- !app_assoc; done).
  replace (base + p) with (zlen (pre ++ [c] ++ dec (zlen s))) by (unfold p; zlen_simpl; lia).
  rewrite rd_at. run. rewrite Z.eqb_refl. run.
  destruct (Z.ltb_spec (parse_end - (p + 1)) (zlen s)); [unfold p in *; lia |].
  destruct (Z.leb_spec KVS_MAX_TOKENS (zlen toks)); [lia |].
  f_equal; [unfold p; lia |]. do 2 f_equal. unfold p. lia.
Qed.

Lemma split_kvsp_run fuel argv pre rest base toks :
  0 <= base -> base <= zlen pre ->
  zlen (argv ≫= fmt_token) <= INT_MAX -> zlen toks + zlen argv <= KVS_MAX_TOKENS ->
  (length argv < fuel)%nat ->
  split_kvsp fuel (pre ++ (argv ≫= fmt_token) ++ CRLF ++ rest) base
    (zlen pre - base + zlen (argv ≫= fmt_token)) (zlen pre - base) toks
  = Ok (zlen toks + zlen argv,
        pre ++ body_image (negb (0 <? zlen toks)) argv ++ 0 :: LF :: rest,
        toks ++ tok_offsets (zlen pre) argv).
Proof.
  intros Hb. revert fuel pre toks. induction argv as [| s argv IH]; intros fuel pre toks Hp Hi Ht Hf;
    (destruct fuel as [| f]; [cbn in Hf; lia |]).
  - cbn [mbind list_bind app body_image tok_offsets]. zlen_simpl. cbn [split_kvsp].
    rewrite Z.add_0_r, Z.ltb_irrefl, Z.eqb_refl. run.
    replace (base + (zlen pre - base)) with (zlen pre) by lia.
    change (CRLF ++ rest) with (CR :: LF :: rest). rewrite wr_app_mid. run.
    rewrite app_nil_r, Z.add_0_r. done.
  - change ((s :: argv) ≫= fmt_token) with (fmt_token s ++ (argv ≫= fmt_token)) in *.
    rewrite zlen_app, zlen_cons in *. rewrite <- app_assoc.
    pose proof (zlen_nonneg (argv ≫= fmt_token)). pose proof (zlen_nonneg argv).
    pose proof (fmt_token_len s). pose proof (dec_length_pos (zlen s)). pose proof (zlen_nonneg toks).
    pose proof (zlen_nonneg s).
    rewrite split_kvsp_step by lia.
    specialize (IH f (pre ++ tok_image (negb (0 <? zlen toks)) s)
      (toks ++ [zlen pre + 2 + zlen (dec (zlen s))])).
    rewrite <- app_assoc in IH. rewrite !zlen_app, tok_image_len, zlen_cons, zlen_nil in IH.
    replace (zlen pre + zlen (fmt_token s) - base + zlen (argv ≫= fmt_token))
      with (zlen pre - base + (zlen (fmt_token s) + zlen (argv ≫= fmt_token))) in IH by lia.
    replace (zlen pre + zlen (fmt_token s) - base)
      with (zlen pre - base + zlen (fmt_token s)) in IH by lia.
    rewrite IH; [| lia | lia | lia | cbn in Hf; lia].
    destruct (Z.ltb_spec 0 (zlen toks + (1 + 0))); [| lia]. cbn [body_image tok_offsets negb].
    rewrite <- !app_assoc. cbn [app]. replace (zlen toks + (1 + 0) + zlen argv) with (zlen toks + (1 + zlen argv)) by lia.
    done.
Qed.

(** Every token offset of the rewritten body holds the token as a C string. *)
Lemma body_image_tokens pre first argv rest :
  Forall nul_free argv ->
  mapM (rd_cstr (pre ++ body_image first argv ++ 0 :: rest)) (tok_offsets (zlen pre) argv) = Ok argv.
Proof.
  intros Hnf. revert pre first. induction Hnf as [| s argv Hs Hnf IH]; intros pre first; [done |].
  cbn [body_image tok_offsets mapM]. set (img := tok_image first s).
  assert (Htail : exists rest', body_image false argv ++ 0 :: rest = 0 :: rest').
  { destruct argv; cbn; eauto. }
  assert (Hrd : rd_cstr (pre ++ (img ++ body_image false argv) ++ 0 :: rest)
                  (zlen pre + 2 + zlen (dec (zlen s))) = Ok s).
  { destruct Htail as [rest' Hr]. rewrite <- app_assoc, Hr. unfold img, tok_image.
    set (c := if first then _ else _).
    replace (pre ++ ([c] ++ dec (zlen s) ++ [KVSP_TOK_START_CHAR] ++ s) ++ 0 :: rest')
      with ((pre ++ [c] ++ dec (zlen s) ++ [KVSP_TOK_START_CHAR]) ++ s ++ 0 :: rest')
      by (rewrite <- !app_assoc; done).
    replace (zlen pre + 2 + zlen (dec (zlen s)))
      with (zlen (pre ++ [c] ++ dec (zlen s) ++ [KVSP_TOK_START_CHAR])) by (zlen_simpl; lia).
    by apply rd_cstr_app. }
  rewrite Hrd. run. specialize (IH (pre ++ img) false).
  unfold img in *. rewrite zlen_app, tok_image_len in IH.
  rewrite <- app_assoc in IH. rewrite <- app_assoc, IH. done.
Qed.

(** ** Tokenizing arbitrary bytes *)

(** [buf'] has the size of [buf] and differs from it only inside [lo, hi). *)
Definition same_outside (lo hi : Z) (buf buf' : list Z) : Prop :=
  zlen buf' = zlen buf /\ forall i, i < lo \/ hi <= i -> rd buf' i = rd buf i.

Lemma same_outside_refl lo hi buf : same_outside lo hi buf buf.
Proof. by split. Qed.

Lemma same_outside_trans lo hi b1 b2 b3 :
  same_outside lo hi b1 b2 -> same_outside lo hi b2 b3 -> same_outside lo hi b1 b3.
Proof. intros [L1 R1] [L2 R2]. split; [congruence |]. intros i Hi. rewrite R2, R1; done. Qed.

Lemma wr_same_outside lo hi buf i x buf' :
  wr buf i x = Ok buf' -> lo <= i < hi -> same_outside lo hi buf buf'.
Proof.
  intros Hw Hi. split; [by eapply wr_length |]. intros j Hj. unfold wr in Hw.
  destruct ((0 <=? i) && (i <? zlen buf)) eqn:Hr; [| done]. injection Hw as <-.
  unfold rd. destruct (Z.ltb_spec j 0); [done |].
  apply andb_true_iff in Hr as [H0 H1]. rewrite list_lookup_insert_ne; [done | lia].
Qed.

Lemma wr_rd_eq {A} (buf buf' : list A) i x : wr buf i x = Ok buf' -> rd buf' i = Ok x.
Proof.
  unfold wr. destruct ((0 <=? i) && (i <? zlen buf)) eqn:Hr; [| done]. intros [= <-].
  apply andb_true_iff in Hr as [H0%Z.leb_le H1%Z.ltb_lt]. apply rd_spec. split; [done |].
  apply list_lookup_insert_eq. unfold zlen in H1. lia.
Qed.

Definition split_ok (base parse_end : Z) (buf : list Z) (out : split_result) : Prop :=
  let '(r, buf', toks) := out in
  same_outside base (base + parse_end + 1) buf buf' /\ zlen toks <= KVS_MAX_TOKENS /\
  Forall (fun t => base <= t <= base + parse_end) toks /\
  (r = -2 \/ r = zlen toks /\ rd buf' (base + parse_end) = Ok 0).

Lemma split_kvsp_safe fuel buf base parse_end pos toks :
  0 <= base -> 0 <= pos <= parse_end -> base + parse_end < zlen buf ->
  (Z.to_nat (parse_end - pos) < fuel)%nat ->
  Forall (fun t => base <= t <= base + parse_end) toks -> zlen toks <= KVS_MAX_TOKENS ->
  exists out, split_kvsp fuel buf base parse_end pos toks = Ok out /\
    split_ok base parse_end buf out.
Proof.
  intros Hb. revert buf pos toks. induction fuel as [| f IH]; intros buf pos toks Hp Hl Hf Ht Hc; [lia |].
  assert (Hfail : forall buf', same_outside base (base + parse_end + 1) buf buf' ->
    split_ok base parse_end buf (-2, buf', toks)).
  { intros buf' Hs. repeat split; auto; apply Hs. }
  cbn [split_kvsp]. destruct (Z.ltb_spec pos parse_end) as [Hlt | Hge].
  - destruct (rd_in_range buf (base + pos)) as [c Hrd]; [lia |]. rewrite Hrd. run.
    destruct (c =? KVSP_TOK_LEN_START_CHAR); run; [| eauto using same_outside_refl].
    assert (Hw : exists buf1, (if 0 <? zlen toks then wr buf (base + pos) 0 else Ok buf) = Ok buf1
      /\ same_outside base (base + parse_end + 1) buf buf1).
    { destruct (0 <? zlen toks); [| eauto using same_outside_refl].
      rewrite wr_in_range by lia. eexists; split; [done |].
      eapply wr_same_outside; [by apply wr_in_range; lia | lia]. }
    destruct Hw as (buf1 & -> & Hs1). run. pose proof (proj1 Hs1) as Hl1.
    destruct (digits_loop_safe (Z.to_nat parse_end) buf1 base (pos + 1) parse_end 0 false)
      as [-> | (p & n & h & -> & Hpr & Hn & _ & Hst)]; try (unfold INT_MAX; lia); run; [eauto |].
    destruct h; run; [| eauto]. destruct (Z.leb_spec parse_end p); [eauto |].
    destruct Hst as (c' & -> & _); [lia |]. run.
    destruct (c' =? KVSP_TOK_START_CHAR); run; [| eauto].
    destruct (Z.ltb_spec (parse_end - (p + 1)) n); [eauto |].
    destruct (Z.leb_spec KVS_MAX_TOKENS (zlen toks)); [eauto |].
    destruct (IH buf1 (p + 1 + n) (toks ++ [base + (p + 1)])) as ([[r b] t] & -> & Hs2 & Hrest);
      [lia | lia | lia | | zlen_simpl; lia |].
    { apply Forall_app. split; [done |]. constructor; [lia | done]. }
    eexists; split; [done |]. split; [by eapply same_outside_trans | done].
  - destruct (Z.eqb_spec pos parse_end); run; [| eauto using same_outside_refl].
    rewrite wr_in_range by lia. run. eexists; split; [done |].
    assert (Hw : wr buf (base + parse_end) 0 = Ok (<[Z.to_nat (base + parse_end) := 0]> buf))
      by (apply wr_in_range; lia).
    split; [eapply wr_same_outside; [exact Hw | lia] |].
    split_and!; auto. right. split; [done |]. by eapply wr_rd_eq.
Qed.

(** A NUL at or behind [i] inside the buffer makes a C string start at [i]. *)
Lemma rd_cstr_defined buf i j :
  0 <= i <= j -> rd buf j = Ok 0 -> exists s, rd_cstr buf i = Ok s.
Proof.
  intros Hi Hj. apply rd_spec in Hj as [_ Hj]. unfold rd_cstr.
  pose proof (lookup_lt_Some _ _ _ Hj) as Hlt.
  assert (Hlen : i <= zlen buf) by (unfold zlen; lia).
  destruct (Z.leb_spec 0 i), (Z.leb_spec i (zlen buf)); run; try lia.
  assert (Hk : drop (Z.to_nat i) buf !! Z.to_nat (j - i) = Some 0).
  { rewrite lookup_drop. by replace (Z.to_nat i + Z.to_nat (j - i))%nat with (Z.to_nat j) by lia. }
  revert Hk. generalize (drop (Z.to_nat i) buf) (Z.to_nat (j - i)). clear.
  intros l. induction l as [| c l IH]; intros [| k] Hk; try done; cbn in *.
  - injection Hk as ->. cbn. eauto.
  - destruct (c =? 0); [eauto |]. destruct (IH k Hk) as [s ->]. cbn. eauto.
Qed.

(** ** Building frames *)

Lemma wr_range_app (pre old src : list Z) :
  zlen src <= zlen old ->
  wr_range (pre ++ old) (zlen pre) src = Ok (pre ++ src ++ drop (length src) old).
Proof.
  intros Hs. unfold wr_range. rewrite zlen_app. pose proof (zlen_nonneg pre).
  destruct (Z.leb_spec 0 (zlen pre)), (Z.leb_spec (zlen pre + zlen src) (zlen pre + zlen old));
    run; try lia.
  unfold zlen. rewrite Nat2Z.id, take_app_length. do 3 f_equal.
  rewrite drop_app_ge by lia. f_equal. lia.
Qed.

Lemma frame_body_len_run (argv : list (list Z)) acc :
  0 <= acc -> acc + zlen (argv ≫= fmt_token) <= INT_MAX ->
  frame_body_len (Some <$> argv) acc = Ok (Some (acc + zlen (argv ≫= fmt_token))).
Proof.
  revert acc. induction argv as [| s argv IH]; intros acc Ha Hm; cbn [fmap list_fmap frame_body_len].
  - change (@nil (list Z) ≫= fmt_token) with (@nil Z). zlen_simpl. by rewrite Z.add_0_r.
  - change ((s :: argv) ≫= fmt_token) with (fmt_token s ++ (argv ≫= fmt_token)) in *.
    rewrite zlen_app in *. pose proof (zlen_nonneg (fmt_token s)).
    pose proof (zlen_nonneg (argv ≫= fmt_token)).
    unfold snprintf_ret. destruct (Z.leb_spec (zlen (fmt_token s)) INT_MAX); [| lia].
    destruct (Z.ltb_spec (zlen (fmt_token s)) 0); [lia |].
    destruct (Z.ltb_spec INT_MAX (acc + zlen (fmt_token s))); [lia |].
    rewrite IH by lia. do 2 f_equal. lia.
Qed.

Lemma frame_write_run (argv : list (list Z)) pre old :
  zlen (argv ≫= fmt_token) < zlen old ->
  exists old', frame_write (Some <$> argv) (pre ++ old) (zlen pre)
    = Ok (pre ++ (argv ≫= fmt_token) ++ old', zlen pre + zlen (argv ≫= fmt_token))
    /\ zlen old' = zlen old - zlen (argv ≫= fmt_token).
Proof.
  revert pre old. induction argv as [| s argv IH]; intros pre old Hl; cbn [fmap list_fmap frame_write].
  - exists old. change (@nil (list Z) ≫= fmt_token) with (@nil Z). zlen_simpl.
    by rewrite Z.add_0_r, Z.sub_0_r.
  - change ((s :: argv) ≫= fmt_token) with (fmt_token s ++ (argv ≫= fmt_token)) in *.
    rewrite zlen_app in *. pose proof (zlen_nonneg (argv ≫= fmt_token)).
    rewrite wr_range_app by (zlen_simpl; lia). run.
    specialize (IH (pre ++ fmt_token s) ([0] ++ drop (length (fmt_token s ++ [0])) old)).
    rewrite <- !app_assoc in IH. rewrite !zlen_app in IH. rewrite <- app_assoc.
    assert (Hd : zlen ([0] ++ drop (length (fmt_token s ++ [0])) old) = zlen old - zlen (fmt_token s)).
    { unfold zlen in *. rewrite length_app, length_drop, length_app. cbn [length]. lia. }
    rewrite zlen_app in Hd. destruct IH as (old' & -> & Ho); [lia |]. exists old'. split; [| lia].
    rewrite <- !app_assoc. do 2 f_equal. lia.
Qed.

Lemma kvsp_frame_len argv :
  zlen (kvsp_frame argv)
  = zlen (fmt_head (zlen (kvsp_body argv))) + (zlen (argv ≫= fmt_token) + 2).
Proof. unfold kvsp_frame, kvsp_body. by rewrite !zlen_app. Qed.

Lemma kvsp_frame_pos argv : 0 < zlen (kvsp_frame argv).
Proof.
  rewrite kvsp_frame_len. pose proof (zlen_nonneg (argv ≫= fmt_token)).
  pose proof (zlen_nonneg (fmt_head (zlen (kvsp_body argv)))). lia.
Qed.

Section Builder.
Context {A : Type} `{Allocator A}.

Lemma build_frame_run (argv : list (list Z)) (a : A) :
  argv <> [] -> zlen (kvsp_frame argv) < INT_MAX ->
  match kvs_malloc (zlen (kvsp_frame argv) + 1) a with
  | (Some p, a') => exists buf, kvs_build_kvsp_frame (Some <$> argv) a
      = Ok (Some (Block p buf, zlen (kvsp_frame argv)), a')
      /\ take (length (kvsp_frame argv)) buf = kvsp_frame argv
      /\ zlen buf = zlen (kvsp_frame argv) + 1
  | (None, a') => kvs_build_kvsp_frame (Some <$> argv) a = Ok (None, a')
  end.
Proof.
  intros Hne Hmax. pose proof (kvsp_frame_len argv) as Hlen.
  unfold kvs_build_kvsp_frame, KVSP_END_STR_LEN.
  assert (Hbl : zlen (kvsp_body argv) = zlen (argv ≫= fmt_token) + 2)
    by (unfold kvsp_body; by rewrite zlen_app).
  pose proof (zlen_nonneg (argv ≫= fmt_token)).
  pose proof (zlen_nonneg (fmt_head (zlen (kvsp_body argv)))).
  destruct (Z.leb_spec (zlen (Some <$> argv)) 0) as [Hz | _].
  { destruct argv; [done |]. rewrite fmap_cons, zlen_cons in Hz.
    pose proof (zlen_nonneg (Some <$> argv)). lia. }
  rewrite frame_body_len_run by lia. run. rewrite Z.add_0_l, <- Hbl.
  destruct (Z.ltb_spec INT_MAX (zlen (kvsp_body argv))); [lia |].
  destruct (Z.ltb_spec INT_MAX (zlen (fmt_head (zlen (kvsp_body argv))) + zlen (kvsp_body argv) + 1));
    [lia |].
  replace (zlen (fmt_head (zlen (kvsp_body argv))) + zlen (kvsp_body argv))
    with (zlen (kvsp_frame argv)) by lia.
  destruct (kvs_malloc _ a) as [[p |] a']; [| done].
  set (old := replicate (Z.to_nat (zlen (kvsp_frame argv) + 1)) 0).
  assert (Hold : zlen old = zlen (kvsp_frame argv) + 1).
  { unfold old, zlen. rewrite length_replicate. lia. }
  rewrite (wr_range_app [] old) by (zlen_simpl; lia). run. cbn [app].
  set (head := fmt_head (zlen (kvsp_body argv))) in *. rewrite <- app_assoc.
  destruct (frame_write_run argv head ([0] ++ drop (length (head ++ [0])) old)) as (old' & -> & Ho).
  { unfold zlen in *. rewrite length_app, length_drop, length_app. cbn [length]. lia. }
  assert (Hol : zlen old' = 3).
  { unfold zlen in *. rewrite length_app, length_drop, length_app in Ho. cbn [length] in Ho. lia. }
  run. rewrite app_assoc, <- zlen_app, wr_range_app by (rewrite Hol; done). run.
  rewrite zlen_app. destruct (Z.eqb_spec (zlen head + zlen (argv ≫= fmt_token) + 2) (zlen (kvsp_frame argv)));
    [| lia].
  run. assert (Hfr : kvsp_frame argv = (head ++ (argv ≫= fmt_token)) ++ KVSP_END_STR).
  { unfold kvsp_frame, kvsp_body. by rewrite app_assoc. }
  eexists. split; [done |]. rewrite app_assoc, <- Hfr, take_app_length.
  split; [done |]. rewrite zlen_app. unfold zlen in *. rewrite length_drop. cbn [length KVSP_END_STR CRLF]. lia.
Qed.

End Builder.

(** ** Properties *)

Lemma kvsp_parse_frame argv rest n h :
  zlen (kvsp_frame argv) <= INT_MAX -> zlen (kvsp_frame argv) <= n ->
  n <= zlen (kvsp_frame argv ++ rest) ->
  kvsp_parse_bulk_size (kvsp_frame argv ++ rest) n h
  = Ok (zlen (kvsp_frame argv), zlen (fmt_head (zlen (kvsp_body argv)))).
Proof.
  intros Hm Hn Hl. unfold kvsp_frame in *. rewrite zlen_app in Hm, Hn. rewrite <- app_assoc in *.
  pose proof (zlen_nonneg (kvsp_body argv)).
  rewrite kvsp_parse_head; [| lia | lia | lia | done].
  destruct (Z.ltb_spec n (zlen (kvsp_body argv) + zlen (fmt_head (zlen (kvsp_body argv))))); [lia |].
  rewrite zlen_app. do 2 f_equal. lia.
Qed.

(** The tokenizer on a receive buffer that starts with a frame. *)
Lemma kvsp_split_frame argv rest cli :
  Forall nul_free argv -> zlen argv <= KVS_MAX_TOKENS ->
  rbuf cli = kvsp_frame argv ++ rest -> protocol cli = PROTO_KVSP ->
  zlen (kvsp_frame argv) <= INT_MAX ->
  cmd_tl cli = zlen (kvsp_frame argv) -> cmd_hl cli = zlen (fmt_head (zlen (kvsp_body argv))) ->
  exists b toks, kvs_split_token cli = Ok (zlen argv, set_rbuf b cli, toks) /\
    mapM (rd_cstr b) toks = Ok argv /\ same_outside (cmd_hl cli) (cmd_tl cli) (rbuf cli) b.
Proof.
  intros Hnf Hc Hr Hp Hm Htl Hhl. rewrite Htl.
  set (H := fmt_head (zlen (kvsp_body argv))) in *.
  assert (Hfl : zlen (kvsp_frame argv) = zlen H + (zlen (argv ≫= fmt_token) + 2)) by apply kvsp_frame_len.
  pose proof (flat_tokens_len argv). pose proof (zlen_nonneg argv). pose proof (zlen_nonneg H).
  unfold kvs_split_token, KVSP_END_STR_LEN. rewrite Hp, Hr, Htl, Hhl.
  destruct (Z.ltb_spec (zlen (kvsp_frame argv) - zlen H) 2); [lia |].
  replace (zlen (kvsp_frame argv) - zlen H - 2) with (zlen (argv ≫= fmt_token)) by lia.
  assert (Hsplit : kvsp_frame argv ++ rest = (H ++ (argv ≫= fmt_token)) ++ CRLF ++ rest)
    by (unfold kvsp_frame, kvsp_body; rewrite <- !app_assoc; done).
  rewrite Hsplit, <- zlen_app, memeq_app. run. rewrite <- app_assoc.
  pose proof (split_kvsp_run (S (Z.to_nat (zlen (argv ≫= fmt_token)))) argv H rest (zlen H) []) as Hs.
  rewrite Z.sub_diag, (Z.add_0_l (zlen (argv ≫= fmt_token))) in Hs. rewrite Hs; [| lia | lia | lia | done | unfold zlen in *; lia].
  run. eexists _, _. split; [done |].
  split; [by apply body_image_tokens |].
  destruct (split_kvsp_safe (S (Z.to_nat (zlen (argv ≫= fmt_token))))
    (H ++ (argv ≫= fmt_token) ++ CRLF ++ rest) (zlen H) (zlen (argv ≫= fmt_token)) 0 [])
    as ([[r b] t] & He & Hso & _); [lia | pose proof (zlen_nonneg (argv ≫= fmt_token)); lia
      | rewrite !zlen_app, CRLF_len; pose proof (zlen_nonneg rest); lia | lia | done | done |].
  rewrite Hs in He; [| lia | lia | lia | done | unfold zlen in *; lia]. injection He as <- <- <-.
  destruct Hso as [L R]. split; [done |]. intros i Hi. apply R. lia.
Qed.

(** C23: a KVSP frame of at most [KVS_MAX_TOKENS] NUL-free tokens, followed by
    arbitrary further bytes, is framed with its exact length, and the tokenizer
    applied to it yields exactly the tokens, each readable as a C string, and
    leaves every byte outside the body of the request as it was. *)
Theorem kvsp_roundtrip argv rest cli n h :
  Forall nul_free argv -> zlen argv <= KVS_MAX_TOKENS ->
  rbuf cli = kvsp_frame argv ++ rest -> protocol cli = PROTO_KVSP ->
  zlen (kvsp_frame argv) <= INT_MAX -> zlen (kvsp_frame argv) <= n <= zlen (rbuf cli) ->
  exists hl cli' toks,
    kvsp_parse_bulk_size (rbuf cli) n h = Ok (zlen (kvsp_frame argv), hl) /\
    kvs_split_token (set_cmd (zlen (kvsp_frame argv)) hl cli) = Ok (zlen argv, cli', toks) /\
    mapM (rd_cstr (rbuf cli')) toks = Ok argv /\
    same_outside hl (zlen (kvsp_frame argv)) (rbuf cli) (rbuf cli').
Proof.
  intros Hnf Hc Hr Hp Hm Hn. rewrite Hr in Hn |- *.
  rewrite kvsp_parse_frame by (done || lia). set (hl := zlen (fmt_head _)).
  destruct (kvsp_split_frame argv rest (set_cmd (zlen (kvsp_frame argv)) hl cli)) as (b & toks & Hs & Hm' & Hso);
    [done.. |].
  exists hl, (set_rbuf b (set_cmd (zlen (kvsp_frame argv)) hl cli)), toks. rewrite <- Hr. done.
Qed.

Lemma kvsp_roundtrip_witness :
  let argv := [BS "SET"; BS "key"; BS "value"] in
  let cli := ClientInfo 3 0 (kvsp_frame argv ++ BS "#9") 29 29 0 0 0 [] 0 0 0 PROTO_KVSP None in
  exists hl cli' toks,
    kvsp_parse_bulk_size (rbuf cli) 29 0 = Ok (27, hl) /\
    kvs_split_token (set_cmd 27 hl cli) = Ok (3, cli', toks) /\
    mapM (rd_cstr (rbuf cli')) toks = Ok argv /\
    same_outside hl 27 (rbuf cli) (rbuf cli').
Proof.
  intros argv cli. apply (kvsp_roundtrip argv (BS "#9") cli 29 0).
  - repeat constructor; done.
  - done.
  - done.
  - done.
  - vm_compute. congruence.
  - vm_compute. split; congruence.
Defined.

Lemma kvsp_parse_partial argv stale k h :
  zlen (kvsp_frame argv) <= INT_MAX -> 0 < k < zlen (kvsp_frame argv) ->
  exists h', kvsp_parse_bulk_size (take (Z.to_nat k) (kvsp_frame argv) ++ stale) k h = Ok (0, h').
Proof.
  intros Hm Hk. set (p := take (Z.to_nat k) (kvsp_frame argv)).
  assert (Hpl : zlen p = k) by (unfold p, zlen in *; rewrite length_take; lia).
  rewrite (kvsp_parse_local _ p k); [| | rewrite zlen_app; pose proof (zlen_nonneg stale); lia | lia].
  2: { rewrite <- Hpl. unfold zlen. by rewrite Nat2Z.id, take_app_length, firstn_all. }
  pose proof (zlen_nonneg (kvsp_body argv)) as Hb0. unfold kvsp_frame in *. rewrite zlen_app in Hm, Hk.
  set (H := fmt_head (zlen (kvsp_body argv))) in *.
  destruct (Z.ltb_spec k (zlen H)) as [Hlt | Hge].
  - exists h. unfold p. rewrite take_app_le by (unfold zlen in *; lia).
    apply kvsp_parse_cut_head; [pose proof (zlen_nonneg H); lia | fold H; lia].
  - exists (zlen H).
    assert (Hp : p = H ++ take (Z.to_nat (k - zlen H)) (kvsp_body argv)).
    { unfold p. rewrite take_app_ge by (unfold zlen in *; lia).
      do 2 f_equal. unfold zlen in *. lia. }
    rewrite Hp in Hpl |- *. unfold H. rewrite kvsp_parse_head; fold H; [| lia | lia | done | lia].
    destruct (Z.ltb_spec k (zlen (kvsp_body argv) + zlen H)); [done | lia].
Qed.

(** No proper prefix of a KVSP frame is taken for a request or rejected:
    whatever stale bytes the receive buffer holds behind the [k] bytes received
    so far, framing reports an incomplete request. *)
Theorem kvsp_partial_frame argv stale k h :
  zlen (kvsp_frame argv) <= INT_MAX -> 0 < k < zlen (kvsp_frame argv) ->
  exists h', kvsp_parse_bulk_size (take (Z.to_nat k) (kvsp_frame argv) ++ stale) k h = Ok (0, h').
Proof. apply kvsp_parse_partial. Qed.

Lemma kvsp_partial_frame_witness :
  exists h', kvsp_parse_bulk_size (take 20 (kvsp_frame [BS "SET"; BS "key"; BS "value"]) ++ BS "junk") 20 0
    = Ok (0, h').
Proof.
  apply (kvsp_partial_frame [BS "SET"; BS "key"; BS "value"] (BS "junk") 20 0).
  - vm_compute. congruence.
  - vm_compute. split; congruence.
Defined.

(** C24: on arbitrary received bytes the KVSP framing and tokenizing stay inside
    the receive buffer and terminate: a positive framing result never exceeds
    the bytes received, the tokenizer then returns a code between -2 and
    [KVS_MAX_TOKENS], changes only the body of the request, and on success every
    token offset lies in the body and starts a C string. *)
Theorem kvsp_input_safe cli h :
  protocol cli = PROTO_KVSP -> r_pos cli <= zlen (rbuf cli) ->
  exists r hl, kvsp_parse_bulk_size (rbuf cli) (r_pos cli) h = Ok (r, hl) /\
    (0 < r -> r <= r_pos cli /\
      exists c cli' toks, kvs_split_token (set_cmd r hl cli) = Ok (c, cli', toks) /\
        -2 <= c <= KVS_MAX_TOKENS /\ same_outside hl r (rbuf cli) (rbuf cli') /\
        Forall (fun t => hl <= t <= r) toks /\
        (0 <= c -> c = zlen toks /\ Forall (fun t => exists s, rd_cstr (rbuf cli') t = Ok s) toks)).
Proof.
  intros Hp Hr. destruct (kvsp_parse_safe (rbuf cli) (r_pos cli) h Hr) as (r & hl & Hparse & Hb).
  exists r, hl. split; [done |]. intros Hpos. destruct (Hb Hpos) as (H3 & Hlr & Hrp). split; [done |].
  unfold kvs_split_token, KVSP_END_STR_LEN. cbn [protocol set_cmd cmd_hl cmd_tl rbuf]. rewrite Hp.
  assert (Hfail : exists c cli' toks, Ok (-2, set_cmd r hl cli, []) = Ok (c, cli', toks) /\
    -2 <= c <= KVS_MAX_TOKENS /\ same_outside hl r (rbuf cli) (rbuf cli') /\
    Forall (fun t => hl <= t <= r) toks /\
    (0 <= c -> c = zlen toks /\ Forall (fun t => exists s, rd_cstr (rbuf cli') t = Ok s) toks)).
  { eexists _, _, _. split; [done |]. unfold KVS_MAX_TOKENS. split_and!; [lia.. | done | done | lia]. }
  destruct (Z.ltb_spec (r - hl) 2); [done |].
  destruct (memeq_in_range (rbuf cli) (hl + (r - hl - 2)) KVSP_END_STR) as [[] ->];
    [lia | change (zlen KVSP_END_STR) with 2; lia | |]; run; [| done].
  destruct (split_kvsp_safe (S (Z.to_nat (r - hl - 2))) (rbuf cli) hl (r - hl - 2) 0 [])
    as ([[c b] toks] & -> & [Hl Hs] & Hlen & Hf & Hok); try done; try lia; [].
  run. eexists _, _, _. split; [done |]. cbn [rbuf set_rbuf]. pose proof (zlen_nonneg toks).
  split_and!; [lia | lia | | |].
  - split; [done |]. intros i Hi. apply Hs. lia.
  - eapply Forall_impl; [exact Hf |]. cbn. lia.
  - intros Hc. destruct Hok as [-> | [-> Hnul]]; [lia |]. split; [done |].
    eapply Forall_impl; [exact Hf |]. cbn. intros t Ht.
    apply (rd_cstr_defined b t (hl + (r - hl - 2))); [lia | done].
Qed.

Lemma kvsp_input_safe_witness :
  let cli := ClientInfo 3 0 (BS "#5" ++ CRLF ++ BS "^9&" ++ CRLF) 9 9 0 0 0 [] 0 0 0 PROTO_KVSP None in
  exists r hl, kvsp_parse_bulk_size (rbuf cli) 9 0 = Ok (r, hl) /\
    (0 < r -> r <= 9 /\
      exists c cli' toks, kvs_split_token (set_cmd r hl cli) = Ok (c, cli', toks) /\
        -2 <= c <= KVS_MAX_TOKENS /\ same_outside hl r (rbuf cli) (rbuf cli') /\
        Forall (fun t => hl <= t <= r) toks /\
        (0 <= c -> c = zlen toks /\ Forall (fun t => exists s, rd_cstr (rbuf cli') t = Ok s) toks)).
Proof.
  intros cli. apply (kvsp_input_safe cli 0).
  - done.
  - vm_compute. congruence.
Defined.

(** [kvs_build_kvsp_frame] either reports the failed allocation with NULL
    or returns a block whose first [buf_len] bytes are the frame of the format
    comment, for every non-empty command whose frame fits an [int]. *)
Theorem build_frame_correct {A} `{Allocator A} (argv : list (list Z)) (a : A) :
  argv <> [] -> zlen (kvsp_frame argv) < INT_MAX ->
  match kvs_malloc (zlen (kvsp_frame argv) + 1) a with
  | (Some p, a') => exists buf, kvs_build_kvsp_frame (Some <$> argv) a
      = Ok (Some (Block p buf, zlen (kvsp_frame argv)), a')
      /\ take (length (kvsp_frame argv)) buf = kvsp_frame argv
      /\ zlen buf = zlen (kvsp_frame argv) + 1
  | (None, a') => kvs_build_kvsp_frame (Some <$> argv) a = Ok (None, a')
  end.
Proof. apply build_frame_run. Qed.

Lemma build_frame_correct_witness :
  let argv := [BS "GET"; BS "key"] in
  exists buf, kvs_build_kvsp_frame (Some <$> argv) (Bump.start None)
    = Ok (Some (Block 16 buf, 19), (kvs_malloc 20 (Bump.start None)).2)
    /\ take 19 buf = kvsp_frame argv /\ zlen buf = 20.
Proof.
  intros argv. assert (Hne : argv <> []) by done.
  assert (Hlt : zlen (kvsp_frame argv) < INT_MAX) by (vm_compute; done).
  pose proof (build_frame_correct argv (Bump.start None) Hne Hlt) as Hb.
  vm_compute in Hb. vm_compute. exact Hb.
Defined.
