(* ===== verification/RespFacts.v ===== *)
(** * RespFacts: framing and tokenizing of RESP requests

    The round trip of a RESP array of bulk strings through
    [resp_parse_bulk_size] and the RESP branch of [kvs_split_token]. *)

From S2P Require Import Prelude CLib Alloc Protocol ProtocolFacts.

(** A RESP bulk string and a RESP array of bulk strings. *)
Definition resp_bulk (s : list Z) : list Z := BS "$" ++ dec (zlen s) ++ CRLF ++ s ++ CRLF.
Definition resp_head (argc : Z) : list Z := BS "*" ++ dec argc ++ CRLF.
Definition resp_frame (argv : list (list Z)) : list Z :=
  resp_head (zlen argv) ++ (argv ≫= resp_bulk).

(** ** [atoi] and the scans on well-formed text *)

Lemma strtol_digits_run ds c rest acc :
  Forall (fun c => is_digit c = true) ds -> is_digit c = false -> 0 <= acc ->
  dval acc ds <= LONG_MAX -> strtol_digits (ds ++ c :: rest) acc = Ok (dval acc ds).
Proof.
  intros Hds Hc. revert acc. induction Hds as [| d ds Hd Hds IH]; intros acc Ha Hm; cbn [app strtol_digits].
  - by rewrite Hc.
  - rewrite Hd. pose proof (proj1 (digit_range d) Hd).
    assert (Hstep : 10 * acc + (d - 48) <= dval acc (d :: ds))
      by (apply (dval_mono (10 * acc + (d - 48)) ds); [lia | done]).
    rewrite Z.min_l by lia. apply IH; [lia | done].
Qed.

Lemma atoi_dec pre n c rest :
  0 <= n <= INT_MAX -> is_digit c = false ->
  atoi (pre ++ dec n ++ c :: rest) (zlen pre) = Ok n.
Proof.
  intros Hn Hc. unfold atoi. rewrite zlen_app. pose proof (zlen_nonneg pre).
  pose proof (zlen_nonneg (dec n ++ c :: rest)).
  destruct (Z.leb_spec 0 (zlen pre)), (Z.leb_spec (zlen pre) (zlen pre + zlen (dec n ++ c :: rest)));
    run; try lia.
  unfold zlen. rewrite Nat2Z.id, drop_app_length.
  pose proof (dec_digits n ltac:(lia)) as Hds. pose proof (dec_dval n ltac:(lia)) as Hv.
  destruct (dec_nonempty n) as (d & ds & Hd). rewrite Hd in *. cbn [app atoi_at].
  assert (Hr : 48 <= d <= 57) by (inversion Hds; by apply digit_range).
  unfold is_space.
  destruct (Z.eqb_spec d 32), (Z.leb_spec 9 d), (Z.leb_spec d 13), (Z.eqb_spec d 45), (Z.eqb_spec d 43);
    run; try lia.
  all: change (d :: ds ++ c :: rest) with ((d :: ds) ++ c :: rest);
    rewrite strtol_digits_run; [| done | done | lia | rewrite Hv; unfold LONG_MAX, INT_MAX in *; lia];
    run; rewrite Hv; f_equal; unfold to_int, strtol_clamp, LONG_MAX, INT_MAX in *;
    rewrite Z.min_l by lia; rewrite Z.mod_small by lia; lia.
Qed.

Lemma crlf_scan_run fuel pre mid rest n :
  Forall (fun c => c <> LF) mid -> (length mid + 1 < fuel)%nat ->
  zlen pre + zlen mid + 1 < n ->
  crlf_scan fuel (pre ++ mid ++ CRLF ++ rest) (zlen pre) n = Ok (zlen pre + zlen mid + 1).
Proof.
  intros Hmid. revert pre fuel. induction Hmid as [| c mid Hc Hmid IH]; intros pre fuel Hf Hn.
  - zlen_simpl. destruct fuel as [| [| f]]; [cbn in Hf; lia.. |]. cbn [app crlf_scan].
    destruct (Z.ltb_spec (zlen pre) n); [| lia].
    change (CRLF ++ rest) with (CR :: LF :: rest). rewrite rd_at. run.
    replace (CR =? LF) with false by done.
    destruct (Z.ltb_spec (zlen pre + 1) n); [| lia]. rewrite rd_at_1. run.
    replace (LF =? LF) with true by done.
    replace (zlen pre + 1 - 1) with (zlen pre) by lia. rewrite rd_at. run.
    replace (CR =? CR) with true by done. f_equal. lia.
  - zlen_simpl. destruct fuel as [| f]; [cbn in Hf; lia |]. cbn [app crlf_scan].
    pose proof (zlen_nonneg mid). destruct (Z.ltb_spec (zlen pre) n); [| lia].
    rewrite rd_at. run.
    destruct (Z.eqb_spec c LF); [done |].
    specialize (IH (pre ++ [c]) f). zlen_simpl. rewrite <- app_assoc in IH. cbn [app] in IH.
    replace (zlen pre + (1 + 0)) with (zlen pre + 1) in IH by lia.
    rewrite IH; [f_equal; lia | cbn in Hf; lia | lia].
Qed.

Lemma cr_scan_run fuel pre mid rest :
  Forall (fun c => c <> CR) mid -> (length mid < fuel)%nat ->
  cr_scan fuel (pre ++ mid ++ CR :: rest) (zlen pre) = Ok (zlen pre + zlen mid).
Proof.
  intros Hmid. revert pre fuel. induction Hmid as [| c mid Hc Hmid IH]; intros pre fuel Hf;
    (destruct fuel as [| f]; [cbn in Hf; lia |]); cbn [app cr_scan];
    rewrite rd_at; run.
  - rewrite Z.eqb_refl. zlen_simpl. f_equal. lia.
  - destruct (Z.eqb_spec c CR); [done |]. zlen_simpl.
    specialize (IH (pre ++ [c]) f). zlen_simpl. rewrite <- app_assoc in IH. cbn [app] in IH.
    replace (zlen pre + (1 + 0)) with (zlen pre + 1) in IH by lia.
    rewrite IH; [f_equal; lia | cbn in Hf; lia].
Qed.

Lemma digits_not c ds : is_digit c = false -> Forall (fun c => is_digit c = true) ds ->
  Forall (fun d => d <> c) ds.
Proof. intros Hc Hds. eapply Forall_impl; [exact Hds |]. intros d Hd ->. cbn in Hd. congruence. Qed.

Lemma resp_bulk_len s : zlen (resp_bulk s) = 1 + zlen (dec (zlen s)) + 2 + zlen s + 2.
Proof. unfold resp_bulk. rewrite !zlen_app, CRLF_len. change (zlen (BS "$")) with 1. lia. Qed.

Lemma resp_head_len n : zlen (resp_head n) = 1 + zlen (dec n) + 2.
Proof. unfold resp_head. rewrite !zlen_app, CRLF_len. change (zlen (BS "*")) with 1. lia. Qed.

(** ** Framing *)

Lemma resp_bulks_run (argv : list (list Z)) pre rest n :
  zlen pre + zlen (argv ≫= resp_bulk) <= n <= INT_MAX - 1 -> 0 < zlen pre ->
  n <= zlen (pre ++ (argv ≫= resp_bulk) ++ rest) ->
  resp_bulks (length argv) (pre ++ (argv ≫= resp_bulk) ++ rest) (zlen pre - 1) n
  = Ok (None, zlen pre + zlen (argv ≫= resp_bulk) - 1).
Proof.
  revert pre. induction argv as [| s argv IH]; intros pre Hn Hp Hl.
  - change (@nil (list Z) ≫= resp_bulk) with (@nil Z) in *. cbn [length resp_bulks]. zlen_simpl.
    do 2 f_equal. lia.
  - change ((s :: argv) ≫= resp_bulk) with (resp_bulk s ++ (argv ≫= resp_bulk)) in *.
    pose proof (resp_bulk_len s) as Hbl. pose proof (dec_length_pos (zlen s)).
    pose proof (zlen_nonneg s). pose proof (zlen_nonneg (argv ≫= resp_bulk)).
    rewrite zlen_app in *. cbn [length resp_bulks].
    unfold to_size_t. unfold INT_MAX in Hn. rewrite Z.mod_small by lia.
    replace (zlen pre - 1 + 1) with (zlen pre) by lia.
    destruct (Z.leb_spec n (zlen pre)); [lia |].
    set (T := argv ≫= resp_bulk) in *.
    assert (Hc : rd (pre ++ (resp_bulk s ++ T) ++ rest) (zlen pre) = Ok 36)
      by (rewrite rd_app_r, Z.sub_diag by lia; done).
    rewrite Hc. run. rewrite Z.eqb_refl. run.
    pose proof (dec_digits (zlen s) ltac:(lia)) as Hds.
    assert (Hsplit : pre ++ (resp_bulk s ++ T) ++ rest
      = pre ++ (BS "$" ++ dec (zlen s)) ++ CRLF ++ (s ++ CRLF ++ T ++ rest))
      by (unfold resp_bulk; rewrite <- !app_assoc; done).
    rewrite Hsplit at 1. rewrite crlf_scan_run.
    2: { apply Forall_app. split; [by repeat constructor | by apply digits_not]. }
    2: { unfold zlen in *. rewrite length_app. change (length (BS "$")) with 1%nat. lia. }
    2: { rewrite zlen_app. change (zlen (BS "$")) with 1. lia. }
    run. rewrite zlen_app. change (zlen (BS "$")) with 1.
    set (e := zlen pre + (1 + zlen (dec (zlen s))) + 1).
    destruct (Z.ltb_spec e n); [| unfold e in *; lia].
    replace (pre ++ (resp_bulk s ++ T) ++ rest)
      with ((pre ++ BS "$") ++ dec (zlen s) ++ CR :: (LF :: s ++ CRLF ++ T ++ rest)) at 1
      by (rewrite Hsplit, <- !app_assoc; done).
    replace (zlen pre + 1) with (zlen (pre ++ BS "$")) by (rewrite zlen_app; done).
    rewrite atoi_dec; [| unfold INT_MAX; lia | done]. run.
    unfold INT_MAX. destruct (Z.ltb_spec (2 ^ 31 - 1) (zlen s + 2)); [lia |].
    rewrite Z.mod_small by (unfold e; lia).
    destruct (Z.leb_spec n (e + (zlen s + 2))) as [Hle | _]; [unfold e in Hle; lia |].
    specialize (IH (pre ++ resp_bulk s)). fold T in IH. rewrite !zlen_app, <- app_assoc in IH.
    rewrite <- app_assoc.
    replace (e + (zlen s + 2)) with (zlen pre + zlen (resp_bulk s) - 1) by (unfold e; lia).
    rewrite IH; [do 2 f_equal; lia | unfold INT_MAX; lia | lia | rewrite !zlen_app in *; lia].
Qed.

Lemma resp_parse_frame (argv : list (list Z)) rest n h :
  zlen (resp_frame argv) <= n <= INT_MAX - 1 -> n <= zlen (resp_frame argv ++ rest) ->
  resp_parse_bulk_size (resp_frame argv ++ rest) n h
  = Ok (zlen (resp_frame argv), zlen (resp_head (zlen argv))).
Proof.
  intros Hn Hl. unfold resp_frame in *. rewrite <- app_assoc in *.
  set (H := resp_head (zlen argv)) in *. set (T := argv ≫= resp_bulk) in *.
  pose proof (resp_head_len (zlen argv)) as HH. fold H in HH. pose proof (dec_length_pos (zlen argv)).
  pose proof (zlen_nonneg T). pose proof (zlen_nonneg argv). rewrite zlen_app in Hn |- *.
  unfold resp_parse_bulk_size. destruct (Z.leb_spec n 0); [lia |].
  assert (Hc : rd (H ++ T ++ rest) 0 = Ok 42) by done.
  rewrite Hc. run. rewrite Z.eqb_refl. run.
  assert (HT : zlen argv <= zlen T).
  { unfold T. clear. induction argv as [| s argv IH]; [done |].
    change ((s :: argv) ≫= resp_bulk) with (resp_bulk s ++ (argv ≫= resp_bulk)).
    rewrite zlen_app, zlen_cons, resp_bulk_len.
    pose proof (dec_length_pos (zlen s)). pose proof (zlen_nonneg s). lia. }
  pose proof (dec_digits (zlen argv) ltac:(lia)) as Hds.
  assert (Hsplit : H ++ T ++ rest = BS "*" ++ dec (zlen argv) ++ CRLF ++ (T ++ rest))
    by (unfold H, resp_head; rewrite <- !app_assoc; done).
  rewrite Hsplit. replace 1 with (zlen (BS "*")) at 1 by done.
  rewrite crlf_scan_run; [| by apply digits_not | unfold zlen in *; lia | change (zlen (BS "*")) with 1; lia].
  run. change (zlen (BS "*")) with 1. destruct (Z.leb_spec n (1 + zlen (dec (zlen argv)) + 1)); [lia |].
  change (CRLF ++ T ++ rest) with (CR :: LF :: T ++ rest).
  replace 1 with (zlen (BS "*")) at 1 by done. unfold INT_MAX in *.
  rewrite atoi_dec; [| unfold INT_MAX; lia | done]. run. change (CR :: LF :: T ++ rest) with (CRLF ++ T ++ rest).
  rewrite <- Hsplit. replace (Z.to_nat (zlen argv)) with (length argv) by (unfold zlen; lia).
  replace (1 + zlen (dec (zlen argv)) + 1) with (zlen H - 1) by lia.
  unfold T. rewrite resp_bulks_run; [| unfold INT_MAX; fold T; lia | lia | fold T; lia]. fold T. run.
  unfold to_int. rewrite !Z.mod_small by lia. do 2 f_equal; lia.
Qed.

(** ** Tokenizing *)

(** What the tokenizer leaves of a bulk string: the first byte of its final
    end of line becomes a NUL. *)
Definition resp_image (s : list Z) : list Z := BS "$" ++ dec (zlen s) ++ CRLF ++ s ++ [0; LF].

Fixpoint resp_offsets (base : Z) (argv : list (list Z)) : list Z :=
  match argv with
  | [] => []
  | s :: rest =>
      (base + 3 + zlen (dec (zlen s))) :: resp_offsets (base + zlen (resp_bulk s)) rest
  end.

Lemma resp_image_len s : zlen (resp_image s) = zlen (resp_bulk s).
Proof. unfold resp_image, resp_bulk. by rewrite !zlen_app. Qed.

(** One round of the loop: the next bulk string takes the next token, when the
    array has one left. *)
Lemma split_resp_step f s T pre rest base toks :
  base <= zlen pre -> zlen (resp_bulk s ++ T) <= INT_MAX ->
  split_resp (S f) (pre ++ (resp_bulk s ++ T) ++ 0 :: rest) base (zlen pre - base) toks
  = if KVS_MAX_TOKENS <=? zlen toks then Undef else
    split_resp f ((pre ++ resp_image s) ++ T ++ 0 :: rest) base (zlen (pre ++ resp_image s) - base)
      (toks ++ [zlen pre + 3 + zlen (dec (zlen s))]).
Proof.
  intros Hb Hm. cbn [split_resp]. replace (base + (zlen pre - base)) with (zlen pre) by lia.
  pose proof (resp_bulk_len s) as Hbl. pose proof (dec_length_pos (zlen s)).
  pose proof (zlen_nonneg s). pose proof (zlen_nonneg T). pose proof (dec_digits (zlen s) ltac:(lia)) as Hds.
  rewrite zlen_app in Hm.
  assert (H36 : rd (pre ++ (resp_bulk s ++ T) ++ 0 :: rest) (zlen pre) = Ok 36)
    by (rewrite rd_app_r, Z.sub_diag by lia; done).
  rewrite H36. run. replace (36 =? 0) with false by done. rewrite Z.eqb_refl.
  replace (base + (zlen pre - base + 1)) with (zlen (pre ++ BS "$"))
    by (rewrite zlen_app; change (zlen (BS "$")) with 1; lia).
  assert (Hsplit : pre ++ (resp_bulk s ++ T) ++ 0 :: rest
    = (pre ++ BS "$") ++ dec (zlen s) ++ CR :: (LF :: s ++ CRLF ++ T ++ 0 :: rest))
    by (unfold resp_bulk; rewrite <- !app_assoc; done).
  rewrite Hsplit, atoi_dec by (done || lia). run.
  rewrite cr_scan_run; [| by apply digits_not | rewrite <- Hsplit; unfold zlen in *; rewrite !length_app; lia].
  run. destruct (Z.leb_spec KVS_MAX_TOKENS (zlen toks)); [done |].
  rewrite zlen_app. change (zlen (BS "$")) with 1.
  set (p := zlen pre + 1 + zlen (dec (zlen s)) - base + 2).
  replace ((pre ++ BS "$") ++ dec (zlen s) ++ CR :: LF :: s ++ CRLF ++ T ++ 0 :: rest)
    with ((pre ++ BS "$" ++ dec (zlen s) ++ CRLF ++ s) ++ CR :: LF :: T ++ 0 :: rest)
    by (rewrite <- !app_assoc; done).
  replace (base + p + zlen s) with (zlen (pre ++ BS "$" ++ dec (zlen s) ++ CRLF ++ s))
    by (rewrite !zlen_app, CRLF_len; change (zlen (BS "$")) with 1; unfold p; lia).
  rewrite wr_app_mid. run. rewrite (zlen_app pre (resp_image s)), resp_image_len.
  f_equal; [unfold resp_image; rewrite <- !app_assoc; done | unfold p; lia | do 2 f_equal; unfold p; lia].
Qed.

Lemma split_resp_run fuel (argv : list (list Z)) pre rest base toks :
  (length argv < fuel)%nat -> base <= zlen pre -> zlen (argv ≫= resp_bulk) <= INT_MAX ->
  zlen toks + zlen argv <= KVS_MAX_TOKENS ->
  split_resp fuel (pre ++ (argv ≫= resp_bulk) ++ 0 :: rest) base (zlen pre - base) toks
  = Ok (zlen toks + zlen argv, pre ++ (argv ≫= resp_image) ++ 0 :: rest,
        toks ++ resp_offsets (zlen pre) argv).
Proof.
  revert fuel pre toks. induction argv as [| s argv IH]; intros fuel pre toks Hf Hb Hm Ht;
    (destruct fuel as [| f]; [cbn in Hf; lia |]).
  - cbn [split_resp]. replace (base + (zlen pre - base)) with (zlen pre) by lia.
    change (@nil (list Z) ≫= resp_bulk) with (@nil Z). change (@nil (list Z) ≫= resp_image) with (@nil Z).
    cbn [app resp_offsets]. rewrite rd_at. run. rewrite Z.eqb_refl. zlen_simpl.
    by rewrite Z.add_0_r, app_nil_r.
  - change ((s :: argv) ≫= resp_bulk) with (resp_bulk s ++ (argv ≫= resp_bulk)) in *.
    change ((s :: argv) ≫= resp_image) with (resp_image s ++ (argv ≫= resp_image)).
    rewrite split_resp_step by done. rewrite zlen_app in Hm. rewrite zlen_cons in Ht |- *. pose proof (zlen_nonneg argv).
    pose proof (resp_bulk_len s) as Hbl. pose proof (dec_length_pos (zlen s)). pose proof (zlen_nonneg s).
    rewrite (proj2 (Z.leb_gt _ _)) by lia.
    rewrite IH; [| cbn in Hf; lia | rewrite zlen_app, resp_image_len; lia | lia | zlen_simpl; lia].
    cbn [resp_offsets]. rewrite (zlen_app pre), resp_image_len, <- !app_assoc. cbn [app].
    rewrite (zlen_app toks), zlen_cons, zlen_nil. do 3 f_equal. lia.
Qed.

Lemma split_resp_overflow fuel (argv : list (list Z)) pre rest base toks :
  (length argv < fuel)%nat -> base <= zlen pre -> zlen (argv ≫= resp_bulk) <= INT_MAX ->
  zlen toks <= KVS_MAX_TOKENS < zlen toks + zlen argv ->
  split_resp fuel (pre ++ (argv ≫= resp_bulk) ++ 0 :: rest) base (zlen pre - base) toks = Undef.
Proof.
  revert fuel pre toks. induction argv as [| s argv IH]; intros fuel pre toks Hf Hb Hm Ht; [rewrite zlen_nil in Ht; lia |].
  rewrite zlen_cons in Ht.
  destruct fuel as [| f]; [cbn in Hf; lia |].
  change ((s :: argv) ≫= resp_bulk) with (resp_bulk s ++ (argv ≫= resp_bulk)) in *.
  rewrite split_resp_step by done. rewrite zlen_app in Hm.
  pose proof (resp_bulk_len s) as Hbl. pose proof (dec_length_pos (zlen s)). pose proof (zlen_nonneg s).
  destruct (Z.leb_spec KVS_MAX_TOKENS (zlen toks)); [done |].
  apply IH; [cbn in Hf; lia | rewrite zlen_app, resp_image_len; lia | lia | zlen_simpl; lia].
Qed.

Lemma resp_image_tokens pre (argv : list (list Z)) rest :
  Forall nul_free argv ->
  mapM (rd_cstr (pre ++ (argv ≫= resp_image) ++ rest)) (resp_offsets (zlen pre) argv) = Ok argv.
Proof.
  intros Hnf. revert pre. induction Hnf as [| s argv Hs Hnf IH]; intros pre; [done |].
  change ((s :: argv) ≫= resp_image) with (resp_image s ++ (argv ≫= resp_image)).
  cbn [resp_offsets mapM]. rewrite <- app_assoc.
  assert (Hrd : rd_cstr (pre ++ resp_image s ++ (argv ≫= resp_image) ++ rest)
                  (zlen pre + 3 + zlen (dec (zlen s))) = Ok s).
  { replace (pre ++ resp_image s ++ (argv ≫= resp_image) ++ rest)
      with ((pre ++ BS "$" ++ dec (zlen s) ++ CRLF) ++ s ++ 0 :: (LF :: (argv ≫= resp_image) ++ rest))
      by (unfold resp_image; rewrite <- !app_assoc; done).
    replace (zlen pre + 3 + zlen (dec (zlen s)))
      with (zlen (pre ++ BS "$" ++ dec (zlen s) ++ CRLF))
      by (rewrite !zlen_app, CRLF_len; change (zlen (BS "$")) with 1; lia).
    by apply rd_cstr_app. }
  rewrite Hrd. run. specialize (IH (pre ++ resp_image s)).
  rewrite zlen_app, resp_image_len, <- app_assoc in IH. by rewrite IH.
Qed.

(** ** Properties *)

Lemma resp_bulks_len (argv : list (list Z)) : zlen argv <= zlen (argv ≫= resp_bulk).
Proof.
  induction argv as [| s argv IH]; [done |].
  change ((s :: argv) ≫= resp_bulk) with (resp_bulk s ++ (argv ≫= resp_bulk)).
  rewrite zlen_app, zlen_cons, resp_bulk_len. pose proof (dec_length_pos (zlen s)). pose proof (zlen_nonneg s). lia.
Qed.

(** C25: a RESP array of at most [KVS_MAX_TOKENS] NUL-free bulk strings at the
    start of the receive buffer, with the NUL the server stores behind the bytes
    it received directly behind it, is framed with its exact length and
    tokenized into exactly its strings. *)
Theorem resp_roundtrip (argv : list (list Z)) rest cli n h :
  Forall nul_free argv -> zlen argv <= KVS_MAX_TOKENS ->
  rbuf cli = resp_frame argv ++ 0 :: rest -> protocol cli = PROTO_RESP ->
  zlen (resp_frame argv) <= n <= INT_MAX - 1 -> n <= zlen (rbuf cli) ->
  exists hl cli' toks,
    resp_parse_bulk_size (rbuf cli) n h = Ok (zlen (resp_frame argv), hl) /\
    kvs_split_token (set_cmd (zlen (resp_frame argv)) hl cli) = Ok (zlen argv, cli', toks) /\
    mapM (rd_cstr (rbuf cli')) toks = Ok argv.
Proof.
  intros Hnf Hc Hr Hp Hn Hl. rewrite Hr in Hl |- *.
  rewrite resp_parse_frame by done. unfold kvs_split_token. cbn [protocol set_cmd cmd_hl rbuf].
  rewrite Hp, Hr. unfold resp_frame. rewrite <- app_assoc. cbn beta.
  set (H := resp_head (zlen argv)).
  assert (Hfl : zlen (resp_frame argv) = zlen H + zlen (argv ≫= resp_bulk))
    by (unfold resp_frame; by rewrite zlen_app).
  pose proof (zlen_nonneg H). pose proof (zlen_nonneg (argv ≫= resp_bulk)).
  pose proof (resp_bulks_len argv) as HT.
  pose proof (split_resp_run (S (length (H ++ (argv ≫= resp_bulk) ++ 0 :: rest))) argv H rest
    (zlen H) []) as Hs. rewrite Z.sub_diag in Hs.
  exists (zlen H). rewrite Hs; [| unfold zlen in *; rewrite !length_app; lia | lia | lia | zlen_simpl; lia].
  run. eexists _, _. split; [done |]. split; [done |]. cbn [rbuf set_rbuf app].
  by apply resp_image_tokens.
Qed.

(** A request [SET key value] of the README goes through the RESP path. *)
Lemma resp_roundtrip_witness :
  let argv := [BS "SET"; BS "key"; BS "value"] in
  let cli := ClientInfo 3 0 (resp_frame argv ++ [0]) 40 33 0 0 0 [] 0 0 0 PROTO_RESP None in
  exists hl cli' toks,
    resp_parse_bulk_size (rbuf cli) 33 0 = Ok (33, hl) /\
    kvs_split_token (set_cmd 33 hl cli) = Ok (3, cli', toks) /\
    mapM (rd_cstr (rbuf cli')) toks = Ok argv.
Proof.
  intros argv cli. apply (resp_roundtrip argv [] cli 33 0).
  - repeat constructor; done.
  - done.
  - done.
  - done.
  - vm_compute. split; congruence.
  - vm_compute. congruence.
Defined.

(** C37: the RESP branch of the tokenizer does not test the token count: every
    request of more than [KVS_MAX_TOKENS] bulk strings is framed as complete and
    then written past the end of the [tokens] array of the caller. *)
Theorem resp_token_overflow (argv : list (list Z)) rest cli n h :
  KVS_MAX_TOKENS < zlen argv -> rbuf cli = resp_frame argv ++ 0 :: rest -> protocol cli = PROTO_RESP ->
  zlen (resp_frame argv) <= n <= INT_MAX - 1 -> n <= zlen (rbuf cli) ->
  exists hl,
    resp_parse_bulk_size (rbuf cli) n h = Ok (zlen (resp_frame argv), hl) /\
    kvs_split_token (set_cmd (zlen (resp_frame argv)) hl cli) = Undef.
Proof.
  intros Hc Hr Hp Hn Hl. rewrite Hr in Hl |- *. rewrite resp_parse_frame by done. eexists. split; [done |].
  unfold kvs_split_token. cbn [protocol set_cmd cmd_hl rbuf]. rewrite Hp, Hr.
  unfold resp_frame in *. rewrite <- app_assoc. rewrite zlen_app in Hn. set (H := resp_head (zlen argv)) in *.
  pose proof (zlen_nonneg H). pose proof (resp_bulks_len argv).
  pose proof (split_resp_overflow (S (length (H ++ (argv ≫= resp_bulk) ++ 0 :: rest))) argv H rest (zlen H) []) as Hs.
  rewrite Z.sub_diag in Hs. rewrite Hs; [done | unfold zlen in *; rewrite !length_app; lia | lia | lia | zlen_simpl; unfold KVS_MAX_TOKENS in *; lia].
Qed.

(** 129 empty strings. *)
Lemma resp_token_overflow_witness :
  let argv := replicate 129 [] in
  let cli := ClientInfo 3 0 (resp_frame argv ++ [0]) 1000 (zlen (resp_frame argv)) 0 0 0 [] 0 0 0 PROTO_RESP None in
  exists hl,
    resp_parse_bulk_size (rbuf cli) (zlen (resp_frame argv)) 0 = Ok (zlen (resp_frame argv), hl) /\
    kvs_split_token (set_cmd (zlen (resp_frame argv)) hl cli) = Undef.
Proof.
  intros argv cli. apply (resp_token_overflow argv [] cli (zlen (resp_frame argv)) 0); try (vm_compute; reflexivity).
  - vm_compute. split; congruence.
  - vm_compute. congruence.
Defined.
