(* ===== verification/Engine.v ===== *)
(** * Engine: what the command layer expects of a storage engine

    The four engines offer the same five operations (5 + 2 in the comments of
    the code: set, get, del, mod, exist, and create, destroy). [Engine] is the
    interface: the operations over the engine's state and the allocator, the
    finite map an engine stands for ([e_map]), the addresses of the blocks it
    owns ([e_owned]), its invariant, its capacity test and the code its [del]
    answers for an absent key. [EngineLaws] is the abstract specification: the
    operations implement those of a finite map, allocate and release exactly
    the blocks the engine owns before and after, and never leave defined
    behaviour. *)

From S2P Require Import Prelude Alloc.

(** A C string argument, [None] for NULL. *)
Notation cptr := (option (list Z)).

(** Contents of an engine. *)
Notation kvmap := (gmap (list Z) (list Z)).

Class Engine (A E : Type) `{Allocator A} := {
  e_set : E -> cptr -> cptr -> A -> res (Z * E * A);
  e_get : E -> cptr -> res cptr;
  e_del : E -> cptr -> A -> res (Z * E * A);
  e_mod : E -> cptr -> cptr -> A -> res (Z * E * A);
  e_exist : E -> cptr -> res Z;
  e_map : E -> kvmap;
  e_owned : E -> gset Z;
  e_inv : E -> Prop;
  e_full : kvmap -> bool;
  e_del_absent : Z
}.

(** Engine and allocator fit together: the blocks of the engine are live. *)
Definition e_wf {A E} `{ENG : Engine A E} (e : E) (a : A) : Prop :=
  e_inv e /\ al_inv a /\ e_owned e ⊆ al_live a.

(** Moving from [(e, a)] to [(e', a')] leaks nothing and releases nothing that
    is not the engine's. *)
Definition e_frame {A E} `{ENG : Engine A E} (e : E) (a : A) (e' : E) (a' : A) : Prop :=
  al_live a' ∖ e_owned e' = al_live a ∖ e_owned e.

(** The abstract operations. *)
Inductive set_spec (full : bool) (m : kvmap) (k v : list Z) : Z -> kvmap -> Prop :=
| set_full : full = true -> set_spec full m k v (-1) m
| set_exists r v' : full = false -> m !! k = Some v' -> 0 < r -> set_spec full m k v r m
| set_new : full = false -> m !! k = None -> set_spec full m k v 0 (<[k := v]> m).

Inductive del_spec (absent : Z) (m : kvmap) (k : list Z) : Z -> kvmap -> Prop :=
| del_present v : m !! k = Some v -> del_spec absent m k 0 (delete k m)
| del_missing : m !! k = None -> del_spec absent m k absent m.

Inductive mod_spec (m : kvmap) (k v : list Z) : Z -> kvmap -> Prop :=
| mod_present v' : m !! k = Some v' -> mod_spec m k v 0 (<[k := v]> m)
| mod_missing r : m !! k = None -> 0 < r -> mod_spec m k v r m.

(** A request for memory was answered with NULL: a negative result, and the
    contents are what they were. *)
Definition oom_spec (A : Type) `{Allocator A} (m : kvmap) (r : Z) (m' : kvmap) : Prop :=
  r < 0 /\ m' = m /\ al_can_fail A.

Class EngineLaws (A E : Type) `{Engine A E} : Prop := {
  set_law e a k v :
    e_wf e a -> exists r e' a',
      e_set e (Some k) (Some v) a = Ok (r, e', a') /\ e_wf e' a' /\ e_frame e a e' a' /\
      (set_spec (e_full (e_map e)) (e_map e) k v r (e_map e') \/ oom_spec A (e_map e) r (e_map e'));
  get_law e k : e_inv e -> e_get e (Some k) = Ok (e_map e !! k);
  del_law e a k :
    e_wf e a -> exists r e' a',
      e_del e (Some k) a = Ok (r, e', a') /\ e_wf e' a' /\ e_frame e a e' a' /\
      del_spec e_del_absent (e_map e) k r (e_map e');
  mod_law e a k v :
    e_wf e a -> exists r e' a',
      e_mod e (Some k) (Some v) a = Ok (r, e', a') /\ e_wf e' a' /\ e_frame e a e' a' /\
      (mod_spec (e_map e) k v r (e_map e') \/ oom_spec A (e_map e) r (e_map e'));
  exist_law e k :
    e_inv e -> exists r, e_exist e (Some k) = Ok r /\ (r = 0 <-> is_Some (e_map e !! k));
  del_absent_nonzero : e_del_absent <> 0;
  set_null e k v a : k = None \/ v = None -> e_set e k v a = Ok (-1, e, a);
  get_null e : e_get e None = Ok None;
  del_null e a : exists r, e_del e None a = Ok (r, e, a) /\ r < 0;
  mod_null e v a : e_mod e None v a = Ok (-1, e, a);
  exist_null e : exists r, e_exist e None = Ok r /\ r <> 0
}.

(** ** Sequences of operations

    [e_run] runs a list of requests on an engine, [abs_run] is what the
    finite map allows: the same requests, their answers and the contents
    after them. *)
Inductive eop :=
| OpSet (k v : list Z) | OpGet (k : list Z) | OpDel (k : list Z)
| OpMod (k v : list Z) | OpExist (k : list Z).

Inductive eout := OutCode (r : Z) | OutValue (v : cptr).

#[export] Instance eout_eq_dec : EqDecision eout.
Proof. solve_decision. Defined.

Definition out_code {E A} (x : Z * E * A) : eout * E * A := let '(r, e, a) := x in (OutCode r, e, a).

Definition e_step {A E} `{ENG : Engine A E} (o : eop) (e : E) (a : A) : res (eout * E * A) :=
  match o with
  | OpSet k v => res_map out_code (e_set e (Some k) (Some v) a)
  | OpGet k => v ← e_get e (Some k); Ok (OutValue v, e, a)
  | OpDel k => res_map out_code (e_del e (Some k) a)
  | OpMod k v => res_map out_code (e_mod e (Some k) (Some v) a)
  | OpExist k => r ← e_exist e (Some k); Ok (OutCode r, e, a)
  end.

Fixpoint e_run {A E} `{ENG : Engine A E} (os : list eop) (e : E) (a : A) : res (list eout * E * A) :=
  match os with
  | [] => Ok ([], e, a)
  | o :: os =>
      '(x, e, a) ← e_step o e a;
      '(xs, e, a) ← e_run os e a;
      Ok (x :: xs, e, a)
  end.

Inductive abs_step (oom : Prop) (full : kvmap -> bool) (absent : Z) (m : kvmap) : eop -> eout -> kvmap -> Prop :=
| abs_set k v r m' : set_spec (full m) m k v r m' -> abs_step oom full absent m (OpSet k v) (OutCode r) m'
| abs_get k : abs_step oom full absent m (OpGet k) (OutValue (m !! k)) m
| abs_del k r m' : del_spec absent m k r m' -> abs_step oom full absent m (OpDel k) (OutCode r) m'
| abs_mod k v r m' : mod_spec m k v r m' -> abs_step oom full absent m (OpMod k v) (OutCode r) m'
| abs_exist k r : (r = 0 <-> is_Some (m !! k)) -> abs_step oom full absent m (OpExist k) (OutCode r) m
| abs_oom o k v r : oom -> (o = OpSet k v \/ o = OpMod k v) -> r < 0 -> abs_step oom full absent m o (OutCode r) m.

Inductive abs_run (oom : Prop) (full : kvmap -> bool) (absent : Z) : kvmap -> list eop -> list eout -> kvmap -> Prop :=
| abs_nil m : abs_run oom full absent m [] [] m
| abs_cons m o x m1 os xs m2 :
    abs_step oom full absent m o x m1 -> abs_run oom full absent m1 os xs m2 ->
    abs_run oom full absent m (o :: os) (x :: xs) m2.

Lemma abs_step_oom oom oom' full absent m o x m' :
  ~ oom -> abs_step oom full absent m o x m' -> abs_step oom' full absent m o x m'.
Proof. intros Ho. destruct 1; [by constructor.. | done]. Qed.

Lemma abs_run_oom oom oom' full absent m os xs m' :
  ~ oom -> abs_run oom full absent m os xs m' -> abs_run oom' full absent m os xs m'.
Proof.
  intros Ho. induction 1 as [| m o x m1 os xs m2 Hs _ IH]; [constructor |].
  econstructor; [by eapply abs_step_oom | exact IH].
Qed.

Section Runs.
Context {A E : Type} `{LAWS : EngineLaws A E}.
Implicit Types (e : E) (a : A).

Lemma frame_trans e a e1 a1 e2 a2 :
  e_frame e a e1 a1 -> e_frame e1 a1 e2 a2 -> e_frame e a e2 a2.
Proof. unfold e_frame. congruence. Qed.

Lemma step_correct o e a :
  e_wf e a -> exists x e' a',
    e_step o e a = Ok (x, e', a') /\ e_wf e' a' /\ e_frame e a e' a' /\
    abs_step (al_can_fail A) e_full e_del_absent (e_map e) o x (e_map e').
Proof.
  intros Hwf. destruct o as [k v | k | k | k v | k]; cbn [e_step].
  - destruct (set_law e a k v Hwf) as (r & e' & a' & -> & Hw & Hf & Hs).
    exists (OutCode r), e', a'. split_and!; [done.. |].
    destruct Hs as [Hs | (Hr & -> & Ho)]; [by constructor | by eapply abs_oom; eauto].
  - rewrite (get_law e k (proj1 Hwf)). exists (OutValue (e_map e !! k)), e, a.
    split_and!; [done.. | constructor].
  - destruct (del_law e a k Hwf) as (r & e' & a' & -> & Hw & Hf & Hs).
    exists (OutCode r), e', a'. split_and!; [done.. | by constructor].
  - destruct (mod_law e a k v Hwf) as (r & e' & a' & -> & Hw & Hf & Hs).
    exists (OutCode r), e', a'. split_and!; [done.. |].
    destruct Hs as [Hs | (Hr & -> & Ho)]; [by constructor | by eapply abs_oom; eauto].
  - destruct (exist_law e k (proj1 Hwf)) as (r & -> & Hr). exists (OutCode r), e, a.
    split_and!; [done.. | by constructor].
Qed.

Lemma run_correct os e a :
  e_wf e a -> exists xs e' a',
    e_run os e a = Ok (xs, e', a') /\ e_wf e' a' /\ e_frame e a e' a' /\
    abs_run (al_can_fail A) e_full e_del_absent (e_map e) os xs (e_map e').
Proof.
  revert e a. induction os as [| o os IH]; intros e a Hwf; cbn [e_run].
  - exists [], e, a. split_and!; [done.. | constructor].
  - destruct (step_correct o e a Hwf) as (x & e1 & a1 & -> & Hw1 & Hf1 & Hs1). run.
    destruct (IH e1 a1 Hw1) as (xs & e2 & a2 & -> & Hw2 & Hf2 & Hs2). run.
    exists (x :: xs), e2, a2. split_and!; [done.. | by eapply frame_trans | by econstructor].
Qed.

End Runs.

(** The specifications are deterministic up to the sign of the result. *)
Lemma set_spec_det full m k v r r' m1 m2 :
  set_spec full m k v r m1 -> set_spec full m k v r' m2 ->
  m1 = m2 /\ (r = 0 <-> r' = 0) /\ (r < 0 <-> r' < 0).
Proof. intros [| ? ? ? ? ? |] [| ? ? ? ? ? |]; simplify_eq; split_and!; lia || done. Qed.

Lemma del_spec_det ab m k r r' m1 m2 :
  del_spec ab m k r m1 -> del_spec ab m k r' m2 -> m1 = m2 /\ r = r'.
Proof. intros [] []; simplify_eq; done. Qed.

(** Frames of the two kinds of change: new blocks [X] of the engine, blocks
    [X] of the engine released. *)
Lemma frame_grow (L O X : gset Z) : X ## L -> (X ∪ L) ∖ (X ∪ O) = L ∖ O.
Proof. set_solver. Qed.

Lemma frame_shrink (L O X : gset Z) : (L ∖ X) ∖ O = L ∖ (X ∪ O).
Proof. set_solver. Qed.

Lemma owned_grow (L O X : gset Z) : O ⊆ L -> X ∪ O ⊆ X ∪ L.
Proof. set_solver. Qed.

Lemma owned_shrink (L O X : gset Z) : X ∪ O ⊆ L -> X ## O -> O ⊆ L ∖ X.
Proof. set_solver. Qed.

Lemma owned_swap (L O : gset Z) x y :
  {[x]} ∪ O ⊆ L -> x ∉ O -> {[y]} ∪ O ⊆ {[y]} ∪ (L ∖ {[x]}).
Proof. set_solver. Qed.
