(* ===== verification/Owner.v ===== *)
(** * Owner: blocks shared out between components

    Every component owns a set of blocks; the sets are disjoint and live. An
    operation that changes the set of one component and otherwise leaves the
    live blocks alone keeps the whole arrangement. *)

From S2P Require Import Prelude.

Fixpoint apart (os : list (gset Z)) : Prop :=
  match os with
  | [] => True
  | X :: os => X ## ⋃ os /\ apart os
  end.

(** The live set [L] holds the pairwise disjoint sets [os]. *)
Definition holds (L : gset Z) (os : list (gset Z)) : Prop := apart os /\ ⋃ os ⊆ L.

Lemma apart_mid l1 X l2 : apart (l1 ++ X :: l2) <-> X ## ⋃ (l1 ++ l2) /\ apart (l1 ++ l2).
Proof.
  induction l1 as [| P l1 IH]; cbn; [done |].
  rewrite IH, !union_list_app_L. cbn. set_solver.
Qed.

Lemma union_mid l1 (X : gset Z) l2 : ⋃ (l1 ++ X :: l2) = X ∪ ⋃ (l1 ++ l2).
Proof. rewrite !union_list_app_L. cbn. set_solver. Qed.

Lemma holds_update l1 X l2 L Y L' :
  holds L (l1 ++ X :: l2) -> L' ∖ Y = L ∖ X -> Y ⊆ L' ->
  holds L' (l1 ++ Y :: l2) /\ L' ∖ ⋃ (l1 ++ Y :: l2) = L ∖ ⋃ (l1 ++ X :: l2).
Proof.
  unfold holds. rewrite !apart_mid, !union_mid. generalize (⋃ (l1 ++ l2)). intros P ((Hd & Ha) & Hs) Hf Ho.
  assert (HP : P ⊆ L' ∖ Y) by set_solver.
  split; [split; [split; [set_solver | done] | set_solver] |].
  rewrite <- !difference_difference_l_L, Hf. done.
Qed.

Lemma holds_sub L os X : holds L os -> X ∈ os -> X ⊆ L.
Proof. intros [_ Hs] HO. intros x Hx. apply Hs, elem_of_union_list. eauto. Qed.

(** A new owner, and the end of one. *)
Lemma holds_new l1 Y l2 L L' :
  holds L (l1 ++ l2) -> L' ∖ Y = L -> Y ⊆ L' ->
  holds L' (l1 ++ Y :: l2) /\ L' ∖ ⋃ (l1 ++ Y :: l2) = L ∖ ⋃ (l1 ++ l2).
Proof.
  unfold holds. rewrite !apart_mid, !union_mid. generalize (⋃ (l1 ++ l2)). intros P (Ha & Hs) Hf Ho.
  assert (HP : P ⊆ L' ∖ Y) by set_solver.
  split; [split; [split; [set_solver | done] | set_solver] |].
  rewrite <- !difference_difference_l_L, Hf. done.
Qed.

Lemma holds_end l1 X l2 L L' :
  holds L (l1 ++ X :: l2) -> L' = L ∖ X ->
  holds L' (l1 ++ l2) /\ L' ∖ ⋃ (l1 ++ l2) = L ∖ ⋃ (l1 ++ X :: l2).
Proof.
  unfold holds. rewrite !apart_mid, !union_mid. generalize (⋃ (l1 ++ l2)). intros P ((Hd & Ha) & Hs) ->.
  split; [split; [done | set_solver] | set_solver].
Qed.
