(* ===== verification/Bag.v ===== *)
(** * Bag: the entries of a pointer structure

    The hash table, the red-black tree and the skip list hold their pairs in
    separately allocated nodes. Whatever the shape of the structure, what it
    stores is a collection of entries (a key, a value, the addresses of the
    blocks the entry owns) in some order. This file has the ownership and map
    lemmas of such collections: adding an entry, removing one, replacing the
    value block of one. The engines supply the entry that changes. *)

From S2P Require Import Prelude Alloc Engine.

(** [en_addrs] starts with the block of the value. *)
Record entry := Entry { en_key : list Z; en_val : list Z; en_addrs : list Z }.

Definition en_pair (e : entry) : list Z * list Z := (en_key e, en_val e).

Definition bag_map (es : list entry) : kvmap := list_to_map (en_pair <$> es).
Definition bag_addrs (base : list Z) (es : list entry) : list Z := base ++ (es ≫= en_addrs).
Definition bag_owned (base : list Z) (es : list entry) : gset Z := list_to_set (bag_addrs base es).

Record bag_ok (base : list Z) (es : list entry) : Prop := {
  bo_keys : NoDup (en_pair <$> es).*1;
  bo_addrs : NoDup (bag_addrs base es)
}.

Lemma bag_keys_eq es : (en_pair <$> es).*1 = en_key <$> es.
Proof. rewrite <- list_fmap_compose. by apply list_fmap_ext. Qed.

Lemma bag_ok_perm base es es' : es ≡ₚ es' -> bag_ok base es -> bag_ok base es'.
Proof. intros Hp [Hk Ha]. unfold bag_addrs in *. split; unfold bag_addrs; by rewrite <- Hp. Qed.

Lemma bag_owned_perm base es es' : es ≡ₚ es' -> bag_owned base es = bag_owned base es'.
Proof. intros Hp. unfold bag_owned, bag_addrs. apply set_eq. intros x. rewrite !elem_of_list_to_set. by rewrite Hp. Qed.

Lemma bag_map_perm base es es' : bag_ok base es -> es ≡ₚ es' -> bag_map es = bag_map es'.
Proof. intros [Hk _] Hp. apply list_to_map_proper; [done |]. by rewrite Hp. Qed.

Lemma bag_owned_cons base e es :
  bag_owned base (e :: es) = list_to_set (en_addrs e) ∪ bag_owned base es.
Proof.
  unfold bag_owned, bag_addrs. change ((e :: es) ≫= en_addrs) with (en_addrs e ++ (es ≫= en_addrs)).
  rewrite !list_to_set_app_L. clear. set_solver.
Qed.

Lemma bag_addrs_cons base e es : bag_addrs base (e :: es) ≡ₚ en_addrs e ++ bag_addrs base es.
Proof.
  unfold bag_addrs. change ((e :: es) ≫= en_addrs) with (en_addrs e ++ (es ≫= en_addrs)).
  apply Permutation_app_swap_app.
Qed.

Lemma bag_lookup_none es k : bag_map es !! k = None <-> Forall (fun e => en_key e <> k) es.
Proof.
  unfold bag_map. rewrite <- list_to_map_fresh, bag_keys_eq, Forall_forall, list_elem_of_fmap.
  naive_solver.
Qed.

Lemma bag_lookup_some base es e : bag_ok base es -> e ∈ es -> bag_map es !! en_key e = Some (en_val e).
Proof.
  intros [Hk _] He. apply elem_of_list_to_map_1; [done |]. by apply (list_elem_of_fmap_2 en_pair).
Qed.

Section Bag.
Context {A : Type} `{AllocatorLaws A}.
Implicit Types (a : A) (es : list entry).

Definition bag_wf (base : list Z) es a : Prop :=
  bag_ok base es /\ al_inv a /\ bag_owned base es ⊆ al_live a.

Definition bag_frame base es a es' a' : Prop :=
  al_live a' ∖ bag_owned base es' = al_live a ∖ bag_owned base es.

Lemma bag_frame_refl base es a a' : al_live a' = al_live a -> bag_frame base es a es a'.
Proof. unfold bag_frame. by intros ->. Qed.

Lemma bag_wf_same base es a a' :
  bag_wf base es a -> al_inv a' -> al_live a' = al_live a -> bag_wf base es a'.
Proof. intros (Hok & _ & Ho) Hi Hl. split; [done |]. by rewrite Hl. Qed.

Lemma bag_add base es e a a' :
  bag_wf base es a -> bag_map es !! en_key e = None ->
  NoDup (en_addrs e) -> list_to_set (en_addrs e) ## al_live a ->
  al_live a' = list_to_set (en_addrs e) ∪ al_live a -> al_inv a' ->
  bag_wf base (e :: es) a' /\ bag_frame base es a (e :: es) a' /\
  bag_map (e :: es) = <[en_key e := en_val e]> (bag_map es).
Proof.
  intros ([Hk Ha] & Hi & Ho) Hf Hnd Hd Hl Hi'. split; [split; [split | split] |].
  - cbn. constructor; [by apply list_to_map_fresh | done].
  - rewrite bag_addrs_cons. apply NoDup_app. split; [done |]. split; [| done].
    intros x Hx Hx'. apply (Hd x); [by apply elem_of_list_to_set |].
    apply Ho. by apply elem_of_list_to_set.
  - done.
  - rewrite bag_owned_cons, Hl. by apply owned_grow.
  - split; [| done]. unfold bag_frame. rewrite bag_owned_cons, Hl. by apply frame_grow.
Qed.

Lemma bag_remove base es e a a' :
  bag_wf base (e :: es) a -> al_live a' = al_live a ∖ list_to_set (en_addrs e) -> al_inv a' ->
  bag_wf base es a' /\ bag_frame base (e :: es) a es a' /\
  bag_map es = delete (en_key e) (bag_map (e :: es)).
Proof.
  intros ([Hk Ha] & Hi & Ho) Hl Hi'. cbn in Hk. apply NoDup_cons in Hk as [Hk1 Hk2].
  rewrite bag_addrs_cons in Ha. apply NoDup_app in Ha as (Hx1 & Hx2 & Hx3).
  rewrite bag_owned_cons in Ho. split; [split; [done | split; [done |]] |].
  - rewrite Hl. apply owned_shrink; [done |]. intros x.
    unfold bag_owned. rewrite !elem_of_list_to_set. apply Hx2.
  - split.
    + unfold bag_frame. rewrite bag_owned_cons, Hl. apply frame_shrink.
    + unfold bag_map. cbn. rewrite delete_insert_id; [done |]. by apply list_to_map_fresh.
Qed.

Lemma bag_replace base es k v v' x y xs a a' :
  bag_wf base (Entry k v (x :: xs) :: es) a -> y ∉ al_live a ∖ {[x]} ->
  al_live a' = {[y]} ∪ (al_live a ∖ {[x]}) -> al_inv a' ->
  bag_wf base (Entry k v' (y :: xs) :: es) a' /\
  bag_frame base (Entry k v (x :: xs) :: es) a (Entry k v' (y :: xs) :: es) a' /\
  bag_map (Entry k v' (y :: xs) :: es) = <[k := v']> (bag_map (Entry k v (x :: xs) :: es)).
Proof.
  intros ([Hk Ha] & Hi & Ho) Hy Hl Hi'.
  assert (HO : forall v z, bag_owned base (Entry k v (z :: xs) :: es)
    = {[z]} ∪ (list_to_set xs ∪ bag_owned base es)).
  { intros w z. rewrite bag_owned_cons. cbn. clear. set_solver. }
  rewrite bag_addrs_cons in Ha. cbn in Ha. apply NoDup_cons in Ha as [Hx Ha].
  assert (Hx' : x ∉ list_to_set xs ∪ bag_owned base es).
  { unfold bag_owned. rewrite <- list_to_set_app_L, elem_of_list_to_set. done. }
  rewrite HO in Ho. split; [split; [split | split] |].
  - done.
  - rewrite bag_addrs_cons. cbn. apply NoDup_cons. split; [| done]. intros Hin. apply Hy.
    assert (Hin' : y ∈ (list_to_set xs ∪ bag_owned base es : gset Z)).
    { unfold bag_owned. rewrite <- list_to_set_app_L. by apply elem_of_list_to_set. }
    clear - Hin' Ho Hx'. set_solver.
  - done.
  - rewrite HO, Hl. by apply owned_swap.
  - split.
    + unfold bag_frame. rewrite !HO, Hl.
      rewrite frame_grow by (clear - Hy; set_solver). apply frame_shrink.
    + unfold bag_map. cbn. by rewrite insert_insert_eq.
Qed.

Lemma not_in_diff (L X : gset Z) y : y ∉ L -> y ∉ L ∖ X.
Proof. set_solver. Qed.

(** Releasing a list of live, distinct blocks. *)
Lemma free_all ps a :
  al_inv a -> NoDup ps -> list_to_set ps ⊆ al_live a ->
  al_live (fold_left (fun a p => kvs_free p a) ps a) = al_live a ∖ list_to_set ps /\
  al_inv (fold_left (fun a p => kvs_free p a) ps a).
Proof.
  revert a. induction ps as [| p ps IH]; intros a Hi Hnd Hl; cbn in *.
  - split; [set_solver | done].
  - apply NoDup_cons in Hnd as [Hp Hnd].
    destruct (free_live p a) as [L1 I1]; [done | set_solver |].
    destruct (IH (kvs_free p a)) as [L2 I2]; [done | done | rewrite L1; set_solver |].
    split; [| done]. rewrite L2, L1. clear. set_solver.
Qed.

End Bag.

(** Permutation of the entries, as the engines rearrange them. *)
Section BagPerm.
Context {A : Type} `{AllocatorLaws A}.

Lemma bag_wf_perm base es es' (a : A) : es ≡ₚ es' -> bag_wf base es a -> bag_wf base es' a.
Proof.
  intros Hp (Hok & Hi & Ho). split; [by eapply bag_ok_perm |]. split; [done |].
  by rewrite <- (bag_owned_perm _ _ _ Hp).
Qed.

Lemma bag_frame_perm base es es' es1 es1' (a a' : A) :
  es ≡ₚ es' -> es1 ≡ₚ es1' -> bag_frame base es a es1 a' -> bag_frame base es' a es1' a'.
Proof.
  intros Hp Hp1. unfold bag_frame. by rewrite (bag_owned_perm _ _ _ Hp), (bag_owned_perm _ _ _ Hp1).
Qed.

(** The three changes for engines whose entries before and after are given up
    to permutation. *)
Lemma bag_add_perm base es es' e (a a' : A) :
  bag_wf base es a -> es' ≡ₚ e :: es -> bag_map es !! en_key e = None ->
  NoDup (en_addrs e) -> list_to_set (en_addrs e) ## al_live a ->
  al_live a' = list_to_set (en_addrs e) ∪ al_live a -> al_inv a' ->
  bag_wf base es' a' /\ bag_frame base es a es' a' /\
  bag_map es' = <[en_key e := en_val e]> (bag_map es).
Proof.
  intros Hwf Hp Hf Hnd Hd Hl Hi. destruct (bag_add base es e a a') as (Hw & Hfr & Hm); try done.
  symmetry in Hp. split; [by eapply bag_wf_perm |]. split; [by eapply bag_frame_perm |].
  rewrite <- Hm. symmetry. eapply bag_map_perm; [apply Hw | done].
Qed.

Lemma bag_remove_perm base es es' e (a a' : A) :
  bag_wf base es a -> es ≡ₚ e :: es' ->
  al_live a' = al_live a ∖ list_to_set (en_addrs e) -> al_inv a' ->
  bag_wf base es' a' /\ bag_frame base es a es' a' /\
  bag_map es' = delete (en_key e) (bag_map es).
Proof.
  intros Hwf Hp Hl Hi. assert (Hwf' : bag_wf base (e :: es') a) by (by eapply bag_wf_perm).
  destruct (bag_remove base es' e a a') as (Hw & Hfr & Hm); try done.
  split; [done |]. split; [eapply bag_frame_perm; [symmetry; exact Hp | reflexivity | done] |].
  rewrite Hm. f_equal. symmetry. eapply bag_map_perm; [apply Hwf | done].
Qed.

Lemma bag_replace_perm base es es' es0 k v v' x y xs (a a' : A) :
  bag_wf base es a -> es ≡ₚ Entry k v (x :: xs) :: es0 -> es' ≡ₚ Entry k v' (y :: xs) :: es0 ->
  y ∉ al_live a ∖ {[x]} -> al_live a' = {[y]} ∪ (al_live a ∖ {[x]}) -> al_inv a' ->
  bag_wf base es' a' /\ bag_frame base es a es' a' /\ bag_map es' = <[k := v']> (bag_map es).
Proof.
  intros Hwf Hp Hp' Hy Hl Hi.
  assert (Hwf' : bag_wf base (Entry k v (x :: xs) :: es0) a) by (by eapply bag_wf_perm).
  destruct (bag_replace base es0 k v v' x y xs a a') as (Hw & Hfr & Hm); try done.
  split; [by eapply bag_wf_perm |].
  split; [eapply bag_frame_perm; [symmetry; exact Hp | symmetry; exact Hp' | done] |].
  rewrite (bag_map_perm _ _ _ (proj1 Hwf) Hp), <- Hm. symmetry. eapply bag_map_perm; [apply Hw | done].
Qed.

Lemma bag_map_mem base es e k (a : A) :
  bag_wf base es a -> e ∈ es -> en_key e = k -> bag_map es !! k = Some (en_val e).
Proof. intros (Hok & _ & _) He <-. by eapply bag_lookup_some. Qed.

(** Two entries exchange the last of their blocks. *)
Lemma bag_swap base es k v xs p k' v' ys q (a : A) :
  bag_wf base (Entry k v (xs ++ [p]) :: Entry k' v' (ys ++ [q]) :: es) a ->
  bag_wf base (Entry k v (xs ++ [q]) :: Entry k' v' (ys ++ [p]) :: es) a /\
  bag_owned base (Entry k v (xs ++ [q]) :: Entry k' v' (ys ++ [p]) :: es)
  = bag_owned base (Entry k v (xs ++ [p]) :: Entry k' v' (ys ++ [q]) :: es).
Proof.
  intros ([Hk Ha] & Hi & Ho).
  assert (Hp : forall p q, bag_addrs base (Entry k v (xs ++ [p]) :: Entry k' v' (ys ++ [q]) :: es)
    ≡ₚ p :: q :: xs ++ ys ++ bag_addrs base es).
  { intros x y. rewrite !bag_addrs_cons. cbn [en_addrs]. rewrite <- !app_assoc. cbn.
    rewrite <- Permutation_middle. constructor.
    rewrite (app_assoc xs), (app_assoc xs). rewrite <- Permutation_middle. done. }
  assert (Hsame : bag_owned base (Entry k v (xs ++ [q]) :: Entry k' v' (ys ++ [p]) :: es)
    = bag_owned base (Entry k v (xs ++ [p]) :: Entry k' v' (ys ++ [q]) :: es)).
  { unfold bag_owned. apply set_eq. intros x. rewrite !elem_of_list_to_set, !Hp. by rewrite Permutation_swap. }
  split; [| done]. split; [split |].
  - exact Hk.
  - rewrite Hp, Permutation_swap, <- Hp. done.
  - split; [done |]. by rewrite Hsame.
Qed.

End BagPerm.
