(* ===== verification/Array.v ===== *)
(** * Array: the array engine (kvs-engine/kvs_array.c)

    A fixed table of [KVS_ARRAY_SIZE] slots; a free slot has a NULL key. Every
    operation scans the table from the start. The capacity is a parameter of
    the definitions so that small instances can be evaluated; the program's
    value is [KVS_ARRAY_SIZE]. The instance pointer is the address of the
    global [global_array] in every call, so its NULL tests are not modelled. *)

From S2P Require Import Prelude Alloc Engine.

(** [kvs_array_item_t] *)
Record kvs_array_item_t := Item { key : option block; value : option block }.

(** [kvs_array_t]: [table] is the address of the block and its cells, [None]
    for NULL. *)
Record kvs_array_t := Array { table : option (Z * list kvs_array_item_t); idx : Z; total : Z }.

Definition KVS_ARRAY_SIZE : Z := 102400.

(** [strcmp(table[i].key, key) == 0] with the NULL test of the key before it. *)
Definition item_matches (k : list Z) (it : kvs_array_item_t) : bool :=
  match key it with
  | None => false
  | Some b => strcmp (b_str b) k =? 0
  end.

Definition item_free (it : kvs_array_item_t) : bool :=
  match key it with None => true | Some _ => false end.

Section ArrayOps.
Context {A : Type} `{Allocator A}.
Variable SIZE : Z.

(** [kvs_array_create]; [cells] is what the fresh block contains, which the
    code does not initialise. *)
Definition kvs_array_create (inst : kvs_array_t) (cells : list kvs_array_item_t) (a : A)
    : Z * kvs_array_t * A :=
  match table inst with
  | Some _ => (-1, inst, a)
  | None =>
      match kvs_malloc (SIZE * 16) a with
      | (None, a) => (-1, inst, a)
      | (Some p, a) => (0, Array (Some (p, cells)) (idx inst) 0, a)
      end
  end.

Definition free_item (a : A) (it : kvs_array_item_t) : A :=
  let a := match key it with Some b => kvs_free (b_addr b) a | None => a end in
  match value it with Some b => kvs_free (b_addr b) a | None => a end.

(** [kvs_array_destory] *)
Definition kvs_array_destory (inst : kvs_array_t) (a : A) : kvs_array_t * A :=
  match table inst with
  | Some (p, cells) =>
      (Array None (idx inst) (total inst), kvs_free p (fold_left free_item cells a))
  | None => (Array None (idx inst) (total inst), a)
  end.

(** [kvs_array_get] *)
Definition kvs_array_get (inst : kvs_array_t) (k : cptr) : res (option block) :=
  match k with
  | None => Ok None
  | Some k =>
      '(_, cells) ← of_option (table inst);
      match find_idx (item_matches k) cells with
      | Some (_, it) => Ok (value it)
      | None => Ok None
      end
  end.

(** [kvs_array_set] *)
Definition kvs_array_set (inst : kvs_array_t) (k v : cptr) (a : A) : res (Z * kvs_array_t * A) :=
  match k, v with
  | Some ks, Some vs =>
      if total inst =? SIZE then Ok (-1, inst, a) else
      str ← kvs_array_get inst k;
      match str with
      | Some _ => Ok (1, inst, a)
      | None =>
          match dup_str ks a with
          | (None, a) => Ok (-2, inst, a)
          | (Some kcopy, a) =>
              match dup_str vs a with
              | (None, a) => Ok (-2, inst, kvs_free (b_addr kcopy) a)
              | (Some kvalue, a) =>
                  '(p, cells) ← of_option (table inst);
                  match find_idx item_free cells with
                  | Some (i, _) =>
                      Ok (0, Array (Some (p, <[i := Item (Some kcopy) (Some kvalue)]> cells))
                               (idx inst) (total inst + 1), a)
                  | None => Ok (0, inst, a)
                  end
              end
          end
      end
  | _, _ => Ok (-1, inst, a)
  end.

(** [kvs_array_del]; an absent key answers the final value of [i]. *)
Definition kvs_array_del (inst : kvs_array_t) (k : cptr) (a : A) : res (Z * kvs_array_t * A) :=
  match k with
  | None => Ok (-1, inst, a)
  | Some ks =>
      '(p, cells) ← of_option (table inst);
      match find_idx (item_matches ks) cells with
      | Some (i, it) =>
          Ok (0, Array (Some (p, <[i := Item None None]> cells)) (idx inst) (total inst - 1),
              free_item a it)
      | None => Ok (SIZE, inst, a)
      end
  end.

(** [kvs_array_mod] *)
Definition kvs_array_mod (inst : kvs_array_t) (k v : cptr) (a : A) : res (Z * kvs_array_t * A) :=
  match k, v with
  | Some ks, Some vs =>
      if total inst =? 0 then Ok (SIZE, inst, a) else
      '(p, cells) ← of_option (table inst);
      match find_idx (item_matches ks) cells with
      | Some (i, it) =>
          match dup_str vs a with
          | (None, a) => Ok (-2, inst, a)
          | (Some kvalue, a) =>
              let a := match value it with Some b => kvs_free (b_addr b) a | None => a end in
              Ok (0, Array (Some (p, <[i := Item (key it) (Some kvalue)]> cells))
                       (idx inst) (total inst), a)
          end
      | None => Ok (SIZE, inst, a)
      end
  | _, _ => Ok (-1, inst, a)
  end.

(** [kvs_array_exist] *)
Definition kvs_array_exist (inst : kvs_array_t) (k : cptr) : res Z :=
  match k with
  | None => Ok (-1)
  | Some _ => str ← kvs_array_get inst k; Ok (match str with Some _ => 0 | None => 1 end)
  end.

End ArrayOps.

(** ** Abstraction and invariant *)

(** The pair a slot holds. *)
Definition item_pair (it : kvs_array_item_t) : option (list Z * list Z) :=
  match key it, value it with
  | Some k, Some v => Some (b_str k, b_str v)
  | _, _ => None
  end.

Definition item_addrs (it : kvs_array_item_t) : list Z :=
  match key it, value it with
  | Some k, Some v => [b_addr k; b_addr v]
  | _, _ => []
  end.

(** Key and value of a slot are both present or both NULL. *)
Definition item_ok (it : kvs_array_item_t) : Prop := is_Some (key it) <-> is_Some (value it).

Definition array_cells (inst : kvs_array_t) : list kvs_array_item_t :=
  match table inst with Some (_, cells) => cells | None => [] end.

Definition array_map (inst : kvs_array_t) : kvmap := list_to_map (omap item_pair (array_cells inst)).

Definition array_owned (inst : kvs_array_t) : gset Z :=
  match table inst with
  | Some (p, cells) => {[p]} ∪ list_to_set (cells ≫= item_addrs)
  | None => ∅
  end.

Record array_inv (SIZE : Z) (inst : kvs_array_t) : Prop := {
  ai_table : is_Some (table inst);
  ai_size : zlen (array_cells inst) = SIZE;
  ai_items : Forall item_ok (array_cells inst);
  ai_total : total inst = zlen (omap item_pair (array_cells inst));
  ai_keys : NoDup (omap item_pair (array_cells inst)).*1;
  ai_addrs : forall p cells, table inst = Some (p, cells) -> NoDup (p :: (cells ≫= item_addrs))
}.

#[export] Instance array_engine {A} `{Allocator A} (SIZE : Z) : Engine A kvs_array_t := {
  e_set := kvs_array_set SIZE;
  e_get := fun e k => res_map (option_map b_str) (kvs_array_get e k);
  e_del := kvs_array_del SIZE;
  e_mod := kvs_array_mod SIZE;
  e_exist := kvs_array_exist;
  e_map := array_map;
  e_owned := array_owned;
  e_inv := array_inv SIZE;
  e_full := fun m => Z.of_nat (size m) =? SIZE;
  e_del_absent := SIZE
}.

(** ** Lemmas on slots *)

Lemma item_matches_pair k it :
  item_ok it -> item_matches k it = true ->
  exists kb vb, it = Item (Some kb) (Some vb) /\ b_str kb = k.
Proof.
  destruct it as [[kb |] ov]; unfold item_ok, item_matches; cbn; [| done].
  intros [Hv _] Hm. destruct (Hv ltac:(eauto)) as [vb ->]. exists kb, vb. split; [done |].
  apply Z.eqb_eq in Hm. by apply strcmp_eq.
Qed.

Lemma item_mismatch_key k it kv : item_matches k it = false -> item_pair it = Some kv -> kv.1 <> k.
Proof.
  destruct it as [[kb |] [vb |]]; unfold item_matches, item_pair; cbn; try done.
  intros Hm [= <-]. cbn. intros <-. by rewrite strcmp_refl in Hm.
Qed.

Lemma item_free_empty it : item_ok it -> item_free it = true -> it = Item None None.
Proof.
  destruct it as [[kb |] [vb |]]; unfold item_ok, item_free; cbn; try done.
  intros [_ Hk]. destruct (Hk ltac:(eauto)). done.
Qed.

Lemma mismatch_not_in k cells :
  Forall (fun it => item_matches k it = false) cells -> k ∉ (omap item_pair cells).*1.
Proof.
  intros Hall Hin. apply list_elem_of_fmap in Hin as ([k' v'] & -> & Hin).
  apply list_elem_of_omap in Hin as (it & Hit & Hp).
  rewrite Forall_forall in Hall. apply (item_mismatch_key k' it (k', v')); [by apply Hall | done..].
Qed.

(** Without a free slot every slot is used. *)
Lemma no_free_full cells :
  Forall item_ok cells -> Forall (fun it => item_free it = false) cells ->
  zlen (omap item_pair cells) = zlen cells.
Proof.
  intros Hok. induction Hok as [| it cells Hit Hok IH]; [done |].
  inversion 1 as [| ? ? Hf Hfs]; subst. cbn. rewrite zlen_cons.
  destruct it as [[kb |] [vb |]]; unfold item_free, item_ok in *; cbn in *; try done.
  - rewrite zlen_cons, IH by done. done.
  - destruct Hit as [Hv _]. destruct (Hv ltac:(eauto)). done.
Qed.

Section ArrayFacts.
Context {A : Type} `{AllocatorLaws A}.
Variable SIZE : Z.
Implicit Types (inst : kvs_array_t) (a : A).

Lemma array_inv_cells inst :
  array_inv SIZE inst -> exists p cells i n, inst = Array (Some (p, cells)) i n.
Proof. intros [[[p cells] Ht] _ _ _ _ _]. destruct inst. cbn in Ht. subst. eauto. Qed.

(** The scan finds the slot of a key that is stored and nothing else. *)
Lemma array_find inst k :
  array_inv SIZE inst ->
  match find_idx (item_matches k) (array_cells inst) with
  | Some (i, it) => exists l1 l2 kb vb, array_cells inst = l1 ++ it :: l2 /\ length l1 = i /\
      it = Item (Some kb) (Some vb) /\ b_str kb = k /\ array_map inst !! k = Some (b_str vb)
  | None => array_map inst !! k = None
  end.
Proof.
  intros Hinv. unfold array_map.
  destruct (find_idx _ _) as [[i it] |] eqn:Hf.
  - apply find_idx_some in Hf as (l1 & l2 & Hc & Hi & Hm & _).
    pose proof (ai_items _ _ Hinv) as Hok. rewrite Hc in Hok.
    apply Forall_app in Hok as [_ Hok]. inversion Hok as [| ? ? Hit _]; subst.
    destruct (item_matches_pair _ _ Hit Hm) as (kb & vb & -> & Hk).
    exists l1, l2, kb, vb. repeat split; try done.
    pose proof (ai_keys _ _ Hinv) as Hnd. rewrite Hc in Hnd |- *.
    rewrite omap_mid in Hnd |- *. cbn in Hnd |- *.
    rewrite list_to_map_mid by done. rewrite Hk. apply lookup_insert_eq.
  - apply list_to_map_fresh, mismatch_not_in. by apply find_idx_none.
Qed.

Lemma array_get_spec inst k :
  array_inv SIZE inst ->
  exists ob, kvs_array_get inst (Some k) = Ok ob /\ option_map b_str ob = array_map inst !! k.
Proof.
  intros Hinv. pose proof (array_find inst k Hinv) as Hf.
  destruct (array_inv_cells inst Hinv) as (p & cells & i & n & ->). cbn [array_cells table] in Hf.
  unfold kvs_array_get. cbn [table]. run.
  destruct (find_idx _ cells) as [[j it] |]; [| by exists None].
  destruct Hf as (l1 & l2 & kb & vb & _ & _ & -> & _ & ->). cbn. eauto.
Qed.

(** Replacing one slot of the table. *)
Lemma array_inv_replace p i n n' l1 l2 it it' :
  array_inv SIZE (Array (Some (p, l1 ++ it :: l2)) i n) -> item_ok it' ->
  n' = zlen (omap item_pair (l1 ++ it' :: l2)) ->
  NoDup (omap item_pair (l1 ++ it' :: l2)).*1 ->
  NoDup (p :: ((l1 ++ it' :: l2) ≫= item_addrs)) ->
  array_inv SIZE (Array (Some (p, l1 ++ it' :: l2)) i n').
Proof.
  intros Hinv Hok Hn Hk Ha. split; cbn [array_cells table total] in *.
  - eauto.
  - rewrite <- (ai_size _ _ Hinv). cbn. by rewrite !zlen_app, !zlen_cons.
  - pose proof (ai_items _ _ Hinv) as Hi. cbn in Hi.
    apply Forall_app in Hi as [H1 H2]. inversion H2. apply Forall_app. split; [done | by constructor].
  - done.
  - done.
  - by intros ? ? [= <- <-].
Qed.

(** A slot filled with a key that no other slot has. *)
Lemma array_map_put p i n i' n' l1 l2 kb vb :
  NoDup (omap item_pair (l1 ++ Item (Some kb) (Some vb) :: l2)).*1 ->
  array_map (Array (Some (p, l1 ++ Item (Some kb) (Some vb) :: l2)) i' n')
  = <[b_str kb := b_str vb]> (array_map (Array (Some (p, l1 ++ Item None None :: l2)) i n)).
Proof.
  unfold array_map. cbn [array_cells table]. rewrite !omap_mid. cbn. apply list_to_map_mid.
Qed.

(** The empty slot does not hold the key of the filled one. *)
Lemma array_map_hole p i n l1 l2 kb vb :
  NoDup (omap item_pair (l1 ++ Item (Some kb) (Some vb) :: l2)).*1 ->
  array_map (Array (Some (p, l1 ++ Item None None :: l2)) i n) !! b_str kb = None.
Proof.
  unfold array_map. cbn [array_cells table]. rewrite !omap_mid. cbn.
  rewrite <- Permutation_middle. cbn. rewrite NoDup_cons. intros [Hn _]. by apply list_to_map_fresh.
Qed.

Definition array_result inst a (r : Z) (inst' : kvs_array_t) (a' : A) : Prop :=
  e_wf (ENG := array_engine SIZE) inst' a' /\ e_frame (ENG := array_engine SIZE) inst a inst' a'.

Lemma array_result_refl inst a r :
  e_wf (ENG := array_engine SIZE) inst a -> array_result inst a r inst a.
Proof. done. Qed.

Lemma array_set_spec inst a k v :
  e_wf (ENG := array_engine SIZE) inst a ->
  exists r inst' a', kvs_array_set SIZE inst (Some k) (Some v) a = Ok (r, inst', a') /\
    array_result inst a r inst' a' /\
    (set_spec (total inst =? SIZE) (array_map inst) k v r (array_map inst') \/
     r = -2 /\ inst' = inst /\ al_can_fail A).
Proof.
  intros Hwf. pose proof Hwf as (Hinv & Hal & Hown). unfold kvs_array_set.
  destruct (Z.eqb_spec (total inst) SIZE) as [Hfull | Hnf].
  { eexists _, _, _. split; [done |]. split; [done |]. left. by constructor. }
  destruct (array_get_spec inst k Hinv) as (ob & -> & Hob). run.
  destruct ob as [b |]; cbn in Hob.
  { eexists _, _, _. split; [done |]. split; [done |]. left. by eapply set_exists. }
  destruct (dup_str k a) as [[kc |] a1] eqn:Hd1.
  2: { destruct (dup_str_none _ _ _ Hal Hd1) as [Hl1 Hi1].
       eexists _, _, _. split; [done |]. unfold array_result, e_wf, e_frame. rewrite Hl1.
       eauto 10 using dup_str_fails. }
  destruct (dup_str_some _ _ _ _ Hal Hd1) as (Hks & Hkf & Hl1 & Hi1).
  destruct (dup_str v a1) as [[kv |] a2] eqn:Hd2.
  2: { destruct (dup_str_none _ _ _ Hi1 Hd2) as [Hl2 Hi2].
       destruct (free_live (b_addr kc) a2) as [Hl3 Hi3]; [done | set_solver |].
       assert (Hl : al_live (kvs_free (b_addr kc) a2) = al_live a) by set_solver.
       eexists _, _, _. split; [done |]. unfold array_result, e_wf, e_frame. rewrite Hl.
       eauto 10 using dup_str_fails. }
  destruct (dup_str_some _ _ _ _ Hi1 Hd2) as (Hvs & Hvf & Hl2 & Hi2).
  destruct (array_inv_cells inst Hinv) as (p & cells & i & n & ->). cbn [table total idx] in *. run.
  destruct (find_idx item_free cells) as [[j it] |] eqn:Hfree.
  2: { exfalso. apply Hnf. pose proof (ai_total _ _ Hinv) as Ht. cbn [total] in Ht.
       rewrite Ht, <- (ai_size _ _ Hinv).
       apply no_free_full; [apply Hinv | by apply find_idx_none]. }
  apply find_idx_some in Hfree as (l1 & l2 & -> & <- & Hfr & _). rewrite insert_mid.
  pose proof (ai_items _ _ Hinv) as Hok. cbn in Hok. apply Forall_app in Hok as [Hok1 Hok2].
  inversion Hok2 as [| ? ? Hit Hok2']; subst. apply item_free_empty in Hfr as ->; [| done].
  pose proof (ai_keys _ _ Hinv) as Hnk. pose proof (ai_addrs _ _ Hinv p _ eq_refl) as Hna.
  pose proof (ai_total _ _ Hinv) as Hn. unfold array_map in Hob.
  cbn [array_cells table total] in Hnk, Hn, Hob. rewrite omap_mid in Hnk, Hn, Hob. cbn in Hnk, Hn, Hob.
  rewrite bind_mid in Hna. cbn in Hna.
  change (e_owned _) with (array_owned (Array (Some (p, l1 ++ Item None None :: l2)) i n)) in Hown.
  assert (Hlive : al_live a2 = {[b_addr kc; b_addr kv]} ∪ al_live a)
    by (rewrite Hl2, Hl1; clear; set_solver).
  assert (Hgrow : array_owned (Array (Some (p, l1 ++ Item (Some kc) (Some kv) :: l2)) i (n + 1))
    = {[b_addr kc; b_addr kv]} ∪ array_owned (Array (Some (p, l1 ++ Item None None :: l2)) i n)).
  { cbn [array_owned table]. rewrite !bind_mid. cbn. clear. set_solver. }
  eexists _, _, _. split; [done |]. split.
  - split; [split; [| split] |].
    + eapply array_inv_replace; [done | done | | |].
      * rewrite omap_mid. cbn. rewrite zlen_app, zlen_cons, Hn, zlen_app. lia.
      * rewrite omap_mid. cbn. rewrite <- Permutation_middle. cbn. constructor; [| done].
        by apply list_to_map_fresh.
      * rewrite bind_mid. cbn. apply NoDup_mid2.
        cbn [array_owned table] in Hown. rewrite bind_mid in Hown. cbn in Hown.
        constructor; [clear - Hkf Hvf Hl1 Hown; set_solver |]. constructor; [clear - Hvf Hl1 Hown; set_solver | done].
    + done.
    + cbn [e_owned array_engine]. rewrite Hgrow, Hlive. by apply owned_grow.
    + unfold e_frame. cbn [e_owned array_engine]. rewrite Hgrow, Hlive. apply frame_grow. clear - Hkf Hvf Hl1. set_solver.
  - left. rewrite (array_map_put p i n) by (cbn; rewrite omap_mid; cbn;
      rewrite <- Permutation_middle; cbn; constructor; [by apply list_to_map_fresh | done]).
    apply set_new; [done |]. unfold array_map. cbn [array_cells table]. by rewrite omap_mid.
Qed.

Lemma array_del_spec inst a k :
  e_wf (ENG := array_engine SIZE) inst a ->
  exists r inst' a', kvs_array_del SIZE inst (Some k) a = Ok (r, inst', a') /\
    array_result inst a r inst' a' /\ del_spec SIZE (array_map inst) k r (array_map inst').
Proof.
  intros Hwf. pose proof Hwf as (Hinv & Hal & Hown). unfold kvs_array_del.
  pose proof (array_find inst k Hinv) as Hf.
  destruct (array_inv_cells inst Hinv) as (p & cells & i & n & ->). cbn [table total idx array_cells] in *.
  run. destruct (find_idx (item_matches k) cells) as [[j it] |].
  2: { eexists _, _, _. split; [done |]. split; [done |]. by constructor. }
  destruct Hf as (l1 & l2 & kb & vb & -> & <- & -> & Hk & Hm). rewrite insert_mid. unfold free_item. cbn [key value].
  pose proof (ai_keys _ _ Hinv) as Hnk. pose proof (ai_addrs _ _ Hinv p _ eq_refl) as Hna.
  pose proof (ai_total _ _ Hinv) as Hn. cbn [array_cells table total] in Hnk, Hn.
  change (e_owned _) with (array_owned (Array (Some (p, l1 ++ Item (Some kb) (Some vb) :: l2)) i n)) in Hown.
  assert (Hgrow : array_owned (Array (Some (p, l1 ++ Item (Some kb) (Some vb) :: l2)) i n)
    = {[b_addr kb; b_addr vb]} ∪ array_owned (Array (Some (p, l1 ++ Item None None :: l2)) i (n - 1))).
  { cbn [array_owned table]. rewrite !bind_mid. cbn. clear. set_solver. }
  pose proof Hna as Hna2. rewrite bind_mid in Hna2. cbn in Hna2. apply NoDup_mid2 in Hna2.
  apply NoDup_cons in Hna2 as [Hk1 Hna2]. apply NoDup_cons in Hna2 as [Hv1 Hna2].
  rewrite Hgrow in Hown.
  destruct (free_live (b_addr kb) a) as [Hl1 Hi1]; [done | clear - Hown; set_solver |].
  destruct (free_live (b_addr vb) (kvs_free (b_addr kb) a)) as [Hl2 Hi2];
    [done | rewrite Hl1; clear - Hown Hk1; set_solver |].
  assert (Hlive : al_live (kvs_free (b_addr vb) (kvs_free (b_addr kb) a))
    = al_live a ∖ {[b_addr kb; b_addr vb]}) by (rewrite Hl2, Hl1; clear; set_solver).
  assert (Hrest : {[b_addr kb; b_addr vb]} ## array_owned (Array (Some (p, l1 ++ Item None None :: l2)) i (n - 1))).
  { cbn [array_owned table]. rewrite bind_mid. cbn. clear - Hk1 Hv1. set_solver. }
  eexists _, _, _. split; [done |]. split.
  - split; [split; [| split] |].
    + eapply array_inv_replace; [done | done | | |].
      * rewrite omap_mid in Hn |- *. cbn in Hn |- *. rewrite zlen_app, zlen_cons in Hn.
        rewrite zlen_app. lia.
      * rewrite omap_mid in Hnk |- *. cbn in Hnk |- *. rewrite <- Permutation_middle in Hnk.
        by apply NoDup_cons in Hnk as [_ Hnk].
      * rewrite bind_mid. done.
    + done.
    + cbn [e_owned array_engine]. rewrite Hlive. by apply owned_shrink.
    + unfold e_frame. cbn [e_owned array_engine]. rewrite Hgrow, Hlive. apply frame_shrink.
  - rewrite <- Hk in Hm |- *. rewrite (array_map_put p i (n - 1)) in Hm |- * by done.
    rewrite <- (delete_insert_id (array_map (Array (Some (p, l1 ++ Item None None :: l2)) i (n - 1)))
      (b_str kb) (b_str vb)) at 2 by (by eapply array_map_hole).
    by eapply del_present.
Qed.

Lemma array_mod_spec inst a k v :
  e_wf (ENG := array_engine SIZE) inst a -> 0 < SIZE ->
  exists r inst' a', kvs_array_mod SIZE inst (Some k) (Some v) a = Ok (r, inst', a') /\
    array_result inst a r inst' a' /\
    (mod_spec (array_map inst) k v r (array_map inst') \/ r = -2 /\ inst' = inst /\ al_can_fail A).
Proof.
  intros Hwf Hsz. pose proof Hwf as (Hinv & Hal & Hown). unfold kvs_array_mod.
  pose proof (array_find inst k Hinv) as Hf. pose proof (ai_total _ _ Hinv) as Hn.
  destruct (Z.eqb_spec (total inst) 0) as [H0' | _].
  { eexists _, _, _. split; [done |]. split; [done |]. left. apply mod_missing; [| done].
    unfold array_map. rewrite H0' in Hn. destruct (omap item_pair _) as [| kv l]; [done |].
    rewrite zlen_cons in Hn. pose proof (zlen_nonneg l). lia. }
  destruct (array_inv_cells inst Hinv) as (p & cells & i & n & ->). cbn [table total idx array_cells] in *.
  run. destruct (find_idx (item_matches k) cells) as [[j it] |].
  2: { eexists _, _, _. split; [done |]. split; [done |]. left. by constructor. }
  destruct Hf as (l1 & l2 & kb & vb & -> & <- & -> & Hk & Hm). cbn [key value].
  destruct (dup_str v a) as [[nv |] a1] eqn:Hd.
  2: { destruct (dup_str_none _ _ _ Hal Hd) as [Hl1 Hi1].
       eexists _, _, _. split; [done |]. unfold array_result, e_wf, e_frame. rewrite Hl1.
       eauto 10 using dup_str_fails. }
  destruct (dup_str_some _ _ _ _ Hal Hd) as (Hvs & Hvf & Hl1 & Hi1). rewrite insert_mid.
  pose proof (ai_keys _ _ Hinv) as Hnk. pose proof (ai_addrs _ _ Hinv p _ eq_refl) as Hna.
  cbn [array_cells table total] in Hnk.
  change (e_owned _) with (array_owned (Array (Some (p, l1 ++ Item (Some kb) (Some vb) :: l2)) i n)) in Hown.
  set (O := array_owned (Array (Some (p, l1 ++ Item None None :: l2)) i n)).
  assert (HO : forall w, array_owned (Array (Some (p, l1 ++ Item (Some kb) (Some w) :: l2)) i n)
    = {[b_addr w]} ∪ ({[b_addr kb]} ∪ O)).
  { intros w. unfold O. cbn [array_owned table]. rewrite !bind_mid. cbn. clear. set_solver. }
  rewrite HO in Hown.
  assert (Hvo : b_addr vb ∉ {[b_addr kb]} ∪ O /\ b_addr kb ∉ O).
  { unfold O. cbn [array_owned table]. rewrite bind_mid in Hna |- *. cbn in Hna |- *.
    apply NoDup_mid2, NoDup_cons in Hna as [Hk1 Hna]. apply NoDup_cons in Hna as [Hv1 _].
    clear - Hk1 Hv1. set_solver. }
  destruct (free_live (b_addr vb) a1) as [Hl2 Hi2]; [done | rewrite Hl1; clear - Hown; set_solver |].
  assert (Hne : b_addr nv <> b_addr vb) by (intros He; apply Hvf; rewrite He; clear - Hown; set_solver).
  assert (Hlive : al_live (kvs_free (b_addr vb) a1) = {[b_addr nv]} ∪ (al_live a ∖ {[b_addr vb]}))
    by (rewrite Hl2, Hl1; clear - Hne; set_solver).
  eexists _, _, _. split; [done |]. split.
  - split; [split; [| split] |].
    + eapply array_inv_replace; [done | done | | |].
      * rewrite omap_mid in Hn |- *. cbn in Hn |- *. rewrite Hn, !zlen_app, !zlen_cons. done.
      * rewrite omap_mid in Hnk |- *. cbn in *. rewrite fmap_app in *. done.
      * rewrite bind_mid in Hna |- *. cbn in Hna |- *. apply NoDup_mid2. apply NoDup_mid2 in Hna.
        cbn [array_owned table] in HO. unfold O in *. cbn [array_owned table] in *. rewrite bind_mid in *. cbn in *.
        apply NoDup_cons in Hna as [Hk1 Hna]. apply NoDup_cons in Hna as [Hv1 Hna].
        constructor; [| constructor; [| done]]; clear - Hk1 Hown Hvf; set_solver.
    + done.
    + cbn [e_owned array_engine]. rewrite HO, Hlive. apply owned_swap; [done | apply Hvo].
    + unfold e_frame. cbn [e_owned array_engine]. rewrite !HO, Hlive.
      rewrite frame_grow by (clear - Hvf; set_solver). apply frame_shrink.
  - left. assert (Hnk' : NoDup (omap item_pair (l1 ++ Item (Some kb) (Some nv) :: l2)).*1)
      by (rewrite omap_mid in Hnk |- *; cbn in *; rewrite fmap_app in *; done).
    rewrite (array_map_put p i n i n _ _ kb nv) by done. rewrite <- Hvs, <- Hk in *.
    rewrite <- (insert_insert_eq _ (b_str kb) (b_str nv) (b_str vb)), <- (array_map_put p i n i n) by done.
    by eapply mod_present.
Qed.

Lemma array_exist_spec inst k :
  array_inv SIZE inst ->
  exists r, kvs_array_exist inst (Some k) = Ok r /\ (r = 0 <-> is_Some (array_map inst !! k)).
Proof.
  intros Hinv. unfold kvs_array_exist. destruct (array_get_spec inst k Hinv) as (ob & -> & <-). run.
  destruct ob as [b |]; cbn; eexists; (split; [done |]); split; try done; eauto.
Qed.

Lemma free_item_live a it :
  al_inv a -> item_ok it -> NoDup (item_addrs it) -> list_to_set (item_addrs it) ⊆ al_live a ->
  al_live (free_item a it) = al_live a ∖ list_to_set (item_addrs it) /\ al_inv (free_item a it).
Proof.
  destruct it as [[kb |] [vb |]]; unfold item_ok, item_addrs, free_item; cbn.
  - intros Hi _ Hnd Hl. apply NoDup_cons in Hnd as [Hn _].
    destruct (free_live (b_addr kb) a) as [H1 I1]; [done | set_solver |].
    destruct (free_live (b_addr vb) (kvs_free (b_addr kb) a)) as [H2 I2]; [done | set_solver |].
    split; [| done]. rewrite H2, H1. clear. set_solver.
  - intros _ [Hv _]. destruct (Hv ltac:(eauto)). done.
  - intros _ [_ Hk]. destruct (Hk ltac:(eauto)). done.
  - intros Hi _ _ _. split; [clear; set_solver | done].
Qed.

Lemma free_items_live cells a :
  al_inv a -> Forall item_ok cells -> NoDup (cells ≫= item_addrs) ->
  list_to_set (cells ≫= item_addrs) ⊆ al_live a ->
  al_live (fold_left free_item cells a) = al_live a ∖ list_to_set (cells ≫= item_addrs) /\
  al_inv (fold_left free_item cells a).
Proof.
  intros Hi Hok. revert a Hi. induction Hok as [| it cells Hit Hok IH]; intros a Hi Hnd Hl.
  - cbn. split; [clear; set_solver | done].
  - change ((it :: cells) ≫= item_addrs) with (item_addrs it ++ (cells ≫= item_addrs)) in *.
    rewrite list_to_set_app_L in Hl |- *. apply NoDup_app in Hnd as (H1 & H2 & H3). cbn [fold_left].
    destruct (free_item_live a it) as [L1 I1]; [done | done | done | set_solver |].
    destruct (IH (free_item a it)) as [L2 I2]; [done | done | rewrite L1; set_solver |].
    split; [| done]. rewrite L2, L1. clear. set_solver.
Qed.

(** [kvs_array_destory] releases every block of the engine. *)
Lemma array_destroy_spec inst a :
  e_wf (ENG := array_engine SIZE) inst a ->
  al_live (kvs_array_destory inst a).2 = al_live a ∖ array_owned inst /\
  al_inv (kvs_array_destory inst a).2.
Proof.
  intros (Hinv & Hal & Hown).
  pose proof (ai_items _ _ Hinv) as Hok.
  destruct (array_inv_cells inst Hinv) as (p & cells & i & n & ->).
  pose proof (ai_addrs _ _ Hinv p cells eq_refl) as Hnd. apply NoDup_cons in Hnd as [Hp Hnd].
  cbn [e_owned array_engine array_owned table array_cells] in *. unfold kvs_array_destory. cbn [table snd].
  destruct (free_items_live cells a) as [L1 I1]; [done | done | done | set_solver |].
  destruct (free_live p (fold_left free_item cells a)) as [L2 I2]; [done | rewrite L1; set_solver |].
  split; [| done]. rewrite L2, L1. clear. set_solver.
Qed.

Lemma omap_item_none n : omap item_pair (replicate n (Item None None)) = [].
Proof. by induction n. Qed.

Lemma addrs_item_none n : replicate n (Item None None) ≫= item_addrs = [].
Proof. by induction n. Qed.

(** A table whose fresh block is zeroed is a well-formed empty engine. *)
Lemma array_create_spec i n a p a' :
  al_inv a -> kvs_malloc (SIZE * 16) a = (Some p, a') -> 0 <= SIZE ->
  exists inst, kvs_array_create SIZE (Array None i n) (replicate (Z.to_nat SIZE) (Item None None)) a
      = (0, inst, a') /\
    e_wf (ENG := array_engine SIZE) inst a' /\ array_map inst = ∅ /\
    al_live a' ∖ array_owned inst = al_live a.
Proof.
  intros Hal Hm Hs. unfold kvs_array_create. cbn [table]. rewrite Hm.
  destruct (malloc_some _ _ _ _ Hal Hm) as (Hf & Hl & Hi).
  eexists. split; [done |]. unfold array_map. cbn [array_cells table idx].
  split; [split; [split | split] |]; cbn [array_cells table idx total].
  - eauto.
  - unfold zlen. rewrite length_replicate. lia.
  - by apply Forall_replicate.
  - by rewrite omap_item_none.
  - rewrite omap_item_none. constructor.
  - intros ? ? [= <- <-]. rewrite addrs_item_none. apply NoDup_singleton.
  - done.
  - cbn [e_owned array_engine array_owned table]. rewrite addrs_item_none, Hl. clear. set_solver.
  - rewrite omap_item_none. split; [done |].
    cbn [array_owned table]. rewrite addrs_item_none, Hl. cbn. clear - Hf. set_solver.
Qed.

(** The array engine implements the engine interface. *)
(** The counter the capacity test reads is the size of the stored map. *)
Lemma array_total_size inst : array_inv SIZE inst -> total inst = Z.of_nat (size (array_map inst)).
Proof.
  intros Hinv. rewrite (ai_total _ _ Hinv). unfold array_map, zlen. f_equal.
  by rewrite map_size_list_to_map by apply Hinv.
Qed.

#[export] Instance array_laws (Hsz : 0 < SIZE) :
  EngineLaws A kvs_array_t (H0 := array_engine SIZE).
Proof.
  split.
  - intros e a k v Hwf. destruct (array_set_spec e a k v Hwf) as (r & e' & a' & He & [Hw Hf] & Hs).
    rewrite (array_total_size e (proj1 Hwf)) in Hs.
    exists r, e', a'. repeat (split; [done |]). destruct Hs as [Hs | (-> & -> & Hc)]; [by left | by right].
  - intros e k Hinv. cbn [e_get e_map array_engine].
    destruct (array_get_spec e k Hinv) as (ob & -> & <-). done.
  - intros e a k Hwf. destruct (array_del_spec e a k Hwf) as (r & e' & a' & He & [Hw Hf] & Hs). eauto 10.
  - intros e a k v Hwf. destruct (array_mod_spec e a k v Hwf Hsz) as (r & e' & a' & He & [Hw Hf] & Hs).
    exists r, e', a'. repeat (split; [done |]). destruct Hs as [Hs | (-> & -> & Hc)]; [by left | by right].
  - intros e k Hinv. by apply array_exist_spec.
  - cbn. lia.
  - by intros e [k |] [v |] a [? | ?].
  - done.
  - intros e a. by eexists.
  - done.
  - intros e. by eexists.
Qed.

End ArrayFacts.
