(* ===== verification/Hash.v ===== *)
(** * Hash: the hash table engine (kvs-engine/kvs_hash.c)

    [max_slots] singly linked chains; new nodes go to the head of their chain.
    A chain is the list of its nodes in [next] order. The hash function
    [XXH3_64bits] of the vendored xxhash library is a parameter: every theorem
    holds for any function of the bytes of the key into the 64-bit integers.
    The number of slots is a parameter for the same reason as in Array. *)

From S2P Require Import Prelude Alloc Engine Bag.

(** [hashnode_t]; [n_addr] is the address of the node itself. *)
Record hashnode_t := HNode { n_addr : Z; h_key : block; h_value : block }.

(** [hashtable_t]: [nodes] is the block of chain heads, [None] for NULL. *)
Record kvs_hash_t := HashTable {
  nodes : option (Z * list (list hashnode_t));
  max_slots : Z;
  count : Z
}.

Definition MAX_TABLE_SIZE : Z := 1000000.

Definition node_matches (k : list Z) (n : hashnode_t) : bool := strcmp (b_str (h_key n)) k =? 0.

Section HashOps.
Context {A : Type} `{Allocator A}.
Variable XXH3_64bits : list Z -> Z.
Variable SIZE : Z.

(** [_hash] on a key that is not NULL. *)
Definition _hash (k : list Z) (size : Z) : Z := to_int (to_size_t (XXH3_64bits k) mod size).

(** [_create_node] *)
Definition _create_node (k v : list Z) (a : A) : option hashnode_t * A :=
  match kvs_malloc 24 a with
  | (None, a) => (None, a)
  | (Some p, a) =>
      match dup_str k a with
      | (None, a) => (None, kvs_free p a)
      | (Some kcopy, a) =>
          match dup_str v a with
          | (None, a) => (None, kvs_free (b_addr kcopy) (kvs_free p a))
          | (Some kvalue, a) => (Some (HNode p kcopy kvalue), a)
          end
      end
  end.

(** [kvs_hash_create]; [heads] is what the fresh block contains, which the
    code does not initialise. *)
Definition kvs_hash_create (hash : kvs_hash_t) (heads : list (list hashnode_t)) (a : A)
    : Z * kvs_hash_t * A :=
  match kvs_malloc (8 * SIZE) a with
  | (None, a) => (-1, HashTable None (max_slots hash) (count hash), a)
  | (Some p, a) => (0, HashTable (Some (p, heads)) SIZE 0, a)
  end.

Definition free_node (a : A) (n : hashnode_t) : A :=
  kvs_free (n_addr n) (kvs_free (b_addr (h_value n)) (kvs_free (b_addr (h_key n)) a)).

(** [kvs_hash_destory] *)
Definition kvs_hash_destory (hash : kvs_hash_t) (a : A) : res (kvs_hash_t * A) :=
  '(p, heads) ← of_option (nodes hash);
  Ok (HashTable None (max_slots hash) (count hash),
      kvs_free p (fold_left (fun a chain => fold_left free_node chain a) heads a)).

(** The chain of a key. *)
Definition chain_of (hash : kvs_hash_t) (k : list Z) : res (Z * list (list hashnode_t) * Z * list hashnode_t) :=
  let idx := _hash k SIZE in
  '(p, heads) ← of_option (nodes hash);
  c ← rd heads idx;
  Ok (p, heads, idx, c).

(** [kvs_hash_set] *)
Definition kvs_hash_set (hash : kvs_hash_t) (k v : cptr) (a : A) : res (Z * kvs_hash_t * A) :=
  match k, v with
  | Some ks, Some vs =>
      '(p, heads, idx, chain) ← chain_of hash ks;
      match find_idx (node_matches ks) chain with
      | Some _ => Ok (1, hash, a)
      | None =>
          match _create_node ks vs a with
          | (None, a) => Ok (-2, hash, a)
          | (Some new_node, a) =>
              heads ← wr heads idx (new_node :: chain);
              Ok (0, HashTable (Some (p, heads)) (max_slots hash) (count hash + 1), a)
          end
      end
  | _, _ => Ok (-1, hash, a)
  end.

(** [kvs_hash_get] *)
Definition kvs_hash_get (hash : kvs_hash_t) (k : cptr) : res (option block) :=
  match k with
  | None => Ok None
  | Some ks =>
      '(_, _, _, chain) ← chain_of hash ks;
      match find_idx (node_matches ks) chain with
      | Some (_, n) => Ok (Some (h_value n))
      | None => Ok None
      end
  end.

(** [kvs_hash_mod]; the value is not tested for NULL before [strlen]. *)
Definition kvs_hash_mod (hash : kvs_hash_t) (k v : cptr) (a : A) : res (Z * kvs_hash_t * A) :=
  match k with
  | None => Ok (-1, hash, a)
  | Some ks =>
      '(p, heads, idx, chain) ← chain_of hash ks;
      match find_idx (node_matches ks) chain with
      | None => Ok (1, hash, a)
      | Some (i, n) =>
          match v with
          | None => Undef
          | Some vs =>
              match dup_str vs a with
              | (None, a) => Ok (-2, hash, a)
              | (Some kvalue, a) =>
                  let a := kvs_free (b_addr (h_value n)) a in
                  heads ← wr heads idx (<[i := HNode (n_addr n) (h_key n) kvalue]> chain);
                  Ok (0, HashTable (Some (p, heads)) (max_slots hash) (count hash), a)
              end
          end
      end
  end.

(** [kvs_hash_count] *)
Definition kvs_hash_count (hash : kvs_hash_t) : Z := count hash.

(** [kvs_hash_del]: the head of the chain first, then the walk over
    [cur->next]. *)
Definition kvs_hash_del (hash : kvs_hash_t) (k : cptr) (a : A) : res (Z * kvs_hash_t * A) :=
  match k with
  | None => Ok (-2, hash, a)
  | Some ks =>
      '(p, heads, idx, chain) ← chain_of hash ks;
      match chain with
      | [] => Ok (-1, hash, a)
      | head :: rest =>
          if node_matches ks head then
            heads ← wr heads idx rest;
            Ok (0, HashTable (Some (p, heads)) (max_slots hash) (count hash - 1), free_node a head)
          else
            match find_idx (node_matches ks) rest with
            | None => Ok (-1, hash, a)
            | Some (i, n) =>
                heads ← wr heads idx (head :: take i rest ++ drop (S i) rest);
                Ok (0, HashTable (Some (p, heads)) (max_slots hash) (count hash - 1), free_node a n)
            end
      end
  end.

(** [kvs_hash_exist] *)
Definition kvs_hash_exist (hash : kvs_hash_t) (k : cptr) : res Z :=
  v ← kvs_hash_get hash k; Ok (match v with Some _ => 0 | None => 1 end).

End HashOps.

(** ** Abstraction and invariant *)

Definition hash_heads (hash : kvs_hash_t) : list (list hashnode_t) :=
  match nodes hash with Some (_, heads) => heads | None => [] end.

Definition node_entry (n : hashnode_t) : entry :=
  Entry (b_str (h_key n)) (b_str (h_value n)) [b_addr (h_value n); b_addr (h_key n); n_addr n].

Definition hash_entries (hash : kvs_hash_t) : list entry := node_entry <$> mjoin (hash_heads hash).

Definition hash_base (hash : kvs_hash_t) : list Z :=
  match nodes hash with Some (p, _) => [p] | None => [] end.

(** Every node is in the chain its key hashes to. *)
Definition chains_ok (h : list Z -> Z) (heads : list (list hashnode_t)) : Prop :=
  forall i chain n, heads !! i = Some chain -> n ∈ chain -> h (b_str (h_key n)) = Z.of_nat i.

Record hash_inv (XXH : list Z -> Z) (SIZE : Z) (hash : kvs_hash_t) : Prop := {
  hi_nodes : is_Some (nodes hash);
  hi_slots : max_slots hash = SIZE;
  hi_size : zlen (hash_heads hash) = SIZE;
  hi_chains : chains_ok (fun k => _hash XXH k SIZE) (hash_heads hash);
  hi_count : count hash = zlen (mjoin (hash_heads hash));
  hi_bag : bag_ok (hash_base hash) (hash_entries hash)
}.

#[export] Instance hash_engine {A} `{Allocator A} (XXH : list Z -> Z) (SIZE : Z)
    : Engine A kvs_hash_t := {
  e_set := kvs_hash_set XXH SIZE;
  e_get := fun e k => res_map (option_map b_str) (kvs_hash_get XXH SIZE e k);
  e_del := kvs_hash_del XXH SIZE;
  e_mod := kvs_hash_mod XXH SIZE;
  e_exist := kvs_hash_exist XXH SIZE;
  e_map := fun e => bag_map (hash_entries e);
  e_owned := fun e => bag_owned (hash_base e) (hash_entries e);
  e_inv := hash_inv XXH SIZE;
  e_full := fun _ => false;
  e_del_absent := -1
}.

(** ** Lemmas *)

Lemma hash_range XXH k SIZE : 0 < SIZE <= INT_MAX -> 0 <= _hash XXH k SIZE < SIZE.
Proof.
  intros Hs. unfold _hash, to_int, INT_MAX in *.
  pose proof (Z.mod_pos_bound (to_size_t (XXH k)) SIZE ltac:(lia)).
  rewrite Z.mod_small by lia. lia.
Qed.

Lemma node_matches_key k n : node_matches k n = true <-> b_str (h_key n) = k.
Proof. unfold node_matches. rewrite Z.eqb_eq. apply strcmp_eq. Qed.

(** The nodes of a table seen from one chain. *)
Lemma entries_chain p B1 B2 chain s c :
  hash_entries (HashTable (Some (p, B1 ++ chain :: B2)) s c)
  ≡ₚ (node_entry <$> chain) ++ (node_entry <$> mjoin (B1 ++ B2)).
Proof.
  unfold hash_entries. cbn [hash_heads nodes]. rewrite !join_app. cbn [mjoin list_join].
  rewrite !fmap_app. apply Permutation_app_swap_app.
Qed.

Lemma chains_ok_set h B1 B2 chain chain' :
  chains_ok h (B1 ++ chain :: B2) ->
  Forall (fun n => n ∈ chain \/ h (b_str (h_key n)) = zlen B1) chain' ->
  chains_ok h (B1 ++ chain' :: B2).
Proof.
  intros Hc Hf i ch n Hi Hn. destruct (decide (i = length B1)) as [-> | Hne].
  - rewrite list_lookup_middle in Hi by done. injection Hi as <-.
    rewrite Forall_forall in Hf. destruct (Hf n Hn) as [Hin | Hin]; [| done].
    eapply Hc; [by apply list_lookup_middle | done].
  - apply (Hc i ch n); [| done]. rewrite <- (insert_mid B1 B2 chain chain') in Hi.
    by rewrite list_lookup_insert_ne in Hi by done.
Qed.

(** A matching node may be anywhere in the table: it is in its chain. *)
Lemma chain_has h B1 B2 chain n :
  chains_ok h (B1 ++ chain :: B2) -> h (b_str (h_key n)) = zlen B1 ->
  n ∈ mjoin (B1 ++ chain :: B2) -> n ∈ chain.
Proof.
  intros Hc Hh Hn. apply list_elem_of_join in Hn as (ch & Hch & Hin).
  apply list_elem_of_lookup in Hin as [i Hi].
  pose proof (Hc i ch n Hi Hch) as Hi'. rewrite Hh in Hi'. unfold zlen in Hi'.
  assert (i = length B1) as -> by lia.
  rewrite list_lookup_middle in Hi by done. by injection Hi as <-.
Qed.

Section HashFacts.
Context {A : Type} `{AllocatorLaws A}.
Variables (XXH : list Z -> Z) (SIZE : Z).
Hypothesis size_ok : 0 < SIZE <= INT_MAX.
Implicit Types (hash : kvs_hash_t) (a : A).

Local Notation hwf := (e_wf (ENG := hash_engine XXH SIZE)).
Local Notation hframe := (e_frame (ENG := hash_engine XXH SIZE)).

(** Reaching the chain of a key, and what its scan says about the map. *)
Lemma hash_locate hash k :
  hash_inv XXH SIZE hash ->
  exists p B1 chain B2 c, hash = HashTable (Some (p, B1 ++ chain :: B2)) SIZE c /\
    _hash XXH k SIZE = zlen B1 /\
    chain_of XXH SIZE hash k = Ok (p, B1 ++ chain :: B2, zlen B1, chain) /\
    (Forall (fun n => node_matches k n = false) chain -> bag_map (hash_entries hash) !! k = None).
Proof.
  intros Hinv. pose proof (hash_range XXH k SIZE size_ok) as Hr.
  destruct hash as [nd s c]. destruct (hi_nodes _ _ _ Hinv) as [[p heads] Hn]. cbn in Hn. subst nd.
  pose proof (hi_slots _ _ _ Hinv) as Hs. pose proof (hi_size _ _ _ Hinv) as Hz.
  pose proof (hi_chains _ _ _ Hinv) as Hc. cbn in Hs, Hz. subst s.
  unfold hash_heads in Hz, Hc. cbn [nodes] in Hz, Hc.
  destruct (lookup_lt_is_Some_2 heads (Z.to_nat (_hash XXH k SIZE))) as [chain Hch];
    [unfold zlen in Hz; lia |].
  destruct (insert_cell _ _ _ Hch) as (B1 & B2 & -> & Hl & _).
  assert (Hk : _hash XXH k SIZE = zlen B1) by (unfold zlen; lia).
  exists p, B1, chain, B2, c. split; [done |]. split; [done |]. split.
  - unfold chain_of. cbn [nodes]. run. by rewrite Hk, rd_at.
  - intros Hf. apply bag_lookup_none. unfold hash_entries. cbn [hash_heads nodes].
    apply Forall_fmap, Forall_forall. intros n Hin. cbn. intros Heq.
    rewrite Forall_forall in Hf. rewrite <- Heq in Hk. specialize (Hf n (chain_has _ _ _ _ _ Hc Hk Hin)).
    apply node_matches_key in Heq. by rewrite Hf in Heq.
Qed.

(** The table with one chain changed is again well formed when its entries
    are. *)
Lemma hash_wf_set p B1 B2 chain chain' c c' a a' :
  hwf (HashTable (Some (p, B1 ++ chain :: B2)) SIZE c) a ->
  Forall (fun n => n ∈ chain \/ _hash XXH (b_str (h_key n)) SIZE = zlen B1) chain' ->
  c' - c = zlen chain' - zlen chain ->
  bag_wf [p] (hash_entries (HashTable (Some (p, B1 ++ chain' :: B2)) SIZE c')) a' ->
  hwf (HashTable (Some (p, B1 ++ chain' :: B2)) SIZE c') a'.
Proof.
  intros (Hinv & _ & _) Hf Hc (Hok & Hi & Ho). split; [| done].
  destruct Hinv as [_ _ Hz Hch Hcnt _]. cbn in Hz, Hcnt. split; cbn.
  - eauto.
  - done.
  - rewrite <- Hz. by rewrite !zlen_app, !zlen_cons.
  - eapply chains_ok_set; [exact Hch |]. exact Hf.
  - rewrite !join_app in *. cbn [mjoin list_join] in *. rewrite !zlen_app in *. lia.
  - done.
Qed.

Lemma hwf_bag p heads c a :
  hwf (HashTable (Some (p, heads)) SIZE c) a ->
  bag_wf [p] (hash_entries (HashTable (Some (p, heads)) SIZE c)) a.
Proof. intros (Hinv & Ha & Ho). split; [apply Hinv | done]. Qed.

Lemma create_node_some k v a n a' :
  al_inv a -> _create_node k v a = (Some n, a') ->
  b_str (h_key n) = k /\ b_str (h_value n) = v /\ al_inv a' /\
  NoDup (en_addrs (node_entry n)) /\ list_to_set (en_addrs (node_entry n)) ## al_live a /\
  al_live a' = list_to_set (en_addrs (node_entry n)) ∪ al_live a.
Proof.
  intros Hi. unfold _create_node.
  destruct (kvs_malloc 24 a) as [[p |] a1] eqn:Hm; [| done].
  destruct (malloc_some _ _ _ _ Hi Hm) as (Hp & Hl1 & Hi1).
  destruct (dup_str k a1) as [[kb |] a2] eqn:Hd1; [| done].
  destruct (dup_str_some _ _ _ _ Hi1 Hd1) as (Hk & Hkf & Hl2 & Hi2).
  destruct (dup_str v a2) as [[vb |] a3] eqn:Hd2; [| done].
  destruct (dup_str_some _ _ _ _ Hi2 Hd2) as (Hv & Hvf & Hl3 & Hi3).
  intros [= <- <-]. cbn. split; [done |]. split; [done |]. split; [done |].
  rewrite Hl3, Hl2, Hl1 in *. split; [| split; clear - Hp Hkf Hvf; set_solver].
  constructor; [| constructor; [| by apply NoDup_singleton]]; clear - Hp Hkf Hvf; set_solver.
Qed.

Lemma create_node_none k v a a' :
  al_inv a -> _create_node k v a = (None, a') ->
  al_live a' = al_live a /\ al_inv a' /\ al_can_fail A.
Proof.
  intros Hi. unfold _create_node.
  destruct (kvs_malloc 24 a) as [[p |] a1] eqn:Hm.
  2: { intros [= <-]. destruct (malloc_none _ _ _ Hi Hm). split; [done |]. split; [done |].
       exists 24, a. by rewrite Hm. }
  destruct (malloc_some _ _ _ _ Hi Hm) as (Hp & Hl1 & Hi1).
  destruct (dup_str k a1) as [[kb |] a2] eqn:Hd1.
  2: { intros [= <-]. destruct (dup_str_none _ _ _ Hi1 Hd1) as [Hl2 Hi2].
       destruct (free_live p a2) as [Hl3 Hi3]; [done | set_solver |].
       split; [rewrite Hl3, Hl2, Hl1; clear - Hp; set_solver |]. eauto using dup_str_fails. }
  destruct (dup_str_some _ _ _ _ Hi1 Hd1) as (Hk & Hkf & Hl2 & Hi2).
  destruct (dup_str v a2) as [[vb |] a3] eqn:Hd2; [done |].
  intros [= <-]. destruct (dup_str_none _ _ _ Hi2 Hd2) as [Hl3 Hi3].
  destruct (free_live p a3) as [Hl4 Hi4]; [done | set_solver |].
  destruct (free_live (b_addr kb) (kvs_free p a3)) as [Hl5 Hi5];
    [done | rewrite Hl4, Hl3, Hl2, Hl1; clear - Hkf Hl1 Hp; set_solver |].
  split; [| eauto using dup_str_fails].
  rewrite Hl5, Hl4, Hl3, Hl2, Hl1. rewrite Hl1 in Hkf. clear - Hp Hkf. set_solver.
Qed.

Lemma hash_wf_live hash a a' :
  hwf hash a -> al_live a' = al_live a -> al_inv a' -> hwf hash a' /\ hframe hash a hash a'.
Proof. intros (Hi & _ & Ho) Hl Ha. unfold e_wf, e_frame. by rewrite Hl. Qed.

Lemma hash_set_spec hash a k v :
  hwf hash a ->
  exists r hash' a', kvs_hash_set XXH SIZE hash (Some k) (Some v) a = Ok (r, hash', a') /\
    (hwf hash' a' /\ hframe hash a hash' a') /\
    (set_spec false (bag_map (hash_entries hash)) k v r (bag_map (hash_entries hash')) \/
     r = -2 /\ hash' = hash /\ al_can_fail A).
Proof.
  intros Hwf. destruct (hash_locate hash k (proj1 Hwf)) as (p & B1 & chain & B2 & c & He & Hh & Hc & Hnone).
  unfold kvs_hash_set. rewrite Hc. run.
  destruct (find_idx _ chain) as [[i n] |] eqn:Hf.
  { apply find_idx_some in Hf as (l1 & l2 & -> & _ & Hm & _). apply node_matches_key in Hm.
    eexists _, _, _. split; [done |]. split; [done |]. left. eapply set_exists; [done | | lia].
    eapply (bag_map_mem [p] _ (node_entry n)); [by rewrite He in Hwf |- *; apply hwf_bag | | done].
    rewrite He, entries_chain. rewrite fmap_app. cbn. set_solver. }
  specialize (Hnone (find_idx_none _ _ Hf)).
  destruct (_create_node k v a) as [[n |] a1] eqn:Hn.
  2: { destruct (create_node_none _ _ _ _ (proj1 (proj2 Hwf)) Hn) as (Hl & Hi & Hcf).
       eexists _, _, _. split; [done |]. split; [by apply hash_wf_live | by right]. }
  destruct (create_node_some _ _ _ _ _ (proj1 (proj2 Hwf)) Hn) as (Hk & Hv & Hi & Hnd & Hd & Hl).
  rewrite wr_app_mid. run. subst hash. cbn [max_slots count].
  pose proof (hwf_bag _ _ _ _ Hwf) as Hb. set (h' := HashTable _ _ _).
  destruct (bag_add_perm [p] _ (hash_entries h') (node_entry n) a a1 Hb) as (Hw & Hfr & Hm); try done.
  { unfold h'. rewrite !entries_chain. done. }
  { cbn. by rewrite Hk. }
  eexists _, _, _. split; [done |]. split; [split |].
  - eapply hash_wf_set; [exact Hwf | | rewrite zlen_cons; lia | exact Hw].
    constructor; [right; by rewrite Hk |]. apply Forall_forall. by left.
  - exact Hfr.
  - left. rewrite Hm. cbn. rewrite Hk, Hv. by apply set_new.
Qed.

Lemma free_node_live n a :
  al_inv a -> NoDup (en_addrs (node_entry n)) -> list_to_set (en_addrs (node_entry n)) ⊆ al_live a ->
  al_live (free_node a n) = al_live a ∖ list_to_set (en_addrs (node_entry n)) /\ al_inv (free_node a n).
Proof.
  intros Hi Hnd Hl. cbn in Hnd. destruct (free_all [b_addr (h_key n); b_addr (h_value n); n_addr n] a) as [H1 H2].
  - done.
  - by rewrite (Permutation_swap (b_addr (h_key n)) (b_addr (h_value n)) [n_addr n]) in Hnd.
  - cbn in *. clear - Hl. set_solver.
  - split; [| done]. change (free_node a n) with (fold_left (fun a p => kvs_free p a)
      [b_addr (h_key n); b_addr (h_value n); n_addr n] a). rewrite H1. cbn. clear. set_solver.
Qed.

(** Unlinking node [n] of a chain. *)
Lemma hash_unlink p B1 B2 l1 n l2 c a :
  hwf (HashTable (Some (p, B1 ++ (l1 ++ n :: l2) :: B2)) SIZE c) a ->
  let h := HashTable (Some (p, B1 ++ (l1 ++ n :: l2) :: B2)) SIZE c in
  let h' := HashTable (Some (p, B1 ++ (l1 ++ l2) :: B2)) SIZE (c - 1) in
  (hwf h' (free_node a n) /\ hframe h a h' (free_node a n)) /\
  del_spec (-1) (bag_map (hash_entries h)) (b_str (h_key n)) 0 (bag_map (hash_entries h')).
Proof.
  intros Hwf h h'. pose proof (hwf_bag _ _ _ _ Hwf : bag_wf [p] (hash_entries h) a) as Hb.
  assert (Hp : hash_entries h ≡ₚ node_entry n :: hash_entries h').
  { unfold h, h'. rewrite !entries_chain, !fmap_app. cbn.
    by rewrite <- Permutation_middle. }
  destruct (free_node_live n a) as [Hl Hi].
  - apply Hb.
  - destruct Hb as ([_ Ha] & _ & _). unfold bag_addrs in Ha. rewrite Hp in Ha.
    apply NoDup_app in Ha as (_ & _ & Ha). by apply NoDup_app in Ha as (Ha & _).
  - destruct Hb as (_ & _ & Ho). rewrite (bag_owned_perm _ _ _ Hp), bag_owned_cons in Ho.
    clear - Ho. set_solver.
  - destruct (bag_remove_perm [p] _ _ (node_entry n) a _ Hb Hp Hl Hi) as (Hw & Hfr & Hm).
    split; [split |].
    + eapply hash_wf_set; [exact Hwf | | rewrite !zlen_app, zlen_cons; lia | exact Hw].
      apply Forall_forall. intros x Hx. left. clear - Hx. set_solver.
    + exact Hfr.
    + rewrite Hm. cbn. eapply (del_present _ _ _ (en_val (node_entry n))).
      eapply (bag_map_mem [p]); [exact Hb | | done].
      change (node_entry n ∈ hash_entries h). rewrite Hp. by left.
Qed.

Lemma hash_del_spec hash a k :
  hwf hash a ->
  exists r hash' a', kvs_hash_del XXH SIZE hash (Some k) a = Ok (r, hash', a') /\
    (hwf hash' a' /\ hframe hash a hash' a') /\
    del_spec (-1) (bag_map (hash_entries hash)) k r (bag_map (hash_entries hash')).
Proof.
  intros Hwf. destruct (hash_locate hash k (proj1 Hwf)) as (p & B1 & chain & B2 & c & He & Hh & Hc & Hnone).
  unfold kvs_hash_del. rewrite Hc. run. destruct chain as [| hd rest].
  { eexists _, _, _. split; [done |]. split; [done |]. apply del_missing. by apply Hnone. }
  destruct (node_matches k hd) eqn:Hm.
  { apply node_matches_key in Hm. subst k hash. rewrite wr_app_mid. run.
    eexists _, _, _. split; [done |]. apply (hash_unlink p B1 B2 [] hd rest c a Hwf). }
  destruct (find_idx _ rest) as [[i n] |] eqn:Hf.
  2: { eexists _, _, _. split; [done |]. split; [done |]. apply del_missing. apply Hnone.
       constructor; [done | by apply find_idx_none]. }
  apply find_idx_some in Hf as (l1 & l2 & -> & <- & Hmn & _). apply node_matches_key in Hmn. subst k hash.
  rewrite take_app_length. rewrite (drop_app_ge l1 (n :: l2) (S (length l1))), Nat.sub_succ_l, Nat.sub_diag by lia.
  cbn [drop]. rewrite wr_app_mid. run.
  eexists _, _, _. split; [done |]. apply (hash_unlink p B1 B2 (hd :: l1) n l2 c a Hwf).
Qed.

Lemma hash_get_spec hash k :
  hash_inv XXH SIZE hash ->
  exists ob, kvs_hash_get XXH SIZE hash (Some k) = Ok ob /\
    option_map b_str ob = bag_map (hash_entries hash) !! k.
Proof.
  intros Hinv. destruct (hash_locate hash k Hinv) as (p & B1 & chain & B2 & c & He & Hh & Hc & Hnone).
  unfold kvs_hash_get. rewrite Hc. run.
  destruct (find_idx _ chain) as [[i n] |] eqn:Hf.
  - apply find_idx_some in Hf as (l1 & l2 & -> & _ & Hm & _). apply node_matches_key in Hm.
    eexists. split; [done |]. cbn. symmetry. subst k.
    apply (bag_lookup_some (hash_base hash) _ (node_entry n)); [apply Hinv |].
    rewrite He, entries_chain, fmap_app. cbn. clear. set_solver.
  - exists None. split; [done |]. symmetry. apply Hnone. by apply find_idx_none.
Qed.

Lemma hash_mod_spec hash a k v :
  hwf hash a ->
  exists r hash' a', kvs_hash_mod XXH SIZE hash (Some k) (Some v) a = Ok (r, hash', a') /\
    (hwf hash' a' /\ hframe hash a hash' a') /\
    (mod_spec (bag_map (hash_entries hash)) k v r (bag_map (hash_entries hash')) \/
     r = -2 /\ hash' = hash /\ al_can_fail A).
Proof.
  intros Hwf. destruct (hash_locate hash k (proj1 Hwf)) as (p & B1 & chain & B2 & c & He & Hh & Hc & Hnone).
  unfold kvs_hash_mod. rewrite Hc. run.
  destruct (find_idx _ chain) as [[i n] |] eqn:Hf.
  2: { eexists _, _, _. split; [done |]. split; [done |]. left. apply mod_missing; [| lia].
       apply Hnone. by apply find_idx_none. }
  apply find_idx_some in Hf as (l1 & l2 & -> & <- & Hm & _). apply node_matches_key in Hm. subst hash.
  destruct (dup_str v a) as [[vb |] a1] eqn:Hd.
  2: { destruct (dup_str_none _ _ _ (proj1 (proj2 Hwf)) Hd) as (Hl & Hi).
       eexists _, _, _. split; [done |]. split; [by apply hash_wf_live |].
       right. eauto using dup_str_fails. }
  destruct (dup_str_some _ _ _ _ (proj1 (proj2 Hwf)) Hd) as (Hvs & Hvf & Hl1 & Hi1).
  rewrite insert_mid, wr_app_mid. run. cbn [max_slots count].
  pose proof (hwf_bag _ _ _ _ Hwf) as Hb.
  assert (Hp : forall m, hash_entries (HashTable (Some (p, B1 ++ (l1 ++ m :: l2) :: B2)) SIZE c)
    ≡ₚ node_entry m :: (node_entry <$> l1 ++ l2) ++ (node_entry <$> mjoin (B1 ++ B2))).
  { intros m. rewrite !entries_chain, !fmap_app. cbn. by rewrite <- Permutation_middle. }
  assert (Hin : b_addr (h_value n) ∈ al_live a).
  { apply (proj2 (proj2 Hb)). rewrite (bag_owned_perm _ _ _ (Hp n)), bag_owned_cons. cbn. clear. set_solver. }
  destruct (free_live (b_addr (h_value n)) a1) as [Hl2 Hi2]; [done | rewrite Hl1; clear - Hin; set_solver |].
  set (n' := HNode (n_addr n) (h_key n) vb).
  destruct (bag_replace_perm [p] _ (hash_entries (HashTable (Some (p, B1 ++ (l1 ++ n' :: l2) :: B2)) SIZE c))
    _ _ _ _ _ _ _ a (kvs_free (b_addr (h_value n)) a1) Hb (Hp n) (Hp n') (not_in_diff _ _ _ Hvf)) as (Hw & Hfr & Hmp); [| done |].
  { rewrite Hl2, Hl1. assert (Hne : b_addr vb <> b_addr (h_value n)) by congruence. clear - Hne. set_solver. }
  eexists _, _, _. split; [done |]. split; [split |].
  - eapply hash_wf_set; [exact Hwf | | rewrite !zlen_app, !zlen_cons; lia | exact Hw].
    apply Forall_app. split; [apply Forall_forall; intros; left; set_solver |].
    constructor; [right; cbn; by rewrite Hm |]. apply Forall_forall; intros; left; set_solver.
  - exact Hfr.
  - left. rewrite Hmp, Hm. cbn [en_val node_entry h_value n']. subst v. eapply (mod_present _ _ _ (b_str (h_value n))).
    eapply (bag_map_mem [p] _ (node_entry n)); [exact Hb | | done]. rewrite Hp. clear. set_solver.
Qed.

Lemma hash_exist_spec hash k :
  hash_inv XXH SIZE hash ->
  exists r, kvs_hash_exist XXH SIZE hash (Some k) = Ok r /\
    (r = 0 <-> is_Some (bag_map (hash_entries hash) !! k)).
Proof.
  intros Hinv. unfold kvs_hash_exist. destruct (hash_get_spec hash k Hinv) as (ob & -> & <-). run.
  destruct ob as [b |]; cbn; eexists; (split; [done |]); split; try done; eauto.
Qed.

(** *** Creation and destruction *)

Lemma fold_free_nodes ns a :
  fold_left free_node ns a
  = fold_left (fun a p => kvs_free p a) (ns ≫= (fun n => [b_addr (h_key n); b_addr (h_value n); n_addr n])) a.
Proof. revert a. induction ns as [| n ns IH]; intros a; [done |]. cbn. apply IH. Qed.

Lemma fold_chains heads a :
  fold_left (fun a chain => fold_left free_node chain a) heads a = fold_left free_node (mjoin heads) a.
Proof.
  revert a. induction heads as [| chain heads IH]; intros a; [done |]. cbn. rewrite fold_left_app. apply IH.
Qed.

Lemma node_addrs_perm ns :
  (ns ≫= (fun n => [b_addr (h_key n); b_addr (h_value n); n_addr n])) ≡ₚ ((node_entry <$> ns) ≫= en_addrs).
Proof.
  induction ns as [| n ns IH]; [done |]. cbn. rewrite IH. apply Permutation_swap.
Qed.

(** [kvs_hash_destory] releases exactly the blocks of the engine. *)
Lemma hash_destroy_spec hash a :
  hwf hash a ->
  exists hash' a', kvs_hash_destory hash a = Ok (hash', a') /\ nodes hash' = None /\
    al_live a' = al_live a ∖ bag_owned (hash_base hash) (hash_entries hash) /\ al_inv a'.
Proof.
  intros Hwf. pose proof Hwf as (Hinv & Hal & Ho). destruct hash as [nd s c].
  destruct (hi_nodes _ _ _ Hinv) as [[p heads] Hn]. cbn in Hn. subst nd.
  pose proof (hi_slots _ _ _ Hinv) as Hs. cbn in Hs. subst s.
  destruct (hwf_bag _ _ _ _ Hwf) as ([_ Hnd] & _ & Hsub). unfold kvs_hash_destory. cbn [nodes]. run.
  unfold bag_owned, bag_addrs in *. cbn [hash_base nodes hash_entries hash_heads app] in *.
  eexists _, _. split; [done |]. split; [done |]. rewrite fold_chains, fold_free_nodes.
  unfold hash_entries in *. cbn [hash_heads nodes] in *.
  apply NoDup_cons in Hnd as [Hp Hnd].
  destruct (free_all (mjoin heads ≫= (fun n => [b_addr (h_key n); b_addr (h_value n); n_addr n])) a) as [Hl Hi].
  - done.
  - by rewrite node_addrs_perm.
  - intros x. rewrite elem_of_list_to_set, node_addrs_perm. intros Hx. apply Hsub. apply elem_of_list_to_set. by right.
  - assert (Hset : list_to_set (mjoin heads ≫= (fun n => [b_addr (h_key n); b_addr (h_value n); n_addr n]))
      =@{gset Z} list_to_set ((node_entry <$> mjoin heads) ≫= en_addrs)).
    { apply set_eq. intros x. by rewrite !elem_of_list_to_set, node_addrs_perm. }
    rewrite Hset in Hl. destruct (free_live p (fold_left (fun a p => kvs_free p a) (mjoin heads ≫= (fun n =>
      [b_addr (h_key n); b_addr (h_value n); n_addr n])) a)) as [-> Hi']; [done | |].
    + rewrite Hl. apply elem_of_difference. split; [apply Hsub; apply elem_of_list_to_set; by left |].
      by rewrite elem_of_list_to_set.
    + split; [| done]. rewrite Hl, list_to_set_cons, frame_shrink. f_equal. apply union_comm_L.
Qed.

Lemma join_empty n : mjoin (replicate n ([] : list hashnode_t)) = [].
Proof. by induction n. Qed.

(** A table whose fresh block is zeroed is a well-formed empty engine. *)
Lemma hash_create_spec s c a p a' :
  al_inv a -> kvs_malloc (8 * SIZE) a = (Some p, a') ->
  exists hash, kvs_hash_create SIZE (HashTable None s c) (replicate (Z.to_nat SIZE) []) a = (0, hash, a') /\
    hwf hash a' /\ bag_map (hash_entries hash) = ∅ /\
    al_live a' ∖ bag_owned (hash_base hash) (hash_entries hash) = al_live a.
Proof.
  intros Hal Hm. unfold kvs_hash_create. rewrite Hm. destruct (malloc_some _ _ _ _ Hal Hm) as (Hf & Hl & Hi).
  eexists. split; [done |]. unfold e_wf. cbn [e_owned e_inv hash_engine].
  unfold hash_entries. cbn [hash_heads hash_base nodes]. rewrite join_empty.
  split; [split; [split; cbn |] |].
  - eauto.
  - done.
  - unfold zlen. rewrite length_replicate. lia.
  - intros i chain n Hc Hn. apply lookup_replicate in Hc as [-> _]. by apply not_elem_of_nil in Hn.
  - by rewrite join_empty.
  - unfold hash_entries. cbn. rewrite join_empty. split; cbn; [constructor | apply NoDup_singleton].
  - split; [done |]. rewrite Hl. cbn. clear. set_solver.
  - split; [done |]. rewrite Hl. cbn. clear - Hf. set_solver.
Qed.

(** The hash table implements the engine interface. *)
#[export] Instance hash_laws :
  EngineLaws A kvs_hash_t (H0 := hash_engine XXH SIZE).
Proof.
  split.
  - intros e a k v Hwf. destruct (hash_set_spec e a k v Hwf) as (r & e' & a' & He & [Hw Hf] & Hs).
    exists r, e', a'. repeat (split; [done |]). destruct Hs as [Hs | (-> & -> & Hc)]; [by left | by right].
  - intros e k Hinv. cbn [e_get e_map hash_engine].
    destruct (hash_get_spec e k Hinv) as (ob & -> & <-). done.
  - intros e a k Hwf. destruct (hash_del_spec e a k Hwf) as (r & e' & a' & He & [Hw Hf] & Hs). eauto 10.
  - intros e a k v Hwf. destruct (hash_mod_spec e a k v Hwf) as (r & e' & a' & He & [Hw Hf] & Hs).
    exists r, e', a'. repeat (split; [done |]). destruct Hs as [Hs | (-> & -> & Hc)]; [by left | by right].
  - intros e k Hinv. by apply hash_exist_spec.
  - done.
  - by intros e [k |] [v |] a [? | ?].
  - done.
  - intros e a. by eexists.
  - done.
  - intros e. by eexists.
Qed.

End HashFacts.
