(* ===== verification/Skiplist.v ===== *)
(** * Skiplist: the skip list engine (kvs-engine/kvs_skiptable.c)

    The nodes are in a heap from addresses to nodes, each with its array of
    forward pointers, so the model has the aliasing of the code: a node is
    reached through the forward pointers of several others. [random()] of the C
    library is a parameter: the stream of its results, with the number of calls
    made so far in the state. Levels are indices of the arrays and never
    negative ([inst->level] is decremented only when it is positive), so they
    are natural numbers. *)

From S2P Require Import Prelude Alloc Engine Bag.

Definition SKIPLIST_MAX_LEVEL : nat := 32.

(** glibc's value. *)
Definition RAND_MAX : Z := 2147483647.

(** [Node]; [fwd_addr] is the address of the block [forward] points to. *)
Record Node := MkNode {
  sk_key : option block;
  sk_value : option block;
  fwd_addr : Z;
  forward : list (option Z)
}.

(** [SkipList], with the heap its nodes are in. *)
Record SkipList := MkSkipList {
  header : option Z;
  level : nat;
  heap : gmap Z Node;
  rnd : nat
}.

Definition with_heap (s : SkipList) (h : gmap Z Node) : SkipList :=
  MkSkipList (header s) (level s) h (rnd s).
Definition with_level (s : SkipList) (l : nat) : SkipList :=
  MkSkipList (header s) l (heap s) (rnd s).
Definition with_rnd (s : SkipList) (r : nat) : SkipList :=
  MkSkipList (header s) (level s) (heap s) r.

(** [p->forward[i]] and the assignment to it. *)
Definition get_fwd (h : gmap Z Node) (p : Z) (i : nat) : res (option Z) :=
  n ← of_option (h !! p); of_option (forward n !! i).

Definition set_fwd (h : gmap Z Node) (p : Z) (i : nat) (q : option Z) : res (gmap Z Node) :=
  n ← of_option (h !! p);
  if decide (i < length (forward n))%nat
  then Ok (<[p := MkNode (sk_key n) (sk_value n) (fwd_addr n) (<[i := q]> (forward n))]> h)
  else Undef.

(** [strcmp(p->key, key)] *)
Definition cmp_key (h : gmap Z Node) (p : Z) (k : list Z) : res Z :=
  n ← of_option (h !! p); b ← of_option (sk_key n); Ok (strcmp (b_str b) k).

Section SkipOps.
Context {A : Type} `{Allocator A}.
Variable random : nat -> Z.

(** [randomLevel]: [rem] is [SKIPLIST_MAX_LEVEL - 1 - level]. *)
Fixpoint random_level_loop (rem lvl calls : nat) : nat * nat :=
  if random calls <? RAND_MAX / 2 then
    match rem with
    | O => (lvl, S calls)
    | S rem' => random_level_loop rem' (S lvl) (S calls)
    end
  else (lvl, S calls).

Definition randomLevel (calls : nat) : nat * nat :=
  random_level_loop (SKIPLIST_MAX_LEVEL - 1) 0 calls.

(** [createNode]; the address of the node and the node. *)
Definition createNode (lvl : nat) (k v : cptr) (a : A) : option (Z * Node) * A :=
  match kvs_malloc 24 a with
  | (None, a) => (None, a)
  | (Some p, a) =>
      match kvs_malloc (8 * (Z.of_nat lvl + 1)) a with
      | (None, a) => (None, kvs_free p a)
      | (Some f, a) =>
          let fwd := replicate (lvl + 1) None in
          match k, v with
          | Some ks, Some vs =>
              match dup_str ks a with
              | (None, a) => (None, kvs_free p (kvs_free f a))
              | (Some kcopy, a) =>
                  match dup_str vs a with
                  | (None, a) => (None, kvs_free p (kvs_free (b_addr kcopy) (kvs_free f a)))
                  | (Some kvalue, a) => (Some (p, MkNode (Some kcopy) (Some kvalue) f fwd), a)
                  end
              end
          | _, _ => (Some (p, MkNode None None f fwd), a)
          end
      end
  end.

(** [kvs_skiplist_create] *)
Definition kvs_skiplist_create (inst : SkipList) (a : A) : Z * SkipList * A :=
  match createNode SKIPLIST_MAX_LEVEL None None a with
  | (None, a) => (-2, MkSkipList None (level inst) (heap inst) (rnd inst), a)
  | (Some (p, n), a) => (0, MkSkipList (Some p) 0 (<[p := n]> (heap inst)) (rnd inst), a)
  end.

(** The [while] loop on one level: forward while the next key is smaller. *)
Fixpoint walk (fuel : nat) (h : gmap Z Node) (k : list Z) (i : nat) (current : Z) : res Z :=
  nx ← get_fwd h current i;
  match nx with
  | None => Ok current
  | Some q =>
      c ← cmp_key h q k;
      if (c : Z) <? 0 then
        match fuel with
        | O => NoFuel
        | S fuel' => walk fuel' h k i q
        end
      else Ok current
  end.

(** The [for] loop over the levels from [i] down; [update] collects the last
    node of every level. *)
Fixpoint descend (fuel : nat) (h : gmap Z Node) (k : list Z) (i : nat) (current : Z)
    (update : list (option Z)) : res (Z * list (option Z)) :=
  current ← walk fuel h k i current;
  update ← wr update (Z.of_nat i) (Some current);
  match i with
  | O => Ok (current, update)
  | S i' => descend fuel h k i' current update
  end.

(** The search of [set], [get], [del] and [mod]: the levels, then
    [current->forward[0]]. [len] is the length of the [update] array; [get] and
    [mod] keep no such array, there [len] is [level + 1] as in [del] and the
    array is not used further. *)
Definition search (s : SkipList) (k : list Z) (len : nat) : res (option Z * list (option Z)) :=
  hd ← of_option (header s);
  '(current, update) ← descend (size (heap s)) (heap s) k (level s) hd (replicate len None);
  nx ← get_fwd (heap s) current 0;
  Ok (nx, update).

(** [current != NULL && strcmp(current->key, key) == 0] *)
Definition found (h : gmap Z Node) (current : option Z) (k : list Z) : res bool :=
  match current with
  | None => Ok false
  | Some q => c ← cmp_key h q k; Ok (c =? 0)
  end.

(** [update[i] = inst->header] for the levels from [i] on, [n] of them. *)
Fixpoint raise_level (update : list (option Z)) (hd : option Z) (i n : nat) : res (list (option Z)) :=
  match n with
  | O => Ok update
  | S n' => update ← wr update (Z.of_nat i) hd; raise_level update hd (S i) n'
  end.

(** The loop that links the new node on the levels from [i] down. *)
Fixpoint splice (h : gmap Z Node) (update : list (option Z)) (p : Z) (i : nat) : res (gmap Z Node) :=
  ui ← rd update (Z.of_nat i);
  u ← of_option ui;
  nx ← get_fwd h u i;
  h ← set_fwd h p i nx;
  h ← set_fwd h u i (Some p);
  match i with
  | O => Ok h
  | S i' => splice h update p i'
  end.

(** [kvs_skiplist_set] *)
Definition kvs_skiplist_set (inst : SkipList) (k v : cptr) (a : A) : res (Z * SkipList * A) :=
  match k, v with
  | Some ks, Some _ =>
      '(current, update) ← search inst ks SKIPLIST_MAX_LEVEL;
      hit ← found (heap inst) current ks;
      if (hit : bool) then Ok (1, inst, a) else
      let '(lvl, r) := randomLevel (rnd inst) in
      let inst := with_rnd inst r in
      match createNode lvl k v a with
      | (None, a) => Ok (-2, inst, a)
      | (Some (p, n), a) =>
          let inst := with_heap inst (<[p := n]> (heap inst)) in
          '(update, inst) ← (if (level inst <? lvl)%nat
             then u ← raise_level update (header inst) (S (level inst)) (lvl - level inst);
                  Ok (u, with_level inst lvl)
             else Ok (update, inst));
          h ← splice (heap inst) update p lvl;
          Ok (0, with_heap inst h, a)
      end
  | _, _ => Ok (-1, inst, a)
  end.

(** [kvs_skiplist_get] *)
Definition kvs_skiplist_get (inst : SkipList) (k : cptr) : res (option block) :=
  match k with
  | None => Ok None
  | Some ks =>
      '(current, _) ← search inst ks (S (level inst));
      hit ← found (heap inst) current ks;
      if (hit : bool) then
        q ← of_option current; n ← of_option (heap inst !! q); Ok (sk_value n)
      else Ok None
  end.

(** The loop that unlinks [current], from level [i] up, [n] levels left. *)
Fixpoint unsplice (h : gmap Z Node) (update : list (option Z)) (q : Z) (i n : nat) : res (gmap Z Node) :=
  match n with
  | O => Ok h
  | S n' =>
      ui ← rd update (Z.of_nat i);
      u ← of_option ui;
      nx ← get_fwd h u i;
      if decide (nx = Some q) then
        nq ← get_fwd h q i;
        h ← set_fwd h u i nq;
        unsplice h update q (S i) n'
      else Ok h
  end.

(** [while(inst->level > 0 && inst->header->forward[inst->level] == NULL) --inst->level] *)
Fixpoint lower_level (h : gmap Z Node) (hd : Z) (lvl : nat) : res nat :=
  match lvl with
  | O => Ok O
  | S lvl' =>
      nx ← get_fwd h hd lvl;
      match nx with
      | None => lower_level h hd lvl'
      | Some _ => Ok lvl
      end
  end.

Definition free_opt (o : option block) (a : A) : A :=
  match o with Some b => kvs_free (b_addr b) a | None => a end.

(** [kvs_skiplist_del]; the freed node leaves the heap. *)
Definition kvs_skiplist_del (inst : SkipList) (k : cptr) (a : A) : res (Z * SkipList * A) :=
  match k with
  | None => Ok (-1, inst, a)
  | Some ks =>
      '(current, update) ← search inst ks (S (level inst));
      hit ← found (heap inst) current ks;
      if (hit : bool) then
        q ← of_option current;
        h ← unsplice (heap inst) update q 0 (S (level inst));
        n ← of_option (h !! q);
        let a := kvs_free q (kvs_free (fwd_addr n) (free_opt (sk_value n) (free_opt (sk_key n) a))) in
        let h := delete q h in
        hd ← of_option (header inst);
        lvl ← lower_level h hd (level inst);
        Ok (0, with_level (with_heap inst h) lvl, a)
      else Ok (1, inst, a)
  end.

(** [kvs_skiplist_mod] *)
Definition kvs_skiplist_mod (inst : SkipList) (k v : cptr) (a : A) : res (Z * SkipList * A) :=
  match k, v with
  | Some ks, Some vs =>
      '(current, _) ← search inst ks (S (level inst));
      hit ← found (heap inst) current ks;
      if (hit : bool) then
        match dup_str vs a with
        | (None, a) => Ok (-2, inst, a)
        | (Some kvalue, a) =>
            q ← of_option current;
            n ← of_option (heap inst !! q);
            let a := free_opt (sk_value n) a in
            let h := <[q := MkNode (sk_key n) (Some kvalue) (fwd_addr n) (forward n)]> (heap inst) in
            Ok (0, with_heap inst h, a)
        end
      else Ok (1, inst, a)
  | _, _ => Ok (-1, inst, a)
  end.

(** [kvs_skiplist_exist] *)
Definition kvs_skiplist_exist (inst : SkipList) (k : cptr) : res Z :=
  match k with
  | None => Ok (-1)
  | Some _ => v ← kvs_skiplist_get inst k; Ok (match v with Some _ => 0 | None => 1 end)
  end.

(** The loop of [kvs_skiplist_destroy] over the bottom level. *)
Fixpoint destroy_loop (fuel : nat) (h : gmap Z Node) (node : option Z) (a : A) : res (gmap Z Node * A) :=
  match node with
  | None => Ok (h, a)
  | Some q =>
      match fuel with
      | O => NoFuel
      | S fuel' =>
          temp ← get_fwd h q 0;
          n ← of_option (h !! q);
          let a := match sk_key n with
                   | Some b => free_opt (sk_value n) (kvs_free (b_addr b) a)
                   | None => a
                   end in
          destroy_loop fuel' (delete q h) temp (kvs_free q (kvs_free (fwd_addr n) a))
      end
  end.

(** [kvs_skiplist_destroy]; the header pointer keeps its value. *)
Definition kvs_skiplist_destroy (inst : SkipList) (a : A) : res (SkipList * A) :=
  hd ← of_option (header inst);
  node ← get_fwd (heap inst) hd 0;
  '(h, a) ← destroy_loop (size (heap inst)) (heap inst) node a;
  n ← of_option (h !! hd);
  Ok (with_heap inst (delete hd h), kvs_free hd (kvs_free (fwd_addr n) a)).

End SkipOps.
