(* ===== verification/SkiplistFacts.v ===== *)
(** * SkiplistFacts: the skip list refines a finite map

    [skip_ok] relates the heap to the sorted list of the nodes: on every level
    the forward pointer of a node leads to the next node that is at least that
    high. Linking and unlinking a node are then changes of the levels on which
    the node is visible, one level at a time ([relink]). *)

From S2P Require Import Prelude Alloc Engine Bag Skiplist.
From Stdlib Require Import Sorted.

(** A node of the list, without its forward pointers. *)
Record snode := SN { sn_addr : Z; sn_key : block; sn_val : block; sn_fwd : Z; sn_lvl : nat }.

(** A place a search can be at: the header or a node. *)
Notation cell := (option snode).

Definition sn_entry (n : snode) : entry :=
  Entry (b_str (sn_key n)) (b_str (sn_val n)) [b_addr (sn_val n); b_addr (sn_key n); sn_fwd n; sn_addr n].

Definition before (k : list Z) (n : snode) : Prop := strcmp (b_str (sn_key n)) k < 0.

Definition sn_lt (m n : snode) : Prop := strcmp (b_str (sn_key m)) (b_str (sn_key n)) < 0.

(** First node of [l] visible on level [i]. *)
Fixpoint nxt (vis : nat -> snode -> bool) (i : nat) (l : list snode) : option Z :=
  match l with
  | [] => None
  | n :: l' => if vis i n then Some (sn_addr n) else nxt vis i l'
  end.

Definition std (i : nat) (n : snode) : bool := (i <=? sn_lvl n)%nat.

(** Node [q] is visible only from level [j] on. *)
Definition from_level (q : Z) (j : nat) (i : nat) (n : snode) : bool :=
  std i n && (bool_decide (sn_addr n <> q) || (j <=? i)%nat).

(** [c] is a place of the list [ns] and [suf] the nodes after it. *)
Definition splits (ns : list snode) (c : cell) (suf : list snode) : Prop :=
  match c with
  | None => suf = ns
  | Some n => exists l1, ns = l1 ++ n :: suf
  end.

(** ** Reading the list back from the heap *)

Fixpoint collect (fuel : nat) (h : gmap Z Node) (p : option Z) : list snode :=
  match p, fuel with
  | Some q, S fuel' =>
      match h !! q with
      | Some (MkNode (Some k) (Some v) f fwd) =>
          SN q k v f (length fwd - 1) :: collect fuel' h (mjoin (fwd !! O))
      | _ => []
      end
  | _, _ => []
  end.

Definition sk_nodes (s : SkipList) : list snode :=
  match header s with
  | Some hd => match heap s !! hd with
               | Some n => collect (size (heap s)) (heap s) (mjoin (forward n !! O))
               | None => []
               end
  | None => []
  end.

Definition sk_entries (s : SkipList) : list entry := sn_entry <$> sk_nodes s.

Definition sk_base (s : SkipList) : list Z :=
  match header s with
  | Some hd => match heap s !! hd with Some n => [hd; fwd_addr n] | None => [] end
  | None => []
  end.

(** ** Lists of nodes *)

Lemma nxt_app vis i s t :
  nxt vis i (s ++ t) = match nxt vis i s with Some q => Some q | None => nxt vis i t end.
Proof. induction s as [| n s IH]; cbn; [done |]. by destruct (vis i n). Qed.

Lemma nxt_ext vis vis' i l :
  (forall n, n ∈ l -> vis i n = vis' i n) -> nxt vis i l = nxt vis' i l.
Proof.
  induction l as [| n l IH]; cbn; [done |]. intros Hv. rewrite (Hv n) by set_solver.
  destruct (vis' i n); [done |]. apply IH. intros; apply Hv; set_solver.
Qed.

Lemma nxt_hidden vis i l : Forall (fun n => vis i n = false) l -> nxt vis i l = None.
Proof. induction 1 as [| n l Hn _ IH]; cbn; [done |]. by rewrite Hn. Qed.

Lemma nxt_none vis i l : nxt vis i l = None -> Forall (fun n => vis i n = false) l.
Proof.
  induction l as [| n l IH]; cbn; [by constructor |].
  destruct (vis i n) eqn:Hv; [done |]. intros. constructor; [done | by apply IH].
Qed.

Lemma nxt_some vis i l q :
  nxt vis i l = Some q -> exists l1 n l2, l = l1 ++ n :: l2 /\ sn_addr n = q /\ vis i n = true /\
    Forall (fun n => vis i n = false) l1.
Proof.
  induction l as [| n l IH]; cbn; [done |]. destruct (vis i n) eqn:Hv.
  - intros [= <-]. by exists [], n, l.
  - intros Hq. destruct (IH Hq) as (l1 & m & l2 & -> & Ha & Hm & Hl1).
    exists (n :: l1), m, l2. repeat split; try done. by constructor.
Qed.

Lemma std_false i n : std i n = false <-> (sn_lvl n < i)%nat.
Proof. unfold std. rewrite Nat.leb_gt. done. Qed.

Lemma std_true i n : std i n = true <-> (i <= sn_lvl n)%nat.
Proof. unfold std. rewrite Nat.leb_le. done. Qed.

Lemma splits_here ns : splits ns None ns.
Proof. done. Qed.

Lemma splits_next ns c l1 n l2 : splits ns c (l1 ++ n :: l2) -> splits ns (Some n) l2.
Proof.
  destruct c as [m |]; cbn; [| intros <-; eauto]. intros [l0 ->].
  exists (l0 ++ m :: l1). by rewrite <- app_assoc.
Qed.

Lemma splits_app ns hi c suf : splits ns c suf -> splits (ns ++ hi) c (suf ++ hi).
Proof.
  destruct c as [m |]; cbn; [| by intros ->]. intros [l0 ->]. exists l0. by rewrite <- app_assoc.
Qed.

(** The places of [lo ++ hi]: those of [lo], and the nodes of [hi]. *)
Lemma splits_app_inv lo hi c suf :
  splits (lo ++ hi) c suf ->
  (exists s, suf = s ++ hi /\ splits lo c s) \/ (exists n l, c = Some n /\ hi = l ++ n :: suf).
Proof.
  destruct c as [m |]; cbn; [| intros ->; left; eauto]. intros [l1 He].
  apply app_eq_inv in He as [(k & -> & He) | (k & -> & ->)]; [| right; eauto].
  destruct k as [| x k]; cbn in He; [right; by exists m, [] |].
  injection He as <- ->. left. exists k. split; [done |]. eauto.
Qed.

(** Two places of a list: the same, or one after the other. *)
Lemma splits_cases ns c suf c' suf' :
  splits ns c suf -> splits ns c' suf' ->
  (c = c' /\ suf = suf') \/ (exists n, c = Some n /\ n ∈ suf') \/ (exists n, c' = Some n /\ n ∈ suf).
Proof.
  destruct c as [m |], c' as [m' |]; cbn.
  - intros [l1 ->] [l1' He]. apply app_eq_inv in He as [(k & -> & He) | (k & -> & He)].
    + destruct k as [| x k]; cbn in He; injection He as <- ->; [by left |].
      right; left. exists m. split; [done |]. set_solver.
    + destruct k as [| x k]; cbn in He; injection He as <- ->; [by left |].
      right; right. exists m'. split; [done |]. set_solver.
  - intros [l1 ->] ->. right; left. exists m. split; [done |]. set_solver.
  - intros -> [l1 ->]. right; right. exists m'. split; [done |]. set_solver.
  - intros -> ->. by left.
Qed.

Lemma splits_elem ns n suf : splits ns (Some n) suf -> n ∈ ns.
Proof. intros [l1 ->]. set_solver. Qed.

(** Cutting the sorted list at a key. *)
Lemma sorted_cut ns k :
  StronglySorted sn_lt ns ->
  exists lo hi, ns = lo ++ hi /\ Forall (before k) lo /\ Forall (fun n => ~ before k n) hi /\
    forall n hi', hi = n :: hi' -> Forall (fun m => b_str (sn_key m) <> k) hi'.
Proof.
  induction 1 as [| n ns Hs IH Hn].
  - exists [], []. repeat split; try constructor. done.
  - destruct (decide (strcmp (b_str (sn_key n)) k < 0)) as [Hlt | Hge].
    + destruct IH as (lo & hi & -> & Hlo & Hhi & Hk). exists (n :: lo), hi.
      repeat split; try done. by constructor.
    + exists [], (n :: ns). split; [done |]. split; [constructor |].
      assert (Hgt : Forall (fun m => 0 < strcmp (b_str (sn_key m)) k) ns).
      { eapply Forall_impl; [exact Hn |]. intros m Hm. unfold sn_lt in Hm.
        destruct (strcmp_trichotomy (b_str (sn_key n)) k) as [? | [<- | Hgt]]; [done | |].
        - rewrite strcmp_antisym in Hm. lia.
        - pose proof (strcmp_lt_trans _ _ _ Hgt Hm) as H1. rewrite strcmp_antisym in H1. lia. }
      split.
      * constructor; [done |]. eapply Forall_impl; [exact Hgt |]. unfold before. intros ? ?; cbn in *; lia.
      * intros ? ? [= <- <-]. eapply Forall_impl; [exact Hgt |]. intros m ? <-.
        rewrite strcmp_refl in *. cbn in *. lia.
Qed.

(** ** The representation *)

Section Repr.
Variables hdr hfa : Z.

Definition cell_addr (c : cell) : Z := match c with Some n => sn_addr n | None => hdr end.
Definition cell_lvl (c : cell) : nat := match c with Some n => sn_lvl n | None => SKIPLIST_MAX_LEVEL end.
Definition fwd_list (lvl : nat) (g : nat -> option Z) : list (option Z) := g <$> seq 0 (S lvl).
Definition cell_node (c : cell) (g : nat -> option Z) : Node :=
  match c with
  | Some n => MkNode (Some (sn_key n)) (Some (sn_val n)) (sn_fwd n) (fwd_list (sn_lvl n) g)
  | None => MkNode None None hfa (fwd_list SKIPLIST_MAX_LEVEL g)
  end.

(** The heap holds every place of [ns], except the node [skip], with the
    forward pointers that the visibility [vis] gives. *)
Definition repr (vis : nat -> snode -> bool) (h : gmap Z Node) (ns : list snode) (skip : option Z) : Prop :=
  forall c suf, splits ns c suf -> Some (cell_addr c) <> skip ->
    h !! cell_addr c = Some (cell_node c (fun i => nxt vis i suf)).

Definition addrs_ok (ns : list snode) : Prop := NoDup (hdr :: (sn_addr <$> ns)).

Lemma lookup_fwd_list lvl g i : (i <= lvl)%nat -> fwd_list lvl g !! i = Some (g i).
Proof.
  intros Hi. unfold fwd_list. rewrite list_lookup_fmap, lookup_seq_lt by lia. done.
Qed.

Lemma length_fwd_list lvl g : length (fwd_list lvl g) = S lvl.
Proof. unfold fwd_list. by rewrite length_fmap, length_seq. Qed.

Lemma fwd_list_ext lvl g g' : (forall i, (i <= lvl)%nat -> g i = g' i) -> fwd_list lvl g = fwd_list lvl g'.
Proof.
  intros Hg. apply list_fmap_ext. intros j x Hj. apply lookup_seq in Hj as [-> Hj]. apply Hg. lia.
Qed.

Lemma insert_fwd_list lvl g i q :
  (i <= lvl)%nat -> <[i := q]> (fwd_list lvl g) = fwd_list lvl (fun j => if decide (j = i) then q else g j).
Proof.
  intros Hi. apply list_eq. intros j. destruct (decide (j <= lvl)%nat) as [Hj | Hj].
  - rewrite (lookup_fwd_list _ _ j) by done. destruct (decide (j = i)) as [-> | Hne].
    + rewrite list_lookup_insert_eq; [done |]. rewrite length_fwd_list. lia.
    + rewrite list_lookup_insert_ne by done. by apply lookup_fwd_list.
  - rewrite !lookup_ge_None_2; [done | |]; rewrite ?length_insert, length_fwd_list; lia.
Qed.

Lemma cell_node_fwd c g : forward (cell_node c g) = fwd_list (cell_lvl c) g.
Proof. by destruct c. Qed.

Lemma cell_node_ext c g g' :
  (forall i, (i <= cell_lvl c)%nat -> g i = g' i) -> cell_node c g = cell_node c g'.
Proof. intros Hg. destruct c; cbn [cell_node]; f_equal; by apply fwd_list_ext. Qed.

Lemma cell_inj ns c suf c' suf' :
  addrs_ok ns -> splits ns c suf -> splits ns c' suf' -> cell_addr c = cell_addr c' ->
  c = c' /\ suf = suf'.
Proof.
  intros Hnd Hs Hs' Ha. unfold addrs_ok in Hnd.
  assert (Hgen : forall c suf n, splits ns c suf -> n ∈ suf -> cell_addr c <> sn_addr n).
  { clear - Hnd. intros [m |] suf n Hs Hn; cbn in *.
    - destruct Hs as [l1 ->]. apply NoDup_cons in Hnd as [_ Hnd]. rewrite fmap_app in Hnd.
      apply NoDup_app in Hnd as (_ & _ & Hnd). cbn in Hnd. apply NoDup_cons in Hnd as [Hm _].
      intros He. apply Hm. rewrite He. by apply list_elem_of_fmap_2.
    - subst. apply NoDup_cons in Hnd as [Hm _]. intros ->. apply Hm. by apply list_elem_of_fmap_2. }
  destruct (splits_cases _ _ _ _ _ Hs Hs') as [? | [(n & -> & Hn) | (n & -> & Hn)]]; [done | |].
  - exfalso. by apply (Hgen _ _ _ Hs' Hn).
  - exfalso. by apply (Hgen _ _ _ Hs Hn).
Qed.

Lemma repr_get_fwd vis h ns skip c suf i :
  repr vis h ns skip -> splits ns c suf -> Some (cell_addr c) <> skip -> (i <= cell_lvl c)%nat ->
  get_fwd h (cell_addr c) i = Ok (nxt vis i suf).
Proof.
  intros Hr Hs Hne Hi. unfold get_fwd. rewrite (Hr c suf Hs Hne). run.
  rewrite cell_node_fwd, lookup_fwd_list by done. done.
Qed.

Lemma repr_cmp vis h ns skip n suf k :
  repr vis h ns skip -> splits ns (Some n) suf -> Some (sn_addr n) <> skip ->
  cmp_key h (sn_addr n) k = Ok (strcmp (b_str (sn_key n)) k).
Proof. intros Hr Hs Hne. unfold cmp_key. pose proof (Hr (Some n) suf Hs Hne) as Hn. cbn in Hn. by rewrite Hn. Qed.

(** *** Searching *)

(** A place on level [i] in the part [lo] of the list. *)
Definition at_level (lo : list snode) (i : nat) (c : cell) (suf : list snode) : Prop :=
  splits lo c suf /\ (i <= cell_lvl c)%nat.

(** The last place of [lo] that level [i] has. *)
Definition last_at (lo : list snode) (i : nat) (c : cell) (suf : list snode) : Prop :=
  at_level lo i c suf /\ Forall (fun n => (sn_lvl n < i)%nat) suf.

Section Search.
Variables (h : gmap Z Node) (lo hi : list snode) (k : list Z).
Hypothesis Hrepr : repr std h (lo ++ hi) None.
Hypothesis Hlo : Forall (before k) lo.
Hypothesis Hhi : Forall (fun n => ~ before k n) hi.

(** The nodes of [hi] stop a walk, those of [lo] do not. *)
Lemma cmp_hi i q : nxt std i hi = Some q -> exists r, cmp_key h q k = Ok r /\ (r <? 0) = false.
Proof.
  intros Hq. apply nxt_some in Hq as (l1 & n & l2 & He & <- & Hv & _). eexists. split.
  - apply (repr_cmp std h (lo ++ hi) None n l2 k Hrepr); [| done].
    exists (lo ++ l1). by rewrite He, <- app_assoc.
  - rewrite He in Hhi. apply Forall_app in Hhi as [_ Hn]. inversion Hn. unfold before in *. zguard.
Qed.

Lemma cmp_lo n l2 : splits lo (Some n) l2 -> exists r, cmp_key h (sn_addr n) k = Ok r /\ (r <? 0) = true.
Proof.
  intros Hs. eexists. split.
  - apply (repr_cmp std h (lo ++ hi) None n (l2 ++ hi) k Hrepr); [| done]. by apply splits_app.
  - apply splits_elem in Hs. rewrite Forall_forall in Hlo. specialize (Hlo n Hs). unfold before in Hlo. zguard.
Qed.

Lemma walk_spec fuel i c suf :
  at_level lo i c suf -> (length suf <= fuel)%nat ->
  exists c' suf', walk fuel h k i (cell_addr c) = Ok (cell_addr c') /\ last_at lo i c' suf'.
Proof.
  revert c suf. induction fuel as [fuel IH] using lt_wf_ind. intros c suf [Hs Hl] Hf.
  assert (Hg : get_fwd h (cell_addr c) i = Ok (nxt std i (suf ++ hi))).
  { by eapply repr_get_fwd; [exact Hrepr | apply splits_app | |]. }
  rewrite nxt_app in Hg. destruct (nxt std i suf) as [q |] eqn:Hq.
  - apply nxt_some in Hq as (l1 & n & l2 & -> & <- & Hv & _).
    rewrite length_app in Hf. cbn in Hf. destruct fuel as [| fuel]; [lia |].
    pose proof (splits_next _ _ _ _ _ Hs) as Hs'.
    destruct (cmp_lo n l2 Hs') as (r & Hc & Hlt).
    cbn [walk]. rewrite Hg. run. rewrite Hc. run. rewrite Hlt.
    apply (IH fuel ltac:(lia) (Some n) l2); [split; [done |] | lia]. cbn. by apply std_true.
  - apply nxt_none in Hq. exists c, suf. split.
    + destruct fuel; cbn [walk]; rewrite Hg; run; (destruct (nxt std i hi) as [q |] eqn:Hq'; [| done]);
        destruct (cmp_hi i q Hq') as (r & Hc & Hlt); rewrite Hc; run; by rewrite Hlt.
    + split; [done |]. eapply Forall_impl; [exact Hq |]. intros m; cbn. by rewrite std_false.
Qed.

Lemma splits_length ns c suf : splits ns c suf -> (length suf <= length ns)%nat.
Proof. destruct c; cbn; [intros [l1 ->]; rewrite length_app; cbn; lia | by intros ->]. Qed.

(** What the levels from [i] down leave in [update]. *)
Definition update_ok (u : list (option Z)) (i : nat) : Prop :=
  forall j, (j <= i)%nat -> exists c s, u !! j = Some (Some (cell_addr c)) /\ last_at lo j c s.

Lemma descend_spec fuel i c suf u :
  (length lo <= fuel)%nat -> at_level lo i c suf -> (i < length u)%nat ->
  exists c' u', descend fuel h k i (cell_addr c) u = Ok (cell_addr c', u') /\
    last_at lo 0 c' [] /\ length u' = length u /\ update_ok u' i /\
    forall j, (i < j)%nat -> u' !! j = u !! j.
Proof.
  revert c suf u. induction i as [| i IH]; intros c suf u Hf Ha Hu;
    (destruct (walk_spec fuel _ c suf Ha) as (c' & s' & Hw & Hl);
      [pose proof (splits_length _ _ _ (proj1 Ha)); lia |]);
    cbn [descend]; rewrite Hw; run; rewrite wr_in_range by (unfold zlen; lia); run; rewrite Nat2Z.id.
  - exists c', (<[O := Some (cell_addr c')]> u). split; [done |].
    assert (s' = []) as ->.
    { destruct Hl as [_ Hl]. destruct s' as [| m s']; [done |]. inversion Hl. lia. }
    split; [done |]. split; [by rewrite length_insert |]. split.
    + intros j Hj. replace j with O by lia. exists c', []. split; [| done].
      apply list_lookup_insert_eq. lia.
    + intros j Hj. apply list_lookup_insert_ne. lia.
  - destruct Hl as [Ha' Hl]. pose proof Ha' as [Hs' Hl'].
    destruct (IH c' s' (<[S i := Some (cell_addr c')]> u)) as (c2 & u2 & Hd & H1 & H2 & H3 & H4);
      [done | split; [done | lia] | rewrite length_insert; lia |].
    exists c2, u2. split; [done |]. split; [done |]. split; [by rewrite H2, length_insert |]. split.
    + intros j Hj. destruct (decide (j = S i)) as [-> | Hne]; [| apply H3; lia].
      exists c', s'. split; [| done]. rewrite H4 by lia. apply list_lookup_insert_eq. lia.
    + intros j Hj. rewrite H4 by lia. apply list_lookup_insert_ne. lia.
Qed.

End Search.

(** *** Linking and unlinking one level *)

Lemma addr_other lo n hi :
  addrs_ok (lo ++ n :: hi) -> forall m, m ∈ lo \/ m ∈ hi -> sn_addr m <> sn_addr n.
Proof.
  intros Hnd. unfold addrs_ok in Hnd. apply NoDup_cons in Hnd as [_ Hnd]. rewrite fmap_app in Hnd. cbn in Hnd.
  rewrite <- Permutation_middle in Hnd. apply NoDup_cons in Hnd as [Hn _]. rewrite <- fmap_app in Hn.
  intros m Hm He. apply Hn. rewrite <- He. apply list_elem_of_fmap_2. clear - Hm. set_solver.
Qed.

Lemma relink vis vis' h lo n hi i c su :
  addrs_ok (lo ++ n :: hi) ->
  repr vis h (lo ++ n :: hi) (Some (sn_addr n)) -> last_at lo i c su ->
  (forall j m, j <> i \/ sn_addr m <> sn_addr n -> vis j m = vis' j m) ->
  (forall m, sn_addr m <> sn_addr n -> vis i m = std i m) ->
  exists h', set_fwd h (cell_addr c) i (nxt vis' i (n :: hi)) = Ok h' /\
    repr vis' h' (lo ++ n :: hi) (Some (sn_addr n)) /\ h' !! sn_addr n = h !! sn_addr n /\
    dom h' = dom h.
Proof.
  intros Hnd Hr [[Hs Hl] Hsu] Hv Hstd. pose proof (splits_app lo (n :: hi) c su Hs) as Hsp.
  pose proof (addr_other lo n hi Hnd) as Hother.
  assert (Hcn : cell_addr c <> sn_addr n).
  { intros He. destruct (cell_inj (lo ++ n :: hi) c (su ++ n :: hi) (Some n) hi) as [-> Hx]; try done.
    - by exists lo.
    - apply (f_equal length) in Hx. rewrite length_app in Hx. cbn in Hx. lia. }
  pose proof (Hr c _ Hsp ltac:(congruence)) as Hc.
  assert (Hins : (su : list snode) ⊆ lo) by (destruct c; cbn in Hs; [destruct Hs as [? ->] | subst]; set_solver).
  unfold set_fwd. rewrite Hc. run. rewrite cell_node_fwd, length_fwd_list, decide_True by lia.
  eexists. split; [done |]. split; [| split].
  - intros c2 s2 Hs2 Hne2. destruct (decide (cell_addr c2 = cell_addr c)) as [He | Hne].
    + destruct (cell_inj _ _ _ _ _ Hnd Hs2 Hsp He) as [-> ->]. rewrite lookup_insert_eq. f_equal.
      rewrite insert_fwd_list by done.
      transitivity (cell_node c (fun j => if decide (j = i) then nxt vis' i (n :: hi)
        else nxt vis j (su ++ n :: hi))); [by destruct c |].
      apply cell_node_ext. intros j Hj. destruct (decide (j = i)) as [-> | Hji].
      * rewrite nxt_app, (nxt_hidden vis' i su); [done |]. apply Forall_forall. intros m Hm.
        rewrite <- Hv, Hstd by (try right; apply Hother; set_solver). apply std_false.
        rewrite Forall_forall in Hsu. by apply Hsu.
      * apply nxt_ext. intros m _. apply Hv. by left.
    + rewrite lookup_insert_ne by done. rewrite (Hr c2 s2 Hs2 Hne2). f_equal. apply cell_node_ext.
      intros j Hj. destruct (decide (j = i)) as [-> | Hji];
        [| apply nxt_ext; intros m _; apply Hv; by left].
      destruct (splits_app_inv _ _ _ _ Hs2) as [(s & -> & Hs') | (m & l & -> & Hm)].
      * destruct (splits_cases _ _ _ _ _ Hs' Hs) as [[-> _] | [(m & -> & Hm) | (m & -> & Hm)]]; [done | |].
        -- exfalso. rewrite Forall_forall in Hsu. specialize (Hsu m Hm). cbn in Hj. lia.
        -- assert (Hs3 : s ⊆ lo) by (destruct c2; cbn in Hs'; [destruct Hs' as [? ->] | subst]; set_solver).
           rewrite !nxt_app. rewrite <- (nxt_ext vis vis' i s) by (intros x Hx; apply Hv; right; apply Hother; set_solver).
           destruct (nxt vis i s) eqn:Hx; [done |]. exfalso. apply nxt_none in Hx.
           rewrite Forall_forall in Hx. specialize (Hx m Hm).
           rewrite Hstd in Hx by (apply Hother; set_solver). apply std_false in Hx. cbn in Hl. lia.
      * destruct l as [| x l]; cbn in Hm; injection Hm as <- ->; [done |].
        apply nxt_ext. intros y Hy. apply Hv. right. apply Hother. set_solver.
  - by rewrite lookup_insert_ne by done.
  - apply dom_insert_lookup_L. eauto.
Qed.

(** A node hidden on all its levels is not in the list. *)
Lemma repr_hide h lo n hi :
  addrs_ok (lo ++ n :: hi) ->
  repr (from_level (sn_addr n) (S (sn_lvl n))) h (lo ++ n :: hi) (Some (sn_addr n)) <->
  repr std h (lo ++ hi) None.
Proof.
  intros Hnd.
  pose proof (addr_other lo n hi Hnd) as Hother.
  assert (Hhdr : hdr <> sn_addr n).
  { unfold addrs_ok in Hnd. apply NoDup_cons in Hnd as [Hn _]. intros ->. apply Hn.
    apply list_elem_of_fmap_2. set_solver. }
  assert (Hm : forall i m, m ∈ lo \/ m ∈ hi -> from_level (sn_addr n) (S (sn_lvl n)) i m = std i m).
  { intros i m Hin. unfold from_level. rewrite bool_decide_true by auto. cbn. by rewrite andb_true_r. }
  assert (Hn : forall i, from_level (sn_addr n) (S (sn_lvl n)) i n = false).
  { intros i. unfold from_level, std. rewrite bool_decide_false by tauto.
    destruct (Nat.leb_spec i (sn_lvl n)), (Nat.leb_spec (S (sn_lvl n)) i); cbn; try done; lia. }
  assert (Heq : forall i s, s ⊆ lo -> nxt (from_level (sn_addr n) (S (sn_lvl n))) i (s ++ n :: hi)
    = nxt std i (s ++ hi)).
  { intros i s Hs. rewrite !nxt_app. cbn. rewrite Hn.
    rewrite (nxt_ext _ std i s) by (intros; apply Hm; set_solver).
    rewrite (nxt_ext _ std i hi) by (intros; apply Hm; set_solver). done. }
  split; intros Hr c suf Hs Hne.
  - apply splits_app_inv in Hs as [(s & -> & Hs) | (m & l & -> & Hl)].
    + assert (Hsl : s ⊆ lo) by (destruct c; cbn in Hs; [destruct Hs as [? ->] | subst]; set_solver).
      rewrite (Hr c (s ++ n :: hi)); [| by apply splits_app |].
      * f_equal. apply cell_node_ext. intros i _. by apply Heq.
      * destruct c as [m |]; cbn; [| congruence]. apply splits_elem in Hs.
        intros [= He]. by apply (Hother m); [left |].
    + rewrite (Hr (Some m) suf); [| exists (lo ++ n :: l); rewrite Hl, <- app_assoc; done |].
      * f_equal. apply cell_node_ext. intros i _. apply nxt_ext. intros x Hx. apply Hm. set_solver.
      * cbn. intros [= He]. apply (Hother m); [set_solver | done].
  - apply splits_app_inv in Hs as [(s & -> & Hs) | (m & l & -> & Hl)].
    + assert (Hsl : s ⊆ lo) by (destruct c; cbn in Hs; [destruct Hs as [? ->] | subst]; set_solver).
      rewrite (Hr c (s ++ hi)); [| by apply splits_app | done].
      f_equal. apply cell_node_ext. intros i _. by rewrite Heq.
    + destruct l as [| x l]; cbn in Hl; injection Hl as <- ->; [done |].
      rewrite (Hr (Some m) suf); [| exists (lo ++ l); by rewrite <- app_assoc | done].
      f_equal. apply cell_node_ext. intros i _. symmetry. apply nxt_ext. intros y Hy. apply Hm. set_solver.
Qed.

End Repr.

(** ** The link and unlink loops *)

Lemma from_level_other q j i m : sn_addr m <> q -> from_level q j i m = std i m.
Proof. intros Hm. unfold from_level. rewrite bool_decide_true by done. cbn. apply andb_true_r. Qed.

Lemma from_level_self n j i : from_level (sn_addr n) j i n = std i n && (j <=? i)%nat.
Proof. unfold from_level. by rewrite bool_decide_false by tauto. Qed.

Lemma from_level_step q i j m :
  j <> i \/ sn_addr m <> q -> from_level q (S i) j m = from_level q i j m.
Proof.
  intros [Hj | Hm]; [| by rewrite !from_level_other]. unfold from_level. f_equal. f_equal.
  destruct (Nat.leb_spec (S i) j), (Nat.leb_spec i j); try done; lia.
Qed.

Section Loops.
Variables (hdr hfa : Z) (lo hi : list snode) (n : snode) (u : list (option Z)).
Hypothesis Hnd : addrs_ok hdr (lo ++ n :: hi).

Local Notation q := (sn_addr n).
Local Notation ns := (lo ++ n :: hi).

Lemma nxt_tail j i : nxt (from_level q j) i hi = nxt std i hi.
Proof.
  apply nxt_ext. intros m Hm. apply from_level_other. apply (addr_other hdr lo n hi Hnd). by right.
Qed.

(** The forward pointer of the last place on level [i]. *)
Lemma nxt_at_last j i c su :
  last_at lo i c su ->
  nxt (from_level q j) i (su ++ n :: hi) = if std i n && (j <=? i)%nat then Some q else nxt std i hi.
Proof.
  intros [[Hs _] Hsu]. rewrite nxt_app, (nxt_hidden _ i su).
  - cbn. rewrite from_level_self. destruct (_ && _); [done | apply nxt_tail].
  - apply Forall_forall. intros m Hm. rewrite from_level_other.
    + apply std_false. rewrite Forall_forall in Hsu. by apply Hsu.
    + apply (addr_other hdr lo n hi Hnd). left.
      destruct c; cbn in Hs; [destruct Hs as [? ->] | subst]; set_solver.
Qed.

Lemma last_addr i c su : last_at lo i c su -> cell_addr hdr c <> q.
Proof.
  intros [[Hs _] _] He.
  destruct (cell_inj hdr ns c (su ++ n :: hi) (Some n) hi Hnd) as [-> Hx]; try done.
  - by apply splits_app.
  - by exists lo.
  - apply (f_equal length) in Hx. rewrite length_app in Hx. cbn in Hx. lia.
Qed.

Lemma repr_insert_skip vis h x :
  repr hdr hfa vis h ns (Some q) -> repr hdr hfa vis (<[q := x]> h) ns (Some q).
Proof. intros Hr c suf Hs Hne. rewrite lookup_insert_ne by congruence. by apply Hr. Qed.

Lemma repr_full vis h :
  (forall i m, vis i m = std i m) -> repr hdr hfa vis h ns (Some q) ->
  h !! q = Some (cell_node hfa (Some n) (fun i => nxt std i hi)) -> repr hdr hfa std h ns None.
Proof.
  intros Hv Hr Hq c suf Hs _. destruct (decide (cell_addr hdr c = q)) as [He | Hne].
  - destruct (cell_inj hdr ns c suf (Some n) hi Hnd Hs ltac:(by exists lo) He) as [-> ->]. exact Hq.
  - rewrite (Hr c suf Hs ltac:(congruence)). f_equal. apply cell_node_ext. intros i _. by apply nxt_ext.
Qed.

Lemma update_read i j : update_ok hdr lo u i -> (j <= i)%nat ->
  exists c su, rd u (Z.of_nat j) = Ok (Some (cell_addr hdr c)) /\ last_at lo j c su.
Proof.
  intros Hu Hj. destruct (Hu j Hj) as (c & su & Hc & Hl). exists c, su. split; [| done].
  apply rd_spec. split; [lia |]. by rewrite Nat2Z.id.
Qed.

Lemma splice_spec i h :
  (i <= sn_lvl n)%nat -> update_ok hdr lo u i ->
  repr hdr hfa (from_level q (S i)) h ns (Some q) ->
  h !! q = Some (cell_node hfa (Some n) (fun j => if decide (i < j)%nat then nxt std j hi else None)) ->
  exists h', splice h u q i = Ok h' /\ repr hdr hfa std h' ns None /\ dom h' = dom h.
Proof.
  revert h. induction i as [i IH] using lt_wf_ind. intros h Hi Hu Hr Hq.
  destruct (update_read i i Hu ltac:(lia)) as (c & su & Hrd & Hl).
  pose proof (last_addr _ _ _ Hl) as Hne.
  assert (Hg : get_fwd h (cell_addr hdr c) i = Ok (nxt std i hi)).
  { rewrite (repr_get_fwd hdr hfa _ h ns _ c (su ++ n :: hi) i Hr); [| apply splits_app, Hl | congruence | apply Hl].
    rewrite (nxt_at_last _ _ _ _ Hl). destruct (Nat.leb_spec (S i) i); [lia |]. by rewrite andb_false_r. }
  set (h1 := <[q := cell_node hfa (Some n) (fun j => if decide (i <= j)%nat then nxt std j hi else None)]> h).
  assert (Hs1 : set_fwd h q i (nxt std i hi) = Ok h1).
  { unfold set_fwd. rewrite Hq. run. rewrite cell_node_fwd, length_fwd_list. cbn [cell_lvl].
    rewrite decide_True by lia. f_equal. unfold h1. f_equal. cbn [cell_node sk_key sk_value fwd_addr].
    f_equal. rewrite insert_fwd_list by done. apply fwd_list_ext. intros j Hj.
    repeat case_decide; subst; try done; lia. }
  destruct (relink hdr hfa (from_level q (S i)) (from_level q i) h1 lo n hi i c su) as (h2 & Hs2 & Hr2 & Hq2 & Hd2);
    [done | by apply repr_insert_skip | done | apply from_level_step | intros; by apply from_level_other |].
  assert (Hn : nxt (from_level q i) i (n :: hi) = Some q).
  { cbn. rewrite from_level_self, Nat.leb_refl, andb_true_r. rewrite (proj2 (std_true i n) Hi). done. }
  rewrite Hn in Hs2.
  assert (Hdom : dom h2 = dom h).
  { rewrite Hd2. apply dom_insert_lookup_L. eauto. }
  assert (Hq' : h2 !! q = Some (cell_node hfa (Some n) (fun j => if decide (i <= j)%nat then nxt std j hi else None))).
  { rewrite Hq2. apply lookup_insert_eq. }
  assert (Hstep : splice h u q i = match i with O => Ok h2 | S i' => splice h2 u q i' end).
  { destruct i; cbn [splice]; rewrite Hrd; run; rewrite Hg; run; rewrite Hs1; run; by rewrite Hs2. }
  rewrite Hstep. destruct i as [| i].
  - exists h2. split; [done |]. split; [| done]. eapply repr_full; [| exact Hr2 | exact Hq'].
    intros j m. unfold from_level. cbn. by rewrite orb_true_r, andb_true_r.
  - destruct (IH i ltac:(lia) h2) as (h' & Hsp & Hr' & Hd'); [lia | | done | | exists h'; by rewrite Hd'].
    + intros j Hj. apply Hu. lia.
    + exact Hq'.
Qed.

Lemma unsplice_spec m i h lvl :
  (i + m = S lvl)%nat -> (sn_lvl n <= lvl)%nat -> (i <= S (sn_lvl n))%nat -> update_ok hdr lo u lvl ->
  repr hdr hfa (from_level q i) h ns (Some q) ->
  h !! q = Some (cell_node hfa (Some n) (fun j => nxt std j hi)) ->
  exists h', unsplice h u q i m = Ok h' /\ repr hdr hfa (from_level q (S (sn_lvl n))) h' ns (Some q) /\
    h' !! q = h !! q /\ dom h' = dom h.
Proof.
  revert i h. induction m as [| m IH]; intros i h Him Hlv Hi Hu Hr Hq; cbn [unsplice].
  { exists h. replace (S (sn_lvl n)) with i by lia. done. }
  destruct (update_read lvl i Hu ltac:(lia)) as (c & su & Hrd & Hl). rewrite Hrd. run.
  pose proof (last_addr _ _ _ Hl) as Hne.
  rewrite (repr_get_fwd hdr hfa _ h ns _ c (su ++ n :: hi) i Hr); [| apply splits_app, Hl | congruence | apply Hl].
  run. rewrite (nxt_at_last _ _ _ _ Hl), Nat.leb_refl, andb_true_r.
  destruct (std i n) eqn:Hst.
  - rewrite decide_True by done. apply std_true in Hst.
    assert (Hg : get_fwd h q i = Ok (nxt std i hi)).
    { unfold get_fwd. rewrite Hq. run. rewrite cell_node_fwd, lookup_fwd_list by done. done. }
    rewrite Hg. run.
    destruct (relink hdr hfa (from_level q i) (from_level q (S i)) h lo n hi i c su) as (h2 & Hs2 & Hr2 & Hq2 & Hd2);
      [done | done | done | intros j x Hx; symmetry; by apply from_level_step
       | intros; by apply from_level_other |].
    assert (Hn : nxt (from_level q (S i)) i (n :: hi) = nxt std i hi).
    { cbn. rewrite from_level_self. destruct (Nat.leb_spec (S i) i); [lia |]. rewrite andb_false_r. apply nxt_tail. }
    rewrite Hn in Hs2. rewrite Hs2. run.
    destruct (IH (S i) h2) as (h' & Hu' & Hr' & Hq' & Hd'); [lia | done | lia | done | done | congruence |].
    exists h'. split; [done |]. split; [done |]. split; congruence.
  - apply std_false in Hst. replace (S (sn_lvl n)) with i by lia. rewrite decide_False; [by exists h |].
    intros Hx. apply nxt_some in Hx as (l1 & x & l2 & Hhi & Hx & _).
    apply (addr_other hdr lo n hi Hnd x); [right; rewrite Hhi; set_solver | done].
Qed.

End Loops.

Lemma lower_level_spec hdr hfa h ns lvl :
  repr hdr hfa std h ns None -> (lvl <= SKIPLIST_MAX_LEVEL)%nat ->
  Forall (fun n => (sn_lvl n <= lvl)%nat) ns ->
  exists lvl', lower_level h hdr lvl = Ok lvl' /\ (lvl' <= lvl)%nat /\
    Forall (fun n => (sn_lvl n <= lvl')%nat) ns.
Proof.
  intros Hr. induction lvl as [| lvl IH]; intros Hm Hf; cbn [lower_level]; [eauto |].
  pose proof (repr_get_fwd hdr hfa std h ns None None ns (S lvl) Hr eq_refl ltac:(done) Hm) as Hg.
  cbn [cell_addr] in Hg. rewrite Hg. run.
  destruct (nxt std (S lvl) ns) as [x |] eqn:Hx; [eauto |]. apply nxt_none in Hx.
  destruct IH as (lvl' & Hl & Hle & Hf'); [lia | | eauto].
  eapply Forall_impl; [exact Hx |]. intros n Hn. apply std_false in Hn. lia.
Qed.

Lemma raise_level_spec hdr lo u i m :
  (i + m <= length u)%nat -> (i + m <= S SKIPLIST_MAX_LEVEL)%nat -> (0 < i)%nat ->
  Forall (fun n => (sn_lvl n <= i - 1)%nat) lo -> update_ok hdr lo u (i - 1) ->
  exists u', raise_level u (Some hdr) i m = Ok u' /\ update_ok hdr lo u' (i + m - 1).
Proof.
  revert u i. induction m as [| m IH]; intros u i Hlen Hmax Hi Hlv Hu; cbn [raise_level].
  { exists u. split; [done |]. by rewrite Nat.add_0_r. }
  rewrite wr_in_range by (unfold zlen; lia). run. rewrite Nat2Z.id.
  destruct (IH (<[i := Some hdr]> u) (S i)) as (u' & Hr & Hu').
  - rewrite length_insert. lia.
  - lia.
  - lia.
  - eapply Forall_impl; [exact Hlv |]. cbn. lia.
  - intros j Hj. destruct (decide (j = i)) as [-> | Hne].
    + exists None, lo. split; [apply list_lookup_insert_eq; lia |]. split; [split; [done | cbn [cell_lvl]; lia] |].
      eapply Forall_impl; [exact Hlv |]. cbn. lia.
    + destruct (Hu j ltac:(lia)) as (c & s & Hc & Hl). exists c, s. split; [| done].
      by rewrite list_lookup_insert_ne by done.
  - exists u'. split; [done |]. by replace (i + S m - 1)%nat with (S i + m - 1)%nat by lia.
Qed.

(** ** Following one level *)

(** The addresses met when following [forward[i]] from [p] on. *)
Fixpoint level_walk (fuel : nat) (h : gmap Z Node) (i : nat) (p : Z) : res (list Z) :=
  q ← get_fwd h p i;
  match q, fuel with
  | None, _ => Ok []
  | Some _, O => NoFuel
  | Some q, S fuel => l ← level_walk fuel h i q; Ok (q :: l)
  end.

Lemma level_walk_spec hdr hfa h ns fuel i c suf :
  repr hdr hfa std h ns None -> splits ns c suf -> (i <= cell_lvl c)%nat -> (length suf <= fuel)%nat ->
  level_walk fuel h i (cell_addr hdr c) = Ok (sn_addr <$> filter (fun n => std i n = true) suf).
Proof.
  intros Hr. revert c suf. induction fuel as [fuel IH] using lt_wf_ind. intros c suf Hs Hl Hf.
  pose proof (repr_get_fwd hdr hfa std h ns None c suf i Hr Hs ltac:(done) Hl) as Hg.
  destruct (nxt std i suf) as [q |] eqn:Hq.
  - apply nxt_some in Hq as (l1 & n & l2 & -> & <- & Hv & Hl1). rewrite length_app in Hf. cbn in Hf.
    destruct fuel as [| fuel]; [lia |]. cbn [level_walk]. rewrite Hg. run.
    pose proof (IH fuel ltac:(lia) (Some n) l2 ltac:(by eapply splits_next) ltac:(by apply std_true) ltac:(lia)) as Hw.
    cbn [cell_addr] in Hw. rewrite Hw. run.
    rewrite filter_app, filter_cons_True by done.
    by rewrite (filter_none _ l1) by (eapply Forall_impl; [exact Hl1 |]; cbn; congruence).
  - apply nxt_none in Hq. destruct fuel; cbn [level_walk]; rewrite Hg; run;
      by rewrite filter_none by (eapply Forall_impl; [exact Hq |]; cbn; congruence).
Qed.

(** ** The invariant *)

Record skip_ok (s : SkipList) (hdr hfa : Z) (ns : list snode) : Prop := {
  so_header : header s = Some hdr;
  so_level : (level s < SKIPLIST_MAX_LEVEL)%nat;
  so_levels : Forall (fun n => (sn_lvl n <= level s)%nat) ns;
  so_sorted : StronglySorted sn_lt ns;
  so_repr : repr hdr hfa std (heap s) ns None;
  so_dom : dom (heap s) = list_to_set (hdr :: (sn_addr <$> ns));
  so_bag : bag_ok [hdr; hfa] (sn_entry <$> ns)
}.

#[export] Instance skip_engine {A} `{Allocator A} (random : nat -> Z) : Engine A SkipList := {
  e_set := kvs_skiplist_set random;
  e_get := fun e k => res_map (option_map b_str) (kvs_skiplist_get e k);
  e_del := kvs_skiplist_del;
  e_mod := kvs_skiplist_mod;
  e_exist := kvs_skiplist_exist;
  e_map := fun e => bag_map (sk_entries e);
  e_owned := fun e => bag_owned (sk_base e) (sk_entries e);
  e_inv := fun e => exists hdr hfa ns, skip_ok e hdr hfa ns;
  e_full := fun _ => false;
  e_del_absent := 1
}.

Lemma bag_addrs_ok hdr hfa ns : bag_ok [hdr; hfa] (sn_entry <$> ns) -> addrs_ok hdr ns.
Proof.
  intros [_ Ha]. unfold bag_addrs in Ha. unfold addrs_ok.
  assert (Hsub : forall x, x ∈ (sn_addr <$> ns) -> x ∈ ((sn_entry <$> ns) ≫= en_addrs)).
  { intros x Hx. apply list_elem_of_fmap in Hx as (n & -> & Hn). apply list_elem_of_bind.
    exists (sn_entry n). split; [cbn; set_solver | by apply list_elem_of_fmap_2]. }
  apply NoDup_app in Ha as (_ & Hd & Ha). constructor; [intros Hh; apply (Hd hdr); [set_solver | auto] |].
  clear Hd Hsub. induction ns as [| n ns IH]; [constructor |]. cbn in Ha |- *.
  apply NoDup_cons in Ha as [_ Ha]. apply NoDup_cons in Ha as [_ Ha]. apply NoDup_cons in Ha as [_ Ha].
  apply NoDup_cons in Ha as [Hn Ha]. constructor; [| by apply IH].
  intros Hin. apply Hn. apply list_elem_of_fmap in Hin as (m & He & Hm). apply list_elem_of_bind.
  exists (sn_entry m). split; [rewrite He; cbn; set_solver | by apply list_elem_of_fmap_2].
Qed.

Lemma skip_size s hdr hfa ns : skip_ok s hdr hfa ns -> size (heap s) = S (length ns).
Proof.
  intros Hok. rewrite <- size_dom, (so_dom _ _ _ _ Hok), size_list_to_set.
  - cbn. by rewrite length_fmap.
  - eapply bag_addrs_ok, Hok.
Qed.

(** The list read back from the heap is the list of the invariant. *)
Lemma collect_repr hdr hfa h l1 ns fuel :
  repr hdr hfa std h (l1 ++ ns) None -> (length ns <= fuel)%nat ->
  collect fuel h (nxt std 0 ns) = ns.
Proof.
  revert l1 fuel. induction ns as [| n ns IH]; intros l1 fuel Hr Hf; [by destruct fuel |].
  destruct fuel as [| fuel]; [cbn in Hf; lia |]. cbn.
  pose proof (Hr (Some n) ns ltac:(by exists l1) ltac:(done)) as Hn. cbn [cell_addr] in Hn. rewrite Hn.
  cbn [cell_node]. rewrite lookup_fwd_list, length_fwd_list by lia. cbn [mjoin option_join].
  rewrite (IH (l1 ++ [n]) fuel); [| by rewrite <- app_assoc | cbn in Hf; lia].
  f_equal. destruct n; cbn. f_equal. lia.
Qed.

Lemma sk_nodes_ok s hdr hfa ns : skip_ok s hdr hfa ns -> sk_nodes s = ns /\ sk_base s = [hdr; hfa].
Proof.
  intros Hok. unfold sk_nodes, sk_base. rewrite (so_header _ _ _ _ Hok).
  pose proof (so_repr _ _ _ _ Hok None ns eq_refl ltac:(done)) as Hh. cbn [cell_addr] in Hh. rewrite Hh.
  cbn [cell_node forward fwd_addr]. rewrite lookup_fwd_list by (unfold SKIPLIST_MAX_LEVEL; lia).
  cbn [mjoin option_join]. split; [| done]. apply (collect_repr hdr hfa _ []).
  - apply Hok.
  - rewrite (skip_size _ _ _ _ Hok). lia.
Qed.

Section SkipFacts.
Context {A : Type} `{AllocatorLaws A}.
Variable random : nat -> Z.
Implicit Types (s : SkipList) (a : A).

Local Notation swf := (e_wf (ENG := skip_engine random)).
Local Notation sframe := (e_frame (ENG := skip_engine random)).

Lemma random_level_bound rem lvl calls :
  (lvl <= (random_level_loop random rem lvl calls).1 <= lvl + rem)%nat.
Proof.
  revert lvl calls. induction rem as [| rem IH]; intros lvl calls; cbn;
    destruct (_ <? _); cbn; try lia. specialize (IH (S lvl) (S calls)). lia.
Qed.

(** The search of a well-formed list: the list is cut at the key. *)
Lemma search_spec s hdr hfa ns k len :
  skip_ok s hdr hfa ns -> (level s < len)%nat ->
  exists lo hi u, ns = lo ++ hi /\ Forall (before k) lo /\ Forall (fun n => ~ before k n) hi /\
    (forall n hi', hi = n :: hi' -> Forall (fun m => b_str (sn_key m) <> k) hi') /\
    search s k len = Ok (sn_addr <$> head hi, u) /\ length u = len /\ update_ok hdr lo u (level s).
Proof.
  intros Hok Hlen. destruct (sorted_cut ns k (so_sorted _ _ _ _ Hok)) as (lo & hi & -> & Hlo & Hhi & Hk).
  pose proof (so_repr _ _ _ _ Hok) as Hr. unfold search. rewrite (so_header _ _ _ _ Hok). run.
  destruct (descend_spec hdr hfa (heap s) lo hi k Hr Hlo Hhi (size (heap s)) (level s) None lo
    (replicate len None)) as (c & u & Hd & Hl & Hlu & Hu & _).
  - rewrite (skip_size _ _ _ _ Hok), length_app. lia.
  - split; [done |]. cbn [cell_lvl]. pose proof (so_level _ _ _ _ Hok). lia.
  - by rewrite length_replicate.
  - exists lo, hi, u. rewrite length_replicate in Hlu. repeat (split; [done |]). split; [| done].
    cbn [cell_addr] in Hd. rewrite Hd. run.
    destruct Hl as [[Hs _] _].
    rewrite (repr_get_fwd hdr hfa std (heap s) (lo ++ hi) None c ([] ++ hi) 0); [| done | by apply splits_app | done | lia].
    run. f_equal. f_equal. by destruct hi.
Qed.

Lemma found_spec s hdr hfa lo hi k :
  skip_ok s hdr hfa (lo ++ hi) -> Forall (before k) lo ->
  (forall n hi', hi = n :: hi' -> Forall (fun m => b_str (sn_key m) <> k) hi') ->
  (exists n hi', hi = n :: hi' /\ b_str (sn_key n) = k /\
     found (heap s) (sn_addr <$> head hi) k = Ok true /\
     bag_map (sn_entry <$> lo ++ hi) !! k = Some (b_str (sn_val n))) \/
  (found (heap s) (sn_addr <$> head hi) k = Ok false /\ bag_map (sn_entry <$> lo ++ hi) !! k = None).
Proof.
  intros Hok Hlo Hk.
  assert (Hlo' : Forall (fun n => b_str (sn_key n) <> k) lo).
  { eapply Forall_impl; [exact Hlo |]. unfold before. intros n Hn <-. by rewrite strcmp_refl in Hn. }
  destruct hi as [| n hi]; cbn.
  - right. split; [done |]. apply bag_lookup_none. rewrite app_nil_r. apply Forall_fmap. exact Hlo'.
  - rewrite (repr_cmp hdr hfa std (heap s) (lo ++ n :: hi) None n hi); [| apply Hok | by exists lo | done]. run.
    destruct (decide (b_str (sn_key n) = k)) as [He | Hne].
    + left. exists n, hi. rewrite He, strcmp_refl. repeat (split; [done |]). subst k.
      apply (bag_lookup_some [hdr; hfa] _ (sn_entry n)); [apply Hok |]. apply list_elem_of_fmap_2. set_solver.
    + right. split.
      * f_equal. apply Z.eqb_neq. by rewrite strcmp_eq.
      * apply bag_lookup_none, Forall_fmap, Forall_app. split; [exact Hlo' |].
        constructor; [done |]. apply (Hk n hi eq_refl).
Qed.

Lemma skip_bag s hdr hfa ns a :
  skip_ok s hdr hfa ns -> swf s a -> bag_wf [hdr; hfa] (sn_entry <$> ns) a.
Proof.
  intros Hok (_ & Ha & Ho). split; [apply Hok |]. split; [done |].
  cbn [e_owned skip_engine] in Ho. unfold sk_entries in Ho.
  destruct (sk_nodes_ok _ _ _ _ Hok) as [Hn Hb]. by rewrite Hn, Hb in Ho.
Qed.

(** Moving between well-formed lists. *)
Lemma skip_result s hdr hfa ns a s' ns' a' :
  skip_ok s hdr hfa ns -> skip_ok s' hdr hfa ns' ->
  bag_wf [hdr; hfa] (sn_entry <$> ns') a' ->
  bag_frame [hdr; hfa] (sn_entry <$> ns) a (sn_entry <$> ns') a' ->
  swf s' a' /\ sframe s a s' a'.
Proof.
  intros Hok Hok' (_ & Ha & Ho) Hf. unfold e_wf, e_frame. cbn [e_owned e_inv skip_engine].
  unfold sk_entries. destruct (sk_nodes_ok _ _ _ _ Hok) as [-> ->].
  destruct (sk_nodes_ok _ _ _ _ Hok') as [-> ->]. split; [| exact Hf]. split; [| done]. eauto.
Qed.

Lemma sk_map_ok s hdr hfa ns : skip_ok s hdr hfa ns -> bag_map (sk_entries s) = bag_map (sn_entry <$> ns).
Proof. intros Hok. unfold sk_entries. by destruct (sk_nodes_ok _ _ _ _ Hok) as [-> _]. Qed.

(** *** [get], [exist] *)

Lemma skip_get_spec s k :
  (exists hdr hfa ns, skip_ok s hdr hfa ns) ->
  exists ob, kvs_skiplist_get s (Some k) = Ok ob /\ option_map b_str ob = bag_map (sk_entries s) !! k.
Proof.
  intros (hdr & hfa & ns & Hok). rewrite (sk_map_ok _ _ _ _ Hok). unfold kvs_skiplist_get.
  destruct (search_spec s hdr hfa ns k (S (level s)) Hok ltac:(lia))
    as (lo & hi & u & -> & Hlo & Hhi & Hk & -> & _ & _). run.
  destruct (found_spec s hdr hfa lo hi k Hok Hlo Hk) as [(n & hi' & -> & Hkn & -> & ->) | [-> ->]];
    [| by exists None].
  run. cbn [head fmap option_fmap option_map]. run.
  pose proof (so_repr _ _ _ _ Hok (Some n) hi' ltac:(by exists lo) ltac:(done)) as Hn.
  cbn [cell_addr] in Hn. rewrite Hn. run. eauto.
Qed.

Lemma skip_exist_spec s k :
  (exists hdr hfa ns, skip_ok s hdr hfa ns) ->
  exists r, kvs_skiplist_exist s (Some k) = Ok r /\ (r = 0 <-> is_Some (bag_map (sk_entries s) !! k)).
Proof.
  intros Hinv. unfold kvs_skiplist_exist. destruct (skip_get_spec s k Hinv) as (ob & -> & <-). run.
  destruct ob as [b |]; cbn; eexists; (split; [done |]); split; try done; eauto.
Qed.

(** *** [set] *)

Lemma create_node_ok lvl k v a p x a' :
  al_inv a -> createNode lvl (Some k) (Some v) a = (Some (p, x), a') ->
  exists kb vb f, x = MkNode (Some kb) (Some vb) f (replicate (lvl + 1) None) /\
    b_str kb = k /\ b_str vb = v /\ al_inv a' /\
    NoDup [b_addr vb; b_addr kb; f; p] /\ list_to_set [b_addr vb; b_addr kb; f; p] ## al_live a /\
    al_live a' = list_to_set [b_addr vb; b_addr kb; f; p] ∪ al_live a.
Proof.
  intros Hi. unfold createNode.
  destruct (kvs_malloc 24 a) as [[q |] a1] eqn:Hm; [| done].
  destruct (malloc_some _ _ _ _ Hi Hm) as (Hp & Hl1 & Hi1).
  destruct (kvs_malloc _ a1) as [[f |] a2] eqn:Hm2; [| done].
  destruct (malloc_some _ _ _ _ Hi1 Hm2) as (Hf & Hl2 & Hi2).
  destruct (dup_str k a2) as [[kb |] a3] eqn:Hd1; [| done].
  destruct (dup_str_some _ _ _ _ Hi2 Hd1) as (Hk & Hkf & Hl3 & Hi3).
  destruct (dup_str v a3) as [[vb |] a4] eqn:Hd2; [| done].
  destruct (dup_str_some _ _ _ _ Hi3 Hd2) as (Hv & Hvf & Hl4 & Hi4).
  intros [= <- <- <-]. exists kb, vb, f. repeat (split; [done |]).
  rewrite Hl4, Hl3, Hl2, Hl1 in *. split; [| split; clear - Hp Hf Hkf Hvf; set_solver].
  repeat (constructor; [clear - Hp Hf Hkf Hvf; set_solver |]). constructor.
Qed.

Lemma create_node_fails lvl k v a a' :
  al_inv a -> createNode lvl (Some k) (Some v) a = (None, a') ->
  al_live a' = al_live a /\ al_inv a' /\ al_can_fail A.
Proof.
  intros Hi. unfold createNode.
  destruct (kvs_malloc 24 a) as [[q |] a1] eqn:Hm.
  2: { intros [= <-]. destruct (malloc_none _ _ _ Hi Hm). repeat (split; [done |]). exists 24, a. by rewrite Hm. }
  destruct (malloc_some _ _ _ _ Hi Hm) as (Hp & Hl1 & Hi1).
  destruct (kvs_malloc _ a1) as [[f |] a2] eqn:Hm2.
  2: { intros [= <-]. destruct (malloc_none _ _ _ Hi1 Hm2) as [Hl2 Hi2].
       destruct (free_live q a2) as [Hl3 Hi3]; [done | set_solver |].
       split; [rewrite Hl3, Hl2, Hl1; clear - Hp; set_solver |]. split; [done |].
       eexists _, a1. split; [| by rewrite Hm2]. pos_size. }
  destruct (malloc_some _ _ _ _ Hi1 Hm2) as (Hf & Hl2 & Hi2).
  destruct (dup_str k a2) as [[kb |] a3] eqn:Hd1.
  2: { intros [= <-]. destruct (dup_str_none _ _ _ Hi2 Hd1) as [Hl3 Hi3]. rewrite Hl2, Hl1 in *.
       destruct (free_all [f; q] a3) as [Hl4 Hi4];
         [done | constructor; [clear - Hf; set_solver | apply NoDup_singleton] | rewrite Hl3; clear; set_solver |].
       cbn in Hl4, Hi4. split; [rewrite Hl4, Hl3; clear - Hp Hf; set_solver |]. eauto using dup_str_fails. }
  destruct (dup_str_some _ _ _ _ Hi2 Hd1) as (Hk & Hkf & Hl3 & Hi3).
  destruct (dup_str v a3) as [[vb |] a4] eqn:Hd2; [done |].
  intros [= <-]. destruct (dup_str_none _ _ _ Hi3 Hd2) as [Hl4 Hi4]. rewrite Hl3, Hl2, Hl1 in *.
  destruct (free_all [f; b_addr kb; q] a4) as [Hl5 Hi5]; [done | | rewrite Hl4; clear; set_solver |].
  { repeat (constructor; [clear - Hp Hf Hkf; set_solver |]). constructor. }
  cbn in Hl5, Hi5. split; [rewrite Hl5, Hl4; clear - Hp Hf Hkf; set_solver |]. eauto using dup_str_fails.
Qed.

Lemma sorted_insert lo n hi :
  StronglySorted sn_lt (lo ++ hi) -> Forall (before (b_str (sn_key n))) lo ->
  Forall (sn_lt n) hi -> StronglySorted sn_lt (lo ++ n :: hi).
Proof.
  intros Hs Hlo Hhi. induction lo as [| m lo IH]; cbn in *; [by constructor |].
  inversion Hs as [| ? ? Hs' Hm]; subst. inversion Hlo as [| ? ? Hm' Hlo']; subst.
  constructor; [by apply IH |]. apply Forall_app in Hm as [F1 F2].
  apply Forall_app. split; [done |]. by constructor.
Qed.

Lemma sorted_remove lo n hi : StronglySorted sn_lt (lo ++ n :: hi) -> StronglySorted sn_lt (lo ++ hi).
Proof.
  induction lo as [| m lo IH]; cbn; inversion 1 as [| ? ? Hs Hm]; subst; [done |].
  constructor; [by apply IH |]. apply Forall_app in Hm as [F1 F2]. inversion F2. by apply Forall_app.
Qed.

(** The state between the search and the links, with room for all levels of
    the new node. *)
Lemma set_level_spec s hdr hfa lo hi lvl u :
  skip_ok s hdr hfa (lo ++ hi) -> (lvl < SKIPLIST_MAX_LEVEL)%nat -> length u = SKIPLIST_MAX_LEVEL ->
  update_ok hdr lo u (level s) ->
  exists u', (if (level s <? lvl)%nat
      then u' ← raise_level u (header s) (S (level s)) (lvl - level s); Ok (u', Nat.max (level s) lvl)
      else Ok (u, Nat.max (level s) lvl)) = Ok (u', Nat.max (level s) lvl) /\ update_ok hdr lo u' lvl.
Proof.
  intros Hok Hlvl Hlen Hu. destruct (Nat.ltb_spec (level s) lvl) as [Hlt | Hge].
  - rewrite (so_header _ _ _ _ Hok).
    destruct (raise_level_spec hdr lo u (S (level s)) (lvl - level s)) as (u' & -> & Hu').
    + lia.
    + lia.
    + lia.
    + pose proof (so_levels _ _ _ _ Hok) as Hl. apply Forall_app in Hl as [Hl _].
      eapply Forall_impl; [exact Hl |]. cbn. lia.
    + by replace (S (level s) - 1)%nat with (level s) by lia.
    + exists u'. split; [done |]. by replace (S (level s) + (lvl - level s) - 1)%nat with lvl in Hu' by lia.
  - exists u. split; [done |]. intros j Hj. apply Hu. lia.
Qed.

Lemma fwd_list_none lvl : fwd_list lvl (fun _ => None) = replicate (lvl + 1) None.
Proof.
  unfold fwd_list. replace (lvl + 1)%nat with (S lvl) by lia.
  generalize (S lvl) 0%nat. induction n as [| n IH]; intros m; cbn; [done |]. by rewrite <- (IH (S m)).
Qed.

(** Linking a fresh node between [lo] and [hi]. *)
Lemma skip_link s hdr hfa lo hi n u :
  skip_ok s hdr hfa (lo ++ hi) -> Forall (before (b_str (sn_key n))) lo -> Forall (sn_lt n) hi ->
  (sn_lvl n < SKIPLIST_MAX_LEVEL)%nat -> update_ok hdr lo u (sn_lvl n) ->
  bag_ok [hdr; hfa] (sn_entry <$> lo ++ n :: hi) ->
  exists h', splice (<[sn_addr n := MkNode (Some (sn_key n)) (Some (sn_val n)) (sn_fwd n)
                        (replicate (sn_lvl n + 1) None)]> (heap s)) u (sn_addr n) (sn_lvl n) = Ok h' /\
    forall r, skip_ok (MkSkipList (header s) (Nat.max (level s) (sn_lvl n)) h' r) hdr hfa (lo ++ n :: hi).
Proof.
  intros Hok Hlo Hhi Hlvl Hu Hb. pose proof (bag_addrs_ok _ _ _ Hb) as Hnd.
  destruct (splice_spec hdr hfa lo hi n u Hnd (sn_lvl n)
    (<[sn_addr n := MkNode (Some (sn_key n)) (Some (sn_val n)) (sn_fwd n)
                        (replicate (sn_lvl n + 1) None)]> (heap s))) as (h' & Hsp & Hr & Hd).
  - done.
  - done.
  - apply repr_insert_skip. apply repr_hide; [done |]. apply Hok.
  - rewrite lookup_insert_eq. f_equal. cbn [cell_node]. f_equal. rewrite <- fwd_list_none.
    apply fwd_list_ext. intros j Hj. by rewrite decide_False by lia.
  - exists h'. split; [done |]. intros r. split; cbn [header level heap].
    + apply Hok.
    + pose proof (so_level _ _ _ _ Hok). lia.
    + pose proof (so_levels _ _ _ _ Hok) as Hl. apply Forall_app in Hl as [Hl1 Hl2].
      apply Forall_app. split; [| constructor; [lia |]];
        (eapply Forall_impl; [first [exact Hl1 | exact Hl2] |]; cbn; lia).
    + apply sorted_insert; [apply Hok | done | done].
    + done.
    + rewrite Hd, dom_insert_L, (so_dom _ _ _ _ Hok). rewrite !fmap_app, fmap_cons, !list_to_set_cons, !list_to_set_app_L.
      cbn [list_to_set]. clear. set_solver.
    + done.
Qed.

Lemma skip_set_spec s a k v :
  swf s a ->
  exists r s' a', kvs_skiplist_set random s (Some k) (Some v) a = Ok (r, s', a') /\
    (swf s' a' /\ sframe s a s' a') /\
    (set_spec false (bag_map (sk_entries s)) k v r (bag_map (sk_entries s')) \/
     r = -2 /\ sk_entries s' = sk_entries s /\ al_can_fail A).
Proof.
  intros Hwf. pose proof Hwf as ((hdr & hfa & ns & Hok) & Hal & _).
  pose proof (skip_bag _ _ _ _ _ Hok Hwf) as Hb. unfold kvs_skiplist_set.
  destruct (search_spec s hdr hfa ns k SKIPLIST_MAX_LEVEL Hok (so_level _ _ _ _ Hok))
    as (lo & hi & u & -> & Hlo & Hhi & Hk & -> & Hlen & Hu). run.
  rewrite (sk_map_ok _ _ _ _ Hok).
  destruct (found_spec s hdr hfa lo hi k Hok Hlo Hk) as [(n & hi' & -> & Hkn & -> & Hsome) | [-> Hnone]]; run.
  { eexists _, _, _. split; [done |]. split; [done |]. left. rewrite (sk_map_ok _ _ _ _ Hok).
    by eapply set_exists. }
  assert (Hrb : ((randomLevel random (rnd s)).1 < SKIPLIST_MAX_LEVEL)%nat).
  { pose proof (random_level_bound (SKIPLIST_MAX_LEVEL - 1) 0 (rnd s)) as Hx. unfold randomLevel.
    unfold SKIPLIST_MAX_LEVEL in *. lia. }
  destruct (randomLevel random (rnd s)) as [lvl r]. cbn [fst] in Hrb.
  destruct (createNode lvl (Some k) (Some v) a) as [[[p x] |] a'] eqn:Hc.
  2: { destruct (create_node_fails _ _ _ _ _ Hal Hc) as (Hl & Hi & Hcf).
       eexists _, _, _. split; [done |]. split; [| by right]. unfold e_wf, e_frame. rewrite Hl.
       split; [| done]. split; [| apply Hwf || (split; [done |]; apply Hwf)].
       exists hdr, hfa, (lo ++ hi). destruct Hok. by split. }
  destruct (create_node_ok _ _ _ _ _ _ _ Hal Hc) as (kb & vb & f & -> & Hkb & Hvb & Hi & Hnd & Hd & Hl).
  set (n := SN p kb vb f lvl).
  destruct (bag_add_perm [hdr; hfa] _ (sn_entry <$> lo ++ n :: hi) (sn_entry n) a a' Hb) as (Hw & Hfr & Hm); try done.
  { rewrite !fmap_app. cbn. by rewrite <- Permutation_middle. }
  { cbn. by rewrite Hkb. }
  destruct (set_level_spec s hdr hfa lo hi lvl u Hok Hrb Hlen Hu) as (u' & Hu' & Huo).
  destruct (skip_link s hdr hfa lo hi n u' Hok) as (h' & Hsp & Hok').
  { by subst k. }
  { apply Forall_forall. intros m Hm'. unfold sn_lt. cbn. rewrite Hkb.
    rewrite Forall_forall in Hhi. specialize (Hhi m Hm'). unfold before in Hhi.
    rewrite bag_lookup_none in Hnone. rewrite Forall_fmap, Forall_app in Hnone. destruct Hnone as [_ Hnone].
    rewrite Forall_forall in Hnone. specialize (Hnone m Hm'). cbn in Hnone.
    destruct (strcmp_trichotomy (b_str (sn_key m)) k) as [? | [? | ?]]; done. }
  { done. }
  { done. }
  { apply Hw. }
  cbn [with_rnd with_heap level header heap rnd] in *.
  exists 0, (MkSkipList (header s) (Nat.max (level s) lvl) h' r), a'. split.
  { destruct (level s <? lvl)%nat eqn:Hlt.
    - destruct (raise_level _ _ _ _) as [u2 | |]; cbn in Hu'; try done. injection Hu' as ->. run.
      cbn [n sn_addr sn_key sn_val sn_fwd sn_lvl] in Hsp.
      unfold with_heap, with_level, with_rnd. cbn [header level heap rnd]. rewrite Hsp. run.
      apply Nat.ltb_lt in Hlt. by replace (Nat.max (level s) lvl) with lvl by lia.
    - injection Hu' as ->. run.
      cbn [n sn_addr sn_key sn_val sn_fwd sn_lvl] in Hsp.
      unfold with_heap, with_rnd. cbn [header level heap rnd]. rewrite Hsp. run.
      apply Nat.ltb_ge in Hlt. by replace (Nat.max (level s) lvl) with (level s) by lia. }
  split; [by eapply skip_result; [exact Hok | apply Hok' | |] |].
  left. change (sn_lvl n) with lvl in Hok'. rewrite (sk_map_ok _ _ _ _ (Hok' r)), Hm. cbn. rewrite Hkb, Hvb. by apply set_new.
Qed.

(** *** [del], [mod] *)

Lemma skip_unlink s hdr hfa lo n hi u :
  skip_ok s hdr hfa (lo ++ n :: hi) -> update_ok hdr lo u (level s) ->
  exists h' lvl, unsplice (heap s) u (sn_addr n) 0 (S (level s)) = Ok h' /\
    h' !! sn_addr n = Some (cell_node hfa (Some n) (fun j => nxt std j hi)) /\
    lower_level (delete (sn_addr n) h') hdr (level s) = Ok lvl /\
    skip_ok (with_level (with_heap s (delete (sn_addr n) h')) lvl) hdr hfa (lo ++ hi).
Proof.
  intros Hok Hu. pose proof (bag_addrs_ok _ _ _ (so_bag _ _ _ _ Hok)) as Hnd.
  pose proof (so_levels _ _ _ _ Hok) as Hl. pose proof Hl as Hl'. apply Forall_app in Hl' as [Hl1 Hl2].
  inversion Hl2 as [| ? ? Hln Hl3]; subst.
  pose proof (so_repr _ _ _ _ Hok (Some n) hi ltac:(by exists lo) ltac:(done)) as Hn. cbn [cell_addr] in Hn.
  destruct (unsplice_spec hdr hfa lo hi n u Hnd (S (level s)) 0 (heap s) (level s)) as (h' & Hun & Hr & Hq & Hd);
    [lia | done | lia | done | | done |].
  { intros c suf Hs Hne. rewrite (so_repr _ _ _ _ Hok c suf Hs ltac:(done)). f_equal. apply cell_node_ext.
    intros i _. apply nxt_ext. intros m _. unfold from_level. cbn. by rewrite orb_true_r, andb_true_r. }
  apply repr_hide in Hr; [| done].
  assert (Hr' : repr hdr hfa std (delete (sn_addr n) h') (lo ++ hi) None).
  { intros c suf Hs Hne. rewrite lookup_delete_ne; [by apply Hr |]. intros He.
    apply splits_app_inv in Hs as [(t & -> & Hs) | (m & l & -> & Hm)].
    - destruct c as [m |]; cbn in He.
      + apply (addr_other hdr lo n hi Hnd m); [left; by eapply splits_elem | done].
      + unfold addrs_ok in Hnd. apply NoDup_cons in Hnd as [Hx _]. apply Hx. rewrite <- He.
        apply list_elem_of_fmap_2. clear. set_solver.
    - apply (addr_other hdr lo n hi Hnd m); [right; rewrite Hm; clear; set_solver | done]. }
  assert (Hl12 : Forall (fun n => (sn_lvl n <= level s)%nat) (lo ++ hi)) by (by apply Forall_app).
  destruct (lower_level_spec hdr hfa (delete (sn_addr n) h') (lo ++ hi) (level s) Hr') as (lvl & Hlow & Hle & Hlv);
    [pose proof (so_level _ _ _ _ Hok); lia | done |].
  exists h', lvl. split; [done |]. split; [congruence |]. split; [done |].
  split; cbn [header level heap with_level with_heap].
  - apply Hok.
  - pose proof (so_level _ _ _ _ Hok). lia.
  - done.
  - eapply sorted_remove, Hok.
  - done.
  - rewrite dom_delete_L, Hd, (so_dom _ _ _ _ Hok). rewrite !fmap_app, fmap_cons.
    unfold addrs_ok in Hnd. rewrite fmap_app, fmap_cons in Hnd.
    change (hdr :: (sn_addr <$> lo) ++ ?x) with ((hdr :: (sn_addr <$> lo)) ++ x) in *.
    rewrite <- Permutation_middle in Hnd. apply NoDup_cons in Hnd as [Hx _].
    rewrite !list_to_set_app_L, !list_to_set_cons. clear - Hx. set_solver.
  - pose proof (so_bag _ _ _ _ Hok) as Hb.
    apply (bag_ok_perm _ _ (sn_entry n :: (sn_entry <$> lo ++ hi))) in Hb;
      [| rewrite !fmap_app; cbn; by rewrite <- Permutation_middle].
    destruct Hb as [Hk Ha]. cbn in Hk. apply NoDup_cons in Hk as [_ Hk]. rewrite bag_addrs_cons in Ha.
    apply NoDup_app in Ha as (_ & _ & Ha). by split.
Qed.

Lemma skip_del_spec s a k :
  swf s a ->
  exists r s' a', kvs_skiplist_del s (Some k) a = Ok (r, s', a') /\
    (swf s' a' /\ sframe s a s' a') /\
    del_spec 1 (bag_map (sk_entries s)) k r (bag_map (sk_entries s')).
Proof.
  intros Hwf. pose proof Hwf as ((hdr & hfa & ns & Hok) & Hal & _).
  pose proof (skip_bag _ _ _ _ _ Hok Hwf) as Hb. unfold kvs_skiplist_del.
  destruct (search_spec s hdr hfa ns k (S (level s)) Hok ltac:(lia))
    as (lo & hi & u & -> & Hlo & Hhi & Hk & -> & Hlen & Hu). run.
  rewrite (sk_map_ok _ _ _ _ Hok).
  destruct (found_spec s hdr hfa lo hi k Hok Hlo Hk) as [(n & hi' & -> & Hkn & -> & Hsome) | [-> Hnone]]; run.
  2: { eexists _, _, _. split; [done |]. split; [done |]. rewrite (sk_map_ok _ _ _ _ Hok). by apply del_missing. }
  cbn [head fmap option_fmap option_map]. run.
  destruct (skip_unlink s hdr hfa lo n hi' u Hok Hu) as (h' & lvl & -> & Hn & Hlow & Hok').
  run. rewrite Hn, (so_header _ _ _ _ Hok). run. rewrite Hlow. run.
  cbn [cell_node sk_key sk_value fwd_addr free_opt].
  assert (Hp : sn_entry <$> lo ++ n :: hi' ≡ₚ sn_entry n :: (sn_entry <$> lo ++ hi'))
    by (rewrite !fmap_app; cbn; by rewrite <- Permutation_middle).
  destruct Hb as (Hbo & _ & Hsub). pose proof Hbo as Hbo'. apply (bag_ok_perm _ _ _ Hp) in Hbo'.
  destruct (free_all [b_addr (sn_key n); b_addr (sn_val n); sn_fwd n; sn_addr n] a) as [Hl Hi].
  { done. }
  { destruct Hbo' as [_ Ha]. rewrite bag_addrs_cons in Ha. apply NoDup_app in Ha as (Ha & _).
    cbn in Ha. by rewrite (Permutation_swap (b_addr (sn_key n)) (b_addr (sn_val n))) in Ha. }
  { rewrite (bag_owned_perm _ _ _ Hp), bag_owned_cons in Hsub. cbn in Hsub. clear - Hsub. set_solver. }
  cbn in Hl, Hi.
  destruct (bag_remove_perm [hdr; hfa] _ _ (sn_entry n) a
    (kvs_free (sn_addr n) (kvs_free (sn_fwd n) (kvs_free (b_addr (sn_val n)) (kvs_free (b_addr (sn_key n)) a))))
    (conj Hbo (conj Hal Hsub)) Hp) as (Hw & Hfr & Hm); [rewrite Hl; cbn; clear; set_solver | done |].
  eexists _, _, _. split; [done |]. split; [by eapply skip_result |].
  rewrite (sk_map_ok _ _ _ _ Hok'), Hm. cbn. rewrite Hkn. by eapply del_present.
Qed.

(** Replacing the value block of a node changes nothing of the links. *)
Lemma skip_revalue s hdr hfa lo n hi vb :
  skip_ok s hdr hfa (lo ++ n :: hi) ->
  bag_ok [hdr; hfa] (sn_entry <$> lo ++ SN (sn_addr n) (sn_key n) vb (sn_fwd n) (sn_lvl n) :: hi) ->
  skip_ok (with_heap s (<[sn_addr n := MkNode (Some (sn_key n)) (Some vb) (sn_fwd n)
      (fwd_list (sn_lvl n) (fun j => nxt std j hi))]> (heap s)))
    hdr hfa (lo ++ SN (sn_addr n) (sn_key n) vb (sn_fwd n) (sn_lvl n) :: hi).
Proof.
  intros Hok Hb. set (n' := SN _ _ _ _ _) in *. pose proof (bag_addrs_ok _ _ _ Hb) as Hnd.
  pose proof (so_levels _ _ _ _ Hok) as Hl. apply Forall_app in Hl as [Hl1 Hl2].
  inversion Hl2 as [| ? ? Hln Hl3]; subst.
  split; cbn [header level heap with_heap].
  - apply Hok.
  - apply Hok.
  - apply Forall_app. split; [done |]. by constructor.
  - pose proof (so_sorted _ _ _ _ Hok) as Hs. clear - Hs. induction lo as [| m lo IH]; cbn in *;
      inversion Hs as [| ? ? Hs' Hm]; subst; [by constructor |]. constructor; [by apply IH |].
    apply Forall_app in Hm as [F1 F2]. inversion F2; subst. apply Forall_app. split; [done |]. by constructor.
  - intros c suf Hs _. destruct (decide (cell_addr hdr c = sn_addr n)) as [He | Hne].
    + destruct (cell_inj hdr _ c suf (Some n') hi Hnd Hs ltac:(by exists lo) He) as [-> ->].
      cbn [cell_addr n' sn_addr]. by rewrite lookup_insert_eq.
    + rewrite lookup_insert_ne by done. apply splits_app_inv in Hs as [(t & -> & Hs) | (m & l & -> & Hm)].
      * rewrite (so_repr _ _ _ _ Hok c (t ++ n :: hi)); [| by apply splits_app | done].
        f_equal. apply cell_node_ext. intros i _. by rewrite !nxt_app.
      * destruct l as [| x l]; cbn in Hm; injection Hm as <- ->; [done |].
        apply (so_repr _ _ _ _ Hok (Some m)); [| done]. exists (lo ++ n :: l). by rewrite <- app_assoc.
  - rewrite dom_insert_lookup_L.
    + rewrite (so_dom _ _ _ _ Hok), !fmap_app. done.
    + pose proof (so_repr _ _ _ _ Hok (Some n) hi ltac:(by exists lo) ltac:(done)) as Hn. cbn [cell_addr] in Hn. eauto.
  - done.
Qed.

Lemma skip_mod_spec s a k v :
  swf s a ->
  exists r s' a', kvs_skiplist_mod s (Some k) (Some v) a = Ok (r, s', a') /\
    (swf s' a' /\ sframe s a s' a') /\
    (mod_spec (bag_map (sk_entries s)) k v r (bag_map (sk_entries s')) \/
     r = -2 /\ s' = s /\ al_can_fail A).
Proof.
  intros Hwf. pose proof Hwf as ((hdr & hfa & ns & Hok) & Hal & _).
  pose proof (skip_bag _ _ _ _ _ Hok Hwf) as Hb. unfold kvs_skiplist_mod.
  destruct (search_spec s hdr hfa ns k (S (level s)) Hok ltac:(lia))
    as (lo & hi & u & -> & Hlo & Hhi & Hk & -> & _ & _). run.
  rewrite (sk_map_ok _ _ _ _ Hok).
  destruct (found_spec s hdr hfa lo hi k Hok Hlo Hk) as [(n & hi' & -> & Hkn & -> & Hsome) | [-> Hnone]]; run.
  2: { eexists _, _, _. split; [done |]. split; [done |]. left. rewrite (sk_map_ok _ _ _ _ Hok). by apply mod_missing. }
  destruct (dup_str v a) as [[vb |] a1] eqn:Hd.
  2: { destruct (dup_str_none _ _ _ Hal Hd) as (Hl & Hi). eexists _, _, _. split; [done |]. split.
       - unfold e_wf, e_frame. rewrite Hl. split; [| done]. split; [apply Hwf |]. split; [done | apply Hwf].
       - right. eauto using dup_str_fails. }
  destruct (dup_str_some _ _ _ _ Hal Hd) as (Hvs & Hvf & Hl1 & Hi1).
  cbn [head fmap option_fmap option_map]. run.
  pose proof (so_repr _ _ _ _ Hok (Some n) hi' ltac:(by exists lo) ltac:(done)) as Hn.
  cbn [cell_addr] in Hn. rewrite Hn. run. cbn [cell_node sk_key sk_value fwd_addr forward free_opt].
  set (n' := SN (sn_addr n) (sn_key n) vb (sn_fwd n) (sn_lvl n)).
  assert (Hp : forall m, sn_entry <$> lo ++ m :: hi' ≡ₚ sn_entry m :: (sn_entry <$> lo ++ hi'))
    by (intros m; rewrite !fmap_app; cbn; by rewrite <- Permutation_middle).
  assert (Hin : b_addr (sn_val n) ∈ al_live a).
  { apply (proj2 (proj2 Hb)). rewrite (bag_owned_perm _ _ _ (Hp n)), bag_owned_cons. cbn. clear. set_solver. }
  destruct (free_live (b_addr (sn_val n)) a1) as [Hl2 Hi2]; [done | rewrite Hl1; clear - Hin; set_solver |].
  destruct (bag_replace_perm [hdr; hfa] _ (sn_entry <$> lo ++ n' :: hi')
    _ _ _ _ _ _ _ a (kvs_free (b_addr (sn_val n)) a1) Hb (Hp n) (Hp n') (not_in_diff _ _ _ Hvf)) as (Hw & Hfr & Hmp); [| done |].
  { rewrite Hl2, Hl1. assert (Hne : b_addr vb <> b_addr (sn_val n)) by congruence. clear - Hne. set_solver. }
  pose proof (skip_revalue s hdr hfa lo n hi' vb Hok (proj1 Hw)) as Hok'.
  eexists _, _, _. split; [done |]. split; [by eapply skip_result |].
  left. rewrite (sk_map_ok _ _ _ _ Hok'). change (SN _ _ _ _ _) with n'. rewrite Hmp, Hkn. cbn [n' sn_entry en_val sn_val]. subst v.
  by eapply mod_present.
Qed.

(** *** Creation and destruction *)

Lemma skip_create_spec l r a s a' :
  al_inv a -> kvs_skiplist_create (MkSkipList None l ∅ r) a = (0, s, a') ->
  swf s a' /\ bag_map (sk_entries s) = ∅ /\ al_live a' ∖ bag_owned (sk_base s) (sk_entries s) = al_live a.
Proof.
  intros Hal. unfold kvs_skiplist_create, createNode.
  destruct (kvs_malloc 24 a) as [[p |] a1] eqn:Hm; [| done].
  destruct (malloc_some _ _ _ _ Hal Hm) as (Hp & Hl1 & Hi1).
  destruct (kvs_malloc _ a1) as [[f |] a2] eqn:Hm2; [| done].
  destruct (malloc_some _ _ _ _ Hi1 Hm2) as (Hf & Hl2 & Hi2). intros [= <- <-]. cbn [heap].
  set (s := MkSkipList _ _ _ _).
  assert (Hok : skip_ok s p f []).
  { split; cbn [header level heap s].
    - done.
    - unfold SKIPLIST_MAX_LEVEL. lia.
    - constructor.
    - constructor.
    - intros c suf Hs _. destruct c as [n |]; [by apply splits_elem, not_elem_of_nil in Hs |]. cbn in Hs. subst suf.
      cbn [cell_addr]. by rewrite lookup_insert_eq.
    - rewrite dom_insert_L, dom_empty_L. cbn. clear. set_solver.
    - split; cbn; [constructor |]. constructor; [rewrite Hl1 in Hf; clear - Hf; set_solver | apply NoDup_singleton]. }
  unfold e_wf. cbn [e_inv e_owned skip_engine]. rewrite (sk_map_ok _ _ _ _ Hok). unfold sk_entries.
  destruct (sk_nodes_ok _ _ _ _ Hok) as [-> ->]. rewrite Hl1 in *. cbn [fmap list_fmap].
  split; [split; [eauto |]; split; [done |] |].
  - rewrite Hl2. cbn. clear. set_solver.
  - split; [done |]. rewrite Hl2. cbn. clear - Hp Hf. set_solver.
Qed.

Lemma destroy_loop_spec hdr hfa h l1 ns fuel a :
  repr hdr hfa std h (l1 ++ ns) None -> addrs_ok hdr (l1 ++ ns) -> (length ns <= fuel)%nat -> al_inv a ->
  NoDup ((sn_entry <$> ns) ≫= en_addrs) -> list_to_set ((sn_entry <$> ns) ≫= en_addrs) ⊆ al_live a ->
  forall h0, (forall p, p ∈ sn_addr <$> ns -> h0 !! p = h !! p) ->
  exists h' a', destroy_loop fuel h0 (nxt std 0 ns) a = Ok (h', a') /\ al_inv a' /\
    al_live a' = al_live a ∖ list_to_set ((sn_entry <$> ns) ≫= en_addrs) /\
    (forall p, p ∉ sn_addr <$> ns -> h' !! p = h0 !! p).
Proof.
  intros Hr. revert l1 fuel a Hr. induction ns as [| n ns IH]; intros l1 fuel a Hr Hnd Hf Hi Hda Hsub h0 Hh.
  - destruct fuel; cbn; exists h0, a; repeat (split; [done |]); split; try done; clear; set_solver.
  - destruct fuel as [| fuel]; [cbn in Hf; lia |].
    change (nxt std 0 (n :: ns)) with (Some (sn_addr n)). cbn [destroy_loop].
    pose proof (Hr (Some n) ns ltac:(by exists l1) ltac:(done)) as Hn. cbn [cell_addr] in Hn.
    assert (Hn0 : h0 !! sn_addr n = Some (cell_node hfa (Some n) (fun i => nxt std i ns))).
    { rewrite Hh; [done |]. cbn. by left. }
    unfold get_fwd. rewrite Hn0. run. rewrite cell_node_fwd, lookup_fwd_list by (cbn; lia). run.
    cbn [cell_node sk_key sk_value fwd_addr free_opt].
    change ((sn_entry <$> n :: ns) ≫= en_addrs) with (en_addrs (sn_entry n) ++ ((sn_entry <$> ns) ≫= en_addrs)) in *.
    rewrite list_to_set_app_L in Hsub |- *. apply NoDup_app in Hda as (Hd1 & Hd2 & Hd3). cbn [sn_entry en_addrs] in *.
    destruct (free_all [b_addr (sn_key n); b_addr (sn_val n); sn_fwd n; sn_addr n] a) as [Hl Hi'].
    { done. } { by rewrite (Permutation_swap (b_addr (sn_key n)) (b_addr (sn_val n))) in Hd1. }
    { intros x Hx. apply Hsub, elem_of_union_l. revert Hx. cbn. clear. set_solver. }
    cbn [fold_left] in Hl, Hi'.
    destruct (IH (l1 ++ [n]) fuel (kvs_free (sn_addr n) (kvs_free (sn_fwd n) (kvs_free (b_addr (sn_val n))
      (kvs_free (b_addr (sn_key n)) a))))) with (h0 := delete (sn_addr n) h0) as (h' & a' & He & Hia & Hla & Hk).
    { by rewrite <- app_assoc. } { by rewrite <- app_assoc. } { cbn in Hf; lia. } { done. } { done. }
    { rewrite Hl. intros x Hx. apply elem_of_difference. split; [by apply Hsub, elem_of_union_r |].
      intros Hx'. apply elem_of_list_to_set in Hx. apply (Hd2 x); [clear - Hx'; set_solver | done]. }
    { intros p Hp. rewrite lookup_delete_ne; [apply Hh; cbn; by right |]. intros <-.
      unfold addrs_ok in Hnd. apply NoDup_cons in Hnd as [_ Hnd]. rewrite fmap_app in Hnd.
      apply NoDup_app in Hnd as (_ & _ & Hnd). cbn in Hnd. by apply NoDup_cons in Hnd as [? _]. }
    exists h', a'. split; [exact He |]. split; [done |]. split.
    + rewrite Hla, Hl, frame_shrink. f_equal. f_equal. cbn. clear. set_solver.
    + intros p Hp. cbn in Hp. rewrite Hk by (clear - Hp; set_solver). apply lookup_delete_ne. set_solver.
Qed.

(** [kvs_skiplist_destroy] terminates and releases exactly the blocks of the
    engine. *)
Lemma skip_destroy_spec s a :
  swf s a ->
  exists s' a', kvs_skiplist_destroy s a = Ok (s', a') /\
    al_live a' = al_live a ∖ bag_owned (sk_base s) (sk_entries s) /\ al_inv a'.
Proof.
  intros Hwf. pose proof Hwf as ((hdr & hfa & ns & Hok) & Hal & _).
  destruct (skip_bag _ _ _ _ _ Hok Hwf) as ([_ Hnd] & _ & Hsub). unfold sk_entries.
  destruct (sk_nodes_ok _ _ _ _ Hok) as [-> ->]. pose proof (so_repr _ _ _ _ Hok) as Hr.
  unfold kvs_skiplist_destroy. rewrite (so_header _ _ _ _ Hok). run.
  pose proof (repr_get_fwd hdr hfa std (heap s) ns None None ns 0 Hr eq_refl ltac:(done) ltac:(lia)) as Hg.
  cbn [cell_addr] in Hg. rewrite Hg. run.
  unfold bag_owned, bag_addrs in *. rewrite list_to_set_app_L in Hsub |- *. apply NoDup_app in Hnd as (Hd1 & Hd2 & Hd3).
  pose proof (bag_addrs_ok _ _ _ (so_bag _ _ _ _ Hok)) as Hao.
  destruct (destroy_loop_spec hdr hfa (heap s) [] ns (size (heap s)) a Hr Hao) with (h0 := heap s)
    as (h' & a' & -> & Hi & Hl & Hk); try done.
  { rewrite (skip_size _ _ _ _ Hok). lia. } { intros x Hx. by apply Hsub, elem_of_union_r. }
  run. unfold addrs_ok in Hao. apply NoDup_cons in Hao as [Hh _].
  pose proof (Hr None ns eq_refl ltac:(done)) as Hh0. cbn [cell_addr] in Hh0. rewrite Hk, Hh0 by done. run.
  cbn [cell_node fwd_addr]. eexists _, _. split; [done |].
  assert (Hlive : list_to_set [hfa; hdr] ⊆ al_live a').
  { rewrite Hl. intros x Hx. apply elem_of_difference.
    split; [apply Hsub, elem_of_union_l; revert Hx; cbn; clear; set_solver |].
    rewrite elem_of_list_to_set in Hx |- *. apply Hd2. clear - Hx. set_solver. }
  destruct (free_all [hfa; hdr] a') as [Hl2 Hi2]; [done | | done |].
  { by rewrite (Permutation_swap hdr hfa []). }
  cbn [fold_left] in Hl2, Hi2. split; [| done]. rewrite Hl2, Hl, frame_shrink.
  f_equal. generalize (list_to_set ((sn_entry <$> ns) ≫= en_addrs) : gset Z). cbn. clear. set_solver.
Qed.

(** The skip list implements the engine interface. *)
#[export] Instance skip_laws :
  EngineLaws A SkipList (H0 := skip_engine random).
Proof.
  split.
  - intros e a k v Hwf. destruct (skip_set_spec e a k v Hwf) as (r & e' & a' & He & [Hw Hf] & Hs).
    exists r, e', a'. repeat (split; [done |]). destruct Hs as [Hs | (-> & Hm & Hc)]; [by left | right].
    cbn [e_map skip_engine]. by rewrite Hm.
  - intros e k Hinv. cbn [e_get e_map skip_engine].
    destruct (skip_get_spec e k Hinv) as (ob & -> & <-). done.
  - intros e a k Hwf. destruct (skip_del_spec e a k Hwf) as (r & e' & a' & He & [Hw Hf] & Hs). eauto 10.
  - intros e a k v Hwf. destruct (skip_mod_spec e a k v Hwf) as (r & e' & a' & He & [Hw Hf] & Hs).
    exists r, e', a'. repeat (split; [done |]). destruct Hs as [Hs | (-> & -> & Hc)]; [by left | by right].
  - intros e k Hinv. by apply skip_exist_spec.
  - done.
  - by intros e [k |] [v |] a [? | ?].
  - done.
  - intros e a. by eexists.
  - done.
  - intros e. by eexists.
Qed.

End SkipFacts.
