(* ===== verification/Rbtree.v ===== *)
(** * Rbtree: the red-black tree engine (kvs-engine/kvs_rbtree.c)

    The nodes are in a heap from addresses to nodes with their colour, their
    child and parent pointers, key and value; [nil] is the address of the
    sentinel node, which is in the heap like any other and whose parent field
    the deletion uses. Loops have a fuel argument; the callers pass the number
    of nodes of the heap, which bounds the depth of the tree. *)

From S2P Require Import Prelude Alloc Engine Bag.

Inductive color_t := RED | BLACK.

#[export] Instance color_eq_dec : EqDecision color_t.
Proof. solve_decision. Defined.

(** [rbtree_node] *)
Record rbtree_node := RBNode {
  color : color_t;
  right : Z;
  left : Z;
  parent : Z;
  rb_key : option block;
  rb_value : option block
}.

(** [rbtree], with the heap its nodes are in. *)
Record rbtree := RBTree { root : Z; nil : Z; rb_nodes : gmap Z rbtree_node }.

Definition NULL : Z := 0.

(** ** Loads and stores *)

Definition ld (T : rbtree) (p : Z) : res rbtree_node := of_option (rb_nodes T !! p).
Definition ld_color (T : rbtree) (p : Z) : res color_t := n ← ld T p; Ok (color n).
Definition ld_left (T : rbtree) (p : Z) : res Z := n ← ld T p; Ok (left n).
Definition ld_right (T : rbtree) (p : Z) : res Z := n ← ld T p; Ok (right n).
Definition ld_parent (T : rbtree) (p : Z) : res Z := n ← ld T p; Ok (parent n).
(** The key as a C string. *)
Definition ld_key (T : rbtree) (p : Z) : res (list Z) :=
  n ← ld T p; b ← of_option (rb_key n); Ok (b_str b).

Definition with_node (T : rbtree) (p : Z) (n : rbtree_node) : rbtree :=
  RBTree (root T) (nil T) (<[p := n]> (rb_nodes T)).
Definition with_root (T : rbtree) (p : Z) : rbtree := RBTree p (nil T) (rb_nodes T).

Definition st (T : rbtree) (p : Z) (f : rbtree_node -> rbtree_node) : res rbtree :=
  n ← ld T p; Ok (with_node T p (f n)).

Definition st_color (T : rbtree) (p : Z) (c : color_t) : res rbtree :=
  st T p (fun n => RBNode c (right n) (left n) (parent n) (rb_key n) (rb_value n)).
Definition st_right (T : rbtree) (p q : Z) : res rbtree :=
  st T p (fun n => RBNode (color n) q (left n) (parent n) (rb_key n) (rb_value n)).
Definition st_left (T : rbtree) (p q : Z) : res rbtree :=
  st T p (fun n => RBNode (color n) (right n) q (parent n) (rb_key n) (rb_value n)).
Definition st_parent (T : rbtree) (p q : Z) : res rbtree :=
  st T p (fun n => RBNode (color n) (right n) (left n) q (rb_key n) (rb_value n)).
Definition st_kv (T : rbtree) (p : Z) (k v : option block) : res rbtree :=
  st T p (fun n => RBNode (color n) (right n) (left n) (parent n) k v).

(** ** Tree operations *)

(** [rbtree_mini] *)
Fixpoint rbtree_mini (fuel : nat) (T : rbtree) (x : Z) : res Z :=
  l ← ld_left T x;
  if l =? nil T then Ok x else
  match fuel with
  | O => NoFuel
  | S fuel' => rbtree_mini fuel' T l
  end.

(** [rbtree_maxi] *)
Fixpoint rbtree_maxi (fuel : nat) (T : rbtree) (x : Z) : res Z :=
  r ← ld_right T x;
  if r =? nil T then Ok x else
  match fuel with
  | O => NoFuel
  | S fuel' => rbtree_maxi fuel' T r
  end.

(** The climbing loop of [rbtree_successor]. *)
Fixpoint successor_climb (fuel : nat) (T : rbtree) (x y : Z) : res Z :=
  if y =? nil T then Ok y else
  yr ← ld_right T y;
  if x =? yr then
    match fuel with
    | O => NoFuel
    | S fuel' => p ← ld_parent T y; successor_climb fuel' T y p
    end
  else Ok y.

(** [rbtree_successor] *)
Definition rbtree_successor (fuel : nat) (T : rbtree) (x : Z) : res Z :=
  y ← ld_parent T x;
  r ← ld_right T x;
  if negb (r =? nil T) then rbtree_mini fuel T r
  else successor_climb fuel T x y.

(** [rbtree_left_rotate] *)
Definition rbtree_left_rotate (T : rbtree) (x : Z) : res rbtree :=
  y ← ld_right T x;
  yl ← ld_left T y;
  T ← st_right T x yl;
  yl ← ld_left T y;
  T ← (if negb (yl =? nil T) then st_parent T yl x else Ok T);
  xp ← ld_parent T x;
  T ← st_parent T y xp;
  xp ← ld_parent T x;
  T ← (if xp =? nil T then Ok (with_root T y) else
       xpl ← ld_left T xp;
       if x =? xpl then st_left T xp y else st_right T xp y);
  T ← st_left T y x;
  st_parent T x y.

(** [rbtree_right_rotate] *)
Definition rbtree_right_rotate (T : rbtree) (y : Z) : res rbtree :=
  x ← ld_left T y;
  xr ← ld_right T x;
  T ← st_left T y xr;
  xr ← ld_right T x;
  T ← (if negb (xr =? nil T) then st_parent T xr y else Ok T);
  yp ← ld_parent T y;
  T ← st_parent T x yp;
  yp ← ld_parent T y;
  T ← (if yp =? nil T then Ok (with_root T x) else
       ypr ← ld_right T yp;
       if y =? ypr then st_right T yp x else st_left T yp x);
  T ← st_right T x y;
  st_parent T y x.

(** [z->parent->parent] *)
Definition grandparent (T : rbtree) (z : Z) : res Z := p ← ld_parent T z; ld_parent T p.

(** The body of the loop of [rbtree_insert_fixup] when the parent of [z] is a
    left child; the new [z]. *)
Definition insert_fixup_left (T : rbtree) (z : Z) : res (rbtree * Z) :=
  zp ← ld_parent T z;
  zpp ← grandparent T z;
  y ← ld_right T zpp;
  yc ← ld_color T y;
  if decide (yc = RED) then
    T ← st_color T zp BLACK;
    T ← st_color T y BLACK;
    zpp ← grandparent T z;
    T ← st_color T zpp RED;
    z ← grandparent T z;
    Ok (T, z)
  else
    zpr ← ld_right T zp;
    '(T, z) ← (if z =? zpr then
        T ← rbtree_left_rotate T zp; Ok (T, zp)
      else Ok (T, z));
    zp ← ld_parent T z;
    T ← st_color T zp BLACK;
    zpp ← grandparent T z;
    T ← st_color T zpp RED;
    zpp ← grandparent T z;
    T ← rbtree_right_rotate T zpp;
    Ok (T, z).

(** The body when it is a right child. *)
Definition insert_fixup_right (T : rbtree) (z : Z) : res (rbtree * Z) :=
  zp ← ld_parent T z;
  zpp ← grandparent T z;
  y ← ld_left T zpp;
  yc ← ld_color T y;
  if decide (yc = RED) then
    T ← st_color T zp BLACK;
    T ← st_color T y BLACK;
    zpp ← grandparent T z;
    T ← st_color T zpp RED;
    z ← grandparent T z;
    Ok (T, z)
  else
    zpl ← ld_left T zp;
    '(T, z) ← (if z =? zpl then
        T ← rbtree_right_rotate T zp; Ok (T, zp)
      else Ok (T, z));
    zp ← ld_parent T z;
    T ← st_color T zp BLACK;
    zpp ← grandparent T z;
    T ← st_color T zpp RED;
    zpp ← grandparent T z;
    T ← rbtree_left_rotate T zpp;
    Ok (T, z).

Definition insert_fixup_body (T : rbtree) (z : Z) : res (rbtree * Z) :=
  zp ← ld_parent T z;
  zpp ← grandparent T z;
  zppl ← ld_left T zpp;
  if zp =? zppl then insert_fixup_left T z else insert_fixup_right T z.

(** [rbtree_insert_fixup] *)
Fixpoint rbtree_insert_fixup (fuel : nat) (T : rbtree) (z : Z) : res rbtree :=
  zp ← ld_parent T z;
  c ← ld_color T zp;
  if decide (c = RED) then
    match fuel with
    | O => NoFuel
    | S fuel' => '(T, z) ← insert_fixup_body T z; rbtree_insert_fixup fuel' T z
    end
  else st_color T (root T) BLACK.

(** The descent of [rbtree_insert]: the parent of the new node, or [None] when
    the key is found. *)
Fixpoint insert_descend (fuel : nat) (T : rbtree) (k : list Z) (x y : Z) : res (option Z) :=
  if x =? nil T then Ok (Some y) else
  match fuel with
  | O => NoFuel
  | S fuel' =>
      xk ← ld_key T x;
      if strcmp k xk <? 0 then l ← ld_left T x; insert_descend fuel' T k l x
      else if 0 <? strcmp k xk then r ← ld_right T x; insert_descend fuel' T k r x
      else Ok None
  end.

(** [rbtree_insert]; [None] of the descent is the early return. *)
Definition rbtree_insert (fuel : nat) (T : rbtree) (z : Z) : res rbtree :=
  zk ← ld_key T z;
  oy ← insert_descend fuel T zk (root T) (nil T);
  match oy with
  | None => Ok T
  | Some y =>
      T ← st_parent T z y;
      T ← (if y =? nil T then Ok (with_root T z) else
           yk ← ld_key T y;
           if strcmp zk yk <? 0 then st_left T y z else st_right T y z);
      T ← st_left T z (nil T);
      T ← st_right T z (nil T);
      T ← st_color T z RED;
      rbtree_insert_fixup fuel T z
  end.

(** The body of the loop of [rbtree_delete_fixup] when [x] is a left child: what
    follows the case of a red sibling [w]; the new [x]. *)
Definition delete_fixup_left_rest (T : rbtree) (x w : Z) : res (rbtree * Z) :=
  wl ← ld_left T w; wlc ← ld_color T wl;
  wr ← ld_right T w; wrc ← ld_color T wr;
  if decide (wlc = BLACK /\ wrc = BLACK) then
    T ← st_color T w RED;
    xp ← ld_parent T x;
    Ok (T, xp)
  else
    '(T, w) ← (if decide (wrc = BLACK) then
        T ← st_color T wl BLACK;
        T ← st_color T w RED;
        T ← rbtree_right_rotate T w;
        xp ← ld_parent T x;
        w ← ld_right T xp;
        Ok (T, w)
      else Ok (T, w));
    xp ← ld_parent T x;
    xpc ← ld_color T xp;
    T ← st_color T w xpc;
    xp ← ld_parent T x;
    T ← st_color T xp BLACK;
    wr ← ld_right T w;
    T ← st_color T wr BLACK;
    xp ← ld_parent T x;
    T ← rbtree_left_rotate T xp;
    Ok (T, root T).

(** The body when [x] is a left child. *)
Definition delete_fixup_left (T : rbtree) (x : Z) : res (rbtree * Z) :=
  xp ← ld_parent T x;
  w ← ld_right T xp;
  wc ← ld_color T w;
  '(T, w) ← (if decide (wc = RED) then
      T ← st_color T w BLACK;
      xp ← ld_parent T x;
      T ← st_color T xp RED;
      xp ← ld_parent T x;
      T ← rbtree_left_rotate T xp;
      xp ← ld_parent T x;
      w ← ld_right T xp;
      Ok (T, w)
    else Ok (T, w));
  delete_fixup_left_rest T x w.

(** The same when [x] is a right child. *)
Definition delete_fixup_right_rest (T : rbtree) (x w : Z) : res (rbtree * Z) :=
  wl ← ld_left T w; wlc ← ld_color T wl;
  wr ← ld_right T w; wrc ← ld_color T wr;
  if decide (wlc = BLACK /\ wrc = BLACK) then
    T ← st_color T w RED;
    xp ← ld_parent T x;
    Ok (T, xp)
  else
    '(T, w) ← (if decide (wlc = BLACK) then
        T ← st_color T wr BLACK;
        T ← st_color T w RED;
        T ← rbtree_left_rotate T w;
        xp ← ld_parent T x;
        w ← ld_left T xp;
        Ok (T, w)
      else Ok (T, w));
    xp ← ld_parent T x;
    xpc ← ld_color T xp;
    T ← st_color T w xpc;
    xp ← ld_parent T x;
    T ← st_color T xp BLACK;
    wl ← ld_left T w;
    T ← st_color T wl BLACK;
    xp ← ld_parent T x;
    T ← rbtree_right_rotate T xp;
    Ok (T, root T).

(** The body when [x] is a right child. *)
Definition delete_fixup_right (T : rbtree) (x : Z) : res (rbtree * Z) :=
  xp ← ld_parent T x;
  w ← ld_left T xp;
  wc ← ld_color T w;
  '(T, w) ← (if decide (wc = RED) then
      T ← st_color T w BLACK;
      xp ← ld_parent T x;
      T ← st_color T xp RED;
      xp ← ld_parent T x;
      T ← rbtree_right_rotate T xp;
      xp ← ld_parent T x;
      w ← ld_left T xp;
      Ok (T, w)
    else Ok (T, w));
  delete_fixup_right_rest T x w.

Definition delete_fixup_body (T : rbtree) (x : Z) : res (rbtree * Z) :=
  xp ← ld_parent T x;
  xpl ← ld_left T xp;
  if x =? xpl then delete_fixup_left T x else delete_fixup_right T x.

(** [rbtree_delete_fixup] *)
Fixpoint rbtree_delete_fixup (fuel : nat) (T : rbtree) (x : Z) : res rbtree :=
  c ← ld_color T x;
  if decide (x <> root T /\ c = BLACK) then
    match fuel with
    | O => NoFuel
    | S fuel' => '(T, x) ← delete_fixup_body T x; rbtree_delete_fixup fuel' T x
    end
  else st_color T x BLACK.

(** [rbtree_delete]; the node that left the tree. *)
Definition rbtree_delete (fuel : nat) (T : rbtree) (z : Z) : res (rbtree * Z) :=
  zl ← ld_left T z;
  zr ← ld_right T z;
  y ← (if (zl =? nil T) || (zr =? nil T) then Ok z else rbtree_successor fuel T z);
  yl ← ld_left T y;
  yr ← ld_right T y;
  let x := if negb (yl =? nil T) then yl else if negb (yr =? nil T) then yr else nil T in
  yp ← ld_parent T y;
  T ← st_parent T x yp;
  yp ← ld_parent T y;
  T ← (if yp =? nil T then Ok (with_root T x) else
       ypl ← ld_left T yp;
       if y =? ypl then st_left T yp x else st_right T yp x);
  T ← (if negb (y =? z) then
         ny ← ld T y;
         nz ← ld T z;
         T ← st_kv T z (rb_key ny) (rb_value ny);
         st_kv T y (rb_key nz) (rb_value nz)
       else Ok T);
  yc ← ld_color T y;
  T ← (if decide (yc = BLACK) then rbtree_delete_fixup fuel T x else Ok T);
  Ok (T, y).

(** The loop of [rbtree_search]. *)
Fixpoint search_loop (fuel : nat) (T : rbtree) (k : list Z) (node : Z) : res Z :=
  if node =? nil T then Ok (nil T) else
  match fuel with
  | O => NoFuel
  | S fuel' =>
      nk ← ld_key T node;
      if strcmp k nk <? 0 then l ← ld_left T node; search_loop fuel' T k l
      else if 0 <? strcmp k nk then r ← ld_right T node; search_loop fuel' T k r
      else Ok node
  end.

(** [rbtree_search] *)
Definition rbtree_search (fuel : nat) (T : rbtree) (k : list Z) : res Z :=
  search_loop fuel T k (root T).

Definition fuel_of (T : rbtree) : nat := size (rb_nodes T).

(** ** Engine operations *)

Section RbOps.
Context {A : Type} `{Allocator A}.

(** [kvs_rbtree_create]; [junk] is what the block of the sentinel contains. A
    NULL answer of the allocator is dereferenced. *)
Definition kvs_rbtree_create (inst : rbtree) (junk : rbtree_node) (a : A) : res (Z * rbtree * A) :=
  let '(o, a) := kvs_malloc 48 a in
  p ← of_option o;
  let n := RBNode BLACK (right junk) (left junk) (parent junk) (rb_key junk) (rb_value junk) in
  Ok (0, RBTree p p (<[p := n]> (rb_nodes inst)), a).

Definition rb_free_opt (o : option block) (a : A) : A :=
  match o with Some b => kvs_free (b_addr b) a | None => a end.

(** [kvs_free] of key, value and node after a deletion. *)
Definition free_rbnode (T : rbtree) (cur : Z) (a : A) : res (rbtree * A) :=
  n ← ld T cur;
  Ok (RBTree (root T) (nil T) (delete cur (rb_nodes T)),
      kvs_free cur (rb_free_opt (rb_value n) (rb_free_opt (rb_key n) a))).

(** The loop of [kvs_rbtree_destory]. *)
Fixpoint rb_destroy_loop (fuel : nat) (T : rbtree) (a : A) : res (rbtree * A) :=
  if root T =? nil T then Ok (T, a) else
  match fuel with
  | O => NoFuel
  | S fuel' =>
      mini ← rbtree_mini (fuel_of T) T (root T);
      '(T, cur) ← rbtree_delete (fuel_of T) T mini;
      '(T, a) ← free_rbnode T cur a;
      rb_destroy_loop fuel' T a
  end.

(** [kvs_rbtree_destory] *)
Definition kvs_rbtree_destory (inst : rbtree) (a : A) : res (rbtree * A) :=
  '(T, a) ← rb_destroy_loop (fuel_of inst) inst a;
  Ok (RBTree NULL NULL (delete (nil T) (rb_nodes T)), kvs_free (nil T) a).

(** [kvs_rbtree_get] *)
Definition kvs_rbtree_get (inst : rbtree) (k : cptr) : res (option block) :=
  match k with
  | None => Ok None
  | Some ks =>
      node ← rbtree_search (fuel_of inst) inst ks;
      if node =? nil inst then Ok None else
      n ← ld inst node; Ok (rb_value n)
  end.

(** [kvs_rbtree_set]; the address of the node is dereferenced without a test
    for NULL. The other fields of the fresh node are junk until
    [rbtree_insert] sets them. *)
Definition kvs_rbtree_set (inst : rbtree) (k v : cptr) (a : A) : res (Z * rbtree * A) :=
  match k, v with
  | Some ks, Some vs =>
      old ← kvs_rbtree_get inst k;
      match old with
      | Some _ => Ok (1, inst, a)
      | None =>
          let '(o, a) := kvs_malloc 48 a in
          node ← of_option o;
          match dup_str ks a with
          | (None, a) => Ok (-2, inst, kvs_free node a)
          | (Some kb, a) =>
              match dup_str vs a with
              | (None, a) => Ok (-2, inst, kvs_free node (kvs_free (b_addr kb) a))
              | (Some vb, a) =>
                  let T := with_node inst node (RBNode BLACK NULL NULL NULL (Some kb) (Some vb)) in
                  T ← rbtree_insert (fuel_of T) T node;
                  Ok (0, T, a)
              end
          end
      end
  | _, _ => Ok (-1, inst, a)
  end.

(** [kvs_rbtree_del] *)
Definition kvs_rbtree_del (inst : rbtree) (k : cptr) (a : A) : res (Z * rbtree * A) :=
  match k with
  | None => Ok (-1, inst, a)
  | Some ks =>
      node ← rbtree_search (fuel_of inst) inst ks;
      if node =? nil inst then Ok (1, inst, a) else
      '(T, cur) ← rbtree_delete (fuel_of inst) inst node;
      '(T, a) ← free_rbnode T cur a;
      Ok (0, T, a)
  end.

(** [kvs_rbtree_mod]; the old value is released before the new one is
    allocated. *)
Definition kvs_rbtree_mod (inst : rbtree) (k v : cptr) (a : A) : res (Z * rbtree * A) :=
  match k, v with
  | Some ks, Some vs =>
      node ← rbtree_search (fuel_of inst) inst ks;
      if node =? nil inst then Ok (1, inst, a) else
      n ← ld inst node;
      let a := rb_free_opt (rb_value n) a in
      match dup_str vs a with
      | (None, a) => T ← st_kv inst node (rb_key n) None; Ok (-2, T, a)
      | (Some vb, a) => T ← st_kv inst node (rb_key n) (Some vb); Ok (0, T, a)
      end
  | _, _ => Ok (-1, inst, a)
  end.

(** [kvs_rbtree_exist] *)
Definition kvs_rbtree_exist (inst : rbtree) (k : cptr) : res Z :=
  match k with
  | None => Ok (-1)
  | Some ks =>
      node ← rbtree_search (fuel_of inst) inst ks;
      Ok (if node =? nil inst then 1 else 0)
  end.

End RbOps.
