(* ===== verification/RbTheory.v ===== *)
(** * RbTheory: trees, contexts and the red-black invariants

    The mathematical side of the red-black tree: trees whose nodes carry the
    address they have in the heap, contexts (the path from a node up to the
    root with the siblings left behind), in-order contents, the red-black
    conditions on trees and on contexts, and the order of the keys. *)

From S2P Require Import Prelude Alloc Engine Bag Rbtree.
From Stdlib Require Import Sorted.

Inductive tree :=
| Leaf
| Bin (a : Z) (c : color_t) (k : block) (v : option block) (l r : tree).

#[export] Instance tree_eq_dec : EqDecision tree.
Proof. solve_decision. Defined.

(** A node of the path: the focus is its left or its right subtree, [sib] is
    the other one. *)
Inductive frame :=
| InLeft (a : Z) (c : color_t) (k : block) (v : option block) (sib : tree)
| InRight (a : Z) (c : color_t) (k : block) (v : option block) (sib : tree).

Definition plug1 (f : frame) (t : tree) : tree :=
  match f with
  | InLeft a c k v s => Bin a c k v t s
  | InRight a c k v s => Bin a c k v s t
  end.

(** [ctx] lists the frames from the innermost outwards. *)
Definition plug (ctx : list frame) (t : tree) : tree := fold_left (fun t f => plug1 f t) ctx t.

Definition fr_addr (f : frame) : Z := match f with InLeft a _ _ _ _ | InRight a _ _ _ _ => a end.

(** Address of the root of a tree, [nl] being that of the sentinel. *)
Definition addr (nl : Z) (t : tree) : Z := match t with Leaf => nl | Bin a _ _ _ _ _ => a end.

Definition up (nl : Z) (ctx : list frame) : Z := match ctx with [] => nl | f :: _ => fr_addr f end.

Definition tcolor (t : tree) : color_t := match t with Leaf => BLACK | Bin _ c _ _ _ _ => c end.

Definition blacken (t : tree) : tree :=
  match t with Leaf => Leaf | Bin a _ k v l r => Bin a BLACK k v l r end.

Arguments plug1 !f t /.
Arguments fr_addr !f /.
Arguments addr nl !t /.
Arguments up nl !ctx /.
Arguments tcolor !t /.
Arguments blacken !t /.

(** In-order contents. *)
Definition item : Type := Z * block * option block.

Fixpoint inorder (t : tree) : list item :=
  match t with
  | Leaf => []
  | Bin a _ k v l r => inorder l ++ (a, k, v) :: inorder r
  end.

(** What a context has before and after the focus. *)
Fixpoint pre (ctx : list frame) : list item :=
  match ctx with
  | [] => []
  | InLeft _ _ _ _ _ :: ctx' => pre ctx'
  | InRight a _ k v s :: ctx' => pre ctx' ++ inorder s ++ [(a, k, v)]
  end.

Fixpoint post (ctx : list frame) : list item :=
  match ctx with
  | [] => []
  | InLeft a _ k v s :: ctx' => (a, k, v) :: inorder s ++ post ctx'
  | InRight _ _ _ _ _ :: ctx' => post ctx'
  end.

Lemma plug_cons f ctx t : plug (f :: ctx) t = plug ctx (plug1 f t).
Proof. done. Qed.

Lemma plug_nil t : plug [] t = t.
Proof. done. Qed.

Lemma plug_app c1 c2 t : plug (c1 ++ c2) t = plug c2 (plug c1 t).
Proof. apply fold_left_app. Qed.

Lemma inorder_plug ctx t : inorder (plug ctx t) = pre ctx ++ inorder t ++ post ctx.
Proof.
  revert t. induction ctx as [| [a c k v s | a c k v s] ctx IH]; intros t.
  - cbn. by rewrite app_nil_r.
  - rewrite plug_cons, IH. cbn. by rewrite <- !app_assoc.
  - rewrite plug_cons, IH. cbn. by rewrite <- !app_assoc.
Qed.

(** ** Addresses *)

Definition addrs (t : tree) : list Z := (fun x : item => x.1.1) <$> inorder t.

Lemma addrs_plug ctx t :
  addrs (plug ctx t) ≡ₚ addrs t ++ ((fun x : item => x.1.1) <$> pre ctx ++ post ctx).
Proof.
  unfold addrs. rewrite inorder_plug, !fmap_app. rewrite Permutation_app_swap_app. done.
Qed.

Lemma addr_plug_cons nl f ctx t t' : addr nl (plug (f :: ctx) t) = addr nl (plug (f :: ctx) t').
Proof.
  revert f t t'. induction ctx as [| g ctx IH]; intros f t t'.
  - by destruct f.
  - rewrite (plug_cons f), (plug_cons f (g :: ctx) t'). apply IH.
Qed.

(** ** Red-black conditions *)

(** [rb t c n]: [t] is red-black with a root of colour [c] and black height
    [n]. *)
Inductive rb : tree -> color_t -> nat -> Prop :=
| rb_leaf : rb Leaf BLACK 0
| rb_red a k v l r n : rb l BLACK n -> rb r BLACK n -> rb (Bin a RED k v l r) RED n
| rb_black a k v l r cl cr n : rb l cl n -> rb r cr n -> rb (Bin a BLACK k v l r) BLACK (S n).

(** [cx ctx c n]: the hole of [ctx] takes a tree of black height [n], its
    parent has colour [c]; the root is black. *)
Inductive cx : list frame -> color_t -> nat -> Prop :=
| cx_top n : cx [] BLACK n
| cx_red_l a k v s ctx n :
    cx ctx BLACK n -> ctx <> [] -> rb s BLACK n -> cx (InLeft a RED k v s :: ctx) RED n
| cx_red_r a k v s ctx n :
    cx ctx BLACK n -> ctx <> [] -> rb s BLACK n -> cx (InRight a RED k v s :: ctx) RED n
| cx_black_l a k v s cs ctx c n :
    cx ctx c (S n) -> rb s cs n -> cx (InLeft a BLACK k v s :: ctx) BLACK n
| cx_black_r a k v s cs ctx c n :
    cx ctx c (S n) -> rb s cs n -> cx (InRight a BLACK k v s :: ctx) BLACK n.

#[export] Hint Constructors rb cx : lidis.

(** The condition of the whole tree. *)
Definition rbt (t : tree) : Prop := exists n, rb t BLACK n.

Lemma rb_color t c n : rb t c n -> tcolor t = c.
Proof. by destruct 1. Qed.

Lemma rb_blacken t c n : rb t c n -> exists m, rb (blacken t) BLACK m.
Proof. destruct 1; cbn; eauto with lidis. Qed.

(** ** Height *)

Fixpoint height (t : tree) : nat :=
  match t with Leaf => O | Bin _ _ _ _ l r => S (Nat.max (height l) (height r)) end.

Lemma height_inorder t : (height t <= length (inorder t))%nat.
Proof. induction t as [| a c k v l IHl r IHr]; cbn; [done |]. rewrite length_app. cbn. lia. Qed.

Lemma rb_height t c n : rb t c n -> (height t <= 2 * n + match c with RED => 1 | BLACK => 0 end)%nat.
Proof.
  induction 1 as [| | a k v l r cl cr n _ IHl _ IHr]; cbn in *; [lia | lia |].
  destruct cl, cr; lia.
Qed.

Lemma rb_count t c n : rb t c n -> (2 ^ n <= S (length (inorder t)))%nat.
Proof.
  induction 1; cbn [inorder length Nat.pow]; rewrite ?length_app; cbn [length]; lia.
Qed.

(** A red-black tree of [n] keys is at most [2 log2 (n + 1)] high. *)
Lemma rbt_height t : rbt t -> (height t <= 2 * Nat.log2 (S (length (inorder t))))%nat.
Proof.
  intros [n Hn]. pose proof (rb_height _ _ _ Hn) as Hh. pose proof (rb_count _ _ _ Hn) as Hc.
  apply Nat.log2_le_mono in Hc. rewrite Nat.log2_pow2 in Hc by lia. cbn in Hh. lia.
Qed.

Lemma rb_nonleaf t c n : rb t c (S n) -> exists a k v l r, t = Bin a c k v l r.
Proof. inversion 1; subst; eauto 10. Qed.

Lemma rb_red_inv t n : rb t RED n -> exists a k v l r, t = Bin a RED k v l r /\ rb l BLACK n /\ rb r BLACK n.
Proof. inversion 1; subst; eauto 10. Qed.

(** A context with its hole filled. *)
Lemma cx_plug ctx pc n t c :
  cx ctx pc n -> rb t c n -> (c = RED -> pc = BLACK /\ ctx <> []) -> exists m, rb (plug ctx t) BLACK m.
Proof.
  intros Hc. revert t c. induction Hc; intros t c' Ht Hred.
  - destruct c'; [destruct Hred; done |]. exists n. done.
  - destruct c'; [by destruct Hred |]. apply (IHHc _ RED); [by constructor | done].
  - destruct c'; [by destruct Hred |]. apply (IHHc _ RED); [by constructor | done].
  - apply (IHHc _ BLACK); [by econstructor | done].
  - apply (IHHc _ BLACK); [by econstructor | done].
Qed.

(** The path to a subtree of a red-black tree. *)
Lemma cx_of_plug ctx t m :
  rb (plug ctx t) BLACK m ->
  exists pc c n, cx ctx pc n /\ rb t c n /\ (c = RED -> pc = BLACK /\ ctx <> []).
Proof.
  revert t. induction ctx as [| f ctx IH]; intros t Hrb.
  - exists BLACK, BLACK, m. split; [constructor | done].
  - rewrite plug_cons in Hrb. destruct (IH _ Hrb) as (pc & c & n & Hcx & Hf & Hred).
    destruct f as [a fc k v s | a fc k v s]; cbn in Hf; inversion Hf; subst.
    + destruct (Hred eq_refl) as [-> Hne]. exists RED, BLACK, n. split; [by constructor | done].
    + exists BLACK, cl, n0. split; [by econstructor |]. split; [done |]. done.
    + destruct (Hred eq_refl) as [-> Hne]. exists RED, BLACK, n. split; [by constructor | done].
    + exists BLACK, cr, n0. split; [by econstructor |]. split; [done |]. done.
Qed.

(** ** Order of the keys *)

Definition it_key (x : item) : list Z := b_str x.1.2.
Definition it_lt (x y : item) : Prop := strcmp (it_key x) (it_key y) < 0.
Definition bst (t : tree) : Prop := StronglySorted it_lt (inorder t).

Lemma sorted_app_inv {X} (R : X -> X -> Prop) l1 x l2 :
  StronglySorted R (l1 ++ x :: l2) ->
  Forall (fun y => R y x) l1 /\ Forall (R x) l2 /\ StronglySorted R (l1 ++ l2).
Proof.
  induction l1 as [| y l1 IH]; cbn; inversion 1 as [| ? ? Hs Hf]; subst.
  - done.
  - destruct (IH Hs) as (F1 & F2 & F3). apply Forall_app in Hf as [G1 G2]. inversion G2; subst.
    split; [by constructor |]. split; [done |]. constructor; [done |]. by apply Forall_app.
Qed.

Lemma sorted_app_intro {X} (R : X -> X -> Prop) l1 x l2 :
  StronglySorted R (l1 ++ l2) -> Forall (fun y => R y x) l1 -> Forall (R x) l2 ->
  StronglySorted R (l1 ++ x :: l2).
Proof.
  intros Hs F1 F2. induction l1 as [| y l1 IH]; cbn in *; [by constructor |].
  inversion Hs as [| ? ? Hs' Hf]; subst. inversion F1; subst.
  apply Forall_app in Hf as [G1 G2]. constructor; [by apply IH |]. apply Forall_app. split; [done |]. by constructor.
Qed.

(** Keys left of a node are smaller, those right of it larger. *)
Lemma bst_node ctx a c k v l r :
  bst (plug ctx (Bin a c k v l r)) ->
  Forall (fun i => strcmp (it_key i) (b_str k) < 0) (pre ctx ++ inorder l) /\
  Forall (fun i => strcmp (b_str k) (it_key i) < 0) (inorder r ++ post ctx).
Proof.
  intros Hb. unfold bst in Hb. rewrite inorder_plug in Hb. cbn in Hb. rewrite <- !app_assoc in Hb. cbn in Hb.
  rewrite app_assoc in Hb. by apply sorted_app_inv in Hb as (F1 & F2 & _).
Qed.
