(* ===== verification/RbHeap.v ===== *)
(** * RbHeap: trees in the heap, and what the pointer operations do to them

    [zip T nl ctx t] says that the heap of [T] holds the tree [plug ctx t] with
    its parent pointers, seen from the subtree [t]. The lemmas of this file
    state the loads, the recolourings and the rotations of the code as steps
    on such views; the loops of RbLoops.v are verified on top of them. *)

From S2P Require Import Prelude Alloc Engine Bag Rbtree RbTheory.

Notation rheap := (gmap Z rbtree_node).

(** The subtree [t] below parent [par]. *)
Fixpoint rep (h : rheap) (nl par : Z) (t : tree) : Prop :=
  match t with
  | Leaf => True
  | Bin a c k v l r =>
      h !! a = Some (RBNode c (addr nl r) (addr nl l) par (Some k) v) /\ rep h nl a l /\ rep h nl a r
  end.

(** The path above a subtree whose root has address [p]. *)
Fixpoint repc (h : rheap) (nl : Z) (ctx : list frame) (p : Z) : Prop :=
  match ctx with
  | [] => True
  | InLeft a c k v s :: ctx' =>
      h !! a = Some (RBNode c (addr nl s) p (up nl ctx') (Some k) v) /\ rep h nl a s /\ repc h nl ctx' a
  | InRight a c k v s :: ctx' =>
      h !! a = Some (RBNode c p (addr nl s) (up nl ctx') (Some k) v) /\ rep h nl a s /\ repc h nl ctx' a
  end.

Fixpoint taddrs (t : tree) : list Z :=
  match t with Leaf => [] | Bin a _ _ _ l r => a :: taddrs l ++ taddrs r end.

Fixpoint caddrs (ctx : list frame) : list Z :=
  match ctx with
  | [] => []
  | (InLeft a _ _ _ s | InRight a _ _ _ s) :: ctx' => a :: taddrs s ++ caddrs ctx'
  end.

Record zip (T : rbtree) (nl : Z) (ctx : list frame) (t : tree) : Prop := {
  z_nil : nil T = nl;
  z_root : root T = addr nl (plug ctx t);
  z_ctx : repc (rb_nodes T) nl ctx (addr nl t);
  z_tree : rep (rb_nodes T) nl (up nl ctx) t;
  z_nodup : NoDup (nl :: taddrs t ++ caddrs ctx);
  z_sent : exists n, rb_nodes T !! nl = Some n /\ color n = BLACK
}.

(** Nothing outside [S] changed. *)
Definition keeps (T T' : rbtree) (S : list Z) : Prop :=
  forall p, p ∉ S -> rb_nodes T' !! p = rb_nodes T !! p.

Lemma keeps_refl T S : keeps T T S.
Proof. done. Qed.

Lemma keeps_trans T1 T2 T3 S S' :
  keeps T1 T2 S -> keeps T2 T3 S' -> S' ≡ₚ S -> keeps T1 T3 S.
Proof. intros H12 H23 Hp p Hn. rewrite H23, H12; [done | done | by rewrite Hp]. Qed.

(** ** Addresses *)

Lemma taddrs_inorder t : taddrs t ≡ₚ addrs t.
Proof.
  unfold addrs. induction t as [| a c k v l IHl r IHr]; cbn; [done |].
  rewrite fmap_app. cbn. rewrite <- Permutation_middle. by rewrite IHl, IHr.
Qed.

Lemma taddrs_plug1 f t ctx : taddrs (plug1 f t) ++ caddrs ctx ≡ₚ taddrs t ++ caddrs (f :: ctx).
Proof.
  destruct f as [a c k v s | a c k v s]; cbn.
  - rewrite <- Permutation_middle. by rewrite <- app_assoc.
  - rewrite <- Permutation_middle, <- app_assoc. constructor. apply Permutation_app_swap_app.
Qed.

Lemma zip_addrs ctx t : taddrs t ++ caddrs ctx ≡ₚ addrs (plug ctx t).
Proof.
  revert t. induction ctx as [| f ctx IH]; intros t.
  - cbn. rewrite app_nil_r. apply taddrs_inorder.
  - rewrite plug_cons, <- taddrs_plug1. apply IH.
Qed.

Lemma addr_in nl t : addr nl t = nl \/ addr nl t ∈ taddrs t.
Proof. destruct t; cbn; [by left | right; by left]. Qed.

Lemma up_in nl ctx : up nl ctx = nl \/ up nl ctx ∈ caddrs ctx.
Proof. destruct ctx as [| [] ctx]; cbn; [by left | right; by left..]. Qed.

(** ** Framing *)

Lemma rep_ext h h' nl par t :
  (forall p, p ∈ taddrs t -> h' !! p = h !! p) -> rep h nl par t -> rep h' nl par t.
Proof.
  revert par. induction t as [| a c k v l IHl r IHr]; intros par He; cbn; [done |].
  intros (Ha & Hl & Hr). split; [rewrite He; [done | by left] |].
  split; [apply IHl | apply IHr]; try done; intros p Hp; apply He; cbn; set_solver.
Qed.

Lemma repc_ext h h' nl ctx p :
  (forall q, q ∈ caddrs ctx -> h' !! q = h !! q) -> repc h nl ctx p -> repc h' nl ctx p.
Proof.
  revert p. induction ctx as [| [a c k v s | a c k v s] ctx IH]; intros p He; cbn; [done | |];
    (intros (Ha & Hs & Hc); split; [rewrite He; [done | by left] |];
     split; [eapply rep_ext; [| exact Hs] | apply IH; [| exact Hc]];
     intros q Hq; apply He; cbn; set_solver).
Qed.

Lemma rep_insert h nl par t p n : p ∉ taddrs t -> rep h nl par t -> rep (<[p := n]> h) nl par t.
Proof. intros Hp. apply rep_ext. intros q Hq. apply lookup_insert_ne. by intros ->. Qed.

Lemma repc_insert h nl ctx q p n : p ∉ caddrs ctx -> repc h nl ctx q -> repc (<[p := n]> h) nl ctx q.
Proof. intros Hp. apply repc_ext. intros q' Hq. apply lookup_insert_ne. by intros ->. Qed.

#[export] Hint Resolve rep_insert repc_insert : lidis.

(** ** Moving the focus *)

Lemma zip_up T nl f ctx t : zip T nl (f :: ctx) t <-> zip T nl ctx (plug1 f t).
Proof.
  split; intros [Hn Hr Hc Ht Hd Hs]; split; try done.
  - destruct f; cbn in Hc |- *; tauto.
  - destruct f; cbn in Hc, Ht |- *; tauto.
  - by rewrite taddrs_plug1.
  - destruct f; cbn in Ht, Hc |- *; tauto.
  - destruct f; cbn in Ht, Hc |- *; tauto.
  - by rewrite taddrs_plug1 in Hd.
Qed.

Lemma zip_top T nl ctx t : zip T nl ctx t <-> zip T nl [] (plug ctx t).
Proof.
  revert t. induction ctx as [| f ctx IH]; intros t; [done |]. rewrite plug_cons, <- IH. apply zip_up.
Qed.

Lemma zip_move T nl ctx t ctx' t' : plug ctx t = plug ctx' t' -> zip T nl ctx t -> zip T nl ctx' t'.
Proof. intros He Hz. apply (zip_top T nl ctx'). rewrite <- He. by apply (zip_top T nl ctx). Qed.

(** ** Reading a view *)

Lemma zip_node T nl ctx a c k v l r :
  zip T nl ctx (Bin a c k v l r) ->
  rb_nodes T !! a = Some (RBNode c (addr nl r) (addr nl l) (up nl ctx) (Some k) v) /\ a <> nl.
Proof.
  intros Hz. split; [apply (z_tree _ _ _ _ Hz) |]. pose proof (z_nodup _ _ _ _ Hz) as Hn.
  apply NoDup_cons in Hn as [Hn _]. intros ->. apply Hn. cbn. by left.
Qed.

Lemma zip_color T nl ctx t : zip T nl ctx t -> ld_color T (addr nl t) = Ok (tcolor t).
Proof.
  intros Hz. unfold ld_color, ld. destruct t as [| a c k v l r]; cbn.
  - destruct (z_sent _ _ _ _ Hz) as (n & -> & Hc). cbn. by rewrite Hc.
  - by destruct (zip_node _ _ _ _ _ _ _ _ _ Hz) as [-> _].
Qed.

(** Colour of the parent of the focus; the parent of the root is the
    sentinel. *)
Definition pcolor (ctx : list frame) : color_t :=
  match ctx with [] => BLACK | (InLeft _ c _ _ _ | InRight _ c _ _ _) :: _ => c end.

Lemma zip_pcolor T nl ctx t : zip T nl ctx t -> ld_color T (up nl ctx) = Ok (pcolor ctx).
Proof.
  intros Hz. destruct ctx as [| f ctx]; cbn.
  - unfold ld_color, ld. destruct (z_sent _ _ _ _ Hz) as (n & -> & Hc). cbn. by rewrite Hc.
  - apply zip_up in Hz. pose proof (zip_color _ _ _ _ Hz) as Hc. by destruct f.
Qed.

Lemma zip_parent T nl ctx t : zip T nl ctx t -> t <> Leaf -> ld_parent T (addr nl t) = Ok (up nl ctx).
Proof.
  intros Hz Hne. destruct t; [done |]. unfold ld_parent, ld. cbn.
  by destruct (zip_node _ _ _ _ _ _ _ _ _ Hz) as [-> _].
Qed.

(** ** Single stores *)

Ltac rb_unfold :=
  unfold ld_color, ld_left, ld_right, ld_parent, ld_key, st_color, st_right, st_left, st_parent, st_kv, st, ld,
    with_node, with_root;
  cbn [rb_nodes root nil mbind res_bind of_option color left right parent rb_key rb_value fst snd negb].

(** Recolouring the focus. *)
Lemma zip_st_color T nl ctx a c c' k v l r :
  zip T nl ctx (Bin a c k v l r) ->
  exists T', st_color T a c' = Ok T' /\ zip T' nl ctx (Bin a c' k v l r) /\ keeps T T' [a].
Proof.
  intros Hz. destruct (zip_node _ _ _ _ _ _ _ _ _ Hz) as [Ha Hne]. rb_unfold. rewrite Ha. rb_unfold.
  eexists. split; [done |]. destruct Hz as [Hn Hr Hc Ht Hd Hs]. cbn in Ht, Hd. destruct Ht as (_ & Hl & Hrr).
  apply NoDup_cons in Hd as [Hd0 Hd]. pose proof Hd as Hd'. apply NoDup_cons in Hd' as [Hd1 _].
  rewrite !not_elem_of_app in Hd1. destruct Hd1 as ((? & ?) & ?).
  split; [split; cbn [rb_nodes root nil] |].
  - done.
  - rewrite Hr. destruct ctx; [done | apply addr_plug_cons].
  - by apply repc_insert.
  - cbn. split; [by rewrite lookup_insert_eq |]. auto with lidis.
  - by constructor.
  - rewrite lookup_insert_ne by done. done.
  - intros p Hp. cbn. apply lookup_insert_ne. set_solver.
Qed.

(** Replacing key and value of the focus. *)
Lemma zip_st_kv T nl ctx a c k v k' v' l r :
  zip T nl ctx (Bin a c k v l r) ->
  exists T', st_kv T a (Some k') v' = Ok T' /\ zip T' nl ctx (Bin a c k' v' l r) /\ keeps T T' [a].
Proof.
  intros Hz. destruct (zip_node _ _ _ _ _ _ _ _ _ Hz) as [Ha Hne]. rb_unfold. rewrite Ha. rb_unfold.
  eexists. split; [done |]. destruct Hz as [Hn Hr Hc Ht Hd Hs]. cbn in Ht, Hd. destruct Ht as (_ & Hl & Hrr).
  apply NoDup_cons in Hd as [Hd0 Hd]. pose proof Hd as Hd'. apply NoDup_cons in Hd' as [Hd1 _].
  rewrite !not_elem_of_app in Hd1. destruct Hd1 as ((? & ?) & ?).
  split; [split; cbn [rb_nodes root nil] |].
  - done.
  - rewrite Hr. destruct ctx; [done | apply addr_plug_cons].
  - by apply repc_insert.
  - cbn. split; [by rewrite lookup_insert_eq |]. auto with lidis.
  - by constructor.
  - rewrite lookup_insert_ne by done. done.
  - intros p Hp. cbn. apply lookup_insert_ne. set_solver.
Qed.

(** ** Rotations

    The code of a rotation works on a detached piece: [x] and [y] individually,
    the moving subtree and the path. *)

(** Giving the root of [b] a new parent, unless [b] is the sentinel. *)
Lemma reparent_spec T nl par par' b :
  nil T = nl -> rep (rb_nodes T) nl par b -> NoDup (nl :: taddrs b) ->
  exists h', (if negb (addr nl b =? nil T) then st_parent T (addr nl b) par' else Ok T)
      = Ok (RBTree (root T) nl h') /\ rep h' nl par' b /\
    forall p, p ∉ taddrs b -> h' !! p = rb_nodes T !! p.
Proof.
  intros Hn Hb Hd. destruct T as [rt n0 h]. cbn in Hn, Hb. subst n0. destruct b as [| a c k v l r]; cbn.
  - rewrite Z.eqb_refl. cbn. by exists h.
  - cbn in Hb, Hd. destruct Hb as (Ha & Hl & Hr). apply NoDup_cons in Hd as [Hnl Hd].
    apply NoDup_cons in Hd as [Hd _]. rewrite not_elem_of_app in Hd. destruct Hd as [? ?].
    rewrite (proj2 (Z.eqb_neq a nl)) by set_solver. rb_unfold. rewrite Ha. rb_unfold.
    eexists. split; [done |]. split; [split; [by rewrite lookup_insert_eq | auto with lidis] |].
    intros p Hp. apply lookup_insert_ne. set_solver.
Qed.

(** One frame of the path is rewritten; [tst] decides the test that selects
    the side. *)
Ltac relink_frame tst :=
  lazymatch goal with
  | Hc : repc _ _ (_ :: _) _, Hd : NoDup (_ :: caddrs _), Hr : _ = addr _ (plug (_ :: ?ctx) ?t)
    |- context [plug _ ?t'] =>
      cbn in Hc, Hd; destruct Hc as (Ha & Hs' & Hc'); apply NoDup_cons in Hd as [Hnl Hd];
      apply NoDup_cons in Hd as [Hd _]; rewrite not_elem_of_app in Hd; destruct Hd as [? ?];
      rewrite (proj2 (Z.eqb_neq _ _)) by set_solver; rb_unfold; rewrite Ha; rb_unfold;
      tst; rewrite ?Ha; rb_unfold; rewrite Hr, (addr_plug_cons _ _ ctx t t');
      eexists; split; [done |]; split;
        [cbn; split; [by rewrite lookup_insert_eq | auto with lidis]
        | intros p Hp; apply lookup_insert_ne; cbn in Hp; set_solver]
  end.

(** The link from the parent of the focus [x] to its new root [y], as the left
    rotation and the deletion write it. *)
Lemma relink_l_spec T nl ctx x y (t t' : tree) :
  nil T = nl -> repc (rb_nodes T) nl ctx x -> NoDup (nl :: caddrs ctx) ->
  root T = addr nl (plug ctx t) -> addr nl t' = y ->
  (forall a c k v s ctx', ctx = InRight a c k v s :: ctx' -> x <> addr nl s) ->
  exists h', (if up nl ctx =? nil T then Ok (with_root T y) else
       xpl ← ld_left T (up nl ctx);
       if x =? xpl then st_left T (up nl ctx) y else st_right T (up nl ctx) y)
      = Ok (RBTree (addr nl (plug ctx t')) nl h') /\ repc h' nl ctx y /\
    forall p, p ∉ caddrs ctx -> h' !! p = rb_nodes T !! p.
Proof.
  intros Hn Hc Hd Hr Hy Hs. destruct T as [rt n0 h]. cbn in Hn, Hc, Hr. subst n0 y.
  destruct ctx as [| [a c k v s | a c k v s] ctx]; cbn [up fr_addr nil].
  - rewrite Z.eqb_refl. by exists h.
  - relink_frame ltac:(rewrite Z.eqb_refl).
  - relink_frame ltac:(rewrite (proj2 (Z.eqb_neq x (addr nl s))) by (by eapply Hs)).
Qed.

(** The same in the order of the right rotation. *)
Lemma relink_r_spec T nl ctx x y (t t' : tree) :
  nil T = nl -> repc (rb_nodes T) nl ctx x -> NoDup (nl :: caddrs ctx) ->
  root T = addr nl (plug ctx t) -> addr nl t' = y ->
  (forall a c k v s ctx', ctx = InLeft a c k v s :: ctx' -> x <> addr nl s) ->
  exists h', (if up nl ctx =? nil T then Ok (with_root T y) else
       xpr ← ld_right T (up nl ctx);
       if x =? xpr then st_right T (up nl ctx) y else st_left T (up nl ctx) y)
      = Ok (RBTree (addr nl (plug ctx t')) nl h') /\ repc h' nl ctx y /\
    forall p, p ∉ caddrs ctx -> h' !! p = rb_nodes T !! p.
Proof.
  intros Hn Hc Hd Hr Hy Hs. destruct T as [rt n0 h]. cbn in Hn, Hc, Hr. subst n0 y.
  destruct ctx as [| [a c k v s | a c k v s] ctx]; cbn [up fr_addr nil].
  - rewrite Z.eqb_refl. by exists h.
  - relink_frame ltac:(rewrite (proj2 (Z.eqb_neq x (addr nl s))) by (by eapply Hs)).
  - relink_frame ltac:(rewrite Z.eqb_refl).
Qed.

(** The siblings of the path do not contain the focus. *)
Lemma sib_neq nl x ctx :
  x ∉ nl :: caddrs ctx ->
  (forall a c k v s ctx', ctx = InRight a c k v s :: ctx' -> x <> addr nl s) /\
  (forall a c k v s ctx', ctx = InLeft a c k v s :: ctx' -> x <> addr nl s).
Proof.
  intros Hx. split; intros a c k v s ctx' -> ->; apply Hx; cbn;
    destruct (addr_in nl s) as [-> | ?]; set_solver.
Qed.

(** The addresses of a rotation, with the disjointness they need. *)
Lemma rot_nodup nl x y ta tb tc cs (l : list Z) :
  NoDup (nl :: l) -> l ≡ₚ x :: y :: ta ++ tb ++ tc ++ cs ->
  (nl <> x /\ nl <> y /\ nl ∉ ta /\ nl ∉ tb /\ nl ∉ tc /\ nl ∉ cs) /\
  (x <> y /\ x ∉ ta /\ x ∉ tb /\ x ∉ tc /\ x ∉ cs) /\ (y ∉ ta /\ y ∉ tb /\ y ∉ tc /\ y ∉ cs) /\
  NoDup (nl :: tb) /\ NoDup (nl :: cs) /\
  (forall p, p ∈ tb -> p ∉ ta /\ p ∉ tc /\ p ∉ cs) /\ (forall p, p ∈ cs -> p ∉ ta /\ p ∉ tb /\ p ∉ tc).
Proof.
  intros Hd Hp. rewrite Hp in Hd. apply NoDup_cons in Hd as [Hnl Hd]. apply NoDup_cons in Hd as [Hxn Hd].
  apply NoDup_cons in Hd as [Hyn Hd]. rewrite !not_elem_of_cons, !not_elem_of_app in *.
  apply NoDup_app in Hd as (Hda & Hd1 & Hd). apply NoDup_app in Hd as (Hdb & Hd2 & Hd).
  apply NoDup_app in Hd as (Hdc & Hd3 & Hdx).
  split; [tauto |]. split; [tauto |]. split; [tauto |]. split; [constructor; tauto |]. split; [constructor; tauto |].
  split; intros p Hp'.
  - specialize (Hd2 p Hp'). split; [| set_solver]. intros Hpa. apply (Hd1 p Hpa). set_solver.
  - split; [| split]; intros Hq; [apply (Hd1 p Hq) | apply (Hd2 p Hq) | apply (Hd3 p Hq)]; set_solver.
Qed.

Ltac ld_by H := rb_unfold; rewrite H; done.

Lemma zip_left_rotate T nl ctx x xc xk xv a y yc yk yv b c :
  zip T nl ctx (Bin x xc xk xv a (Bin y yc yk yv b c)) ->
  exists T', rbtree_left_rotate T x = Ok T' /\
    zip T' nl ctx (Bin y yc yk yv (Bin x xc xk xv a b) c) /\
    keeps T T' (taddrs (Bin x xc xk xv a (Bin y yc yk yv b c)) ++ caddrs ctx).
Proof.
  intros [Hn Hr Hc Ht Hd Hs]. destruct T as [rt n0 h]. cbn [root nil rb_nodes] in *. subst n0.
  cbn [rep] in Ht. destruct Ht as (Hx & Ha & Hy & Hb & Hcc). cbn [addr] in *.
  assert (Hperm : taddrs (Bin x xc xk xv a (Bin y yc yk yv b c)) ++ caddrs ctx
    ≡ₚ x :: y :: taddrs a ++ taddrs b ++ taddrs c ++ caddrs ctx).
  { cbn. constructor. rewrite <- app_assoc. cbn. rewrite <- Permutation_middle. by rewrite <- app_assoc. }
  destruct (rot_nodup nl x y (taddrs a) (taddrs b) (taddrs c) (caddrs ctx) _ Hd Hperm)
    as ((? & ? & ? & ? & ? & ?) & (Hxy & ? & ? & ? & ?) & (? & ? & ? & ?) & Hnb & Hnc & Hdb & Hdc).
  set (h1 := <[x := RBNode xc (addr nl b) (addr nl a) (up nl ctx) (Some xk) xv]> h).
  assert (Hy1 : h1 !! y = h !! y) by (by apply lookup_insert_ne).
  destruct (reparent_spec (RBTree rt nl h1) nl y x b) as (h2 & He2 & Hb2 & Hk2);
    [done | by apply rep_insert | done |]. cbn [rb_nodes root] in Hk2, He2.
  assert (Hx2 : h2 !! x = h1 !! x) by (by apply Hk2).
  assert (Hy2 : h2 !! y = h !! y) by (rewrite Hk2; done).
  set (h3 := <[y := RBNode yc (addr nl c) (addr nl b) (up nl ctx) (Some yk) yv]> h2).
  assert (Hx3 : h3 !! x = Some (RBNode xc (addr nl b) (addr nl a) (up nl ctx) (Some xk) xv)).
  { unfold h3. rewrite lookup_insert_ne, Hx2 by done. apply lookup_insert_eq. }
  assert (Hc3 : repc h3 nl ctx x).
  { apply repc_insert; [done |]. eapply repc_ext; [| exact Hc]. intros p Hp.
    rewrite Hk2 by (by apply Hdc). apply lookup_insert_ne. by intros ->. }
  destruct (sib_neq nl x ctx ltac:(set_solver)) as [Hsib _].
  destruct (relink_l_spec (RBTree rt nl h3) nl ctx x y (Bin x xc xk xv a (Bin y yc yk yv b c))
    (Bin y yc yk yv (Bin x xc xk xv a b) c)) as (h4 & He4 & Hc4 & Hk4); try done.
  assert (Hx4 : h4 !! x = Some (RBNode xc (addr nl b) (addr nl a) (up nl ctx) (Some xk) xv)) by (by rewrite Hk4).
  assert (Hy4 : h4 !! y = Some (RBNode yc (addr nl c) (addr nl b) (up nl ctx) (Some yk) yv)).
  { rewrite Hk4 by done. apply lookup_insert_eq. }
  set (h5 := <[y := RBNode yc (addr nl c) x (up nl ctx) (Some yk) yv]> h4).
  assert (Hx5 : h5 !! x = Some (RBNode xc (addr nl b) (addr nl a) (up nl ctx) (Some xk) xv))
    by (unfold h5; by rewrite lookup_insert_ne).
  assert (Hfin : forall p, p <> x -> p <> y -> p ∉ taddrs b -> p ∉ caddrs ctx ->
    (<[x := RBNode xc (addr nl b) (addr nl a) y (Some xk) xv]> h5 : rheap) !! p = h !! p).
  { intros p Hpx Hpy Hpb Hpc. unfold h5. rewrite !lookup_insert_ne, Hk4 by done.
    cbn [rb_nodes]. unfold h3. rewrite lookup_insert_ne, Hk2 by done. by apply lookup_insert_ne. }
  exists (RBTree (addr nl (plug ctx (Bin y yc yk yv (Bin x xc xk xv a b) c))) nl
    (<[x := RBNode xc (addr nl b) (addr nl a) y (Some xk) xv]> h5)).
  split; [| split; [split; cbn [rb_nodes root nil] |]].
  - unfold rbtree_left_rotate.
    assert (E1 : ld_right (RBTree rt nl h) x = Ok y) by ld_by Hx. rewrite E1. run.
    assert (E2 : ld_left (RBTree rt nl h) y = Ok (addr nl b)) by ld_by Hy. rewrite E2. run.
    assert (E3 : st_right (RBTree rt nl h) x (addr nl b) = Ok (RBTree rt nl h1)) by ld_by Hx. rewrite E3. run.
    assert (E4 : ld_left (RBTree rt nl h1) y = Ok (addr nl b)) by (rb_unfold; by rewrite Hy1, Hy). rewrite E4. run.
    rewrite He2. run.
    assert (E5 : ld_parent (RBTree rt nl h2) x = Ok (up nl ctx)).
    { rb_unfold. rewrite Hx2. unfold h1. by rewrite lookup_insert_eq. } rewrite E5. run.
    assert (E6 : st_parent (RBTree rt nl h2) y (up nl ctx) = Ok (RBTree rt nl h3)) by (rb_unfold; by rewrite Hy2, Hy).
    rewrite E6. run.
    assert (E7 : ld_parent (RBTree rt nl h3) x = Ok (up nl ctx)) by ld_by Hx3. rewrite E7. run.
    rewrite He4. run.
    assert (E8 : st_left (RBTree (addr nl (plug ctx (Bin y yc yk yv (Bin x xc xk xv a b) c))) nl h4) y x
      = Ok (RBTree (addr nl (plug ctx (Bin y yc yk yv (Bin x xc xk xv a b) c))) nl h5)) by ld_by Hy4.
    rewrite E8. run. ld_by Hx5.
  - done.
  - done.
  - apply repc_insert; [done |]. by apply repc_insert.
  - cbn [rep]. split; [unfold h5; by rewrite lookup_insert_ne, lookup_insert_eq by done |].
    split; [split; [by rewrite lookup_insert_eq |]; split |].
    + eapply rep_ext; [| exact Ha]. intros p Hp. apply Hfin; try (by intros ->); intros Hq.
      * apply Hdb in Hq. tauto.
      * apply Hdc in Hq. tauto.
    + eapply rep_ext; [| exact Hb2]. intros p Hp. unfold h5. rewrite !lookup_insert_ne by (by intros ->).
      rewrite Hk4 by (by apply Hdb). cbn [rb_nodes]. unfold h3. by rewrite lookup_insert_ne by (by intros ->).
    + eapply rep_ext; [| exact Hcc]. intros p Hp. apply Hfin; try (by intros ->); intros Hq.
      * apply Hdb in Hq. tauto.
      * apply Hdc in Hq. tauto.
  - eapply NoDup_Permutation_proper; [| exact Hd]. constructor. rewrite Hperm. cbn. rewrite <- !app_assoc.
    apply Permutation_swap.
  - destruct Hs as (n & Hnn & Hcn). exists n. split; [| done]. by rewrite Hfin by done.
  - intros p Hp. cbn. rewrite Hperm in Hp. rewrite !not_elem_of_cons, !not_elem_of_app in Hp. apply Hfin; tauto.
Qed.
