(* ===== verification/RbMirror.v ===== *)
(** * RbMirror: left and right exchanged

    The code has every case twice, once for the left and once for the right.
    Exchanging the two child fields of all nodes turns one case into the other,
    so only one of each pair is verified directly. *)

From S2P Require Import Prelude Alloc Engine Bag Rbtree RbTheory RbHeap.

Definition mir_node (n : rbtree_node) : rbtree_node :=
  RBNode (color n) (left n) (right n) (parent n) (rb_key n) (rb_value n).

Definition mir (T : rbtree) : rbtree := RBTree (root T) (nil T) (mir_node <$> rb_nodes T).

Fixpoint mir_tree (t : tree) : tree :=
  match t with Leaf => Leaf | Bin a c k v l r => Bin a c k v (mir_tree r) (mir_tree l) end.

Definition mir_frame (f : frame) : frame :=
  match f with
  | InLeft a c k v s => InRight a c k v (mir_tree s)
  | InRight a c k v s => InLeft a c k v (mir_tree s)
  end.

Notation mir_ctx := (fmap (M := list) mir_frame).

(** ** Involution *)

Lemma mir_node_inv n : mir_node (mir_node n) = n.
Proof. by destruct n. Qed.

Lemma mir_inv T : mir (mir T) = T.
Proof.
  destruct T as [r n h]. unfold mir. cbn. f_equal. rewrite <- map_fmap_compose.
  rewrite <- (map_fmap_id h) at 2. apply map_fmap_ext. intros p x _. apply mir_node_inv.
Qed.

Lemma mir_tree_inv t : mir_tree (mir_tree t) = t.
Proof. induction t as [| a c k v l IHl r IHr]; cbn; [done |]. by rewrite IHl, IHr. Qed.

Lemma mir_ctx_inv ctx : mir_ctx (mir_ctx ctx) = ctx.
Proof.
  induction ctx as [| [] ctx IH]; [done | |]; rewrite !fmap_cons, IH; cbn; by rewrite mir_tree_inv.
Qed.

(** ** Trees *)

Lemma mir_plug ctx t : mir_tree (plug ctx t) = plug (mir_ctx ctx) (mir_tree t).
Proof.
  revert t. induction ctx as [| f ctx IH]; intros t; [done |].
  rewrite fmap_cons, !plug_cons, IH. by destruct f.
Qed.

Lemma mir_inorder t : inorder (mir_tree t) = reverse (inorder t).
Proof.
  induction t as [| a c k v l IHl r IHr]; cbn [mir_tree inorder]; [done |].
  rewrite IHl, IHr, reverse_app, reverse_cons. by rewrite <- app_assoc.
Qed.

Lemma mir_rb t c n : rb t c n -> rb (mir_tree t) c n.
Proof. induction 1; cbn; eauto with lidis. Qed.

Lemma mir_cx ctx c n : cx ctx c n -> cx (mir_ctx ctx) c n.
Proof.
  induction 1; cbn; econstructor; eauto using mir_rb;
    match goal with H : ?l <> [] |- _ => destruct l; done end.
Qed.

Lemma mir_taddrs t : taddrs (mir_tree t) ≡ₚ taddrs t.
Proof. rewrite !taddrs_inorder. unfold addrs. rewrite mir_inorder. by rewrite reverse_Permutation. Qed.

Lemma mir_caddrs ctx : caddrs (mir_ctx ctx) ≡ₚ caddrs ctx.
Proof.
  induction ctx as [| [] ctx IH]; [done | |]; rewrite fmap_cons; cbn; by rewrite mir_taddrs, IH.
Qed.

Lemma mir_addr nl t : addr nl (mir_tree t) = addr nl t.
Proof. by destruct t. Qed.

Lemma mir_up nl ctx : up nl (mir_ctx ctx) = up nl ctx.
Proof. by destruct ctx as [| [] ctx]. Qed.

(** ** Views *)

Lemma mir_rep h nl par t : rep h nl par t -> rep (mir_node <$> h) nl par (mir_tree t).
Proof.
  revert par. induction t as [| a c k v l IHl r IHr]; intros par; cbn; [done |].
  intros (Ha & Hl & Hr). rewrite !mir_addr. split; [by rewrite lookup_fmap, Ha | auto].
Qed.

Lemma mir_repc h nl ctx p : repc h nl ctx p -> repc (mir_node <$> h) nl (mir_ctx ctx) p.
Proof.
  revert p. induction ctx as [| [a c k v s | a c k v s] ctx IH]; intros p; cbn; [done | |];
    intros (Ha & Hs & Hc); rewrite mir_addr, mir_up;
    (split; [by rewrite lookup_fmap, Ha |]); auto using mir_rep.
Qed.

Lemma mir_zip T nl ctx t : zip T nl ctx t -> zip (mir T) nl (mir_ctx ctx) (mir_tree t).
Proof.
  intros [Hn Hr Hc Ht Hd (n & Hs & Hcn)]. split; cbn [mir root nil rb_nodes].
  - done.
  - by rewrite Hr, <- mir_plug, mir_addr.
  - rewrite mir_addr. by apply mir_repc.
  - rewrite mir_up. by apply mir_rep.
  - by rewrite mir_taddrs, mir_caddrs.
  - exists (mir_node n). by rewrite lookup_fmap, Hs.
Qed.

Lemma mir_keeps T T' S : keeps (mir T) T' S -> keeps T (mir T') S.
Proof.
  intros Hk p Hp. specialize (Hk p Hp). cbn in *. rewrite lookup_fmap in *. rewrite Hk.
  destruct (rb_nodes T !! p); [| done]. cbn. by rewrite mir_node_inv.
Qed.

(** ** Code *)

Definition mir_res (m : res rbtree) : res rbtree := res_map mir m.

Lemma bind_ext {X Y} (m : res X) (f g : X -> res Y) : (forall x, f x = g x) -> m ≫= f = m ≫= g.
Proof. intros Hfg. destruct m; cbn; auto. Qed.

Lemma bind_res_map {X Y W} (f : X -> Y) (m : res X) (k : Y -> res W) :
  res_map f m ≫= k = m ≫= (fun x => k (f x)).
Proof. by destruct m. Qed.

Lemma res_map_bind {X Y W} (f : Y -> W) (m : res X) (k : X -> res Y) :
  res_map f (m ≫= k) = m ≫= (fun x => res_map f (k x)).
Proof. by destruct m. Qed.

Lemma bind_Ok {X Y} (x : X) (k : X -> res Y) : Ok x ≫= k = k x.
Proof. done. Qed.

Lemma bind_assoc {X Y W} (m : res X) (f : X -> res Y) (g : Y -> res W) :
  (m ≫= f) ≫= g = m ≫= (fun x => f x ≫= g).
Proof. by destruct m. Qed.

Lemma mir_ld T p : ld (mir T) p = res_map mir_node (ld T p).
Proof. unfold ld. cbn. rewrite lookup_fmap. by destruct (rb_nodes T !! p). Qed.

Lemma mir_ld_color T p : ld_color (mir T) p = ld_color T p.
Proof. unfold ld_color. rewrite mir_ld. by destruct (ld T p). Qed.

Lemma mir_ld_left T p : ld_left (mir T) p = ld_right T p.
Proof. unfold ld_left, ld_right. rewrite mir_ld. by destruct (ld T p). Qed.

Lemma mir_ld_right T p : ld_right (mir T) p = ld_left T p.
Proof. unfold ld_left, ld_right. rewrite mir_ld. by destruct (ld T p). Qed.

Lemma mir_ld_parent T p : ld_parent (mir T) p = ld_parent T p.
Proof. unfold ld_parent. rewrite mir_ld. by destruct (ld T p). Qed.

Lemma mir_st T p f g :
  (forall n, f (mir_node n) = mir_node (g n)) -> st (mir T) p f = res_map mir (st T p g).
Proof.
  intros Hfg. unfold st. rewrite mir_ld. destruct (ld T p); cbn; [| done | done].
  f_equal. unfold with_node, mir. cbn. by rewrite fmap_insert, Hfg.
Qed.

Lemma mir_st_color T p c : st_color (mir T) p c = res_map mir (st_color T p c).
Proof. by apply mir_st. Qed.

Lemma mir_st_left T p q : st_left (mir T) p q = res_map mir (st_right T p q).
Proof. by apply mir_st. Qed.

Lemma mir_st_right T p q : st_right (mir T) p q = res_map mir (st_left T p q).
Proof. by apply mir_st. Qed.

Lemma mir_st_parent T p q : st_parent (mir T) p q = res_map mir (st_parent T p q).
Proof. by apply mir_st. Qed.

Lemma mir_with_root T p : with_root (mir T) p = mir (with_root T p).
Proof. done. Qed.

Create Rewrite HintDb mirror.
#[export] Hint Rewrite mir_ld_color mir_ld_left mir_ld_right mir_ld_parent mir_st_color mir_st_left
  mir_st_right mir_st_parent mir_with_root : mirror.

(** Steps through two programs that are mirror images. *)
Ltac mirror_step :=
  first [ reflexivity
        | progress (autorewrite with mirror; rewrite ?bind_Ok, ?bind_assoc, ?bind_res_map, ?res_map_bind)
        | apply bind_ext; intros ?
        | progress cbn [mir nil root res_map fst snd]
        | match goal with |- context [if ?b then _ else _] => destruct b end
        | match goal with |- context [let '(_, _) := ?x in _] => destruct x end ].

Lemma mir_left_rotate T x : rbtree_left_rotate (mir T) x = res_map mir (rbtree_right_rotate T x).
Proof. unfold rbtree_left_rotate, rbtree_right_rotate. repeat mirror_step. Qed.

Lemma mir_right_rotate T x : rbtree_right_rotate (mir T) x = res_map mir (rbtree_left_rotate T x).
Proof.
  rewrite <- (mir_inv T) at 2. rewrite mir_left_rotate.
  destruct (rbtree_right_rotate (mir T) x) as [T' | |]; cbn; [by rewrite mir_inv | done | done].
Qed.

Lemma mir_grandparent T z : grandparent (mir T) z = grandparent T z.
Proof. unfold grandparent. repeat mirror_step. Qed.

#[export] Hint Rewrite mir_left_rotate mir_right_rotate mir_grandparent : mirror.

Definition mir_pair (p : rbtree * Z) : rbtree * Z := (mir p.1, p.2).

Lemma mir_insert_fixup T z :
  insert_fixup_left (mir T) z = res_map mir_pair (insert_fixup_right T z).
Proof. unfold insert_fixup_left, insert_fixup_right. repeat mirror_step. Qed.

(** The order of two loads does not matter. *)
Lemma ld_swap {X} T p q (k : Z -> color_t -> Z -> color_t -> res X) :
  (l ← ld_left T p; lc ← ld_color T l; r ← ld_right T q; rc ← ld_color T r; k l lc r rc)
  = (r ← ld_right T q; rc ← ld_color T r; l ← ld_left T p; lc ← ld_color T l; k l lc r rc).
Proof.
  unfold ld_left, ld_right, ld_color, ld.
  destruct (rb_nodes T !! p) as [np |], (rb_nodes T !! q) as [nq |]; cbn; try done.
  - destruct (rb_nodes T !! left np), (rb_nodes T !! right nq); done.
  - by destruct (rb_nodes T !! left np).
  - by destruct (rb_nodes T !! right nq).
Qed.

Lemma mir_delete_fixup_rest T x w :
  delete_fixup_left_rest (mir T) x w = res_map mir_pair (delete_fixup_right_rest T x w).
Proof.
  unfold delete_fixup_left_rest, delete_fixup_right_rest.
  etransitivity; [| apply (f_equal (res_map mir_pair)); symmetry; apply ld_swap].
  rewrite res_map_bind, mir_ld_left. apply bind_ext. intros r.
  rewrite res_map_bind, mir_ld_color. apply bind_ext. intros rc.
  rewrite res_map_bind, mir_ld_right. apply bind_ext. intros l.
  rewrite res_map_bind, mir_ld_color. apply bind_ext. intros lc.
  destruct (decide (rc = BLACK /\ lc = BLACK)), (decide (lc = BLACK /\ rc = BLACK)); try tauto.
  - repeat mirror_step.
  - repeat mirror_step.
Qed.

#[export] Hint Rewrite mir_delete_fixup_rest : mirror.

Lemma mir_delete_fixup T x :
  delete_fixup_left (mir T) x = res_map mir_pair (delete_fixup_right T x).
Proof. unfold delete_fixup_left, delete_fixup_right. repeat mirror_step. Qed.

(** A step of the code verified for one side, read from the other. *)
Lemma mir_transfer (f g : rbtree -> res rbtree) T T1 :
  (forall T, f (mir T) = res_map mir (g T)) -> f (mir T) = Ok T1 -> g T = Ok (mir T1).
Proof.
  intros Hfg Hf. rewrite Hfg in Hf. destruct (g T); cbn in Hf; [| done | done].
  injection Hf as <-. by rewrite mir_inv.
Qed.

Lemma mir_zip_back T nl ctx t : zip T nl (mir_ctx ctx) (mir_tree t) -> zip (mir T) nl ctx t.
Proof. intros Hz. apply mir_zip in Hz. by rewrite mir_ctx_inv, mir_tree_inv in Hz. Qed.

Lemma zip_right_rotate T nl ctx y yc yk yv x xc xk xv a b c :
  zip T nl ctx (Bin y yc yk yv (Bin x xc xk xv a b) c) ->
  exists T', rbtree_right_rotate T y = Ok T' /\
    zip T' nl ctx (Bin x xc xk xv a (Bin y yc yk yv b c)) /\
    keeps T T' (taddrs (Bin y yc yk yv (Bin x xc xk xv a b) c) ++ caddrs ctx).
Proof.
  intros Hz. apply mir_zip in Hz. cbn in Hz.
  destruct (zip_left_rotate _ _ _ _ _ _ _ _ _ _ _ _ _ _ Hz) as (T1 & Hr & Hz1 & Hk).
  exists (mir T1). split; [| split].
  - apply (mir_transfer (fun T => rbtree_left_rotate T y) (fun T => rbtree_right_rotate T y));
      [intros; apply mir_left_rotate | done].
  - by apply mir_zip_back.
  - apply mir_keeps. intros p Hp. apply Hk.
    rewrite (mir_caddrs ctx).
    change (Bin y yc yk yv (mir_tree c) _) with (mir_tree (Bin y yc yk yv (Bin x xc xk xv a b) c)).
    by rewrite mir_taddrs.
Qed.
