(* ===== verification/RbLoops.v ===== *)
(** * RbLoops: the fixup loops of the red-black tree *)

From S2P Require Import Prelude Alloc Engine Bag Rbtree RbTheory RbHeap RbMirror.

Lemma keeps_sub T T' S S' : keeps T T' S -> S ⊆ S' -> keeps T T' S'.
Proof. intros Hk Hs p Hp. apply Hk. set_solver. Qed.

Lemma keeps_step T1 T2 T3 S S' : keeps T1 T2 S -> keeps T2 T3 S' -> S' ⊆ S -> keeps T1 T3 S.
Proof. intros H1 H2 Hs p Hp. rewrite H2, H1; [done | done | set_solver]. Qed.

(** Addresses of the whole tree of a view. *)
Definition zaddrs (ctx : list frame) (t : tree) : list Z := taddrs t ++ caddrs ctx.

Lemma zaddrs_plug ctx t ctx' t' :
  inorder (plug ctx t) = inorder (plug ctx' t') -> zaddrs ctx t ≡ₚ zaddrs ctx' t'.
Proof. intros He. unfold zaddrs. rewrite !zip_addrs. unfold addrs. by rewrite He. Qed.

Lemma zip_out T nl f ctx t : zip T nl (f :: ctx) t -> zip T nl ctx (plug1 f t).
Proof. apply zip_up. Qed.

(** ** Loads near the focus *)

Lemma ld_parent_focus T nl ctx t : zip T nl ctx t -> t <> Leaf -> ld_parent T (addr nl t) = Ok (up nl ctx).
Proof. apply zip_parent. Qed.

Lemma zip_gp T nl f1 f2 ctx t :
  zip T nl (f1 :: f2 :: ctx) t -> t <> Leaf -> grandparent T (addr nl t) = Ok (fr_addr f2).
Proof.
  intros Hz Hne. unfold grandparent. rewrite (ld_parent_focus _ _ _ _ Hz Hne). run. apply zip_out in Hz.
  pose proof (ld_parent_focus _ _ _ _ Hz) as Hp. destruct f1; cbn in *; by apply Hp.
Qed.

Lemma zip_children T nl ctx a c k v l r :
  zip T nl ctx (Bin a c k v l r) -> ld_left T a = Ok (addr nl l) /\ ld_right T a = Ok (addr nl r) /\ ld_color T a = Ok c.
Proof.
  intros Hz. destruct (zip_node _ _ _ _ _ _ _ _ _ Hz) as [Ha _]. unfold ld_left, ld_right, ld_color, ld.
  by rewrite Ha.
Qed.

Lemma zip_child_color T nl ctx a c k v l r :
  zip T nl ctx (Bin a c k v l r) ->
  ld_color T (addr nl l) = Ok (tcolor l) /\ ld_color T (addr nl r) = Ok (tcolor r).
Proof.
  intros Hz. split.
  - apply (zip_color T nl (InLeft a c k v r :: ctx)). by apply zip_up.
  - apply (zip_color T nl (InRight a c k v l :: ctx)). by apply zip_up.
Qed.

(** The two children of a node differ. *)
Lemma zip_distinct T nl ctx a c k v l r :
  zip T nl ctx (Bin a c k v l r) -> l <> Leaf \/ r <> Leaf -> addr nl l <> addr nl r.
Proof.
  intros Hz Hlr He. pose proof (z_nodup _ _ _ _ Hz) as Hd. cbn in Hd.
  apply NoDup_cons in Hd as [Hnl Hd]. apply NoDup_cons in Hd as [_ Hd].
  rewrite <- app_assoc in Hd. apply NoDup_app in Hd as (_ & Hd & _).
  destruct l as [| la lc lk lv ll lr], r as [| ra rc rk rv rl rr]; cbn in *.
  - by destruct Hlr.
  - subst. apply Hnl. set_solver.
  - subst. apply Hnl. set_solver.
  - subst. apply (Hd ra); set_solver.
Qed.

(** ** Stores near the focus *)

Definition fcol (f : frame) (c : color_t) : frame :=
  match f with InLeft a _ k v s => InLeft a c k v s | InRight a _ k v s => InRight a c k v s end.

Lemma st_color_frame T nl f c ctx t :
  zip T nl (f :: ctx) t ->
  exists T', st_color T (fr_addr f) c = Ok T' /\ zip T' nl (fcol f c :: ctx) t /\ keeps T T' [fr_addr f].
Proof.
  intros Hz. apply zip_out in Hz.
  destruct f as [a fc k v s | a fc k v s]; cbn in Hz |- *;
    destruct (zip_st_color _ _ _ _ _ c _ _ _ _ Hz) as (T' & He & Hz' & Hk); exists T';
    (split; [done |]); (split; [by apply zip_up | done]).
Qed.

Lemma st_color_frame2 T nl f1 f2 c ctx t :
  zip T nl (f1 :: f2 :: ctx) t ->
  exists T', st_color T (fr_addr f2) c = Ok T' /\ zip T' nl (f1 :: fcol f2 c :: ctx) t /\ keeps T T' [fr_addr f2].
Proof.
  intros Hz. apply zip_out in Hz. destruct (st_color_frame _ _ _ c _ _ Hz) as (T' & He & Hz' & Hk).
  exists T'. split; [done |]. split; [by apply zip_up | done].
Qed.

(** Recolouring the right sibling of the focus, and the right sibling of its
    parent. *)
Lemma st_color_sib T nl p pc pk pv y yc yk yv yl yr c ctx t :
  zip T nl (InLeft p pc pk pv (Bin y yc yk yv yl yr) :: ctx) t ->
  exists T', st_color T y c = Ok T' /\
    zip T' nl (InLeft p pc pk pv (Bin y c yk yv yl yr) :: ctx) t /\ keeps T T' [y].
Proof.
  intros Hz. apply (zip_move _ _ _ _ (InRight p pc pk pv t :: ctx) (Bin y yc yk yv yl yr)) in Hz; [| done].
  destruct (zip_st_color _ _ _ _ _ c _ _ _ _ Hz) as (T' & He & Hz' & Hk). exists T'. split; [done |].
  split; [| done]. by eapply zip_move; [| exact Hz'].
Qed.

Lemma st_color_uncle T nl f g gc gk gv y yc yk yv yl yr c ctx t :
  zip T nl (f :: InLeft g gc gk gv (Bin y yc yk yv yl yr) :: ctx) t ->
  exists T', st_color T y c = Ok T' /\
    zip T' nl (f :: InLeft g gc gk gv (Bin y c yk yv yl yr) :: ctx) t /\ keeps T T' [y].
Proof.
  intros Hz. apply zip_out in Hz. destruct (st_color_sib _ _ _ _ _ _ _ _ _ _ _ _ c _ _ Hz) as (T' & He & Hz' & Hk).
  exists T'. split; [done |]. split; [by apply zip_up | done].
Qed.

Lemma inorder_fcol f c t : inorder (plug1 (fcol f c) t) = inorder (plug1 f t).
Proof. by destruct f. Qed.

Lemma inorder_plug_eq ctx t t' : inorder t = inorder t' -> inorder (plug ctx t) = inorder (plug ctx t').
Proof. intros He. by rewrite !inorder_plug, He. Qed.

(** In-order lists up to associativity. *)
Ltac inord := cbn; repeat (rewrite <- app_assoc; cbn); reflexivity.

(** ** Insertion *)

(** The loop invariant: the focus is a red-black subtree with a red root in a
    red-black context; only the edge between the two may be wrong. *)
Definition ins_inv (T : rbtree) (nl : Z) (ctx : list frame) (t : tree) : Prop :=
  zip T nl ctx t /\ exists pc n, cx ctx pc n /\ rb t RED n.

Lemma cx_pcolor ctx pc n : cx ctx pc n -> pcolor ctx = pc.
Proof. by destruct 1. Qed.

(** What one iteration achieves. *)
Definition ins_step (T : rbtree) (nl : Z) (ctx : list frame) (t : tree) (r : res (rbtree * Z)) : Prop :=
  exists T' ctx' t', r = Ok (T', addr nl t') /\ ins_inv T' nl ctx' t' /\
    inorder (plug ctx' t') = inorder (plug ctx t) /\ keeps T T' (zaddrs ctx t) /\
    (pcolor ctx' = BLACK \/ (length ctx' < length ctx)%nat).

(** A red frame made black around a red subtree. *)
Lemma rb_fcol_black f ctx n t : cx (f :: ctx) RED n -> rb t RED n -> rb (plug1 (fcol f BLACK) t) BLACK (S n).
Proof. inversion 1; subst; cbn; eauto with lidis. Qed.

Lemma ld_uncle T nl f g gc gk gv s ctx t :
  zip T nl (f :: InLeft g gc gk gv s :: ctx) t ->
  ld_right T g = Ok (addr nl s) /\ ld_color T (addr nl s) = Ok (tcolor s).
Proof.
  intros Hz. apply zip_out, zip_out in Hz. cbn in Hz.
  split; [by apply (zip_children _ _ _ _ _ _ _ _ _ Hz) | by apply (zip_child_color _ _ _ _ _ _ _ _ _ Hz)].
Qed.

(** The uncle is red: parent and uncle become black, the grandparent red. *)
Lemma insert_left_red T nl f g gk gv y yk yv yl yr ctx t :
  let ctx0 := f :: InLeft g BLACK gk gv (Bin y RED yk yv yl yr) :: ctx in
  ins_inv T nl ctx0 t -> pcolor ctx0 = RED -> ins_step T nl ctx0 t (insert_fixup_left T (addr nl t)).
Proof.
  intros ctx0 [Hz (pc & n & Hcx & Hrb)] Hc.
  assert (Hne : t <> Leaf) by (intros ->; by inversion Hrb).
  unfold insert_fixup_left. rewrite (ld_parent_focus _ _ _ _ Hz Hne). run.
  rewrite (zip_gp _ _ _ _ _ _ Hz Hne). run. cbn [fr_addr]. destruct (ld_uncle _ _ _ _ _ _ _ _ _ _ Hz) as [-> Hyc]. run.
  rewrite Hyc. run. cbn [tcolor addr]. rewrite decide_True by done.
  destruct (st_color_frame _ _ _ BLACK _ _ Hz) as (T1 & E1 & Z1 & K1).
  cbn [ctx0 up]. rewrite E1. run.
  destruct (st_color_uncle _ _ _ _ _ _ _ _ _ _ _ _ _ BLACK _ _ Z1) as (T2 & E2 & Z2 & K2). rewrite E2. run.
  rewrite (zip_gp _ _ _ _ _ _ Z2 Hne). run. 
  destruct (st_color_frame2 _ _ _ _ RED _ _ Z2) as (T3 & E3 & Z3 & K3). rewrite E3. run.
  rewrite (zip_gp _ _ _ _ _ _ Z3 Hne). run. cbn [fcol fr_addr].
  exists T3, ctx, (Bin g RED gk gv (plug1 (fcol f BLACK) t) (Bin y BLACK yk yv yl yr)).
  split; [done |]. split; [split |].
  - apply zip_out, zip_out in Z3. exact Z3.
  - assert (Hpc : pc = RED) by (rewrite <- Hc; symmetry; by eapply cx_pcolor). subst pc.
    pose proof (rb_fcol_black _ _ _ _ Hcx Hrb) as Hb.
    assert (Hg : exists c, cx ctx c (S n) /\ rb (Bin y BLACK yk yv yl yr) BLACK (S n)).
    { inversion Hcx; subst;
        (match goal with H : cx (InLeft g BLACK _ _ _ :: _) _ _ |- _ => inversion H; subst end);
        (match goal with H : rb (Bin y RED _ _ _ _) _ _ |- _ => inversion H; subst end); eauto with lidis. }
    destruct Hg as (c & Hcc & Hu). exists c, (S n). split; [done |]. by constructor.
  - split; [| split].
    + unfold ctx0. rewrite !plug_cons. apply inorder_plug_eq. cbn. by rewrite inorder_fcol.
    + assert (Hs : fr_addr f ∈ zaddrs ctx0 t /\ y ∈ zaddrs ctx0 t /\ g ∈ zaddrs ctx0 t).
      { unfold zaddrs, ctx0. destruct f; cbn; set_solver. }
      destruct Hs as (Hs1 & Hs2 & Hs3).
      eapply keeps_step; [eapply keeps_step; [eapply keeps_sub; [exact K1 |] | exact K2 |] | exact K3 |]; set_solver.
    + right. cbn. lia.
Qed.

(** The last step of the black cases: the parent becomes black, the
    grandparent red, and the grandparent is rotated. *)
Lemma insert_left_rotate T nl p pk pv s g gk gv u ctx t n :
  let ctx0 := InLeft p RED pk pv s :: InLeft g BLACK gk gv u :: ctx in
  zip T nl ctx0 t -> cx ctx0 RED n -> rb t RED n -> tcolor u = BLACK ->
  ins_step T nl ctx0 t
    (zp ← ld_parent T (addr nl t); T ← st_color T zp BLACK;
     zpp ← grandparent T (addr nl t); T ← st_color T zpp RED;
     zpp ← grandparent T (addr nl t); T ← rbtree_right_rotate T zpp; Ok (T, addr nl t)).
Proof.
  intros ctx0 Hz Hcx Hrb Hu. assert (Hne : t <> Leaf) by (intros ->; by inversion Hrb).
  rewrite (ld_parent_focus _ _ _ _ Hz Hne). run.
  destruct (st_color_frame _ _ _ BLACK _ _ Hz) as (T1 & E1 & Z1 & K1).
  cbn [ctx0 up]. rewrite E1. run.
  rewrite (zip_gp _ _ _ _ _ _ Z1 Hne). run.
  destruct (st_color_frame2 _ _ _ _ RED _ _ Z1) as (T2 & E2 & Z2 & K2). rewrite E2. run.
  rewrite (zip_gp _ _ _ _ _ _ Z2 Hne). run. cbn [fcol fr_addr] in *.
  pose proof Z2 as Z2'. apply zip_out, zip_out in Z2'. cbn in Z2'.
  destruct (zip_right_rotate _ _ _ _ _ _ _ _ _ _ _ _ _ _ Z2') as (T3 & E3 & Z3 & K3). rewrite E3. run.
  exists T3, (InLeft p BLACK pk pv (Bin g RED gk gv s u) :: ctx), t.
  split; [done |]. split; [split |].
  - by apply zip_up.
  - exists BLACK, n. split; [| done]. inversion Hcx as [| ? ? ? ? ? ? Hg Hgn Hs | | |]; subst.
    inversion Hg as [| | | ? ? ? ? cs ? c ? Hcc Hub |]; subst.
    rewrite (rb_color _ _ _ Hub) in Hu. subst. econstructor; [exact Hcc |]. by constructor.
  - split; [| split].
    + unfold ctx0. rewrite !plug_cons. apply inorder_plug_eq. inord.
    + eapply keeps_step; [eapply keeps_step; [eapply keeps_sub; [exact K1 |] | exact K2 |] | exact K3 |];
        unfold zaddrs, ctx0; cbn; set_solver.
    + by left.
Qed.

(** The uncle is black. *)
Lemma insert_left_black T nl f g gk gv u ctx t :
  let ctx0 := f :: InLeft g BLACK gk gv u :: ctx in
  ins_inv T nl ctx0 t -> pcolor ctx0 = RED -> tcolor u = BLACK ->
  ins_step T nl ctx0 t (insert_fixup_left T (addr nl t)).
Proof.
  intros ctx0 [Hz (pc & n & Hcx & Hrb)] Hc Hu.
  assert (Hpc : pc = RED) by (rewrite <- Hc; symmetry; by eapply cx_pcolor). subst pc.
  assert (Hne : t <> Leaf) by (intros ->; by inversion Hrb).
  unfold insert_fixup_left. rewrite (ld_parent_focus _ _ _ _ Hz Hne). run.
  rewrite (zip_gp _ _ _ _ _ _ Hz Hne). run. cbn [fr_addr]. destruct (ld_uncle _ _ _ _ _ _ _ _ _ _ Hz) as [-> Hyc]. run.
  rewrite Hyc, Hu. run. rewrite decide_False by done. cbn [ctx0 up].
  destruct f as [p fc pk pv s | p fc pk pv s]; cbn in Hc; subst fc; cbn [fr_addr].
  - pose proof Hz as Hzp. apply zip_out in Hzp. cbn in Hzp.
    destruct (zip_children _ _ _ _ _ _ _ _ _ Hzp) as (_ & -> & _). run.
    rewrite (proj2 (Z.eqb_neq _ _)) by (eapply zip_distinct; [exact Hzp | by left]). run.
    by eapply insert_left_rotate.
  - pose proof Hz as Hzp. apply zip_out in Hzp. cbn in Hzp.
    destruct (zip_children _ _ _ _ _ _ _ _ _ Hzp) as (_ & -> & _). run. rewrite Z.eqb_refl.
    destruct (rb_red_inv _ _ Hrb) as (z & zk & zv & zl & zr & -> & Hzl & Hzr).
    destruct (zip_left_rotate _ _ _ _ _ _ _ _ _ _ _ _ _ _ Hzp) as (T1 & E1 & Z1 & K1). rewrite E1. run.
    apply (zip_move _ _ _ _ (InLeft z RED zk zv zr :: InLeft g BLACK gk gv u :: ctx) (Bin p RED pk pv s zl)) in Z1; [| done].
    inversion Hcx as [| | ? ? ? ? ? ? Hg Hgn Hs | |]; subst.
    destruct (insert_left_rotate T1 nl z zk zv zr g gk gv u ctx (Bin p RED pk pv s zl) n Z1)
      as (T' & ctx' & t' & He & Hi & Hin & Hk & Hl).
    { by constructor. } { by constructor. } { done. }
    exists T', ctx', t'. split; [exact He |]. split; [done |]. split; [| split; [| done]].
    + rewrite Hin. unfold ctx0. rewrite !plug_cons. apply inorder_plug_eq. inord.
    + eapply keeps_step; [eapply keeps_sub; [exact K1 |] | exact Hk |]; unfold zaddrs, ctx0; cbn; set_solver.
Qed.

(** *** The mirror images *)

Lemma mir_zaddrs ctx t : zaddrs (mir_ctx ctx) (mir_tree t) ≡ₚ zaddrs ctx t.
Proof. unfold zaddrs. by rewrite mir_taddrs, mir_caddrs. Qed.

Lemma mir_pcolor ctx : pcolor (mir_ctx ctx) = pcolor ctx.
Proof. by destruct ctx as [| [] ctx]. Qed.

Lemma mir_inorder_plug ctx t ctx' t' :
  inorder (plug (mir_ctx ctx) (mir_tree t)) = inorder (plug (mir_ctx ctx') (mir_tree t')) ->
  inorder (plug ctx t) = inorder (plug ctx' t').
Proof. rewrite <- !mir_plug, !mir_inorder. intros He. by apply (inj reverse) in He. Qed.

Lemma mir_keeps_z T T' ctx t :
  keeps (mir T) T' (zaddrs (mir_ctx ctx) (mir_tree t)) -> keeps T (mir T') (zaddrs ctx t).
Proof. intros Hk. apply mir_keeps. eapply keeps_sub; [exact Hk |]. intros x. by rewrite mir_zaddrs. Qed.

Lemma mir_ins_inv T nl ctx t : ins_inv T nl ctx t -> ins_inv (mir T) nl (mir_ctx ctx) (mir_tree t).
Proof.
  intros [Hz (pc & n & Hcx & Hrb)]. split; [by apply mir_zip |]. exists pc, n.
  split; [by apply mir_cx | by apply mir_rb].
Qed.

Lemma mir_pair_ok r T z : Ok (T, z) = res_map mir_pair r -> r = Ok (mir T, z).
Proof. destruct r as [[T' z'] | |]; cbn; [| done | done]. intros [= -> ->]. by rewrite mir_inv. Qed.

Lemma ins_step_mir T nl ctx t r :
  ins_step (mir T) nl (mir_ctx ctx) (mir_tree t) (res_map mir_pair r) -> ins_step T nl ctx t r.
Proof.
  intros (T' & ctx' & t' & He & Hi & Hin & Hk & Hl). symmetry in He. apply mir_pair_ok in He.
  exists (mir T'), (mir_ctx ctx'), (mir_tree t'). split; [by rewrite mir_addr |].
  split; [by apply mir_ins_inv |]. split; [| split].
  - apply mir_inorder_plug. by rewrite mir_ctx_inv, mir_tree_inv.
  - by apply mir_keeps_z.
  - rewrite mir_pcolor, length_fmap. by rewrite length_fmap in Hl.
Qed.

(** *** The loop *)

Lemma insert_left_spec T nl f g gk gv u ctx t :
  let ctx0 := f :: InLeft g BLACK gk gv u :: ctx in
  ins_inv T nl ctx0 t -> pcolor ctx0 = RED -> ins_step T nl ctx0 t (insert_fixup_left T (addr nl t)).
Proof.
  intros ctx0 Hi Hc. destruct u as [| y [] yk yv yl yr].
  - by apply insert_left_black.
  - by apply insert_left_red.
  - by apply insert_left_black.
Qed.

Lemma insert_right_spec T nl f g gk gv u ctx t :
  let ctx0 := f :: InRight g BLACK gk gv u :: ctx in
  ins_inv T nl ctx0 t -> pcolor ctx0 = RED -> ins_step T nl ctx0 t (insert_fixup_right T (addr nl t)).
Proof.
  intros ctx0 Hi Hc. apply ins_step_mir. rewrite <- mir_insert_fixup, <- (mir_addr nl t).
  unfold ctx0. rewrite !fmap_cons. cbn [mir_frame].
  apply insert_left_spec; [by apply mir_ins_inv in Hi |]. by destruct f.
Qed.

Lemma insert_body_spec T nl ctx t :
  ins_inv T nl ctx t -> pcolor ctx = RED -> ins_step T nl ctx t (insert_fixup_body T (addr nl t)).
Proof.
  intros Hi Hc. pose proof Hi as [Hz (pc & n & Hcx & Hrb)].
  assert (Hne : t <> Leaf) by (intros ->; by inversion Hrb).
  rewrite (cx_pcolor _ _ _ Hcx) in Hc. subst pc.
  assert (Hshape : exists f g gk gv u ctx',
    ctx = f :: InLeft g BLACK gk gv u :: ctx' \/ ctx = f :: InRight g BLACK gk gv u :: ctx').
  { inversion Hcx as [| ? ? ? ? ctx1 ? Hc1 Hn1 | ? ? ? ? ctx1 ? Hc1 Hn1 | |]; subst; inversion Hc1; subst; eauto 10; done. }
  destruct Hshape as (f & g & gk & gv & u & ctx' & Hshape).
  pose proof (cx_pcolor _ _ _ Hcx) as Hc. unfold insert_fixup_body. rewrite (ld_parent_focus _ _ _ _ Hz Hne). run.
  destruct Hshape as [-> | ->]; rewrite (zip_gp _ _ _ _ _ _ Hz Hne); run; cbn [fr_addr up];
    pose proof Hz as Hzg; apply zip_out, zip_out in Hzg; cbn [plug1] in Hzg;
    destruct (zip_children _ _ _ _ _ _ _ _ _ Hzg) as (-> & _ & _); run.
  - replace (addr nl (plug1 f t)) with (fr_addr f) by (by destruct f). rewrite Z.eqb_refl.
    by apply insert_left_spec.
  - rewrite (proj2 (Z.eqb_neq _ _)); [by apply insert_right_spec |].
    replace (fr_addr f) with (addr nl (plug1 f t)) by (by destruct f).
    intros He. symmetry in He. revert He. eapply zip_distinct; [exact Hzg |]. right. by destruct f.
Qed.

Lemma inorder_blacken t : inorder (blacken t) = inorder t.
Proof. by destruct t. Qed.

(** The last store of the loop. *)
Lemma blacken_root T nl ctx t c n pc :
  zip T nl ctx t -> t <> Leaf -> cx ctx pc n -> rb t c n -> (c = RED -> pc = BLACK) ->
  exists T', st_color T (root T) BLACK = Ok T' /\ zip T' nl [] (blacken (plug ctx t)) /\
    rbt (blacken (plug ctx t)) /\ keeps T T' (zaddrs ctx t).
Proof.
  intros Hz Hne Hcx Hrb Hred. pose proof (z_root _ _ _ _ Hz) as Hr.
  assert (Hrbt : rbt (blacken (plug ctx t))).
  { destruct ctx as [| f ctx]; [by eapply rb_blacken |].
    destruct (cx_plug _ _ _ _ _ Hcx Hrb) as [m Hm]; [intros ?; split; [by apply Hred | done] |].
    eapply rb_blacken. exact Hm. }
  pose proof Hz as Hz'. apply (zip_top T nl ctx t) in Hz'.
  destruct (plug ctx t) as [| a c' k v l r] eqn:Hp.
  { exfalso. apply Hne. destruct ctx as [| f ctx]; [done |]. exfalso. clear - Hp.
    rewrite plug_cons in Hp. assert (Hb : plug1 f t <> Leaf) by (by destruct f).
    revert Hp Hb. generalize (plug1 f t). induction ctx as [| g ctx IH]; intros u Hp Hb; [done |].
    rewrite plug_cons in Hp. apply (IH _ Hp). by destruct g. }
  destruct (zip_st_color _ _ _ _ _ BLACK _ _ _ _ Hz') as (T' & He & Hz2 & Hk).
  exists T'. cbn in Hr. rewrite Hr. repeat (split; [done |]). eapply keeps_sub; [exact Hk |].
  assert (Ha : a ∈ zaddrs ctx t); [| set_solver].
  unfold zaddrs. rewrite zip_addrs, Hp, <- taddrs_inorder. cbn. set_solver.
Qed.

Lemma insert_fixup_spec fuel T nl ctx t :
  ins_inv T nl ctx t -> pcolor ctx = BLACK \/ (length ctx <= fuel)%nat ->
  exists T' t', rbtree_insert_fixup fuel T (addr nl t) = Ok T' /\ zip T' nl [] t' /\ rbt t' /\
    inorder t' = inorder (plug ctx t) /\ keeps T T' (zaddrs ctx t).
Proof.
  revert T ctx t. induction fuel as [fuel IH] using lt_wf_ind. intros T ctx t Hi Hf.
  pose proof Hi as [Hz (pc & n & Hcx & Hrb)].
  assert (Hne : t <> Leaf) by (intros ->; by inversion Hrb).
  assert (Hstep : rbtree_insert_fixup fuel T (addr nl t) = if decide (pcolor ctx = RED) then
      match fuel with
      | O => NoFuel
      | S fuel' => '(T, z) ← insert_fixup_body T (addr nl t); rbtree_insert_fixup fuel' T z
      end
    else st_color T (root T) BLACK).
  { destruct fuel; cbn [rbtree_insert_fixup]; rewrite (ld_parent_focus _ _ _ _ Hz Hne); run;
      rewrite (zip_pcolor _ _ _ _ Hz); done. }
  rewrite Hstep. destruct (decide (pcolor ctx = RED)) as [Hc | Hc].
  - destruct Hf as [Hf | Hf]; [congruence |]. destruct fuel as [| fuel].
    { destruct ctx; [done | cbn in Hf; lia]. }
    destruct (insert_body_spec _ _ _ _ Hi Hc) as (T1 & ctx1 & t1 & -> & Hi1 & Hin & Hk & Hl). run.
    destruct (IH fuel ltac:(lia) T1 ctx1 t1 Hi1) as (T' & t' & He & Hz' & Hr' & Hin' & Hk').
    { destruct Hl as [? | ?]; [by left | right; lia]. }
    exists T', t'. split; [done |]. split; [done |]. split; [done |]. split; [congruence |].
    eapply keeps_step; [exact Hk | exact Hk' |]. intros x. by rewrite (zaddrs_plug _ _ _ _ Hin).
  - destruct (blacken_root T nl ctx t RED n pc Hz Hne Hcx Hrb) as (T' & -> & Hz' & Hr' & Hk').
    { intros _. rewrite (cx_pcolor _ _ _ Hcx) in Hc. by destruct pc. }
    exists T', (blacken (plug ctx t)). by rewrite inorder_blacken.
Qed.

(** ** Deletion *)

(** The focus lacks one unit of black height: it is black, or it is red and
    may have red children. *)
Definition bal (t : tree) (n : nat) : Prop :=
  rb t BLACK n \/ exists a k v l r cl cr, t = Bin a RED k v l r /\ rb l cl n /\ rb r cr n.

(** The parent field of the focus is right also when the focus is the
    sentinel. *)
Definition del_inv (T : rbtree) (nl : Z) (ctx : list frame) (t : tree) : Prop :=
  zip T nl ctx t /\ ld_parent T (addr nl t) = Ok (up nl ctx) /\
  exists pc n, cx ctx pc (S n) /\ bal t n.

Definition del_step (T : rbtree) (nl : Z) (ctx : list frame) (t : tree) (fin : list frame -> tree -> Prop)
    (r : res (rbtree * Z)) : Prop :=
  exists T' ctx' t', r = Ok (T', addr nl t') /\ del_inv T' nl ctx' t' /\
    inorder (plug ctx' t') = inorder (plug ctx t) /\ keeps T T' (zaddrs ctx t) /\ fin ctx' t'.

Lemma zip_nl_fresh T nl ctx t : zip T nl ctx t -> nl ∉ zaddrs ctx t.
Proof. intros Hz. pose proof (z_nodup _ _ _ _ Hz) as Hd. by apply NoDup_cons in Hd as [Hd _]. Qed.

Lemma ldp_keep T T' nl ctx ctx' t S :
  zip T' nl ctx' t -> keeps T T' S -> nl ∉ S -> ld_parent T (addr nl t) = Ok (up nl ctx) ->
  up nl ctx' = up nl ctx -> ld_parent T' (addr nl t) = Ok (up nl ctx').
Proof.
  intros Hz Hk Hn Hp Hu. destruct t as [| a c k v l r].
  - rewrite Hu. cbn in *. unfold ld_parent, ld in *. by rewrite (Hk nl Hn).
  - by apply (ld_parent_focus _ _ _ _ Hz).
Qed.

(** Reading the right sibling of the focus. *)
Lemma ld_sib T nl p pc pk pv s ctx t :
  zip T nl (InLeft p pc pk pv s :: ctx) t ->
  ld_right T p = Ok (addr nl s) /\ ld_color T (addr nl s) = Ok (tcolor s) /\ ld_color T p = Ok pc.
Proof.
  intros Hz. apply zip_out in Hz. cbn in Hz.
  destruct (zip_children _ _ _ _ _ _ _ _ _ Hz) as (_ & Hr & Hc).
  destruct (zip_child_color _ _ _ _ _ _ _ _ _ Hz) as [_ Hs]. done.
Qed.

(** The view from the right sibling. *)
Lemma zip_sib T nl p pc pk pv s ctx t :
  zip T nl (InLeft p pc pk pv s :: ctx) t <-> zip T nl (InRight p pc pk pv t :: ctx) s.
Proof. split; apply zip_move; done. Qed.

(** Black heights around a focus that lacks one unit, with a black sibling. *)
Lemma cx_sib_black p pc pk pv w wk wv wl wr ctx c n :
  cx (InLeft p pc pk pv (Bin w BLACK wk wv wl wr) :: ctx) c (S n) ->
  exists cl cr, rb wl cl n /\ rb wr cr n /\
    ((pc = RED /\ cx ctx BLACK (S n) /\ ctx <> []) \/ (pc = BLACK /\ exists c', cx ctx c' (S (S n)))).
Proof.
  inversion 1 as [| ? ? ? ? ? ? Hc Hn Hs | | ? ? ? ? cs ? c' ? Hc Hs |]; subst; inversion Hs; subst; eauto 10.
Qed.

(** The rotation that ends the loop: the right child of the sibling is red. *)
Lemma delete_left_finish T nl p pc pk pv w wk wv wl r rk rv rl rr ctx t c n :
  let ctx0 := InLeft p pc pk pv (Bin w BLACK wk wv wl (Bin r RED rk rv rl rr)) :: ctx in
  zip T nl ctx0 t -> ld_parent T (addr nl t) = Ok p -> cx ctx0 c (S n) -> rb t BLACK n ->
  del_step T nl ctx0 t (fun ctx' _ => ctx' = [])
    (xp ← ld_parent T (addr nl t); xpc ← ld_color T xp; T ← st_color T w xpc;
     xp ← ld_parent T (addr nl t); T ← st_color T xp BLACK;
     wr ← ld_right T w; T ← st_color T wr BLACK;
     xp ← ld_parent T (addr nl t); T ← rbtree_left_rotate T xp; Ok (T, root T)).
Proof.
  intros ctx0 Hz Hp Hcx Hrb. pose proof (zip_nl_fresh _ _ _ _ Hz) as Hnl. rewrite Hp. run.
  destruct (ld_sib _ _ _ _ _ _ _ _ _ Hz) as (_ & _ & ->). run.
  destruct (st_color_sib _ _ _ _ _ _ _ _ _ _ _ _ pc _ _ Hz) as (T1 & -> & Z1 & K1). run.
  assert (Hin : forall q, q ∈ [w; p; r] -> q ∈ zaddrs ctx0 t) by (unfold zaddrs, ctx0; cbn; set_solver).
  assert (Kw : keeps T T1 (zaddrs ctx0 t)) by (eapply keeps_sub; [exact K1 | set_solver]).
  rewrite (ldp_keep _ _ _ ctx0 _ _ _ Z1 Kw Hnl Hp eq_refl). run.
  destruct (st_color_frame _ _ _ BLACK _ _ Z1) as (T2 & E2 & Z2 & K2). cbn [up fr_addr fcol] in *. rewrite E2. run.
  assert (Kp : keeps T T2 (zaddrs ctx0 t)) by (eapply keeps_step; [exact Kw | exact K2 | set_solver]).
  apply zip_sib in Z2. destruct (zip_children _ _ _ _ _ _ _ _ _ Z2) as (_ & -> & _). run. cbn [addr].
  apply (zip_move _ _ _ _ (InRight w pc wk wv wl :: InRight p BLACK pk pv t :: ctx) (Bin r RED rk rv rl rr)) in Z2; [| done].
  destruct (zip_st_color _ _ _ _ _ BLACK _ _ _ _ Z2) as (T3 & -> & Z3 & K3). run.
  apply (zip_move _ _ _ _ (InLeft p BLACK pk pv (Bin w pc wk wv wl (Bin r BLACK rk rv rl rr)) :: ctx) t) in Z3; [| done].
  assert (Kr : keeps T T3 (zaddrs ctx0 t)) by (eapply keeps_step; [exact Kp | exact K3 | set_solver]).
  rewrite (ldp_keep _ _ _ ctx0 _ _ _ Z3 Kr Hnl Hp eq_refl). run. cbn [up fr_addr].
  apply zip_out in Z3. cbn [plug1] in Z3.
  destruct (zip_left_rotate _ _ _ _ _ _ _ _ _ _ _ _ _ _ Z3) as (T4 & -> & Z4 & K4). run.
  assert (Kf : keeps T T4 (zaddrs ctx0 t)).
  { eapply keeps_step; [exact Kr | exact K4 |]. unfold zaddrs, ctx0. cbn. set_solver. }
  destruct (cx_sib_black _ _ _ _ _ _ _ _ _ _ _ _ Hcx) as (cl & cr & Hl & Hr & Hc). inversion Hr; subst.
  set (t4 := Bin w pc wk wv (Bin p BLACK pk pv t wl) (Bin r BLACK rk rv rl rr)) in *.
  assert (Hw : exists m, rb (plug ctx t4) BLACK m).
  { destruct Hc as [(-> & Hc & Hne) | (-> & c' & Hc)].
    - eapply (cx_plug _ _ _ _ RED); [exact Hc | by repeat econstructor | done].
    - eapply (cx_plug _ _ _ _ BLACK); [exact Hc | by repeat econstructor | done]. }
  apply (zip_top T4 nl ctx t4) in Z4. destruct Hw as [m Hm].
  assert (Hne : plug ctx t4 <> Leaf).
  { intros He. pose proof (zip_addrs ctx t4) as Ha. rewrite He in Ha. cbn in Ha.
    apply Permutation_nil_r in Ha. done. }
  exists T4, [], (plug ctx t4). split; [by rewrite (z_root _ _ _ _ Z4) |]. split; [split; [done | split] |].
  - by apply (ld_parent_focus _ _ _ _ Z4).
  - exists BLACK, m. split; [constructor | by left].
  - split; [| done]. cbn [plug]. unfold ctx0. rewrite plug_nil, plug_cons. apply inorder_plug_eq. unfold t4. inord.
Qed.

(** A black sibling. *)
Lemma delete_left_rest_spec T nl p pc pk pv w wk wv wl wr ctx t c n :
  let ctx0 := InLeft p pc pk pv (Bin w BLACK wk wv wl wr) :: ctx in
  zip T nl ctx0 t -> ld_parent T (addr nl t) = Ok p -> cx ctx0 c (S n) -> rb t BLACK n ->
  del_step T nl ctx0 t (fun ctx' t' => ctx' = [] \/ ctx' = ctx /\ tcolor t' = pc)
    (delete_fixup_left_rest T (addr nl t) w).
Proof.
  intros ctx0 Hz Hp Hcx Hrb. pose proof (zip_nl_fresh _ _ _ _ Hz) as Hnl. unfold delete_fixup_left_rest.
  pose proof Hz as Hzw. apply zip_sib in Hzw.
  destruct (zip_children _ _ _ _ _ _ _ _ _ Hzw) as (Hl1 & Hr1 & _).
  destruct (zip_child_color _ _ _ _ _ _ _ _ _ Hzw) as [Hl2 Hr2].
  rewrite Hl1. run. rewrite Hl2. run. rewrite Hr1. run. rewrite Hr2. run.
  destruct (cx_sib_black _ _ _ _ _ _ _ _ _ _ _ _ Hcx) as (cl & cr & Hl & Hr & Hc).
  destruct (decide (tcolor wl = BLACK /\ tcolor wr = BLACK)) as [[Hbl Hbr] | Hnb].
  - rewrite (rb_color _ _ _ Hl) in Hbl. rewrite (rb_color _ _ _ Hr) in Hbr. subst cl cr.
    destruct (st_color_sib _ _ _ _ _ _ _ _ _ _ _ _ RED _ _ Hz) as (T1 & -> & Z1 & K1). run.
    assert (Kw : keeps T T1 (zaddrs ctx0 t)).
    { eapply keeps_sub; [exact K1 |]. unfold zaddrs, ctx0. cbn. set_solver. }
    rewrite (ldp_keep _ _ _ ctx0 _ _ _ Z1 Kw Hnl Hp eq_refl). run. cbn [up fr_addr].
    apply zip_out in Z1. cbn [plug1] in Z1.
    exists T1, ctx, (Bin p pc pk pv t (Bin w RED wk wv wl wr)). split; [done |]. split; [split; [done | split] |].
    + by apply (ld_parent_focus _ _ _ _ Z1).
    + destruct Hc as [(-> & Hc & Hne) | (-> & c' & Hc)].
      * exists BLACK, n. split; [done |]. right. eexists _, _, _, _, _, _, _. split; [done |].
        split; [exact Hrb |]. by constructor.
      * exists c', (S n). split; [done |]. left. econstructor; [exact Hrb |]. by constructor.
    + split; [by unfold ctx0; rewrite plug_cons; apply inorder_plug_eq |]. split; [done |]. by right.
  - assert (Hfin : forall f, del_step T nl ctx0 t (fun ctx' _ => ctx' = []) f ->
      del_step T nl ctx0 t (fun ctx' t' => ctx' = [] \/ ctx' = ctx /\ tcolor t' = pc) f).
    { intros f (T' & ctx' & t' & ? & ? & ? & ? & ->). exists T', [], t'. auto 10. }
    apply Hfin. destruct (decide (tcolor wr = BLACK)) as [Hbr | Hbr].
    + assert (Hred : tcolor wl = RED) by (destruct (tcolor wl); [done | tauto]).
      destruct wl as [| y yc yk yv ya yb]; [done |]. cbn in Hred. subst yc. cbn [addr].
      apply (zip_move _ _ _ _ (InLeft w BLACK wk wv wr :: InRight p pc pk pv t :: ctx) (Bin y RED yk yv ya yb)) in Hzw; [| done].
      destruct (zip_st_color _ _ _ _ _ BLACK _ _ _ _ Hzw) as (T1 & -> & Z1 & K1). run.
      destruct (st_color_frame _ _ _ RED _ _ Z1) as (T2 & E2 & Z2 & K2). cbn [fr_addr fcol] in *. rewrite E2. run.
      apply zip_out in Z2. cbn [plug1] in Z2.
      destruct (zip_right_rotate _ _ _ _ _ _ _ _ _ _ _ _ _ _ Z2) as (T3 & -> & Z3 & K3). run.
      apply zip_sib in Z3.
      assert (K : keeps T T3 (zaddrs ctx0 t)).
      { eapply keeps_step; [eapply keeps_step; [eapply keeps_sub; [exact K1 |] | exact K2 |] | exact K3 |];
          unfold zaddrs, ctx0; cbn; set_solver. }
      pose proof (ldp_keep _ _ _ ctx0 _ _ _ Z3 K Hnl Hp eq_refl) as Hp3. cbn [up fr_addr] in Hp3.
      rewrite Hp3. run. destruct (ld_sib _ _ _ _ _ _ _ _ _ Z3) as (-> & _ & _). run. cbn [addr].
      inversion Hl; subst.
      destruct (delete_left_finish T3 nl p pc pk pv y yk yv ya w wk wv yb wr ctx t c n Z3 Hp3)
        as (T' & ctx' & t' & He & Hi & Hin & Hk & Hf).
      { destruct Hc as [(-> & Hc & Hne) | (-> & c' & Hc)].
        - pose proof (cx_pcolor _ _ _ Hcx) as Hcc. cbn in Hcc. subst c. constructor; [done | done |].
          rewrite (rb_color _ _ _ Hr) in Hbr. subst. by repeat econstructor.
        - pose proof (cx_pcolor _ _ _ Hcx) as Hcc. cbn in Hcc. subst c. econstructor; [exact Hc |].
          rewrite (rb_color _ _ _ Hr) in Hbr. subst. by repeat econstructor. }
      { done. }
      exists T', ctx', t'. split; [exact He |]. split; [done |]. split; [| split; [| done]].
      * rewrite Hin. unfold ctx0. rewrite !plug_cons. apply inorder_plug_eq. inord.
      * eapply keeps_step; [exact K | exact Hk |]. unfold zaddrs, ctx0. cbn. set_solver.
    + destruct wr as [| r rc rk rv rl rr]; [done |]. cbn in Hbr. destruct rc; [| done].
      run. by eapply delete_left_finish.
Qed.

(** How an iteration brings the loop closer to its end. *)
Definition del_progress (ctx : list frame) (ctx' : list frame) (t' : tree) : Prop :=
  ctx' = [] \/ tcolor t' = RED \/ (length ctx' < length ctx)%nat.

Lemma bal_black t n : bal t n -> tcolor t = BLACK -> rb t BLACK n.
Proof. intros [Hb | (a & k & v & l & r & cl & cr & -> & _)] Hc; [done | by cbn in Hc]. Qed.

(** A red sibling is rotated away first. *)
Lemma delete_left_red T nl p pc pk pv w wk wv wl wr ctx t :
  let ctx0 := InLeft p pc pk pv (Bin w RED wk wv wl wr) :: ctx in
  del_inv T nl ctx0 t -> tcolor t = BLACK ->
  del_step T nl ctx0 t (del_progress ctx0) (delete_fixup_left T (addr nl t)).
Proof.
  intros ctx0 (Hz & Hp & c & n & Hcx & Hb) Hc. apply bal_black in Hb; [| done].
  pose proof (zip_nl_fresh _ _ _ _ Hz) as Hnl. cbn [up fr_addr ctx0] in Hp.
  inversion Hcx as [| ? ? ? ? ? ? Hcc Hn Hs | | ? ? ? ? cs ? c' ? Hcc Hs |]; subst; inversion Hs; subst.
  match goal with H1 : rb wl BLACK _, H2 : rb wr BLACK _ |- _ => rename H1 into Hwl, H2 into Hwr end.
  destruct (rb_nonleaf _ _ _ Hwl) as (y & yk & yv & ya & yb & ->).
  unfold delete_fixup_left. rewrite Hp. run. destruct (ld_sib _ _ _ _ _ _ _ _ _ Hz) as (-> & Hwc & _). run.
  rewrite Hwc. run. cbn [tcolor addr]. rewrite decide_True by done.
  destruct (st_color_sib _ _ _ _ _ _ _ _ _ _ _ _ BLACK _ _ Hz) as (T1 & -> & Z1 & K1). run.
  assert (Hin : forall q, q ∈ [w; p] -> q ∈ zaddrs ctx0 t) by (unfold zaddrs, ctx0; cbn; set_solver).
  assert (Kw : keeps T T1 (zaddrs ctx0 t)) by (eapply keeps_sub; [exact K1 | set_solver]).
  rewrite (ldp_keep _ _ _ ctx0 _ _ _ Z1 Kw Hnl Hp eq_refl). run.
  destruct (st_color_frame _ _ _ RED _ _ Z1) as (T2 & E2 & Z2 & K2). cbn [up fr_addr fcol] in *. rewrite E2. run.
  assert (Kp : keeps T T2 (zaddrs ctx0 t)) by (eapply keeps_step; [exact Kw | exact K2 | set_solver]).
  rewrite (ldp_keep _ _ _ ctx0 _ _ _ Z2 Kp Hnl Hp eq_refl). run. cbn [up fr_addr].
  apply zip_out in Z2. cbn [plug1] in Z2.
  destruct (zip_left_rotate _ _ _ _ _ _ _ _ _ _ _ _ _ _ Z2) as (T3 & -> & Z3 & K3). run.
  apply (zip_move _ _ _ _ (InLeft p RED pk pv (Bin y BLACK yk yv ya yb) :: InLeft w BLACK wk wv wr :: ctx) t) in Z3; [| done].
  assert (K : keeps T T3 (zaddrs ctx0 t)).
  { eapply keeps_step; [exact Kp | exact K3 |]. unfold zaddrs, ctx0. cbn. set_solver. }
  pose proof (ldp_keep _ _ _ ctx0 _ _ _ Z3 K Hnl Hp eq_refl) as Hp3. cbn [up fr_addr] in Hp3. rewrite Hp3. run.
  destruct (ld_sib _ _ _ _ _ _ _ _ _ Z3) as (-> & _ & _). run. cbn [addr].
  destruct (delete_left_rest_spec T3 nl p RED pk pv y yk yv ya yb (InLeft w BLACK wk wv wr :: ctx) t RED n Z3 Hp3)
    as (T' & ctx' & t' & He & Hi & Hio & Hk & Hf).
  { constructor; [by econstructor | done | done]. }
  { done. }
  exists T', ctx', t'. split; [exact He |]. split; [done |]. split; [| split].
  - rewrite Hio. unfold ctx0. rewrite !plug_cons. apply inorder_plug_eq. inord.
  - eapply keeps_step; [exact K | exact Hk |]. unfold zaddrs, ctx0. cbn. set_solver.
  - destruct Hf as [-> | [-> Ht]]; [by left | right; by left].
Qed.

Lemma delete_left_black T nl p pc pk pv w wk wv wl wr ctx t :
  let ctx0 := InLeft p pc pk pv (Bin w BLACK wk wv wl wr) :: ctx in
  del_inv T nl ctx0 t -> tcolor t = BLACK ->
  del_step T nl ctx0 t (del_progress ctx0) (delete_fixup_left T (addr nl t)).
Proof.
  intros ctx0 (Hz & Hp & c & n & Hcx & Hb) Hc. apply bal_black in Hb; [| done]. cbn [up fr_addr ctx0] in Hp.
  unfold delete_fixup_left. rewrite Hp. run. destruct (ld_sib _ _ _ _ _ _ _ _ _ Hz) as (-> & Hwc & _). run.
  rewrite Hwc. run. cbn [tcolor addr]. rewrite decide_False by done. run.
  destruct (delete_left_rest_spec T nl p pc pk pv w wk wv wl wr ctx t c n Hz Hp Hcx Hb)
    as (T' & ctx' & t' & He & Hi & Hio & Hk & Hf).
  exists T', ctx', t'. split; [exact He |]. split; [done |]. split; [done |]. split; [done |].
  destruct Hf as [-> | [-> Ht]]; [by left |]. right; right. cbn. lia.
Qed.

Lemma delete_left_spec T nl p pc pk pv s ctx t :
  let ctx0 := InLeft p pc pk pv s :: ctx in
  del_inv T nl ctx0 t -> tcolor t = BLACK ->
  del_step T nl ctx0 t (del_progress ctx0) (delete_fixup_left T (addr nl t)).
Proof.
  intros ctx0 Hi Hc. pose proof Hi as (_ & _ & c & n & Hcx & _).
  assert (Hs : exists w wc wk wv wl wr, s = Bin w wc wk wv wl wr).
  { inversion Hcx as [| ? ? ? ? ? ? ? ? Hs | | ? ? ? ? ? ? ? ? ? Hs |]; subst;
      destruct (rb_nonleaf _ _ _ Hs) as (? & ? & ? & ? & ? & ->); eauto 10. }
  destruct Hs as (w & [] & wk & wv & wl & wr & ->); [by apply delete_left_red | by apply delete_left_black].
Qed.

Lemma mir_del_inv T nl ctx t : del_inv T nl ctx t -> del_inv (mir T) nl (mir_ctx ctx) (mir_tree t).
Proof.
  intros (Hz & Hp & pc & n & Hcx & Hb). split; [by apply mir_zip |].
  split; [by rewrite mir_addr, mir_ld_parent, mir_up |]. exists pc, n. split; [by apply mir_cx |].
  destruct Hb as [Hb | (a & k & v & l & r & cl & cr & -> & Hl & Hr)]; [left; by apply mir_rb |].
  right. eexists _, _, _, _, _, cr, cl. cbn. split; [done |]. split; by apply mir_rb.
Qed.

Lemma mir_tcolor t : tcolor (mir_tree t) = tcolor t.
Proof. by destruct t. Qed.

Lemma delete_right_spec T nl p pc pk pv s ctx t :
  let ctx0 := InRight p pc pk pv s :: ctx in
  del_inv T nl ctx0 t -> tcolor t = BLACK ->
  del_step T nl ctx0 t (del_progress ctx0) (delete_fixup_right T (addr nl t)).
Proof.
  intros ctx0 Hi Hc. apply mir_del_inv in Hi.
  destruct (delete_left_spec (mir T) nl p pc pk pv (mir_tree s) (mir_ctx ctx) (mir_tree t) Hi)
    as (T' & ctx' & t' & He & Hi' & Hin & Hk & Hl); [by rewrite mir_tcolor |].
  rewrite mir_delete_fixup, mir_addr in He. symmetry in He. apply mir_pair_ok in He.
  exists (mir T'), (mir_ctx ctx'), (mir_tree t'). split; [by rewrite mir_addr |].
  split; [by apply mir_del_inv |]. split; [| split].
  - apply mir_inorder_plug. rewrite mir_ctx_inv, mir_tree_inv. exact Hin.
  - by apply (mir_keeps_z T T' ctx0 t).
  - unfold del_progress in *. rewrite mir_tcolor, length_fmap. cbn in Hl |- *. rewrite length_fmap in Hl.
    destruct Hl as [-> | ?]; [by left | by right].
Qed.

Lemma delete_body_spec T nl ctx t :
  del_inv T nl ctx t -> tcolor t = BLACK -> ctx <> [] ->
  del_step T nl ctx t (del_progress ctx) (delete_fixup_body T (addr nl t)).
Proof.
  intros Hi Hc Hne. pose proof Hi as (Hz & Hp & c & n & Hcx & Hb).
  destruct ctx as [| f ctx]; [done |]. unfold delete_fixup_body. rewrite Hp. run. cbn [up].
  pose proof Hz as Hzp. apply zip_out in Hzp.
  destruct f as [p pc pk pv s | p pc pk pv s]; cbn [plug1 fr_addr] in *;
    destruct (zip_children _ _ _ _ _ _ _ _ _ Hzp) as (-> & _ & _); run.
  - rewrite Z.eqb_refl. by apply delete_left_spec.
  - rewrite (proj2 (Z.eqb_neq _ _)); [by apply delete_right_spec |].
    intros He. symmetry in He. revert He. eapply zip_distinct; [exact Hzp |]. left. intros ->.
    inversion Hcx as [| | ? ? ? ? ? ? ? ? Hs | | ? ? ? ? ? ? ? ? ? Hs]; subst; inversion Hs.
Qed.

(** The last store of the loop. *)
Lemma delete_finish T nl ctx t :
  del_inv T nl ctx t -> ctx = [] \/ tcolor t = RED ->
  exists T', st_color T (addr nl t) BLACK = Ok T' /\ zip T' nl ctx (blacken t) /\
    rbt (plug ctx (blacken t)) /\ keeps T T' (zaddrs ctx t).
Proof.
  intros (Hz & Hp & pc & n & Hcx & Hb) Hc.
  assert (Hr : rbt (plug ctx (blacken t))).
  { destruct Hb as [Hb | (a & k & v & l & r & cl & cr & -> & Hl & Hrr)].
    - destruct Hc as [-> | Hc]; [by eapply rb_blacken | by rewrite (rb_color _ _ _ Hb) in Hc].
    - eapply (cx_plug _ _ _ _ BLACK); [exact Hcx | cbn; by econstructor | done]. }
  destruct t as [| a c k v l r].
  - destruct (z_sent _ _ _ _ Hz) as (s & Hs & Hcs). unfold st_color, st, ld. cbn. rewrite Hs. run.
    exists T. split; [| done]. f_equal. unfold with_node. destruct T as [rt n0 h]. cbn in *. f_equal.
    apply insert_id. rewrite Hs. f_equal. destruct s; cbn in *. by subst.
  - destruct (zip_st_color _ _ _ _ _ BLACK _ _ _ _ Hz) as (T' & He & Hz' & Hk). exists T'.
    repeat (split; [done |]). eapply keeps_sub; [exact Hk |]. unfold zaddrs. cbn. set_solver.
Qed.

Lemma delete_fixup_spec fuel T nl ctx t :
  del_inv T nl ctx t -> tcolor t = RED \/ (length ctx <= fuel)%nat ->
  exists T' t', rbtree_delete_fixup fuel T (addr nl t) = Ok T' /\ zip T' nl [] t' /\ rbt t' /\
    inorder t' = inorder (plug ctx t) /\ keeps T T' (zaddrs ctx t).
Proof.
  revert T ctx t. induction fuel as [fuel IH] using lt_wf_ind. intros T ctx t Hi Hf.
  pose proof Hi as (Hz & _ & _).
  assert (Hroot : addr nl t = root T <-> ctx = []).
  { rewrite (z_root _ _ _ _ Hz). split; [| by intros ->]. destruct ctx as [| f ctx]; [done |].
    intros He. exfalso. pose proof (z_nodup _ _ _ _ Hz) as Hd.
    assert (Hin : addr nl (plug (f :: ctx) t) ∈ caddrs (f :: ctx)).
    { clear. revert f t. induction ctx as [| g ctx IH]; intros f t.
      - destruct f; cbn; by left.
      - rewrite plug_cons. specialize (IH g (plug1 f t)). destruct f; cbn; set_solver. }
    rewrite <- He in Hin. apply NoDup_cons in Hd as [Hnl Hd]. apply NoDup_app in Hd as (_ & Hd & _).
    destruct (addr_in nl t) as [Ha | Ha]; [apply Hnl; rewrite Ha in Hin; set_solver | by apply (Hd _ Ha)]. }
  assert (Hstep : rbtree_delete_fixup fuel T (addr nl t) = if decide (ctx <> [] /\ tcolor t = BLACK) then
      match fuel with
      | O => NoFuel
      | S fuel' => '(T, x) ← delete_fixup_body T (addr nl t); rbtree_delete_fixup fuel' T x
      end
    else st_color T (addr nl t) BLACK).
  { destruct fuel; cbn [rbtree_delete_fixup]; rewrite (zip_color _ _ _ _ Hz); run;
      repeat case_decide; try done; tauto. }
  rewrite Hstep. destruct (decide (ctx <> [] /\ tcolor t = BLACK)) as [[Hne Hc] | Hn].
  - destruct Hf as [Hf | Hf]; [congruence |]. destruct fuel as [| fuel]; [destruct ctx; [done | cbn in Hf; lia] |].
    destruct (delete_body_spec _ _ _ _ Hi Hc Hne) as (T1 & ctx1 & t1 & -> & Hi1 & Hin & Hk & Hl). run.
    destruct (IH fuel ltac:(lia) T1 ctx1 t1 Hi1) as (T' & t' & He & Hz' & Hr' & Hin' & Hk').
    { destruct Hl as [-> | [? | ?]]; [right; cbn; lia | by left | right; lia]. }
    exists T', t'. split; [done |]. split; [done |]. split; [done |]. split; [congruence |].
    eapply keeps_step; [exact Hk | exact Hk' |]. intros x. by rewrite (zaddrs_plug _ _ _ _ Hin).
  - destruct (delete_finish T nl ctx t Hi) as (T' & -> & Hz' & Hr' & Hk').
    { destruct ctx; [by left |]. right. destruct (tcolor t); [done |]. exfalso. by apply Hn. }
    exists T', (plug ctx (blacken t)). split; [done |]. split; [by apply (zip_top T' nl ctx) |]. split; [done |].
    split; [| done]. by apply inorder_plug_eq, inorder_blacken.
Qed.
