(* ===== verification/RbFacts.v ===== *)
(** * RbFacts: search, insertion and deletion of the red-black tree *)

From S2P Require Import Prelude Alloc Engine Bag Rbtree RbTheory RbHeap RbMirror RbLoops.
From Stdlib Require Import Sorted.

(** ** Searching *)

(** The place a search for [k] reaches. *)
Fixpoint locate (k : list Z) (ctx : list frame) (t : tree) : list frame * tree :=
  match t with
  | Leaf => (ctx, Leaf)
  | Bin a c kb v l r =>
      if strcmp k (b_str kb) <? 0 then locate k (InLeft a c kb v r :: ctx) l
      else if 0 <? strcmp k (b_str kb) then locate k (InRight a c kb v l :: ctx) r
      else (ctx, t)
  end.

Lemma locate_plug k ctx t : plug (locate k ctx t).1 (locate k ctx t).2 = plug ctx t.
Proof.
  revert ctx. induction t as [| a c kb v l IHl r IHr]; intros ctx; cbn; [done |].
  destruct (_ <? 0); [by rewrite IHl |]. destruct (0 <? _); [by rewrite IHr |]. done.
Qed.

Lemma zip_key T nl ctx a c k v l r : zip T nl ctx (Bin a c k v l r) -> ld_key T a = Ok (b_str k).
Proof. intros Hz. destruct (zip_node _ _ _ _ _ _ _ _ _ Hz) as [Ha _]. unfold ld_key, ld. by rewrite Ha. Qed.

Lemma search_locate fuel T nl k ctx t :
  zip T nl ctx t -> (height t <= fuel)%nat ->
  search_loop fuel T k (addr nl t) = Ok (addr nl (locate k ctx t).2).
Proof.
  revert fuel ctx. induction t as [| a c kb v l IHl r IHr]; intros fuel ctx Hz Hf.
  - destruct fuel; cbn; by rewrite (z_nil _ _ _ _ Hz), Z.eqb_refl.
  - destruct (zip_node _ _ _ _ _ _ _ _ _ Hz) as [_ Hne].
    cbn in Hf. destruct fuel as [| fuel]; [lia |]. cbn.
    rewrite (z_nil _ _ _ _ Hz), (proj2 (Z.eqb_neq a nl)) by done. rewrite (zip_key _ _ _ _ _ _ _ _ _ Hz). run.
    destruct (zip_children _ _ _ _ _ _ _ _ _ Hz) as (Hl & Hr & _).
    destruct (_ <? 0); [rewrite Hl; run; apply IHl; [by apply zip_up | lia] |].
    destruct (0 <? _); [rewrite Hr; run; apply IHr; [by apply zip_up | lia] |]. done.
Qed.

Lemma descend_locate fuel T nl k ctx t :
  zip T nl ctx t -> (length (inorder t) <= fuel)%nat ->
  insert_descend fuel T k (addr nl t) (up nl ctx)
  = Ok (match (locate k ctx t).2 with Leaf => Some (up nl (locate k ctx t).1) | _ => None end).
Proof.
  revert fuel ctx. induction t as [| a c kb v l IHl r IHr]; intros fuel ctx Hz Hf.
  - destruct fuel; cbn; by rewrite (z_nil _ _ _ _ Hz), Z.eqb_refl.
  - destruct (zip_node _ _ _ _ _ _ _ _ _ Hz) as [_ Hne].
    cbn in Hf. rewrite length_app in Hf. cbn in Hf. destruct fuel as [| fuel]; [lia |]. cbn.
    rewrite (z_nil _ _ _ _ Hz), (proj2 (Z.eqb_neq a nl)) by done. rewrite (zip_key _ _ _ _ _ _ _ _ _ Hz). run.
    destruct (zip_children _ _ _ _ _ _ _ _ _ Hz) as (Hl & Hr & _).
    destruct (_ <? 0); [rewrite Hl; run; apply (IHl fuel (InLeft a c kb v r :: ctx)); [by apply zip_up | lia] |].
    destruct (0 <? _); [rewrite Hr; run; apply (IHr fuel (InRight a c kb v l :: ctx)); [by apply zip_up | lia] |].
    done.
Qed.

(** Around the place found: smaller keys before it, larger keys after it. *)
Definition around (k : list Z) (ctx : list frame) : Prop :=
  Forall (fun i => strcmp (it_key i) k < 0) (pre ctx) /\ Forall (fun i => strcmp k (it_key i) < 0) (post ctx).

Lemma locate_around k ctx t :
  bst (plug ctx t) -> around k ctx -> around k (locate k ctx t).1 /\
  match (locate k ctx t).2 with Leaf => True | Bin _ _ kb _ _ _ => b_str kb = k end.
Proof.
  revert ctx. induction t as [| a c kb v l IHl r IHr]; intros ctx Hb [Hpre Hpost]; cbn; [done |].
  destruct (bst_node _ _ _ _ _ _ _ Hb) as [Hlt Hgt].
  apply Forall_app in Hlt as [_ Hlt]. apply Forall_app in Hgt as [Hgt _].
  destruct (Z.ltb_spec (strcmp k (b_str kb)) 0) as [Hk | Hk].
  - apply IHl; [done |]. split; cbn; [done |]. constructor; [done |]. apply Forall_app. split; [| done].
    eapply Forall_impl; [exact Hgt |]. cbn. eauto with lidis.
  - destruct (Z.ltb_spec 0 (strcmp k (b_str kb))) as [Hk' | Hk'].
    + assert (Hkb : strcmp (b_str kb) k < 0) by (rewrite strcmp_antisym; lia).
      apply IHr; [done |]. split; cbn; [| done]. rewrite !Forall_app. split; [done |]. split; [| by repeat constructor].
      eapply Forall_impl; [exact Hlt |]. cbn. eauto with lidis.
    + split; [done |]. symmetry. apply strcmp_eq. lia.
Qed.

Lemma around_not_in k ctx :
  around k ctx -> Forall (fun i => it_key i <> k) (pre ctx ++ post ctx).
Proof.
  intros [Hpre Hpost]. apply Forall_app. split; [eapply Forall_impl; [exact Hpre |] | eapply Forall_impl; [exact Hpost |]];
    cbn; intros i Hi He; rewrite He, strcmp_refl in Hi; lia.
Qed.

(** ** Insertion *)

(** A store outside the tree. *)
Lemma zip_insert_out T nl ctx t p n :
  zip T nl ctx t -> p ∉ nl :: zaddrs ctx t -> zip (with_node T p n) nl ctx t.
Proof.
  intros [Hn Hr Hc Ht Hd Hs] Hp. unfold zaddrs in Hp. apply not_elem_of_cons in Hp as [Hp0 Hp].
  apply not_elem_of_app in Hp as [Hp1 Hp2]. split; cbn; try done.
  - by apply repc_insert.
  - by apply rep_insert.
  - by rewrite lookup_insert_ne by done.
Qed.

(** The link to the new node, at the place the descent found. *)
Lemma link_spec T nl ctx z k :
  nil T = nl -> repc (rb_nodes T) nl ctx nl -> NoDup (nl :: caddrs ctx) ->
  root T = addr nl (plug ctx Leaf) -> around k ctx -> forall t', addr nl t' = z ->
  exists h', (if up nl ctx =? nil T then Ok (with_root T z) else
      yk ← ld_key T (up nl ctx);
      if strcmp k yk <? 0 then st_left T (up nl ctx) z else st_right T (up nl ctx) z)
      = Ok (RBTree (addr nl (plug ctx t')) nl h') /\ repc h' nl ctx z /\
    forall p, p ∉ caddrs ctx -> h' !! p = rb_nodes T !! p.
Proof.
  intros Hn Hc Hd Hr [Hpre Hpost] t' Hz. destruct T as [rt n0 h]. cbn in Hn, Hc, Hr. subst n0 z.
  destruct ctx as [| [a c kb v s | a c kb v s] ctx]; cbn [up fr_addr nil].
  - rewrite Z.eqb_refl. by exists h.
  - cbn in Hpost. apply Forall_cons in Hpost as [Hk _]. unfold it_key in Hk. cbn in Hk.
    relink_frame ltac:(rewrite (proj2 (Z.ltb_lt _ _)) by done).
  - cbn in Hpre. rewrite !Forall_app in Hpre. destruct Hpre as (_ & _ & Hk). apply Forall_cons in Hk as [Hk' _].
    unfold it_key in Hk'. cbn in Hk'. rewrite strcmp_antisym in Hk'.
    relink_frame ltac:(rewrite (proj2 (Z.ltb_ge _ _)) by lia).
Qed.

Lemma ctx_length ctx t : (length ctx + length (inorder t) <= length (inorder (plug ctx t)))%nat.
Proof.
  revert t. induction ctx as [| f ctx IH]; intros t; [cbn; lia |].
  rewrite plug_cons. specialize (IH (plug1 f t)). cbn [length].
  destruct f; cbn in IH |- *; rewrite length_app in IH; cbn in IH; lia.
Qed.

Lemma insert_spec fuel T nl t z n kb v :
  zip T nl [] t -> rbt t -> bst t -> (length (inorder t) < fuel)%nat ->
  rb_nodes T !! z = Some n -> rb_key n = Some kb -> rb_value n = v -> z ∉ nl :: taddrs t ->
  Forall (fun i => it_key i <> b_str kb) (inorder t) ->
  exists T' t' l1 l2, rbtree_insert fuel T z = Ok T' /\ zip T' nl [] t' /\ rbt t' /\ bst t' /\
    inorder t = l1 ++ l2 /\ inorder t' = l1 ++ (z, kb, v) :: l2 /\ keeps T T' (z :: taddrs t).
Proof.
  intros Hz Hrb Hb Hf Hn Hkn Hvn Hfresh Hnew. unfold rbtree_insert.
  assert (Hk : ld_key T z = Ok (b_str kb)) by (unfold ld_key, ld; by rewrite Hn; cbn; rewrite Hkn).
  rewrite Hk. run. rewrite (z_root _ _ _ _ Hz), (z_nil _ _ _ _ Hz). change (plug [] t) with t.
  pose proof (descend_locate fuel T nl (b_str kb) [] t Hz ltac:(lia)) as Hd. cbn [up] in Hd. rewrite Hd. run.
  destruct (locate_around (b_str kb) [] t Hb) as [Hard Hloc]; [by split; constructor |].
  pose proof (locate_plug (b_str kb) [] t) as Hpl. change (plug [] t) with t in Hpl.
  destruct (locate (b_str kb) [] t) as [ctx t0]. cbn [fst snd] in *.
  destruct t0 as [| a c ak av l r].
  2: { exfalso. rewrite <- Hpl, inorder_plug in Hnew. cbn in Hnew. rewrite !Forall_app in Hnew.
       destruct Hnew as (_ & (_ & Hx) & _). inversion Hx as [| ? ? Hx' _]. by apply Hx'. }
  apply (zip_move _ _ _ _ ctx Leaf) in Hz; [| done].
  assert (Haddr : taddrs t ≡ₚ caddrs ctx).
  { rewrite taddrs_inorder, <- Hpl, <- zip_addrs. done. }
  rewrite Haddr in Hfresh. apply not_elem_of_cons in Hfresh as [Hznl Hzc].
  assert (E1 : st_parent T z (up nl ctx) = Ok (with_node T z
    (RBNode (color n) (right n) (left n) (up nl ctx) (Some kb) v))).
  { unfold st_parent, st, ld. rewrite Hn. run. by rewrite Hkn, Hvn. }
  rewrite E1. run. set (T1 := with_node T z _).
  pose proof (zip_insert_out T nl ctx Leaf z (RBNode (color n) (right n) (left n) (up nl ctx) (Some kb) v) Hz
    ltac:(unfold zaddrs; cbn; set_solver)) as Hz1. fold T1 in Hz1.
  destruct (link_spec T1 nl ctx z (b_str kb) (z_nil _ _ _ _ Hz1) (z_ctx _ _ _ _ Hz1) (z_nodup _ _ _ _ Hz1)
    (z_root _ _ _ _ Hz1) Hard (Bin z RED kb v Leaf Leaf) eq_refl) as (h2 & E2 & Hc2 & Hk2).
  rewrite (z_nil _ _ _ _ Hz1) in E2. cbn [nil T1 with_node]. rewrite (z_nil _ _ _ _ Hz). rewrite E2. run. cbn [nil].
  assert (Hz2 : h2 !! z = Some (RBNode (color n) (right n) (left n) (up nl ctx) (Some kb) v)).
  { rewrite Hk2 by done. cbn. apply lookup_insert_eq. }
  set (rt := addr nl (plug ctx (Bin z RED kb v Leaf Leaf))) in *.
  assert (E3 : (T ← st_left (RBTree rt nl h2) z nl; T ← st_right T z nl; T ← st_color T z RED;
      rbtree_insert_fixup fuel T z)
    = rbtree_insert_fixup fuel (RBTree rt nl (<[z := RBNode RED nl nl (up nl ctx) (Some kb) v]> h2)) z).
  { rb_unfold. rewrite Hz2. rb_unfold. rewrite lookup_insert_eq. rb_unfold. rewrite lookup_insert_eq. rb_unfold.
    by rewrite !insert_insert_eq. }
  cbn [nil] in E3. cbn [nil]. 
  assert (E3' : forall X, (T ← st_left (RBTree rt nl h2) z nl; T ← st_right T z nl; T ← st_color T z RED;
      rbtree_insert_fixup fuel T z) = X -> (T ← st_left (RBTree rt nl h2) z nl; T ← st_right T z (nil T);
      T ← st_color T z RED; rbtree_insert_fixup fuel T z) = X).
  { intros X <-. unfold st_left, st. destruct (ld _ z); done. }
  rewrite (E3' _ E3). clear E3 E3'. set (T3 := RBTree rt nl _).
  assert (Hzip3 : zip T3 nl ctx (Bin z RED kb v Leaf Leaf)).
  { split; cbn [T3 nil root rb_nodes].
    - done.
    - done.
    - by apply repc_insert.
    - cbn. by rewrite lookup_insert_eq.
    - cbn. pose proof (z_nodup _ _ _ _ Hz) as Hnd. cbn in Hnd. apply NoDup_cons in Hnd as [Hn1 Hn2].
      constructor; [set_solver |]. by constructor.
    - destruct (z_sent _ _ _ _ Hz) as (s & Hs & Hcs). exists s. split; [| done].
      rewrite lookup_insert_ne by done. rewrite Hk2.
      + cbn. by rewrite lookup_insert_ne by done.
      + pose proof (z_nodup _ _ _ _ Hz) as Hnd. cbn in Hnd. by apply NoDup_cons in Hnd as [Hn1 _]. }
  destruct Hrb as [m Hrb]. rewrite <- Hpl in Hrb.
  destruct (cx_of_plug _ _ _ Hrb) as (pc & c & n0 & Hcx & Hlf & _). inversion Hlf; subst n0 c.
  destruct (insert_fixup_spec fuel T3 nl ctx (Bin z RED kb v Leaf Leaf)) as (T' & t' & E4 & Hz4 & Hr4 & Hin4 & Hk4).
  { split; [done |]. exists pc, O. split; [done |]. constructor; constructor. }
  { right. pose proof (ctx_length ctx Leaf) as Hl. rewrite Hpl in Hl. lia. }
  cbn [addr] in E4. rewrite E4. exists T', t', (pre ctx), (post ctx).
  rewrite inorder_plug in Hin4. cbn in Hin4.
  assert (Hsplit : inorder t = pre ctx ++ post ctx) by (rewrite <- Hpl, inorder_plug; done).
  repeat (split; [done |]). split; [| split; [done |]; split; [done |]].
  - unfold bst in *. rewrite Hin4. rewrite Hsplit in Hb. apply sorted_app_intro; [done | apply Hard | apply Hard].
  - intros p Hp. rewrite Haddr in Hp. apply not_elem_of_cons in Hp as [Hp1 Hp2].
    rewrite Hk4 by (unfold zaddrs; cbn; set_solver). cbn. rewrite lookup_insert_ne, Hk2 by done.
    cbn. by apply lookup_insert_ne.
Qed.

(** ** Deletion *)

(** [rbtree_mini] reaches the leftmost node. *)
Lemma mini_spec fuel T nl ctx t :
  zip T nl ctx t -> t <> Leaf -> (length (inorder t) <= fuel)%nat ->
  exists c1 y yc yk yv yr, rbtree_mini fuel T (addr nl t) = Ok y /\
    t = plug c1 (Bin y yc yk yv Leaf yr) /\ pre c1 = [].
Proof.
  revert ctx fuel. induction t as [| a c k v l IHl r _]; intros ctx fuel Hz Hne Hf; [done |].
  destruct (zip_children _ _ _ _ _ _ _ _ _ Hz) as (Hl & _ & _).
  cbn in Hf. rewrite length_app in Hf. cbn in Hf. destruct fuel as [| fuel]; [lia |].
  cbn [rbtree_mini addr]. rewrite Hl. run. rewrite (z_nil _ _ _ _ Hz).
  destruct l as [| la lc lk lv ll lr].
  - cbn. rewrite Z.eqb_refl. by exists [], a, c, k, v, r.
  - assert (Hzl : zip T nl (InLeft a c k v r :: ctx) (Bin la lc lk lv ll lr)) by (by apply zip_up).
    destruct (zip_node _ _ _ _ _ _ _ _ _ Hzl) as [_ Hla]. cbn [addr].
    rewrite (proj2 (Z.eqb_neq la nl)) by done.
    destruct (IHl _ fuel Hzl ltac:(done) ltac:(lia)) as (c1 & y & yc & yk & yv & yr & Hm & Hp & Hpre).
    exists (c1 ++ [InLeft a c k v r]), y, yc, yk, yv, yr. split; [done |]. split.
    + rewrite plug_app, <- Hp. done.
    + clear - Hpre. induction c1 as [| [] c1 IH]; cbn in *; [done | by apply IH |].
      apply app_eq_nil in Hpre as [_ Hx]. by apply app_eq_nil in Hx as [_ ?].
Qed.

(** The only child of a node with a missing child. *)
Definition only_child (l r : tree) : tree := match l with Leaf => r | _ => l end.

Lemma only_child_addr T nl ctx a c k v l r :
  zip T nl ctx (Bin a c k v l r) -> l = Leaf \/ r = Leaf ->
  (if negb (addr nl l =? nl) then addr nl l else if negb (addr nl r =? nl) then addr nl r else nl)
  = addr nl (only_child l r).
Proof.
  intros Hz _. pose proof (z_nodup _ _ _ _ Hz) as Hd. apply NoDup_cons in Hd as [Hd _]. cbn in Hd.
  destruct l as [| la ? ? ? ? ?], r as [| ra ? ? ? ? ?]; cbn in *; rewrite ?Z.eqb_refl; cbn; try done.
  - rewrite (proj2 (Z.eqb_neq ra nl)) by set_solver. done.
  - rewrite (proj2 (Z.eqb_neq la nl)) by set_solver. done.
  - rewrite (proj2 (Z.eqb_neq la nl)) by set_solver. done.
Qed.

Lemma only_child_perm a c k v l r ctx :
  l = Leaf \/ r = Leaf -> zaddrs ctx (Bin a c k v l r) = a :: zaddrs ctx (only_child l r).
Proof. intros [-> | ->]; unfold zaddrs; cbn; [done |]. rewrite app_nil_r. by destruct l. Qed.

Lemma rep_only_child h nl par l r : rep h nl par l -> rep h nl par r -> rep h nl par (only_child l r).
Proof. by destruct l. Qed.

(** Giving the child that moves up its new parent; the sentinel included. *)
Lemma st_parent_child T nl a x par :
  nil T = nl -> rep (rb_nodes T) nl a x -> NoDup (nl :: taddrs x) -> is_Some (rb_nodes T !! nl) ->
  exists h', st_parent T (addr nl x) par = Ok (RBTree (root T) nl h') /\ rep h' nl par x /\
    ld_parent (RBTree (root T) nl h') (addr nl x) = Ok par /\
    (forall p, p ∉ nl :: taddrs x -> h' !! p = rb_nodes T !! p) /\
    (x <> Leaf -> h' !! nl = rb_nodes T !! nl) /\
    (color <$> h' !! nl) = (color <$> rb_nodes T !! nl).
Proof.
  intros Hn Hx Hd [s Hs]. destruct T as [rt n0 h]. cbn in Hn, Hx, Hs. subst n0.
  destruct x as [| b c k v l r]; cbn [addr].
  - rb_unfold. rewrite Hs. rb_unfold. eexists. split; [done |]. split; [done |]. split; [by rewrite lookup_insert_eq |].
    split; [intros p Hp; apply lookup_insert_ne; set_solver |]. split; [done |].
    cbn [rb_nodes]. by rewrite lookup_insert_eq.
  - cbn in Hx, Hd. destruct Hx as (Hb & Hl & Hr). apply NoDup_cons in Hd as [Hnl Hd].
    apply NoDup_cons in Hd as [Hd _]. rewrite not_elem_of_app in Hd. destruct Hd as [? ?].
    rb_unfold. rewrite Hb. rb_unfold. eexists. split; [done |].
    split; [split; [by rewrite lookup_insert_eq | auto with lidis] |]. split; [by rewrite lookup_insert_eq |].
    assert (Hbn : b <> nl) by set_solver.
    split; [intros p Hp; apply lookup_insert_ne; set_solver |]. by rewrite lookup_insert_ne by done.
Qed.

(** Taking the node [y] with a missing child out of the tree. *)
Lemma splice_out T nl ctx y yc yk yv yl yr :
  zip T nl ctx (Bin y yc yk yv yl yr) -> yl = Leaf \/ yr = Leaf ->
  let x := only_child yl yr in
  exists T', (yp ← ld_parent T y; T ← st_parent T (addr nl x) yp; yp ← ld_parent T y;
      if yp =? nil T then Ok (with_root T (addr nl x)) else
      ypl ← ld_left T yp;
      if y =? ypl then st_left T yp (addr nl x) else st_right T yp (addr nl x)) = Ok T' /\
    zip T' nl ctx x /\ ld_parent T' (addr nl x) = Ok (up nl ctx) /\ nil T' = nl /\
    rb_nodes T' !! y = rb_nodes T !! y /\ keeps T T' (nl :: zaddrs ctx x).
Proof.
  intros Hz Hchild x. pose proof (z_nodup _ _ _ _ Hz) as Hd.
  change (taddrs ?t ++ caddrs ?c) with (zaddrs c t) in Hd. rewrite only_child_perm in Hd by done. fold x in Hd.
  destruct (zip_node _ _ _ _ _ _ _ _ _ Hz) as [Hy Hynl]. destruct Hz as [Hn Hr Hc Ht _ (s & Hs & Hcs)].
  destruct T as [rt n0 h]. cbn [root nil rb_nodes] in *. subst n0. cbn [rep] in Ht. destruct Ht as (_ & Hl & Hrr).
  assert (E1 : ld_parent (RBTree rt nl h) y = Ok (up nl ctx)) by ld_by Hy. rewrite E1. run.
  apply NoDup_cons in Hd as [Hnl Hd]. apply NoDup_cons in Hd as [Hyx Hd]. unfold zaddrs in *.
  apply not_elem_of_cons in Hnl as [_ Hnl]. apply not_elem_of_app in Hnl as [Hnlx Hnlc].
  apply not_elem_of_app in Hyx as [Hyx Hyc]. apply NoDup_app in Hd as (Hdx & Hdd & Hdc).
  destruct (st_parent_child (RBTree rt nl h) nl y x (up nl ctx)) as (h1 & -> & Hx1 & Hp1 & Hk1 & Hnl1 & Hcol); cbn.
  { done. } { by apply rep_only_child. } { by constructor. } { eauto. } cbn [root rb_nodes] in *.
  assert (Hy1 : h1 !! y = h !! y) by (apply Hk1; set_solver).
  assert (E2 : ld_parent (RBTree rt nl h1) y = Ok (up nl ctx)) by (rb_unfold; by rewrite Hy1, Hy).
  cbn in E2. rewrite E2. run.
  assert (Hc1 : repc h1 nl ctx y).
  { eapply repc_ext; [| exact Hc]. intros q Hq. apply Hk1. set_solver. }
  destruct (sib_neq nl y ctx) as [Hsib _]; [set_solver |].
  destruct (relink_l_spec (RBTree rt nl h1) nl ctx y (addr nl x) (Bin y yc yk yv yl yr) x)
    as (h2 & E3 & Hc2 & Hk2); try done.
  { by constructor. }
  exists (RBTree (addr nl (plug ctx x)) nl h2). split; [exact E3 |]. cbn [rb_nodes] in *.
  assert (Hnl2 : h2 !! nl = h1 !! nl) by (by apply Hk2).
  split; [split; cbn [nil root rb_nodes] |].
  - done.
  - done.
  - done.
  - eapply rep_ext; [| exact Hx1]. intros p Hp. apply Hk2. by apply Hdd.
  - constructor; [set_solver |]. by apply NoDup_app.
  - rewrite Hnl2. rewrite Hs in Hcol. cbn in Hcol. destruct (h1 !! nl) as [s1 |]; [| done].
    exists s1. split; [done |]. cbn in Hcol. congruence.
  - split; [| split; [done |]; split].
    + unfold ld_parent, ld in Hp1 |- *. cbn in Hp1 |- *. rewrite Hk2; [done |].
      destruct (addr_in nl x) as [-> | Hx]; [done | by apply Hdd].
    + rewrite Hk2 by done. done.
    + intros p Hp. cbn. rewrite Hk2 by set_solver. apply Hk1. set_solver.
Qed.

Lemma rb_only_child l r cl cr n : rb l cl n -> rb r cr n -> exists c, rb (only_child l r) c n.
Proof. destruct l; cbn; eauto. Qed.

(** After the node left the tree: the fixup when it was black. *)
Lemma delete_tail fuel T nl ctx y yc yk yv yl yr :
  let x := only_child yl yr in
  zip T nl ctx x -> ld_parent T (addr nl x) = Ok (up nl ctx) -> ld_color T y = Ok yc ->
  yl = Leaf \/ yr = Leaf -> rbt (plug ctx (Bin y yc yk yv yl yr)) -> (length ctx <= fuel)%nat ->
  exists T' t', (c ← ld_color T y;
      T ← (if decide (c = BLACK) then rbtree_delete_fixup fuel T (addr nl x) else Ok T); Ok (T, y)) = Ok (T', y) /\
    zip T' nl [] t' /\ rbt t' /\ inorder t' = inorder (plug ctx x) /\ keeps T T' (zaddrs ctx x).
Proof.
  intros x Hz Hp Hc Hchild [m Hrb] Hf. rewrite Hc. run.
  destruct (cx_of_plug _ _ _ Hrb) as (pc & c & n & Hcx & Hy & Hred).
  destruct yc.
  - rewrite decide_False by done. run. inversion Hy; subst. destruct (Hred eq_refl) as [-> Hne].
    exists T, (plug ctx x). split; [done |]. split; [by apply (zip_top T nl ctx) |]. split; [| done].
    assert (Hx : rb x BLACK n) by (unfold x; by destruct yl). by eapply (cx_plug _ _ _ _ BLACK).
  - rewrite decide_True by done. inversion Hy as [| | ? ? ? ? ? cl cr n' Hl Hr]; subst.
    destruct (delete_fixup_spec fuel T nl ctx x) as (T' & t' & -> & Hz' & Hr' & Hin & Hk).
    + split; [done |]. split; [done |]. exists pc, n'. split; [done |].
      destruct (rb_only_child _ _ _ _ _ Hl Hr) as [[] Hx]; [| by left].
      destruct (rb_red_inv _ _ Hx) as (a & k & v & l & r & Hxe & Hxl & Hxr). right. eauto 10.
    + by right.
    + run. eauto 10.
Qed.

(** The keys and values of [z] and of its successor are exchanged. *)
Lemma rbt_payload ctx z c k v k' v' l r :
  rbt (plug ctx (Bin z c k v l r)) -> rbt (plug ctx (Bin z c k' v' l r)).
Proof.
  intros [m Hrb]. destruct (cx_of_plug _ _ _ Hrb) as (pc & c0 & n & Hcx & Hz & Hred).
  eapply cx_plug; [exact Hcx | | exact Hred]. inversion Hz; subst; by econstructor.
Qed.

Definition deleted (t t' : tree) (ctx : list frame) (z : Z) (zl zr : tree) (y : Z) : Prop :=
  (y = z /\ inorder t' = pre ctx ++ inorder zl ++ inorder zr ++ post ctx) \/
  (exists yk yv rest, inorder zr = (y, yk, yv) :: rest /\
     inorder t' = pre ctx ++ inorder zl ++ (z, yk, yv) :: rest ++ post ctx).

(** A node with a missing child is taken out itself. *)
Lemma delete_simple fuel T nl ctx z zc zk zv zl zr :
  zip T nl ctx (Bin z zc zk zv zl zr) -> rbt (plug ctx (Bin z zc zk zv zl zr)) -> zl = Leaf \/ zr = Leaf ->
  (length (inorder (plug ctx (Bin z zc zk zv zl zr))) <= fuel)%nat ->
  exists T' t', rbtree_delete fuel T z = Ok (T', z) /\ zip T' nl [] t' /\ rbt t' /\
    inorder t' = pre ctx ++ inorder zl ++ inorder zr ++ post ctx /\
    rb_nodes T' !! z = rb_nodes T !! z /\ keeps T T' (nl :: zaddrs ctx (Bin z zc zk zv zl zr)).
Proof.
  intros Hz Hrb Hch Hf. unfold rbtree_delete.
  destruct (zip_children _ _ _ _ _ _ _ _ _ Hz) as (Hl & Hr & Hc). rewrite Hl, Hr. run.
  rewrite (z_nil _ _ _ _ Hz).
  assert (Ht : (addr nl zl =? nl) || (addr nl zr =? nl) = true).
  { destruct Hch as [-> | ->]; cbn; rewrite Z.eqb_refl; [done | apply orb_true_r]. }
  rewrite Ht. run. rewrite Hl, Hr. run.
  rewrite (only_child_addr _ _ _ _ _ _ _ _ _ Hz Hch).
  destruct (splice_out _ _ _ _ _ _ _ _ _ Hz Hch) as (T1 & E1 & Hz1 & Hp1 & Hn1 & Hy1 & Hk1).
  destruct (zip_node _ _ _ _ _ _ _ _ _ Hz) as [Hzn _].
  assert (Hc1 : ld_color T1 z = Ok zc) by (unfold ld_color, ld; by rewrite Hy1, Hzn).
  pose proof (ctx_length ctx (Bin z zc zk zv zl zr)) as Hlen.
  destruct (delete_tail fuel T1 nl ctx z zc zk zv zl zr Hz1 Hp1 Hc1 Hch Hrb ltac:(lia))
    as (T2 & t2 & E2 & Hz2 & Hr2 & Hin2 & Hk2).
  exists T2, t2.
  assert (Hzx : z ∉ zaddrs ctx (only_child zl zr)).
  { pose proof (z_nodup _ _ _ _ Hz) as Hd. change (taddrs ?t ++ caddrs ?c) with (zaddrs c t) in Hd.
    rewrite only_child_perm in Hd by done. apply NoDup_cons in Hd as [_ Hd]. by apply NoDup_cons in Hd as [Hd _]. }
  split; [| split; [done |]; split; [done |]; split; [| split]].
  - rewrite <- E2. revert E1. destruct (ld_parent T z) as [yp | |]; run; [| done | done].
    destruct (st_parent T (addr nl (only_child zl zr)) yp) as [T0 | |]; run; [| done | done].
    destruct (ld_parent T0 z) as [yp' | |]; run; [| done | done]. intros ->. run.
    by rewrite Z.eqb_refl.
  - rewrite Hin2, inorder_plug. f_equal. destruct Hch as [-> | ->]; cbn; [done |]. by destruct zl.
  - rewrite Hk2 by done. done.
  - rewrite only_child_perm by done. intros p Hp. rewrite Hk2 by set_solver. apply Hk1. set_solver.
Qed.

(** The exchange of key and value between [z], in the tree, and [y], out of
    it. *)
Lemma exchange_spec T nl ctx z zc zk zv zl zr y n yk yv :
  zip T nl ctx (Bin z zc zk zv zl zr) -> y ∉ nl :: zaddrs ctx (Bin z zc zk zv zl zr) ->
  rb_nodes T !! y = Some n -> rb_key n = Some yk -> rb_value n = yv ->
  exists T', (ny ← ld T y; nz ← ld T z; T ← st_kv T z (rb_key ny) (rb_value ny);
      st_kv T y (rb_key nz) (rb_value nz)) = Ok T' /\
    zip T' nl ctx (Bin z zc yk yv zl zr) /\ keeps T T' [z; y] /\ nil T' = nl /\
    rb_nodes T' !! y = Some (RBNode (color n) (right n) (left n) (parent n) (Some zk) zv).
Proof.
  intros Hz Hy Hn Hk Hv. destruct (zip_node _ _ _ _ _ _ _ _ _ Hz) as [Hzn Hznl].
  unfold ld at 1 2. rewrite Hn, Hzn. run. rewrite Hk, Hv. cbn [rb_key rb_value].
  destruct (zip_st_kv _ _ _ _ _ _ _ yk yv _ _ Hz) as (T1 & -> & Hz1 & Hk1). run.
  assert (Hyz : y <> z) by (intros ->; apply Hy; unfold zaddrs; cbn; set_solver).
  assert (Hy1 : rb_nodes T1 !! y = Some n) by (rewrite Hk1; [done | set_solver]).
  unfold st_kv, st, ld. rewrite Hy1. run. eexists. split; [done |].
  split; [apply zip_insert_out; [done |]; unfold zaddrs in *; cbn in *; set_solver |].
  split; [| split; [apply (z_nil _ _ _ _ Hz1) | cbn; by rewrite lookup_insert_eq]].
  intros p Hp. cbn. rewrite lookup_insert_ne by set_solver. apply Hk1. set_solver.
Qed.

Lemma post_app c1 c2 : pre c1 = [] -> pre (c1 ++ c2) = pre c2 /\ post (c1 ++ c2) = post c1 ++ post c2.
Proof.
  induction c1 as [| [] c1 IH]; cbn; intros Hp; [done | |].
  - destruct (IH Hp) as [-> ->]. split; [done |]. by rewrite <- app_assoc.
  - apply app_eq_nil in Hp as [_ Hp]. by apply app_eq_nil in Hp as [_ Hp].
Qed.

(** With two children, the successor leaves the tree. *)
Lemma delete_double fuel T nl ctx z zc zk zv zl zr :
  zip T nl ctx (Bin z zc zk zv zl zr) -> rbt (plug ctx (Bin z zc zk zv zl zr)) -> zl <> Leaf -> zr <> Leaf ->
  (length (inorder (plug ctx (Bin z zc zk zv zl zr))) <= fuel)%nat ->
  exists T' t' y yk yv rest n, rbtree_delete fuel T z = Ok (T', y) /\ zip T' nl [] t' /\ rbt t' /\
    inorder zr = (y, yk, yv) :: rest /\
    inorder t' = pre ctx ++ inorder zl ++ (z, yk, yv) :: rest ++ post ctx /\
    rb_nodes T' !! y = Some n /\ rb_key n = Some zk /\ rb_value n = zv /\
    keeps T T' (nl :: zaddrs ctx (Bin z zc zk zv zl zr)).
Proof.
  intros Hz Hrb Hzl Hzr Hf. unfold rbtree_delete.
  destruct (zip_children _ _ _ _ _ _ _ _ _ Hz) as (Hl & Hr & Hc). rewrite Hl, Hr. run.
  rewrite (z_nil _ _ _ _ Hz).
  assert (Hnz : forall f x, zip T nl (f :: ctx) x -> x <> Leaf -> addr nl x =? nl = false).
  { intros f x Hx Hne. destruct x as [| a ? ? ? ? ?]; [done |].
    destruct (zip_node _ _ _ _ _ _ _ _ _ Hx) as [_ Ha]. by apply Z.eqb_neq. }
  assert (Hzipl : zip T nl (InLeft z zc zk zv zr :: ctx) zl) by (by apply zip_up).
  assert (Hzipr : zip T nl (InRight z zc zk zv zl :: ctx) zr) by (by apply zip_up).
  rewrite (Hnz _ _ Hzipl Hzl), (Hnz _ _ Hzipr Hzr). run.
  unfold rbtree_successor. pose proof (ld_parent_focus _ _ _ _ Hz ltac:(done)) as Hpz. cbn in Hpz.
  rewrite Hpz, Hr. run. rewrite (z_nil _ _ _ _ Hz), (Hnz _ _ Hzipr Hzr). run.
  pose proof (ctx_length (InRight z zc zk zv zl :: ctx) zr) as Hlen. rewrite plug_cons in Hlen. cbn [plug1 length] in Hlen.
  destruct (mini_spec fuel T nl _ zr Hzipr Hzr ltac:(lia)) as (c1 & y & yc & yk & yv & yr & -> & Hpr & Hpre). run.
  set (ctxy := c1 ++ InRight z zc zk zv zl :: ctx).
  assert (Hzy : zip T nl ctxy (Bin y yc yk yv Leaf yr)).
  { eapply zip_move; [| exact Hz]. unfold ctxy. rewrite plug_app, <- Hpr. done. }
  destruct (zip_children _ _ _ _ _ _ _ _ _ Hzy) as (Hyl & Hyr & _). rewrite Hyl, Hyr. run.
  rewrite (only_child_addr _ _ _ _ _ _ _ _ _ Hzy) by (by left).
  destruct (splice_out _ _ _ _ _ _ _ _ _ Hzy ltac:(by left)) as (T1 & E1 & Hz1 & Hp1 & Hn1 & Hy1 & Hk1).
  cbn [only_child] in *.
  destruct (zip_node _ _ _ _ _ _ _ _ _ Hzy) as [Hyn Hynl].
  assert (Hz1' : zip T1 nl ctx (Bin z zc zk zv zl (plug c1 yr))).
  { eapply zip_move; [| exact Hz1]. unfold ctxy. by rewrite plug_app. }
  assert (Hperm : zaddrs ctx (Bin z zc zk zv zl (plug c1 yr)) ≡ₚ zaddrs ctxy yr).
  { unfold zaddrs. rewrite !zip_addrs. unfold ctxy. by rewrite plug_app. }
  assert (Hyout : y ∉ nl :: zaddrs ctxy yr).
  { pose proof (z_nodup _ _ _ _ Hzy) as Hd. change (taddrs ?t ++ caddrs ?c) with (zaddrs c t) in Hd.
    rewrite only_child_perm in Hd by (by left). apply NoDup_cons in Hd as [_ Hd]. apply NoDup_cons in Hd as [Hd _].
    cbn in Hd. set_solver. }
  destruct (exchange_spec T1 nl ctx z zc zk zv zl (plug c1 yr) y _ yk yv Hz1' ltac:(by rewrite Hperm)
    ltac:(by rewrite Hy1) eq_refl eq_refl) as (T2 & E2 & Hz2 & Hk2 & Hn2 & Hy2).
  set (ctxy' := c1 ++ InRight z zc yk yv zl :: ctx).
  assert (Hz2' : zip T2 nl ctxy' yr).
  { eapply zip_move; [| exact Hz2]. unfold ctxy'. by rewrite plug_app. }
  assert (Hzin : z ∈ zaddrs ctxy yr) by (rewrite <- Hperm; unfold zaddrs; cbn; set_solver).
  assert (Hyz : y <> z) by (intros ->; apply Hyout; set_solver).
  assert (Hznl : z <> nl) by (by apply (zip_node _ _ _ _ _ _ _ _ _ Hz)).
  assert (Hp2 : ld_parent T2 (addr nl yr) = Ok (up nl ctxy')).
  { eapply (ldp_keep T1 T2 nl ctxy ctxy'); [done | exact Hk2 | set_solver | done |].
    unfold ctxy, ctxy'. by destruct c1. }
  assert (Hc2 : ld_color T2 y = Ok yc) by (unfold ld_color, ld; by rewrite Hy2).
  assert (Hrb2 : rbt (plug ctxy' (Bin y yc yk yv Leaf yr))).
  { unfold ctxy'. rewrite plug_app, <- Hpr. exact (rbt_payload _ _ _ _ _ yk yv _ _ Hrb). }
  assert (Hlen2 : (length ctxy' <= fuel)%nat).
  { pose proof (ctx_length ctxy (Bin y yc yk yv Leaf yr)) as Hx. unfold ctxy in Hx. rewrite plug_app, <- Hpr in Hx.
    change (plug (InRight z zc zk zv zl :: ctx) zr) with (plug ctx (Bin z zc zk zv zl zr)) in Hx.
    unfold ctxy'. rewrite length_app in *. cbn in *. lia. }
  destruct (delete_tail fuel T2 nl ctxy' y yc yk yv Leaf yr Hz2' Hp2 Hc2 ltac:(by left) Hrb2 Hlen2)
    as (T3 & t3 & E3 & Hz3 & Hr3 & Hin3 & Hk3).
  assert (Hperm' : zaddrs ctxy' yr ≡ₚ zaddrs ctxy yr).
  { unfold zaddrs, ctxy, ctxy'. rewrite !zip_addrs, !plug_app. cbn [only_child].
    unfold addrs. rewrite !inorder_plug. cbn. by rewrite !fmap_app. }
  cbn [only_child] in *.
  assert (Hy3 : rb_nodes T3 !! y = rb_nodes T2 !! y) by (apply Hk3; rewrite Hperm'; set_solver).
  exists T3, t3, y, yk, yv, (inorder yr ++ post c1), (RBNode yc (addr nl yr) nl (up nl ctxy) (Some zk) zv).
  split; [| split; [done |]; split; [done |]; split; [| split]].
  - rewrite <- E3. revert E1. destruct (ld_parent T y) as [yp | |]; run; [| done | done].
    destruct (st_parent T (addr nl yr) yp) as [T0 | |]; run; [| done | done].
    destruct (ld_parent T0 y) as [yp' | |]; run; [| done | done]. intros ->. run.
    rewrite (proj2 (Z.eqb_neq y z)) by done. run.
    revert E2. destruct (ld T1 y) as [ny | |]; run; [| done | done]. destruct (ld T1 z) as [nz | |]; run; [| done | done].
    intros ->. done.
  - rewrite Hpr, inorder_plug, Hpre. done.
  - rewrite Hin3, inorder_plug. unfold ctxy'. destruct (post_app c1 (InRight z zc yk yv zl :: ctx) Hpre) as [-> ->].
    cbn. by rewrite <- !app_assoc.
  - rewrite Hy3, Hy2. repeat (split; [done |]).
    assert (Hsub : forall p, p ∉ nl :: zaddrs ctx (Bin z zc zk zv zl zr) -> p <> y /\ p ∉ nl :: zaddrs ctxy yr).
    { intros p Hp. assert (Hx : zaddrs ctx (Bin z zc zk zv zl zr) ≡ₚ zaddrs ctxy (Bin y yc yk yv Leaf yr)).
      { unfold zaddrs. rewrite !zip_addrs. unfold ctxy. rewrite plug_app, <- Hpr. reflexivity. }
      rewrite Hx, only_child_perm in Hp by (by left). cbn in Hp. set_solver. }
    intros p Hp. destruct (Hsub p Hp) as [Hpy Hpn]. rewrite Hk3 by (rewrite Hperm'; set_solver).
    rewrite Hk2 by set_solver. apply Hk1. set_solver.
Qed.
