(* ===== verification/RbEngine.v ===== *)
(** * RbEngine: the red-black tree refines a finite map *)

From S2P Require Import Prelude Alloc Engine Bag Rbtree RbTheory RbHeap RbMirror RbLoops RbFacts.
From Stdlib Require Import Sorted.

(** ** Reading the contents back from the heap *)

Fixpoint rb_collect (fuel : nat) (h : rheap) (nl p : Z) : list (Z * option block * option block) :=
  if p =? nl then [] else
  match fuel, h !! p with
  | S fuel', Some n =>
      rb_collect fuel' h nl (left n) ++ (p, rb_key n, rb_value n) :: rb_collect fuel' h nl (right n)
  | _, _ => []
  end.

Definition raw_entry (x : Z * option block * option block) : option entry :=
  match x with
  | (a, Some k, Some v) => Some (Entry (b_str k) (b_str v) [b_addr v; b_addr k; a])
  | _ => None
  end.

Definition rb_entries (T : rbtree) : list entry :=
  omap raw_entry (rb_collect (size (rb_nodes T)) (rb_nodes T) (nil T) (root T)).

Definition item_entry (x : item) : option entry := raw_entry (x.1.1, Some x.1.2, x.2).
Definition entries (t : tree) : list entry := omap item_entry (inorder t).

(** ** The invariant *)

Record rb_ok (T : rbtree) (nl : Z) (t : tree) : Prop := {
  ro_zip : zip T nl [] t;
  ro_rb : rbt t;
  ro_bst : bst t;
  ro_vals : Forall (fun x : item => is_Some x.2) (inorder t);
  ro_dom : dom (rb_nodes T) = list_to_set (nl :: taddrs t);
  ro_bag : bag_ok [nl] (entries t)
}.

#[export] Instance rb_engine {A} `{Allocator A} : Engine A rbtree := {
  e_set := kvs_rbtree_set;
  e_get := fun e k => res_map (option_map b_str) (kvs_rbtree_get e k);
  e_del := kvs_rbtree_del;
  e_mod := kvs_rbtree_mod;
  e_exist := kvs_rbtree_exist;
  e_map := fun e => bag_map (rb_entries e);
  e_owned := fun e => bag_owned [nil e] (rb_entries e);
  e_inv := fun e => exists nl t, rb_ok e nl t;
  e_full := fun _ => false;
  e_del_absent := 1
}.

Lemma rb_size T nl t : rb_ok T nl t -> size (rb_nodes T) = S (length (inorder t)).
Proof.
  intros Hok. rewrite <- size_dom, (ro_dom _ _ _ Hok), size_list_to_set.
  - cbn. rewrite taddrs_inorder. unfold addrs. by rewrite length_fmap.
  - pose proof (z_nodup _ _ _ _ (ro_zip _ _ _ Hok)) as Hd. cbn in Hd. by rewrite app_nil_r in Hd.
Qed.

Lemma collect_rep fuel h nl par t :
  rep h nl par t -> nl ∉ taddrs t -> (length (inorder t) <= fuel)%nat ->
  rb_collect fuel h nl (addr nl t) = (fun x : item => (x.1.1, Some x.1.2, x.2)) <$> inorder t.
Proof.
  revert fuel par. induction t as [| a c k v l IHl r IHr]; intros fuel par Hr Hn Hf.
  - destruct fuel; cbn; by rewrite Z.eqb_refl.
  - cbn in Hr, Hn, Hf. destruct Hr as (Ha & Hl & Hr). rewrite length_app in Hf. cbn in Hf.
    destruct fuel as [| fuel]; [lia |]. cbn. rewrite (proj2 (Z.eqb_neq a nl)) by set_solver. rewrite Ha. cbn.
    rewrite (IHl fuel a), (IHr fuel a) by (try done; try set_solver; lia). by rewrite fmap_app.
Qed.

Lemma omap_fmap {X Y W} (g : X -> Y) (f : Y -> option W) (l : list X) :
  omap f (g <$> l) = omap (fun x => f (g x)) l.
Proof. induction l as [| x l IH]; cbn; [done |]. by rewrite IH. Qed.

Lemma rb_entries_ok T nl t : rb_ok T nl t -> rb_entries T = entries t /\ nil T = nl.
Proof.
  intros Hok. pose proof (ro_zip _ _ _ Hok) as Hz. pose proof (z_nil _ _ _ _ Hz) as Hn. split; [| done].
  unfold rb_entries. rewrite Hn, (z_root _ _ _ _ Hz). change (plug [] t) with t.
  rewrite (collect_rep _ _ nl nl t).
  - unfold entries, item_entry. by rewrite omap_fmap.
  - apply (z_tree _ _ _ _ Hz).
  - pose proof (zip_nl_fresh _ _ _ _ Hz) as Hx. unfold zaddrs in Hx. cbn in Hx. by rewrite app_nil_r in Hx.
  - rewrite (rb_size _ _ _ Hok). lia.
Qed.

Lemma entries_mid l1 a k v l2 :
  omap item_entry (l1 ++ (a, k, Some v) :: l2)
  ≡ₚ Entry (b_str k) (b_str v) [b_addr v; b_addr k; a] :: omap item_entry (l1 ++ l2).
Proof. rewrite omap_mid. cbn. rewrite omap_app. by rewrite <- Permutation_middle. Qed.

Lemma rep_lookup h nl par t p : rep h nl par t -> p ∈ taddrs t -> is_Some (h !! p).
Proof.
  revert par. induction t as [| a c k v l IHl r IHr]; intros par; cbn; [set_solver |].
  intros (Ha & Hl & Hr) Hp. apply elem_of_cons in Hp as [-> | Hp]; [eauto |].
  apply elem_of_app in Hp as [Hp | Hp]; eauto.
Qed.

(** The domain after an operation that keeps what is outside the tree. *)
Lemma dom_keeps T T' nl t' S :
  zip T' nl [] t' -> keeps T T' (nl :: S) -> (forall p, p ∈ S -> p ∈ taddrs t' \/ is_Some (rb_nodes T' !! p)) ->
  dom (rb_nodes T) = list_to_set (nl :: S) -> dom (rb_nodes T') = list_to_set (nl :: S).
Proof.
  intros Hz Hk Hs Hd. rewrite <- Hd. apply set_eq. intros p. rewrite !elem_of_dom.
  destruct (decide (p ∈ nl :: S)) as [Hin | Hout]; [| by rewrite (Hk p Hout)].
  assert (H1 : is_Some (rb_nodes T !! p)) by (apply elem_of_dom; rewrite Hd; by apply elem_of_list_to_set).
  assert (H2 : is_Some (rb_nodes T' !! p)).
  { apply elem_of_cons in Hin as [-> | Hin].
    - destruct (z_sent _ _ _ _ Hz) as (s & Hs' & _). eauto.
    - destruct (Hs p Hin) as [Hp | Hp]; [| done]. eapply rep_lookup; [apply (z_tree _ _ _ _ Hz) | done]. }
  done.
Qed.

Lemma entries_in_bag nl t a : a ∈ taddrs t -> Forall (fun x : item => is_Some x.2) (inorder t) ->
  a ∈ bag_addrs [nl] (entries t).
Proof.
  intros Ha Hv. rewrite taddrs_inorder in Ha. apply list_elem_of_fmap in Ha as ([[a' k] v] & -> & Hin).
  rewrite Forall_forall in Hv. destruct (Hv _ Hin) as [vb Hvb]. cbn in Hvb. subst v.
  unfold bag_addrs. apply elem_of_app. right. apply list_elem_of_bind.
  exists (Entry (b_str k) (b_str vb) [b_addr vb; b_addr k; a']). split; [cbn; set_solver |].
  apply list_elem_of_omap. exists (a', k, Some vb). done.
Qed.

Section RbEngineFacts.
Context {A : Type} `{AllocatorLaws A}.
Implicit Types (T : rbtree) (a : A).

Local Notation rwf := (e_wf (ENG := rb_engine)).
Local Notation rframe := (e_frame (ENG := rb_engine)).

Lemma rb_bag T nl t a : rb_ok T nl t -> rwf T a -> bag_wf [nl] (entries t) a.
Proof.
  intros Hok (_ & Ha & Ho). split; [apply Hok |]. split; [done |].
  cbn [e_owned rb_engine] in Ho. destruct (rb_entries_ok _ _ _ Hok) as [He Hn]. by rewrite He, Hn in Ho.
Qed.

Lemma rb_result T nl t a T' t' a' :
  rb_ok T nl t -> rb_ok T' nl t' -> bag_wf [nl] (entries t') a' ->
  bag_frame [nl] (entries t) a (entries t') a' -> rwf T' a' /\ rframe T a T' a'.
Proof.
  intros Hok Hok' (_ & Ha & Ho) Hf. unfold e_wf, e_frame. cbn [e_owned e_inv rb_engine].
  destruct (rb_entries_ok _ _ _ Hok) as [-> ->]. destruct (rb_entries_ok _ _ _ Hok') as [-> ->].
  split; [| exact Hf]. split; [| done]. eauto.
Qed.

Lemma rb_map_ok T nl t : rb_ok T nl t -> bag_map (rb_entries T) = bag_map (entries t).
Proof. intros Hok. by destruct (rb_entries_ok _ _ _ Hok) as [-> _]. Qed.

Lemma rb_unchanged T a a' :
  rwf T a -> al_live a' = al_live a -> al_inv a' -> rwf T a' /\ rframe T a T a'.
Proof. intros (Hi & _ & Ho) Hl Ha. unfold e_wf, e_frame. by rewrite Hl. Qed.

(** A search finds the node with the key, and only then the key is stored. *)
Lemma rb_search_spec T nl t k :
  rb_ok T nl t ->
  (exists ctx p c kb vb l r, rbtree_search (fuel_of T) T k = Ok p /\ plug ctx (Bin p c kb (Some vb) l r) = t /\
     b_str kb = k /\ p <> nl /\ zip T nl ctx (Bin p c kb (Some vb) l r) /\
     bag_map (entries t) !! k = Some (b_str vb)) \/
  (rbtree_search (fuel_of T) T k = Ok nl /\ bag_map (entries t) !! k = None /\
   Forall (fun i => it_key i <> k) (inorder t)).
Proof.
  intros Hok. pose proof (ro_zip _ _ _ Hok) as Hz. unfold rbtree_search, fuel_of.
  rewrite (z_root _ _ _ _ Hz). change (plug [] t) with t.
  rewrite (search_locate _ T nl k [] t Hz) by (rewrite (rb_size _ _ _ Hok); pose proof (height_inorder t); lia).
  destruct (locate_around k [] t) as [Hard Hloc]; [apply Hok | by split; constructor |].
  pose proof (locate_plug k [] t) as Hpl. change (plug [] t) with t in Hpl.
  destruct (locate k [] t) as [ctx t0]. cbn [fst snd] in *. destruct t0 as [| a c kb v l r].
  - right. split; [done |]. pose proof (around_not_in _ _ Hard) as Hni.
    rewrite <- Hpl at 2. rewrite inorder_plug. split; [| done].
    apply bag_lookup_none. unfold entries. rewrite <- Hpl, inorder_plug. cbn [inorder app].
    apply Forall_forall. intros e He. apply list_elem_of_omap in He as ([[x kx] vx] & Hx & Hxe).
    destruct vx as [vb |]; [| done]. injection Hxe as <-. cbn.
    rewrite Forall_forall in Hni. by apply (Hni (x, kx, Some vb)).
  - left. pose proof (ro_vals _ _ _ Hok) as Hv. rewrite <- Hpl, inorder_plug in Hv. cbn in Hv.
    rewrite !Forall_app in Hv. destruct Hv as (_ & (_ & Hv) & _). apply Forall_cons in Hv as [[vb Hvb] _].
    cbn in Hvb. subst v.
    assert (Hz' : zip T nl ctx (Bin a c kb (Some vb) l r)) by (by eapply zip_move; [| exact Hz]).
    destruct (zip_node _ _ _ _ _ _ _ _ _ Hz') as [_ Hne].
    exists ctx, a, c, kb, vb, l, r. repeat (split; [done |]). rewrite <- Hloc.
    apply (bag_lookup_some [nl] _ (Entry (b_str kb) (b_str vb) [b_addr vb; b_addr kb; a])); [apply Hok |].
    unfold entries. rewrite <- Hpl, inorder_plug. cbn [inorder]. rewrite <- app_assoc. cbn [app].
    rewrite app_assoc, entries_mid. by left.
Qed.

Lemma rb_get_spec T k :
  (exists nl t, rb_ok T nl t) ->
  exists ob, kvs_rbtree_get T (Some k) = Ok ob /\ option_map b_str ob = bag_map (rb_entries T) !! k.
Proof.
  intros (nl & t & Hok). rewrite (rb_map_ok _ _ _ Hok). unfold kvs_rbtree_get.
  destruct (rb_search_spec T nl t k Hok) as [(ctx & a & c & kb & vb & l & r & -> & _ & _ & Hne & Hz & ->) | (-> & -> & _)];
    run; destruct (rb_entries_ok _ _ _ Hok) as [_ ->].
  - rewrite (proj2 (Z.eqb_neq a nl)) by done. unfold ld. destruct (zip_node _ _ _ _ _ _ _ _ _ Hz) as [-> _]. run. eauto.
  - rewrite Z.eqb_refl. by exists None.
Qed.

Lemma rb_exist_spec T k :
  (exists nl t, rb_ok T nl t) ->
  exists r, kvs_rbtree_exist T (Some k) = Ok r /\ (r = 0 <-> is_Some (bag_map (rb_entries T) !! k)).
Proof.
  intros (nl & t & Hok). rewrite (rb_map_ok _ _ _ Hok). unfold kvs_rbtree_exist.
  destruct (rb_search_spec T nl t k Hok) as [(ctx & a & c & kb & vb & l & r & -> & _ & _ & Hne & Hz & ->) | (-> & -> & _)];
    run; destruct (rb_entries_ok _ _ _ Hok) as [_ ->].
  - rewrite (proj2 (Z.eqb_neq a nl)) by done. eexists. split; [done |]. split; eauto.
  - rewrite Z.eqb_refl. eexists. split; [done |]. split; [done |]. by intros [? ?].
Qed.

(** *** [set] *)

Lemma fresh_outside nl t p a :
  bag_wf [nl] (entries t) a -> Forall (fun x : item => is_Some x.2) (inorder t) -> p ∉ al_live a -> p ∉ nl :: taddrs t.
Proof.
  intros (_ & _ & Ho) Hv Hp Hin. apply Hp, Ho. unfold bag_owned. apply elem_of_list_to_set.
  apply elem_of_cons in Hin as [-> | Hin]; [unfold bag_addrs; set_solver |]. by apply entries_in_bag.
Qed.

(** The three allocations of [kvs_rbtree_set]. *)
Lemma rb_insert_engine T nl t a z kb vb a' :
  rb_ok T nl t -> bag_wf [nl] (entries t) a ->
  Forall (fun i => it_key i <> b_str kb) (inorder t) ->
  NoDup [b_addr vb; b_addr kb; z] -> list_to_set [b_addr vb; b_addr kb; z] ## al_live a ->
  al_live a' = list_to_set [b_addr vb; b_addr kb; z] ∪ al_live a -> al_inv a' ->
  let T1 := with_node T z (RBNode BLACK NULL NULL NULL (Some kb) (Some vb)) in
  exists T' t', rbtree_insert (fuel_of T1) T1 z = Ok T' /\ rb_ok T' nl t' /\ bag_wf [nl] (entries t') a' /\
    bag_frame [nl] (entries t) a (entries t') a' /\
    bag_map (entries t') = <[b_str kb := b_str vb]> (bag_map (entries t)).
Proof.
  intros Hok Hb Hnew Hnd Hd Hl Hi T1. pose proof (ro_zip _ _ _ Hok) as Hz.
  assert (Hfresh : z ∉ nl :: taddrs t).
  { eapply fresh_outside; [exact Hb | apply Hok |]. clear - Hd. set_solver. }
  assert (Hz1 : zip T1 nl [] t).
  { apply zip_insert_out; [done |]. unfold zaddrs. cbn. by rewrite app_nil_r. }
  assert (Hdom1 : dom (rb_nodes T1) = list_to_set (nl :: z :: taddrs t)).
  { cbn [T1 with_node rb_nodes]. rewrite dom_insert_L, (ro_dom _ _ _ Hok). cbn. clear. set_solver. }
  destruct (insert_spec (fuel_of T1) T1 nl t z (RBNode BLACK NULL NULL NULL (Some kb) (Some vb)) kb (Some vb))
    as (T' & t' & l1 & l2 & He & Hz' & Hr' & Hb' & Hin & Hin' & Hk); try done.
  { apply Hok. } { apply Hok. }
  { unfold fuel_of. cbn. rewrite map_size_insert_None; [rewrite (rb_size _ _ _ Hok); lia |].
    apply not_elem_of_dom. rewrite (ro_dom _ _ _ Hok). by rewrite elem_of_list_to_set. }
  { cbn. by rewrite lookup_insert_eq. }
  assert (Hp : entries t' ≡ₚ Entry (b_str kb) (b_str vb) [b_addr vb; b_addr kb; z] :: entries t).
  { unfold entries. by rewrite Hin', Hin, entries_mid. }
  assert (Hnone : bag_map (entries t) !! b_str kb = None).
  { apply bag_lookup_none. apply Forall_forall. intros e Hee. apply list_elem_of_omap in Hee as ([[x kx] vx] & Hx & Hxe).
    destruct vx as [vx |]; [| done]. injection Hxe as <-. cbn. rewrite Forall_forall in Hnew. by apply (Hnew (x, kx, Some vx)). }
  destruct (bag_add_perm [nl] _ _ _ a a' Hb Hp Hnone Hnd Hd Hl Hi) as (Hw & Hfr & Hm).
  assert (Hta : taddrs t' ≡ₚ z :: taddrs t).
  { rewrite !taddrs_inorder. unfold addrs. rewrite Hin', Hin, !fmap_app. cbn. by rewrite <- Permutation_middle. }
  exists T', t'. split; [done |]. split; [| done]. split; try done.
  - rewrite Hin'. pose proof (ro_vals _ _ _ Hok) as Hv. rewrite Hin in Hv. apply Forall_app in Hv as [? ?].
    apply Forall_app. split; [done |]. constructor; [by eexists | done].
  - rewrite (dom_keeps T1 T' nl t' (z :: taddrs t)); [| done | | | done].
    + apply set_eq. intros p. rewrite !elem_of_list_to_set. by rewrite Hta.
    + intros p Hp'. apply Hk. clear - Hp'. set_solver.
    + intros p Hp'. left. by rewrite Hta.
  - apply Hw.
Qed.

Lemma rb_set_spec T a k v :
  rwf T a -> (kvs_malloc 48 a).1 <> None ->
  exists r T' a', kvs_rbtree_set T (Some k) (Some v) a = Ok (r, T', a') /\
    (rwf T' a' /\ rframe T a T' a') /\
    (set_spec false (bag_map (rb_entries T)) k v r (bag_map (rb_entries T')) \/
     r = -2 /\ T' = T /\ al_can_fail A).
Proof.
  intros Hwf Hnode. pose proof Hwf as ((nl & t & Hok) & Hal & _). pose proof (rb_bag _ _ _ _ Hok Hwf) as Hb.
  unfold kvs_rbtree_set. destruct (rb_get_spec T k ltac:(eauto)) as (ob & -> & Hob). run.
  destruct ob as [b |]; cbn in Hob.
  { eexists _, _, _. split; [done |]. split; [done |]. left. by eapply set_exists. }
  destruct (kvs_malloc 48 a) as [[z |] a1] eqn:Hm; [| done]. run.
  destruct (malloc_some _ _ _ _ Hal Hm) as (Hzf & Hl1 & Hi1).
  destruct (dup_str k a1) as [[kb |] a2] eqn:Hd1.
  2: { destruct (dup_str_none _ _ _ Hi1 Hd1) as [Hl2 Hi2].
       destruct (free_live z a2) as [Hl3 Hi3]; [done | rewrite Hl2, Hl1; clear; set_solver |].
       eexists _, _, _. split; [done |]. split; [| right; eauto using dup_str_fails].
       apply rb_unchanged; [done | | done]. rewrite Hl3, Hl2, Hl1. clear - Hzf. set_solver. }
  destruct (dup_str_some _ _ _ _ Hi1 Hd1) as (Hks & Hkf & Hl2 & Hi2).
  destruct (dup_str v a2) as [[vb |] a3] eqn:Hd2.
  2: { destruct (dup_str_none _ _ _ Hi2 Hd2) as [Hl3 Hi3]. rewrite Hl1 in Hkf.
       destruct (free_all [b_addr kb; z] a3) as [Hl4 Hi4]; [done | | rewrite Hl3, Hl2, Hl1; clear; set_solver |].
       { constructor; [clear - Hkf; set_solver | apply NoDup_singleton]. }
       cbn in Hl4, Hi4. eexists _, _, _. split; [done |]. split; [| right; eauto using dup_str_fails].
       apply rb_unchanged; [done | | done]. rewrite Hl4, Hl3, Hl2, Hl1. clear - Hzf Hkf. set_solver. }
  destruct (dup_str_some _ _ _ _ Hi2 Hd2) as (Hvs & Hvf & Hl3 & Hi3). rewrite Hl2, Hl1 in *.
  rewrite (rb_map_ok _ _ _ Hok) in Hob.
  destruct (rb_search_spec T nl t k Hok) as [(? & ? & ? & ? & ? & ? & ? & _ & _ & _ & _ & _ & Hs) | (_ & _ & Hnew)];
    [congruence |].
  destruct (rb_insert_engine T nl t a z kb vb a3 Hok Hb) as (T' & t' & -> & Hok' & Hw & Hfr & Hm').
  { by rewrite Hks. }
  { constructor; [| constructor; [| apply NoDup_singleton]]; clear - Hkf Hvf; set_solver. }
  { clear - Hzf Hkf Hvf. set_solver. }
  { rewrite Hl3. clear. set_solver. }
  { done. }
  run. eexists _, _, _. split; [done |]. split; [by eapply rb_result |].
  left. rewrite (rb_map_ok _ _ _ Hok), (rb_map_ok _ _ _ Hok'), Hm', Hks, Hvs. by apply set_new.
Qed.

(** *** [del], [mod] *)

Lemma zip_delete_out T nl ctx t p :
  zip T nl ctx t -> p ∉ nl :: zaddrs ctx t ->
  zip (RBTree (root T) (nil T) (delete p (rb_nodes T))) nl ctx t.
Proof.
  intros [Hn Hr Hc Ht Hd Hs] Hp. unfold zaddrs in Hp. apply not_elem_of_cons in Hp as [Hp0 Hp].
  apply not_elem_of_app in Hp as [Hp1 Hp2]. split; cbn; try done.
  - eapply repc_ext; [| exact Hc]. intros q Hq. apply lookup_delete_ne. by intros ->.
  - eapply rep_ext; [| exact Ht]. intros q Hq. apply lookup_delete_ne. by intros ->.
  - by rewrite lookup_delete_ne by done.
Qed.

(** What [rbtree_delete] on the node of [kb] leaves behind: the entry that
    leaves has the blocks of the key and of the value and the node [y] that was
    taken out. *)
Record removes (T : rbtree) (nl : Z) (t : tree) (kb vb : block) (a : A) (T' : rbtree) (t' : tree) (y : Z) : Prop := {
  rm_zip : zip T' nl [] t';
  rm_rb : rbt t';
  rm_bst : bst t';
  rm_vals : Forall (fun x : item => is_Some x.2) (inorder t');
  rm_addrs : taddrs t ≡ₚ y :: taddrs t';
  rm_node : exists n, rb_nodes T' !! y = Some n /\ rb_key n = Some kb /\ rb_value n = Some vb;
  rm_keeps : keeps T T' (nl :: taddrs t);
  rm_bag : bag_wf [nl] (Entry (b_str kb) (b_str vb) [b_addr vb; b_addr kb; y] :: entries t') a;
  rm_owned : bag_owned [nl] (Entry (b_str kb) (b_str vb) [b_addr vb; b_addr kb; y] :: entries t')
             = bag_owned [nl] (entries t);
  rm_map : bag_map (Entry (b_str kb) (b_str vb) [b_addr vb; b_addr kb; y] :: entries t') = bag_map (entries t)
}.

Section Delete.
Variables (T : rbtree) (nl : Z) (ctx : list frame) (p : Z) (c : color_t) (kb vb : block) (l r : tree) (a : A).

Local Notation t := (plug ctx (Bin p c kb (Some vb) l r)).
Local Notation others := ((pre ctx ++ inorder l) ++ inorder r ++ post ctx).

Hypothesis Hok : rb_ok T nl t.
Hypothesis Hz : zip T nl ctx (Bin p c kb (Some vb) l r).
Hypothesis Hb : bag_wf [nl] (entries t) a.

Lemma del_inorder : inorder t = (pre ctx ++ inorder l) ++ (p, kb, Some vb) :: inorder r ++ post ctx.
Proof. rewrite inorder_plug. cbn. by rewrite <- !app_assoc. Qed.

Lemma del_entries :
  entries t ≡ₚ Entry (b_str kb) (b_str vb) [b_addr vb; b_addr kb; p] :: omap item_entry others.
Proof. unfold entries. rewrite del_inorder. apply entries_mid. Qed.

Lemma del_taddrs : taddrs t ≡ₚ p :: ((fun x : item => x.1.1) <$> others).
Proof.
  rewrite taddrs_inorder. unfold addrs. rewrite del_inorder, !fmap_app. cbn.
  rewrite <- Permutation_middle. by rewrite fmap_app.
Qed.

Lemma del_sorted : StronglySorted it_lt others /\ Forall (fun x : item => is_Some x.2) others.
Proof.
  pose proof (ro_vals _ _ _ Hok) as Hv. pose proof (ro_bst _ _ _ Hok) as Hs. unfold bst in Hs.
  rewrite del_inorder in Hv, Hs. apply sorted_app_inv in Hs as (_ & _ & Hs).
  apply Forall_app in Hv as [Hv1 Hv2]. apply Forall_cons in Hv2 as [_ Hv2]. split; [done | by apply Forall_app].
Qed.

Lemma del_zaddrs : zaddrs ctx (Bin p c kb (Some vb) l r) ≡ₚ taddrs t.
Proof. unfold zaddrs. by rewrite zip_addrs, taddrs_inorder. Qed.

Lemma del_fuel : (length (inorder t) <= fuel_of T)%nat.
Proof. unfold fuel_of. rewrite (rb_size _ _ _ Hok). lia. Qed.

Lemma rb_delete_simple :
  l = Leaf \/ r = Leaf ->
  exists T' t', rbtree_delete (fuel_of T) T p = Ok (T', p) /\ removes T nl t kb vb a T' t' p.
Proof.
  intros Hch. destruct (zip_node _ _ _ _ _ _ _ _ _ Hz) as [Hnode _]. destruct del_sorted as [Hs Hv].
  destruct (delete_simple (fuel_of T) T nl ctx p c kb (Some vb) l r Hz (ro_rb _ _ _ Hok) Hch del_fuel)
    as (T' & t' & He & Hz1 & Hr1 & Hin1 & Hn1 & Hk1). rewrite app_assoc in Hin1.
  pose proof del_entries as Hp.
  assert (He' : omap item_entry others = entries t') by (unfold entries; by rewrite Hin1). rewrite He' in Hp.
  exists T', t'. split; [done |]. split.
  - done.
  - done.
  - unfold bst. by rewrite Hin1.
  - by rewrite Hin1.
  - rewrite del_taddrs, (taddrs_inorder t'). unfold addrs. by rewrite Hin1.
  - rewrite Hn1. eauto.
  - eapply keeps_sub; [exact Hk1 |]. intros x. by rewrite del_zaddrs.
  - by eapply bag_wf_perm.
  - symmetry. by apply bag_owned_perm.
  - symmetry. eapply bag_map_perm; [apply Hb | done].
Qed.

Lemma rb_delete_double :
  l <> Leaf -> r <> Leaf ->
  exists T' t' y, rbtree_delete (fuel_of T) T p = Ok (T', y) /\ removes T nl t kb vb a T' t' y.
Proof.
  intros Hl Hr. destruct del_sorted as [Hs Hv].
  destruct (delete_double (fuel_of T) T nl ctx p c kb (Some vb) l r Hz (ro_rb _ _ _ Hok) Hl Hr del_fuel)
    as (T' & t' & y & yk & yv & rest & n & He & Hz1 & Hr1 & Hinr & Hin1 & Hn1 & Hkn & Hvn & Hk1).
  pose proof del_entries as Hp. pose proof del_taddrs as Ht.
  rewrite Hinr in Hs, Hv, Hp, Ht. rewrite app_assoc in Hin1. cbn [app] in *.
  apply Forall_app in Hv as [Hv1 Hv2]. apply Forall_cons in Hv2 as [[yvb Hyv] Hv2]. cbn in Hyv. subst yv.
  set (E1 := Entry (b_str kb) (b_str vb) [b_addr vb; b_addr kb; y]).
  set (es := omap item_entry ((pre ctx ++ inorder l) ++ rest ++ post ctx)).
  assert (Hp' : entries t' ≡ₚ Entry (b_str yk) (b_str yvb) [b_addr yvb; b_addr yk; p] :: es)
    by (unfold entries; by rewrite Hin1, entries_mid).
  rewrite entries_mid in Hp. fold es in Hp.
  destruct (bag_swap [nl] es (b_str kb) (b_str vb) [b_addr vb; b_addr kb] p (b_str yk) (b_str yvb)
    [b_addr yvb; b_addr yk] y a ltac:(by eapply bag_wf_perm)) as [Hw' Ho']. cbn [app] in Hw', Ho'.
  assert (Hp2 : E1 :: entries t' ≡ₚ E1 :: Entry (b_str yk) (b_str yvb) [b_addr yvb; b_addr yk; p] :: es) by (by rewrite Hp').
  assert (Hw2 : bag_wf [nl] (E1 :: entries t') a) by (by eapply bag_wf_perm; [symmetry; exact Hp2 |]).
  exists T', t', y. split; [done |]. split.
  - done.
  - done.
  - unfold bst. rewrite Hin1. apply sorted_app_inv in Hs as (Hy1 & Hy2 & Hy3). by apply sorted_app_intro.
  - rewrite Hin1. apply Forall_app. split; [done |]. constructor; [by eexists | done].
  - rewrite Ht, (taddrs_inorder t'). unfold addrs. rewrite Hin1, !fmap_app. cbn.
    rewrite <- !Permutation_middle, !fmap_app. apply Permutation_swap.
  - eauto.
  - eapply keeps_sub; [exact Hk1 |]. intros x. by rewrite del_zaddrs.
  - done.
  - rewrite (bag_owned_perm _ _ _ Hp2). unfold E1. rewrite Ho'. symmetry. by apply bag_owned_perm.
  - fold E1. rewrite (bag_map_perm _ _ _ (proj1 Hw2) Hp2), (bag_map_perm _ _ _ (proj1 Hb) Hp). done.
Qed.

Lemma rb_delete_entry :
  exists T' t' y, rbtree_delete (fuel_of T) T p = Ok (T', y) /\ removes T nl t kb vb a T' t' y.
Proof.
  destruct (decide (l = Leaf \/ r = Leaf)) as [Hch | Hch].
  - destruct (rb_delete_simple Hch) as (T' & t' & ? & ?). eauto.
  - apply rb_delete_double; tauto.
Qed.

(** The node taken out is released. *)
Lemma rb_release T' t' y :
  removes T nl t kb vb a T' t' y ->
  exists T2 a', free_rbnode T' y a = Ok (T2, a') /\ rb_ok T2 nl t' /\ bag_wf [nl] (entries t') a' /\
    bag_frame [nl] (entries t) a (entries t') a' /\ bag_map (entries t') = delete (b_str kb) (bag_map (entries t)).
Proof.
  intros [Hz1 Hr1 Hb1 Hv1 Hta (n & Hn & Hkn & Hvn) Hk1 Hw Ho Hm].
  unfold free_rbnode, ld. rewrite Hn. run. rewrite Hkn, Hvn. cbn [rb_free_opt].
  set (e := Entry (b_str kb) (b_str vb) [b_addr vb; b_addr kb; y]) in *.
  pose proof Hw as ([_ Hnd] & Hal & Hsub). rewrite bag_addrs_cons in Hnd. apply NoDup_app in Hnd as (Hnd & Hyout & _).
  rewrite bag_owned_cons in Hsub. cbn [en_addrs e] in Hnd, Hyout, Hsub.
  destruct (free_all [b_addr kb; b_addr vb; y] a) as [Hl' Hi].
  { done. }
  { by rewrite (Permutation_swap (b_addr kb) (b_addr vb) [y]) in Hnd. }
  { clear - Hsub. set_solver. }
  cbn [fold_left] in Hl', Hi.
  destruct (bag_remove [nl] (entries t') e a (kvs_free y (kvs_free (b_addr vb) (kvs_free (b_addr kb) a))) Hw)
    as (Hw' & Hfr & Hm'); [rewrite Hl'; cbn; clear; set_solver | done |].
  pose proof (z_nodup _ _ _ _ (ro_zip _ _ _ Hok)) as Hd. cbn [caddrs] in Hd. rewrite app_nil_r, Hta in Hd.
  apply NoDup_cons in Hd as [Hnl Hd]. apply NoDup_cons in Hd as [Hyt _].
  eexists _, _. split; [done |]. split; [split; try done | split; [done | split]].
  - apply zip_delete_out; [done |]. unfold zaddrs. cbn. rewrite app_nil_r. clear - Hyt Hnl. set_solver.
  - assert (Hdom : dom (rb_nodes T') = list_to_set (nl :: taddrs t)).
    { apply (dom_keeps T T' nl t'); [done | done | | apply Hok].
      intros q Hq. rewrite Hta in Hq. apply elem_of_cons in Hq as [-> | Hq]; [right; eauto | by left]. }
    cbn [rb_nodes]. rewrite dom_delete_L, Hdom. apply set_eq. intros q.
    rewrite elem_of_difference, !elem_of_list_to_set, Hta. clear - Hyt Hnl. set_solver.
  - apply Hw'.
  - unfold bag_frame in *. rewrite Ho in Hfr. exact Hfr.
  - rewrite Hm', Hm. done.
Qed.

End Delete.

Lemma rb_del_spec T a k :
  rwf T a ->
  exists r T' a', kvs_rbtree_del T (Some k) a = Ok (r, T', a') /\
    (rwf T' a' /\ rframe T a T' a') /\
    del_spec 1 (bag_map (rb_entries T)) k r (bag_map (rb_entries T')).
Proof.
  intros Hwf. pose proof Hwf as ((nl & t & Hok) & Hal & _). pose proof (rb_bag _ _ _ _ Hok Hwf) as Hb.
  unfold kvs_rbtree_del. rewrite (rb_map_ok _ _ _ Hok).
  destruct (rb_search_spec T nl t k Hok) as [(ctx & p & c & kb & vb & l & r & -> & Hpl & Hk & Hne & Hz & Hs) | (-> & Hnone & _)];
    run; destruct (rb_entries_ok _ _ _ Hok) as [_ ->].
  2: { rewrite Z.eqb_refl. eexists _, _, _. split; [done |]. split; [done |].
       rewrite (rb_map_ok _ _ _ Hok). by apply del_missing. }
  rewrite (proj2 (Z.eqb_neq p nl)) by done. subst t.
  destruct (rb_delete_entry T nl ctx p c kb vb l r a Hok Hz Hb) as (T1 & t1 & y & -> & Hrm). run.
  destruct (rb_release T nl ctx p c kb vb l r a Hok T1 t1 y Hrm) as (T2 & a2 & -> & Hok' & Hw & Hfr & Hm). run.
  eexists _, _, _. split; [done |]. split; [by eapply rb_result |].
  rewrite (rb_map_ok _ _ _ Hok'), Hm, Hk. by eapply del_present.
Qed.

(** The old value is released first: when the allocation fails, the key keeps
    its node but has no value any more. *)
Lemma rb_mod_spec T a k v :
  rwf T a ->
  (exists r T' a', kvs_rbtree_mod T (Some k) (Some v) a = Ok (r, T', a') /\
    (rwf T' a' /\ rframe T a T' a') /\ mod_spec (bag_map (rb_entries T)) k v r (bag_map (rb_entries T'))) \/
  (exists T' a', kvs_rbtree_mod T (Some k) (Some v) a = Ok (-2, T', a') /\ al_can_fail A).
Proof.
  intros Hwf. pose proof Hwf as ((nl & t & Hok) & Hal & _). pose proof (rb_bag _ _ _ _ Hok Hwf) as Hb.
  unfold kvs_rbtree_mod. rewrite (rb_map_ok _ _ _ Hok).
  destruct (rb_search_spec T nl t k Hok) as [(ctx & p & c & kb & vb & l & r & -> & Hpl & Hk & Hne & Hz & Hs) | (-> & Hnone & _)];
    run; destruct (rb_entries_ok _ _ _ Hok) as [_ ->].
  2: { left. rewrite Z.eqb_refl. eexists _, _, _. split; [done |]. split; [done |].
       rewrite (rb_map_ok _ _ _ Hok). by apply mod_missing. }
  rewrite (proj2 (Z.eqb_neq p nl)) by done. subst t.
  destruct (zip_node _ _ _ _ _ _ _ _ _ Hz) as [Hnode _]. unfold ld. rewrite Hnode. run. cbn [rb_value rb_key rb_free_opt].
  pose proof (fun v => del_inorder ctx p c kb v l r) as Hin.
  pose proof (fun v => del_entries ctx p c kb v l r) as Hp.
  assert (Hvl : b_addr vb ∈ al_live a).
  { apply (proj2 (proj2 Hb)). rewrite (bag_owned_perm _ _ _ (Hp vb)), bag_owned_cons. cbn. clear. set_solver. }
  destruct (free_live (b_addr vb) a Hal Hvl) as [Hl1 Hi1].
  destruct (dup_str v (kvs_free (b_addr vb) a)) as [[nv |] a2] eqn:Hd.
  2: { right. unfold st_kv, st, ld. rewrite Hnode. run. eexists _, _. split; [done |]. by eapply dup_str_fails. }
  left. destruct (dup_str_some _ _ _ _ Hi1 Hd) as (Hvs & Hvf & Hl2 & Hi2).
  destruct (zip_st_kv _ _ _ _ _ _ _ kb (Some nv) _ _ Hz) as (T1 & -> & Hz1 & Hk1). run.
  rewrite Hl1 in Hvf, Hl2.
  destruct (bag_replace_perm [nl] _ _ _ _ _ _ _ _ _ a a2 Hb (Hp vb) (Hp nv) Hvf Hl2 Hi2) as (Hw & Hfr & Hm).
  assert (Hok' : rb_ok T1 nl (plug ctx (Bin p c kb (Some nv) l r))).
  { pose proof (ro_vals _ _ _ Hok) as Hv. pose proof (ro_bst _ _ _ Hok) as Hbst. unfold bst in Hbst.
    rewrite Hin in Hv, Hbst. apply Forall_app in Hv as [Hv1 Hv2]. apply Forall_cons in Hv2 as [_ Hv2].
    assert (Hta : taddrs (plug ctx (Bin p c kb (Some nv) l r)) ≡ₚ taddrs (plug ctx (Bin p c kb (Some vb) l r)))
      by (by rewrite !del_taddrs).
    split.
    - by apply (zip_top T1 nl ctx).
    - eapply rbt_payload, Hok.
    - unfold bst. rewrite Hin. apply sorted_app_inv in Hbst as (? & ? & ?). by apply sorted_app_intro.
    - rewrite Hin. apply Forall_app. split; [done |]. constructor; [by eexists | done].
    - rewrite (dom_keeps T T1 nl (plug ctx (Bin p c kb (Some nv) l r)) (taddrs (plug ctx (Bin p c kb (Some vb) l r)))).
      + apply set_eq. intros q. rewrite !elem_of_list_to_set. by rewrite Hta.
      + by apply (zip_top T1 nl ctx).
      + eapply keeps_sub; [exact Hk1 |]. intros q Hq. apply list_elem_of_singleton in Hq as ->.
        rewrite del_taddrs. right. by left.
      + intros q Hq. left. by rewrite Hta.
      + apply Hok.
    - apply Hw. }
  eexists _, _, _. split; [done |]. split; [by eapply rb_result |].
  rewrite (rb_map_ok _ _ _ Hok'), Hm, Hk, Hvs. by eapply mod_present.
Qed.

(** The red-black tree implements the engine interface. *)
#[export] Instance rb_laws `{!AllocatorTotal A} : EngineLaws A rbtree (H0 := rb_engine).
Proof.
  split.
  - intros e a k v Hwf. destruct (rb_set_spec e a k v Hwf) as (r & e' & a' & He & [Hw Hf] & Hs).
    { destruct (malloc_total 48 a ltac:(pos_size)) as (p & a' & ->). done. }
    exists r, e', a'. repeat (split; [done |]). destruct Hs as [Hs | (_ & _ & Hc)]; [by left |].
    by apply total_no_fail in Hc.
  - intros e k Hinv. cbn [e_get e_map rb_engine].
    destruct (rb_get_spec e k Hinv) as (ob & -> & <-). done.
  - intros e a k Hwf. destruct (rb_del_spec e a k Hwf) as (r & e' & a' & He & [Hw Hf] & Hs). eauto 10.
  - intros e a k v Hwf. destruct (rb_mod_spec e a k v Hwf) as [(r & e' & a' & He & [Hw Hf] & Hs) | (T' & a' & _ & Hc)].
    + eauto 10.
    + by apply total_no_fail in Hc.
  - intros e k Hinv. by apply rb_exist_spec.
  - done.
  - by intros e [k |] [v |] a [? | ?].
  - done.
  - intros e a. by eexists.
  - done.
  - intros e. by eexists.
Qed.

(** *** Creation and destruction *)

Lemma rb_create_spec junk rt n0 a p a' :
  al_inv a -> kvs_malloc 48 a = (Some p, a') ->
  exists T, kvs_rbtree_create (RBTree rt n0 ∅) junk a = Ok (0, T, a') /\
    rwf T a' /\ bag_map (rb_entries T) = ∅ /\ al_live a' ∖ bag_owned [nil T] (rb_entries T) = al_live a.
Proof.
  intros Hal Hm. unfold kvs_rbtree_create. rewrite Hm. run.
  destruct (malloc_some _ _ _ _ Hal Hm) as (Hf & Hl & Hi). eexists. split; [done |].
  set (T := RBTree p p _).
  assert (Hok : rb_ok T p Leaf).
  { split; try done.
    - split; cbn; try done; [apply NoDup_singleton |]. rewrite lookup_insert_eq. by eexists.
    - exists O. constructor.
    - constructor.
    - cbn [T rb_nodes]. rewrite dom_insert_L, dom_empty_L. cbn. clear. set_solver.
    - split; cbn; [constructor | apply NoDup_singleton]. }
  unfold e_wf. cbn [e_inv e_owned rb_engine]. destruct (rb_entries_ok _ _ _ Hok) as [-> ->].
  split; [split; [eauto |]; split; [done |] |]; cbn; rewrite Hl.
  - clear. set_solver.
  - split; [done |]. clear - Hf. set_solver.
Qed.

Lemma rb_destroy_loop_spec fuel T nl t a :
  rb_ok T nl t -> bag_wf [nl] (entries t) a -> (length (inorder t) <= fuel)%nat ->
  exists T' a', rb_destroy_loop fuel T a = Ok (T', a') /\ nil T' = nl /\ bag_wf [nl] [] a' /\
    bag_frame [nl] (entries t) a [] a'.
Proof.
  revert T t a. induction fuel as [| fuel IH]; intros T t a Hok Hb Hf; pose proof (ro_zip _ _ _ Hok) as Hz;
    (destruct t as [| p c kb v l r];
     [exists T, a; split; [cbn; by rewrite (z_root _ _ _ _ Hz), (z_nil _ _ _ _ Hz), Z.eqb_refl |];
      split; [apply (z_nil _ _ _ _ Hz) |]; split; [done | by apply bag_frame_refl] |]).
  - cbn in Hf. rewrite length_app in Hf. cbn in Hf. lia.
  - destruct (zip_node _ _ _ _ _ _ _ _ _ Hz) as [_ Hne]. cbn [rb_destroy_loop].
    rewrite (z_root _ _ _ _ Hz), (z_nil _ _ _ _ Hz). cbn [plug fold_left addr].
    rewrite (proj2 (Z.eqb_neq p nl)) by done. remember (Bin p c kb v l r) as t eqn:Ht.
    assert (Hp0 : p = addr nl t) by (by rewrite Ht). assert (Hnl : t <> Leaf) by (by rewrite Ht).
    clear Ht. rewrite Hp0.
    destruct (mini_spec (fuel_of T) T nl [] t Hz Hnl) as (c1 & y & yc & yk & yv & yr & -> & Hp & Hpre).
    { unfold fuel_of. rewrite (rb_size _ _ _ Hok). lia. } run.
    assert (Hv : exists vb, yv = Some vb).
    { pose proof (ro_vals _ _ _ Hok) as Hv. rewrite Hp, inorder_plug in Hv. cbn in Hv.
      apply Forall_app in Hv as [_ Hv]. apply Forall_cons in Hv as [[vb Hvb] _]. eauto. }
    destruct Hv as [vb ->].
    assert (Hzy : zip T nl c1 (Bin y yc yk (Some vb) Leaf yr)) by (eapply zip_move; [| exact Hz]; exact Hp).
    rewrite Hp in Hok, Hb.
    destruct (rb_delete_entry T nl c1 y yc yk vb Leaf yr a Hok Hzy Hb) as (T1 & t1 & y1 & -> & Hrm). run.
    destruct (rb_release T nl c1 y yc yk vb Leaf yr a Hok T1 t1 y1 Hrm) as (T2 & a2 & -> & Hok' & Hw & Hfr & _). run.
    destruct (IH T2 t1 a2 Hok' Hw) as (T' & a' & He & Hn & Hw' & Hfr').
    { assert (Hlen : length (taddrs t) = S (length (taddrs t1))) by (rewrite Hp, (rm_addrs _ _ _ _ _ _ _ _ _ Hrm); done).
      rewrite !taddrs_inorder in Hlen. unfold addrs in Hlen. rewrite !length_fmap in Hlen. lia. }
    exists T', a'. repeat (split; [done |]). unfold bag_frame in *. rewrite Hfr', Hfr, <- Hp. done.
Qed.

(** [kvs_rbtree_destory] terminates and releases exactly the blocks of the
    engine. *)
Lemma rb_destroy_spec T a :
  rwf T a ->
  exists T' a', kvs_rbtree_destory T a = Ok (T', a') /\ nil T' = NULL /\ root T' = NULL /\
    al_live a' = al_live a ∖ bag_owned [nil T] (rb_entries T) /\ al_inv a'.
Proof.
  intros Hwf. pose proof Hwf as ((nl & t & Hok) & Hal & _). pose proof (rb_bag _ _ _ _ Hok Hwf) as Hb.
  unfold kvs_rbtree_destory. destruct (rb_entries_ok _ _ _ Hok) as [-> ->].
  destruct (rb_destroy_loop_spec (fuel_of T) T nl t a Hok Hb) as (T' & a' & -> & Hn & (_ & Hi & Hsub) & Hfr).
  { unfold fuel_of. rewrite (rb_size _ _ _ Hok). lia. }
  run. rewrite Hn. eexists _, _. split; [done |]. split; [done |]. split; [done |].
  assert (Hone : bag_owned [nl] [] = {[nl]}) by (cbn; clear; set_solver).
  unfold bag_frame in Hfr. rewrite Hone in Hfr, Hsub.
  destruct (free_live nl a') as [-> Hi']; [done | clear - Hsub; set_solver | by split].
Qed.

End RbEngineFacts.
