(* ===== verification/EngineClaims.v ===== *)
(** * EngineClaims: what the four storage engines guarantee

    For each engine, the life of an instance: created, put through any list of
    requests, destroyed. The answers are those of a finite map, every block is
    returned, and for the three engines that test their allocations this holds
    when any of them is answered with NULL. Then the depth of a search in the
    red-black tree, the levels of the skip list, and the paths on which an
    engine leaves its contract. *)

From S2P Require Import Prelude Alloc Engine Bag Array Hash Skiplist SkiplistFacts Rbtree RbTheory RbHeap RbFacts RbEngine.
From Stdlib Require Import Sorted.

(** Requests used by the examples. *)
Definition sample_ops : list eop :=
  [OpSet (BS "k") (BS "1"); OpSet (BS "x") (BS "2"); OpSet (BS "k") (BS "3"); OpGet (BS "k");
   OpMod (BS "k") (BS "4"); OpGet (BS "k"); OpDel (BS "x"); OpDel (BS "x"); OpExist (BS "x");
   OpMod (BS "x") (BS "5"); OpGet (BS "x")].

Section Claims.
Context {A : Type} `{AllocatorLaws A}.
Implicit Types (a : A).

(** C8: the array engine answers any list of requests as a finite map of at
    most [SIZE] keys does (a request whose allocation fails is answered with a
    negative code and changes nothing), never leaves defined behaviour, and
    destroying it returns every block it took. The memory of its table has to
    be zero filled when the allocator returns it: [kvs_array_create] does not
    initialise it (see [array_stale_table]). *)
Theorem array_lifecycle SIZE a p a1 cells ops :
  0 < SIZE -> al_inv a -> kvs_malloc (SIZE * 16) a = (Some p, a1) ->
  cells = replicate (Z.to_nat SIZE) (Item None None) ->
  exists inst outs inst' a2,
    kvs_array_create SIZE (Array None 0 0) cells a = (0, inst, a1) /\
    e_run (ENG := array_engine SIZE) ops inst a1 = Ok (outs, inst', a2) /\
    abs_run (al_can_fail A) (fun m => Z.of_nat (size m) =? SIZE) SIZE ∅ ops outs (array_map inst') /\
    al_live (kvs_array_destory inst' a2).2 = al_live a.
Proof.
  intros Hs Hal Hm ->.
  destruct (array_create_spec SIZE 0 0 a p a1 Hal Hm ltac:(lia)) as (inst & Hc & Hwf & He & Hl).
  pose proof (array_laws SIZE Hs) as LAWS.
  destruct (run_correct ops inst a1 Hwf) as (outs & inst' & a2 & Hr & Hwf' & Hf & Habs).
  exists inst, outs, inst', a2. split_and!; [done | done | by rewrite <- He |].
  destruct (array_destroy_spec SIZE inst' a2 Hwf') as [-> _]. rewrite <- Hl. apply Hf.
Qed.

(** C7: the hash engine, whatever the hash function [XXH] (a parameter: the
    xxhash sources are a dependency), answers any list of requests as an
    unbounded finite map does, survives failing allocations without losing a
    pair, and destroying it returns every block. The memory of its chain heads
    has to be zero filled when the allocator returns it: [kvs_hash_create]
    does not initialise it (see [hash_stale_table]). *)
Theorem hash_lifecycle XXH SIZE a p a1 heads ops :
  0 < SIZE <= INT_MAX -> al_inv a -> kvs_malloc (8 * SIZE) a = (Some p, a1) ->
  heads = replicate (Z.to_nat SIZE) [] ->
  exists hash outs hash' a2 hash'' a3,
    kvs_hash_create SIZE (HashTable None 0 0) heads a = (0, hash, a1) /\
    e_run (ENG := hash_engine XXH SIZE) ops hash a1 = Ok (outs, hash', a2) /\
    abs_run (al_can_fail A) (fun _ => false) (-1) ∅ ops outs (bag_map (hash_entries hash')) /\
    kvs_hash_destory hash' a2 = Ok (hash'', a3) /\ al_live a3 = al_live a.
Proof.
  intros Hs Hal Hm ->.
  destruct (hash_create_spec XXH SIZE Hs 0 0 a p a1 Hal Hm) as (h & Hc & Hwf & He & Hl).
  pose proof (hash_laws XXH SIZE Hs) as LAWS.
  destruct (run_correct ops h a1 Hwf) as (outs & h' & a2 & Hr & Hwf' & Hf & Habs).
  destruct (hash_destroy_spec XXH SIZE h' a2 Hwf') as (h'' & a3 & Hd & _ & Hl3 & _).
  exists h, outs, h', a2, h'', a3. split_and!; [done | done | by rewrite <- He | done |].
  rewrite Hl3, <- Hl. apply Hf.
Qed.

(** C6: the skip list, whatever numbers [random] draws, answers any list of
    requests as an unbounded finite map does, survives failing allocations
    without losing a pair, and destroying it returns every block. *)
Theorem skiplist_lifecycle random l r a s a1 ops :
  al_inv a -> kvs_skiplist_create (MkSkipList None l ∅ r) a = (0, s, a1) ->
  exists outs s' a2 s'' a3,
    e_run (ENG := skip_engine random) ops s a1 = Ok (outs, s', a2) /\
    abs_run (al_can_fail A) (fun _ => false) 1 ∅ ops outs (bag_map (sk_entries s')) /\
    kvs_skiplist_destroy s' a2 = Ok (s'', a3) /\ al_live a3 = al_live a.
Proof.
  intros Hal Hc.
  destruct (skip_create_spec random l r a s a1 Hal Hc) as (Hwf & He & Hl).
  pose proof (skip_laws random) as LAWS.
  destruct (run_correct ops s a1 Hwf) as (outs & s' & a2 & Hr & Hwf' & Hf & Habs).
  destruct (skip_destroy_spec random s' a2 Hwf') as (s'' & a3 & Hd & Hl3 & _).
  exists outs, s', a2, s'', a3. split_and!; [done | by rewrite <- He | done |].
  rewrite Hl3, <- Hl. apply Hf.
Qed.

(** C5: with memory available, the red-black tree answers any list of requests
    as an unbounded finite map does, its rebalancing loops terminate, and
    destroying it returns every block. *)
Theorem rbtree_lifecycle `{!AllocatorTotal A} junk a p a1 ops :
  al_inv a -> kvs_malloc 48 a = (Some p, a1) ->
  exists T outs T' a2 T'' a3,
    kvs_rbtree_create (RBTree NULL NULL ∅) junk a = Ok (0, T, a1) /\
    e_run (ENG := rb_engine) ops T a1 = Ok (outs, T', a2) /\
    abs_run False (fun _ => false) 1 ∅ ops outs (bag_map (rb_entries T')) /\
    kvs_rbtree_destory T' a2 = Ok (T'', a3) /\ al_live a3 = al_live a.
Proof.
  intros Hal Hm.
  destruct (rb_create_spec junk NULL NULL a p a1 Hal Hm) as (T & Hc & Hwf & He & Hl).
  destruct (run_correct ops T a1 Hwf) as (outs & T' & a2 & Hr & Hwf' & Hf & Habs).
  destruct (rb_destroy_spec T' a2 Hwf') as (T'' & a3 & Hd & _ & _ & Hl3 & _).
  exists T, outs, T', a2, T'', a3. split_and!; [done | done | | done |].
  - rewrite <- He. eapply abs_run_oom, Habs. apply total_no_fail.
  - rewrite Hl3, <- Hl. apply Hf.
Qed.

(** C30: a search in a tree the engine has built visits at most [2 * log2 (n +
    1)] nodes, with one or two comparisons each, [n] being the number of keys:
    with that much fuel the loop gives the result it gives with the fuel the
    model uses. *)
Theorem rbtree_search_logarithmic T a k :
  e_wf (ENG := rb_engine) T a ->
  exists p, rbtree_search (2 * Nat.log2 (size (rb_nodes T))) T k = Ok p /\
    rbtree_search (fuel_of T) T k = Ok p.
Proof.
  intros ((nl & t & Hok) & _ & _). pose proof (ro_zip _ _ _ Hok) as Hz.
  pose proof (rbt_height t (ro_rb _ _ _ Hok)) as Hh. pose proof (height_inorder t) as Hi.
  unfold rbtree_search, fuel_of. rewrite (rb_size _ _ _ Hok), (z_root _ _ _ _ Hz). change (plug [] t) with t.
  exists (addr nl (locate k [] t).2). split; by apply (search_locate _ T nl k [] t Hz); lia.
Qed.

(** C32: whatever requests a skip list has served since its creation, following
    the forward pointers of level 0 visits the pairs of the map it stands for in
    strictly ascending order of the keys, and following those of any level [i]
    visits exactly the nodes of that order whose tower reaches level [i]; above
    [level] there are none. *)
Theorem skiplist_levels random l r a s a1 ops :
  al_inv a -> kvs_skiplist_create (MkSkipList None l ∅ r) a = (0, s, a1) ->
  exists outs s' a2 hdr, let ns := sk_nodes s' in
    e_run (ENG := skip_engine random) ops s a1 = Ok (outs, s', a2) /\
    abs_run (al_can_fail A) (fun _ => false) 1 ∅ ops outs
      (list_to_map ((fun n => (b_str (sn_key n), b_str (sn_val n))) <$> ns)) /\
    StronglySorted sn_lt ns /\ header s' = Some hdr /\
    forall i, (i <= SKIPLIST_MAX_LEVEL)%nat ->
      level_walk (length ns) (heap s') i hdr = Ok (sn_addr <$> filter (fun n => std i n = true) ns) /\
      ((level s' < i)%nat -> filter (fun n => std i n = true) ns = []).
Proof.
  intros Hal Hc. destruct (skip_create_spec random l r a s a1 Hal Hc) as (Hwf & He & _).
  pose proof (skip_laws random) as LAWS.
  destruct (run_correct ops s a1 Hwf) as (outs & s' & a2 & Hr & Hwf' & _ & Habs).
  destruct Hwf' as ((hdr & hfa & ns & Hok) & _ & _). destruct (sk_nodes_ok _ _ _ _ Hok) as [Hn _].
  exists outs, s', a2, hdr. cbv zeta. cbn [e_map skip_engine] in Habs. rewrite He in Habs.
  unfold bag_map, sk_entries in Habs. rewrite <- list_fmap_compose in Habs. rewrite Hn in *.
  split_and!; [done | exact Habs | apply Hok | apply Hok |]. intros i Hi. split.
  - by apply (level_walk_spec hdr hfa (heap s') ns (length ns) i None ns (so_repr _ _ _ _ Hok)).
  - intros Hlt. apply filter_none. eapply Forall_impl; [exact (so_levels _ _ _ _ Hok) |]. cbn. intros n Hle [=Hs%std_true]. lia.
Qed.

(** [kvs_array_create] and [kvs_hash_create] take the memory of their table as
    [kvs_malloc] returns it: pointers left there from an earlier use are keys and
    values of the new engine. *)
Theorem array_stale_table SIZE a p a1 cells k i it :
  kvs_malloc (SIZE * 16) a = (Some p, a1) -> find_idx (item_matches k) cells = Some (i, it) ->
  exists inst, kvs_array_create SIZE (Array None 0 0) cells a = (0, inst, a1) /\ total inst = 0 /\
    kvs_array_get inst (Some k) = Ok (value it).
Proof. intros Hm Hf. unfold kvs_array_create. cbn. rewrite Hm. eexists. split_and!; [done.. |]. cbn. by rewrite Hf. Qed.

Theorem hash_stale_table XXH SIZE a p a1 heads k chain i n :
  kvs_malloc (8 * SIZE) a = (Some p, a1) -> rd heads (_hash XXH k SIZE) = Ok chain ->
  find_idx (node_matches k) chain = Some (i, n) ->
  exists hash, kvs_hash_create SIZE (HashTable None 0 0) heads a = (0, hash, a1) /\ kvs_hash_count hash = 0 /\
    kvs_hash_get XXH SIZE hash (Some k) = Ok (Some (h_value n)).
Proof.
  intros Hm Hc Hf. unfold kvs_hash_create. rewrite Hm. eexists. split_and!; [done.. |].
  cbn [kvs_hash_get]. unfold chain_of. cbn [nodes of_option]. run. rewrite Hc. run. by rewrite Hf.
Qed.

(** [kvs_hash_mod] does not test its value argument: for a key that is
    present and no value it takes the length of a NULL string. *)
Theorem hash_mod_null_value XXH SIZE hash a k v :
  0 < SIZE <= INT_MAX -> hash_inv XXH SIZE hash -> bag_map (hash_entries hash) !! k = Some v ->
  kvs_hash_mod XXH SIZE hash (Some k) None a = Undef.
Proof.
  intros Hs Hinv Hk. destruct (hash_get_spec XXH SIZE Hs hash k Hinv) as (ob & Hg & Hob).
  rewrite Hk in Hob. unfold kvs_hash_get in Hg. unfold kvs_hash_mod.
  destruct (chain_of _ _ _ _) as [[[[p heads] i] chain] | |]; [| done..]. run.
  cbn [mbind res_bind] in Hg. destruct (find_idx _ _) as [[j n] |]; [done |]. by injection Hg as <-.
Qed.

(** [kvs_rbtree_set] does not test the allocation of the node: on a new
    key, when that allocation is answered with NULL, NULL is dereferenced. *)
Theorem rbtree_set_null_node T a k v :
  e_wf (ENG := rb_engine) T a -> bag_map (rb_entries T) !! k = None -> (kvs_malloc 48 a).1 = None ->
  kvs_rbtree_set T (Some k) (Some v) a = Undef.
Proof.
  intros (Hinv & _) Hk Hm. destruct (rb_get_spec T k Hinv) as (ob & Hg & Hob).
  rewrite Hk in Hob. unfold kvs_rbtree_set. rewrite Hg. run. destruct ob; [done |].
  destruct (kvs_malloc 48 a) as [[p |] a']; [done |]. done.
Qed.

End Claims.

(** [kvs_rbtree_mod] releases the old value before it asks for the new
    one. When that request fails the key is left without a value: GET answers
    that it is absent, EXIST that it is present, and a later SET, with memory
    available again, reports success without storing anything. *)
Theorem rbtree_mod_oom_ghost :
  let more (a : Bump.t) := Bump.mk (Bump.next a) (Bump.live a) (Bump.sizes a) None in
  exists T a T1 a1 T2 a2,
    kvs_rbtree_create (RBTree NULL NULL ∅) (RBNode RED NULL NULL NULL None None) (Bump.start (Some 4%nat))
      = Ok (0, T, a) /\
    kvs_rbtree_set T (Some (BS "k")) (Some (BS "1")) a = Ok (0, T1, a1) /\
    kvs_rbtree_mod T1 (Some (BS "k")) (Some (BS "2")) a1 = Ok (-2, T2, a2) /\
    kvs_rbtree_get T2 (Some (BS "k")) = Ok None /\ kvs_rbtree_exist T2 (Some (BS "k")) = Ok 0 /\
    exists T3 a3, kvs_rbtree_set T2 (Some (BS "k")) (Some (BS "3")) (more a2) = Ok (0, T3, a3) /\
      kvs_rbtree_get T3 (Some (BS "k")) = Ok None.
Proof.
  intros more. eexists _, _, _, _, _, _. split_and!; [vm_compute; reflexivity.. |].
  eexists _, _. split; vm_compute; reflexivity.
Qed.

(** ** The engines on the sample requests *)

Lemma array_lifecycle_witness :
  exists inst outs inst' a2,
    kvs_array_create 2 (Array None 0 0) (replicate 2 (Item None None)) (Bump.start None)
      = (0, inst, (Bump.malloc 32 (Bump.start None)).2) /\
    e_run (ENG := array_engine 2) sample_ops inst (Bump.malloc 32 (Bump.start None)).2 = Ok (outs, inst', a2) /\
    abs_run (al_can_fail Bump.t) (fun m => Z.of_nat (size m) =? 2) 2 ∅ sample_ops outs (array_map inst') /\
    al_live (kvs_array_destory inst' a2).2 = al_live (Bump.start None).
Proof.
  apply (array_lifecycle 2 (Bump.start None) 16 (Bump.malloc 32 (Bump.start None)).2 (replicate 2 (Item None None)) sample_ops);
    [lia | apply Bump.start_inv | reflexivity | reflexivity].
Defined.

(** Two keys in two cells, then an allocation that fails. *)
Lemma hash_lifecycle_witness :
  let XXH := fun s => Z.of_nat (length s) in
  exists hash outs hash' a2 hash'' a3,
    kvs_hash_create 4 (HashTable None 0 0) (replicate 4 []) (Bump.start (Some 5%nat))
      = (0, hash, (Bump.malloc 32 (Bump.start (Some 5%nat))).2) /\
    e_run (ENG := hash_engine XXH 4) sample_ops hash (Bump.malloc 32 (Bump.start (Some 5%nat))).2
      = Ok (outs, hash', a2) /\
    abs_run (al_can_fail Bump.t) (fun _ => false) (-1) ∅ sample_ops outs (bag_map (hash_entries hash')) /\
    kvs_hash_destory hash' a2 = Ok (hash'', a3) /\ al_live a3 = al_live (Bump.start (Some 5%nat)).
Proof.
  apply (hash_lifecycle (fun s => Z.of_nat (length s)) 4 (Bump.start (Some 5%nat)) 16
    (Bump.malloc 32 (Bump.start (Some 5%nat))).2 (replicate 4 []) sample_ops);
    [vm_compute; split; congruence | apply Bump.start_inv | reflexivity | reflexivity].
Defined.

Lemma skiplist_lifecycle_witness :
  let a := Bump.start (Some 9%nat) in
  let c := kvs_skiplist_create (MkSkipList None 0 ∅ 0) a in
  exists outs s' a2 s'' a3,
    e_run (ENG := skip_engine (fun n => Z.of_nat n)) sample_ops c.1.2 c.2 = Ok (outs, s', a2) /\
    abs_run (al_can_fail Bump.t) (fun _ => false) 1 ∅ sample_ops outs (bag_map (sk_entries s')) /\
    kvs_skiplist_destroy s' a2 = Ok (s'', a3) /\ al_live a3 = al_live a.
Proof.
  intros a c. apply (skiplist_lifecycle (fun n => Z.of_nat n) 0 0 a c.1.2 c.2 sample_ops);
    [apply Bump.start_inv | reflexivity].
Defined.

Definition rb_junk : rbtree_node := RBNode RED NULL NULL NULL None None.

Lemma rbtree_lifecycle_witness :
  exists T outs T' a2 T'' a3,
    kvs_rbtree_create (RBTree NULL NULL ∅) rb_junk Unlimited.start
      = Ok (0, T, (Unlimited.malloc 48 Unlimited.start).2) /\
    e_run (ENG := rb_engine) sample_ops T (Unlimited.malloc 48 Unlimited.start).2 = Ok (outs, T', a2) /\
    abs_run False (fun _ => false) 1 ∅ sample_ops outs (bag_map (rb_entries T')) /\
    kvs_rbtree_destory T' a2 = Ok (T'', a3) /\ al_live a3 = al_live Unlimited.start.
Proof.
  apply (rbtree_lifecycle rb_junk Unlimited.start 16 (Unlimited.malloc 48 Unlimited.start).2 sample_ops);
    [apply Bump.start_inv | reflexivity].
Defined.

(** An engine after two insertions. *)
Definition rb_sample : rbtree * Unlimited.t :=
  match T ← kvs_rbtree_create (RBTree NULL NULL ∅) rb_junk Unlimited.start;
        e_run (ENG := rb_engine) [OpSet (BS "k") (BS "1"); OpSet (BS "x") (BS "2")] T.1.2 T.2
  with Ok (_, T, a) => (T, a) | _ => (RBTree NULL NULL ∅, Unlimited.start) end.

Lemma rb_sample_wf : e_wf (ENG := rb_engine) rb_sample.1 rb_sample.2.
Proof.
  destruct (rb_create_spec rb_junk NULL NULL Unlimited.start 16 (Unlimited.malloc 48 Unlimited.start).2)
    as (T & Hc & Hwf & _); [apply Bump.start_inv | reflexivity |].
  destruct (run_correct [OpSet (BS "k") (BS "1"); OpSet (BS "x") (BS "2")] T _ Hwf)
    as (outs & T' & a' & Hr & Hwf' & _).
  unfold rb_sample. rewrite Hc. cbn [mbind res_bind fst snd]. rewrite Hr. done.
Qed.

Lemma rbtree_search_logarithmic_witness :
  exists p, rbtree_search (2 * Nat.log2 (size (rb_nodes rb_sample.1))) rb_sample.1 (BS "x") = Ok p /\
    rbtree_search (fuel_of rb_sample.1) rb_sample.1 (BS "x") = Ok p.
Proof. apply (rbtree_search_logarithmic rb_sample.1 rb_sample.2 (BS "x")), rb_sample_wf. Defined.

Lemma rbtree_set_null_node_witness :
  exists T a, kvs_rbtree_create (RBTree NULL NULL ∅) rb_junk (Bump.start (Some 1%nat)) = Ok (0, T, a) /\
    kvs_rbtree_set T (Some (BS "k")) (Some (BS "v")) a = Undef.
Proof.
  destruct (rb_create_spec rb_junk NULL NULL (Bump.start (Some 1%nat)) 16 (Bump.malloc 48 (Bump.start (Some 1%nat))).2)
    as (T & Hc & Hwf & He & _); [apply Bump.start_inv | reflexivity |].
  exists T, (Bump.malloc 48 (Bump.start (Some 1%nat))).2. split; [exact Hc |].
  apply (rbtree_set_null_node T _ (BS "k") (BS "v") Hwf); [by rewrite He | reflexivity].
Defined.

Lemma skiplist_levels_witness :
  let a := Bump.start (Some 9%nat) in
  let c := kvs_skiplist_create (MkSkipList None 0 ∅ 0) a in
  exists outs s' a2 hdr, let ns := sk_nodes s' in
    e_run (ENG := skip_engine (fun n => Z.of_nat n)) sample_ops c.1.2 c.2 = Ok (outs, s', a2) /\
    abs_run (al_can_fail Bump.t) (fun _ => false) 1 ∅ sample_ops outs
      (list_to_map ((fun n => (b_str (sn_key n), b_str (sn_val n))) <$> ns)) /\
    StronglySorted sn_lt ns /\ header s' = Some hdr /\
    forall i, (i <= SKIPLIST_MAX_LEVEL)%nat ->
      level_walk (length ns) (heap s') i hdr = Ok (sn_addr <$> filter (fun n => std i n = true) ns) /\
      ((level s' < i)%nat -> filter (fun n => std i n = true) ns = []).
Proof.
  intros a c. apply (skiplist_levels (fun n => Z.of_nat n) 0 0 a c.1.2 c.2 sample_ops);
    [apply Bump.start_inv | reflexivity].
Defined.

Lemma hash_mod_null_value_witness :
  let XXH := fun s => Z.of_nat (length s) in
  exists hash a, hash_inv XXH 4 hash /\ bag_map (hash_entries hash) !! BS "k" = Some (BS "v") /\
    kvs_hash_mod XXH 4 hash (Some (BS "k")) None (a : Unlimited.t) = Undef.
Proof.
  intros XXH. assert (Hs : 0 < 4 <= INT_MAX) by (vm_compute; split; congruence).
  destruct (hash_create_spec XXH 4 Hs 0 0 Unlimited.start 16 (Unlimited.malloc 32 Unlimited.start).2)
    as (h & _ & Hwf & He & _); [apply Bump.start_inv | reflexivity |].
  pose proof (hash_laws XXH 4 Hs) as LAWS.
  destruct (set_law h _ (BS "k") (BS "v") Hwf) as (r & h' & a' & Hset & Hwf' & _ & Hm).
  exists h', a'. split; [apply Hwf' |].
  assert (Hk : bag_map (hash_entries h') !! BS "k" = Some (BS "v")).
  { cbn [e_map hash_engine] in Hm. rewrite He in Hm.
    destruct Hm as [Hm | (_ & _ & Hc)]; [| by apply total_no_fail in Hc].
    inversion Hm; simplify_eq. by rewrite lookup_insert_eq. }
  split; [exact Hk |]. apply (hash_mod_null_value XXH 4 h' a' (BS "k") (BS "v") Hs (proj1 Hwf') Hk).
Defined.
