(* ===== verification/Store.v ===== *)
(** * Store: the command layer (kvstore.c)

    [kvs_protocol] tokenizes a request and [kvs_filter_protocol] looks the
    command up, runs it on one of the four engines or hands it to the
    persistence and replication modules, writes the reply into the write buffer
    of the connection and passes a successful write on to the log and to the
    replication. The engines are used through [Engine], the modules through
    [Modules]. *)

From S2P Require Import Prelude CLib Alloc Protocol Engine.

(** What the command layer calls in kvs_log.c, kvs_save.c and kvs_sync.c. [G]
    is the contents of the engines, which a snapshot reads; [X] the state of
    the modules. *)
Class Modules (A G X : Type) `{Allocator A} := {
  m_log_write : list cptr -> Z -> X -> A -> res (Z * X * A);
  m_incr_sync : client_info -> list cptr -> Z -> X -> A -> res (Z * X * A);
  m_save_write : G -> X -> A -> res (Z * X * A);
  m_full_sync : client_info -> G -> X -> A -> res (Z * X * A);
  m_owned : X -> gset Z;
  m_inv : X -> Prop
}.

(** ** Commands and replies *)

Inductive kvs_cmd_t :=
| KVS_CMD_SET | KVS_CMD_GET | KVS_CMD_DEL | KVS_CMD_MOD | KVS_CMD_EXIST
| KVS_CMD_RSET | KVS_CMD_RGET | KVS_CMD_RDEL | KVS_CMD_RMOD | KVS_CMD_REXIST
| KVS_CMD_HSET | KVS_CMD_HGET | KVS_CMD_HDEL | KVS_CMD_HMOD | KVS_CMD_HEXIST
| KVS_CMD_LSET | KVS_CMD_LGET | KVS_CMD_LDEL | KVS_CMD_LMOD | KVS_CMD_LEXIST
| KVS_CMD_SAVE | KVS_CMD_SYNC | KVS_CMD_FULLSYNC_FINISHED | KVS_CMD_COMMAND
| KVS_CMD_COUNT.

(** The values of the enumeration below [KVS_CMD_COUNT], in order. *)
Definition kvs_cmds : list kvs_cmd_t :=
  [KVS_CMD_SET; KVS_CMD_GET; KVS_CMD_DEL; KVS_CMD_MOD; KVS_CMD_EXIST;
   KVS_CMD_RSET; KVS_CMD_RGET; KVS_CMD_RDEL; KVS_CMD_RMOD; KVS_CMD_REXIST;
   KVS_CMD_HSET; KVS_CMD_HGET; KVS_CMD_HDEL; KVS_CMD_HMOD; KVS_CMD_HEXIST;
   KVS_CMD_LSET; KVS_CMD_LGET; KVS_CMD_LDEL; KVS_CMD_LMOD; KVS_CMD_LEXIST;
   KVS_CMD_SAVE; KVS_CMD_SYNC; KVS_CMD_FULLSYNC_FINISHED; KVS_CMD_COMMAND].

(** [command] *)
Definition command : list (list Z) :=
  [BS "SET"; BS "GET"; BS "DEL"; BS "MOD"; BS "EXIST";
   BS "RSET"; BS "RGET"; BS "RDEL"; BS "RMOD"; BS "REXIST";
   BS "HSET"; BS "HGET"; BS "HDEL"; BS "HMOD"; BS "HEXIST";
   BS "LSET"; BS "LGET"; BS "LDEL"; BS "LMOD"; BS "LEXIST";
   BS "SAVE"; BS "SYNC"; BS "FULLSYNC FINISHED"; BS "COMMAND"].

(** The loop over the command table. *)
Fixpoint find_command (cs : list (kvs_cmd_t * list Z)) (tok : list Z) : kvs_cmd_t :=
  match cs with
  | [] => KVS_CMD_COUNT
  | (c, s) :: cs => if strcmp tok s =? 0 then c else find_command cs tok
  end.

Inductive kvs_reply_t :=
| REPLY_START | REPLY_OK | REPLY_ERROR | REPLY_EXIST | REPLY_NO_EXIST
| REPLY_VALUE | REPLY_NONE | REPLY_COMMAND.

(** The tests on the result of the engine that the cases share. *)
Definition reply_set (ret : Z) : kvs_reply_t :=
  if ret <? 0 then REPLY_ERROR else if ret =? 0 then REPLY_OK else REPLY_EXIST.
Definition reply_change (ret : Z) : kvs_reply_t :=
  if ret <? 0 then REPLY_ERROR else if ret =? 0 then REPLY_OK else REPLY_NO_EXIST.
Definition reply_get (result : cptr) : kvs_reply_t :=
  match result with None => REPLY_NO_EXIST | Some _ => REPLY_VALUE end.
Definition reply_exist (ret : Z) : kvs_reply_t :=
  if ret =? 0 then REPLY_EXIST else REPLY_NO_EXIST.

(** [sprintf(wbuf + w_pos, ...)]: the text and its NUL; the length. *)
Definition put_reply (text : list Z) (cli : client_info) : res (Z * client_info) :=
  b ← wr_range (wbuf cli) (w_pos cli) (text ++ [0]);
  Ok (zlen text, set_wbuf b cli).

Section Store.
Context {A TA TR TH TL X : Type} `{Allocator A}.
Context `{EA : !Engine A TA} `{ER : !Engine A TR} `{EH : !Engine A TH} `{EL : !Engine A TL}.

(** The global engines: what a snapshot reads. *)
Record engines := Engines {
  global_array : TA;
  global_rbtree : TR;
  global_hash : TH;
  global_skiplist : TL
}.

Context `{MX : !Modules A engines X}.

(** The other globals: [is_recovering] and the state of the modules. *)
Record store := Store { eng : engines; is_recovering : Z; mods : X }.

Definition with_eng (g : engines) (st : store) : store := Store g (is_recovering st) (mods st).
Definition with_mods (x : X) (st : store) : store := Store (eng st) (is_recovering st) x.

Definition with_array (e : TA) (g : engines) : engines :=
  Engines e (global_rbtree g) (global_hash g) (global_skiplist g).
Definition with_rbtree (e : TR) (g : engines) : engines :=
  Engines (global_array g) e (global_hash g) (global_skiplist g).
Definition with_hash (e : TH) (g : engines) : engines :=
  Engines (global_array g) (global_rbtree g) e (global_skiplist g).
Definition with_skiplist (e : TL) (g : engines) : engines :=
  Engines (global_array g) (global_rbtree g) (global_hash g) e.

(** What the first [switch] leaves in its variables. *)
Record cmd_result := CmdResult {
  c_reply : kvs_reply_t;
  c_value : cptr;
  c_write : bool;
  c_length : Z
}.

Definition changed (reply : kvs_reply_t) (ret : Z) : cmd_result := CmdResult reply None (ret =? 0) 0.
Definition answered (reply : kvs_reply_t) : cmd_result := CmdResult reply None false 0.
Definition valued (result : cptr) : cmd_result := CmdResult (reply_get result) result false 0.

(** The first [switch] of [kvs_filter_protocol]. *)
Definition run_command (cmd : kvs_cmd_t) (key value : cptr) (cli : client_info) (st : store) (a : A)
    : res (cmd_result * store * A) :=
  let g := eng st in
  match cmd with
  | KVS_CMD_SET =>
      '(ret, e, a) ← e_set (global_array g) key value a;
      Ok (changed (reply_set ret) ret, with_eng (with_array e g) st, a)
  | KVS_CMD_GET =>
      result ← e_get (global_array g) key; Ok (valued result, st, a)
  | KVS_CMD_DEL =>
      '(ret, e, a) ← e_del (global_array g) key a;
      Ok (changed (reply_change ret) ret, with_eng (with_array e g) st, a)
  | KVS_CMD_MOD =>
      '(ret, e, a) ← e_mod (global_array g) key value a;
      Ok (changed (reply_change ret) ret, with_eng (with_array e g) st, a)
  | KVS_CMD_EXIST =>
      ret ← e_exist (global_array g) key; Ok (answered (reply_exist ret), st, a)
  | KVS_CMD_RSET =>
      '(ret, e, a) ← e_set (global_rbtree g) key value a;
      Ok (changed (reply_set ret) ret, with_eng (with_rbtree e g) st, a)
  | KVS_CMD_RGET =>
      result ← e_get (global_rbtree g) key; Ok (valued result, st, a)
  | KVS_CMD_RDEL =>
      '(ret, e, a) ← e_del (global_rbtree g) key a;
      Ok (changed (reply_change ret) ret, with_eng (with_rbtree e g) st, a)
  | KVS_CMD_RMOD =>
      '(ret, e, a) ← e_mod (global_rbtree g) key value a;
      Ok (changed (reply_change ret) ret, with_eng (with_rbtree e g) st, a)
  | KVS_CMD_REXIST =>
      ret ← e_exist (global_rbtree g) key; Ok (answered (reply_exist ret), st, a)
  | KVS_CMD_HSET =>
      '(ret, e, a) ← e_set (global_hash g) key value a;
      Ok (changed (reply_set ret) ret, with_eng (with_hash e g) st, a)
  | KVS_CMD_HGET =>
      result ← e_get (global_hash g) key; Ok (valued result, st, a)
  | KVS_CMD_HDEL =>
      '(ret, e, a) ← e_del (global_hash g) key a;
      Ok (changed (reply_change ret) ret, with_eng (with_hash e g) st, a)
  | KVS_CMD_HMOD =>
      '(ret, e, a) ← e_mod (global_hash g) key value a;
      Ok (changed (reply_change ret) ret, with_eng (with_hash e g) st, a)
  | KVS_CMD_HEXIST =>
      ret ← e_exist (global_hash g) key; Ok (answered (reply_exist ret), st, a)
  | KVS_CMD_LSET =>
      '(ret, e, a) ← e_set (global_skiplist g) key value a;
      Ok (changed (reply_set ret) ret, with_eng (with_skiplist e g) st, a)
  | KVS_CMD_LGET =>
      result ← e_get (global_skiplist g) key; Ok (valued result, st, a)
  | KVS_CMD_LDEL =>
      '(ret, e, a) ← e_del (global_skiplist g) key a;
      Ok (changed (reply_change ret) ret, with_eng (with_skiplist e g) st, a)
  | KVS_CMD_LMOD =>
      '(ret, e, a) ← e_mod (global_skiplist g) key value a;
      Ok (changed (reply_change ret) ret, with_eng (with_skiplist e g) st, a)
  | KVS_CMD_LEXIST =>
      ret ← e_exist (global_skiplist g) key; Ok (answered (reply_exist ret), st, a)
  | KVS_CMD_SAVE =>
      '(ret, x, a) ← m_save_write g (mods st) a;
      Ok (answered (if ret =? 0 then REPLY_OK else if ret =? 1 then REPLY_OK else REPLY_ERROR),
          with_mods x st, a)
  | KVS_CMD_SYNC =>
      '(ret, x, a) ← m_full_sync cli g (mods st) a;
      Ok (CmdResult REPLY_START None false (if ret <? 0 then ret else 0), with_mods x st, a)
  | KVS_CMD_FULLSYNC_FINISHED => Ok (answered REPLY_START, st, a)
  | KVS_CMD_COMMAND => Ok (answered REPLY_COMMAND, st, a)
  | KVS_CMD_COUNT => Ok (answered REPLY_NONE, st, a)
  end.

(** The room test at the head of [kvs_filter_protocol]; [None] when the
    reallocation fails. *)
Definition ensure_room (cli : client_info) (a : A) : res (option client_info * A) :=
  if w_cap cli - w_pos cli <? 32 then
    if INT_MAX <? w_cap cli * 2 then Undef else
    '(temp, a) ← kvs_realloc (wbuf_p cli) (w_cap cli * 2) a;
    match temp with
    | None => Ok (None, a)
    | Some p => Ok (Some (set_wblock p (resize (wbuf cli) (granted p (w_cap cli * 2) a)) (w_cap cli * 2) cli), a)
    end
  else Ok (Some cli, a).

(** The case [REPLY_VALUE] of the second [switch]. *)
Definition reply_value (result : list Z) (cli : client_info) (a : A)
    : res (option (Z * client_info) * client_info * A) :=
  let rlen := zlen result in
  if INT_MAX <? rlen + 15 then Undef else
  let needed := rlen + 15 in
  let text := BS "$" ++ dec rlen ++ CRLF ++ result ++ CRLF in
  if w_cap cli - w_pos cli <? needed then
    if INT_MAX <? w_cap cli + needed + 1 then Undef else
    '(temp, a) ← kvs_realloc (wbuf_p cli) (w_cap cli + needed + 1) a;
    match temp with
    | None => Ok (None, cli, a)
    | Some p =>
        let cli := set_wblock p (resize (wbuf cli) (granted p (w_cap cli + needed + 1) a)) (w_cap cli + needed) cli in
        r ← put_reply text cli; Ok (Some r, cli, a)
    end
  else r ← put_reply text cli; Ok (Some r, cli, a).

(** The second [switch]: [None] for its [return -1]. *)
Definition write_reply (c : cmd_result) (tok : list Z) (cli : client_info) (a : A)
    : res (option (Z * client_info) * client_info * A) :=
  let put text := r ← put_reply text cli; Ok (Some r, cli, a) in
  match c_reply c with
  | REPLY_OK => put (BS "+OK" ++ CRLF)
  | REPLY_ERROR => put (BS "-ERR message" ++ CRLF)
  | REPLY_EXIST => put (BS ":1" ++ CRLF)
  | REPLY_NO_EXIST => put (BS "$-1" ++ CRLF)
  | REPLY_VALUE => v ← of_option (c_value c); reply_value v cli a
  | REPLY_NONE => put (BS "-ERR no such command '" ++ tok ++ BS "'" ++ CRLF)
  | REPLY_COMMAND => put (BS "*0" ++ CRLF)
  | REPLY_START => Ok (Some (c_length c, cli), cli, a)
  end.

(** The last part: log and replication of a successful write. *)
Definition propagate (c : cmd_result) (tokens : list cptr) (count : Z) (cli : client_info) (st : store) (a : A)
    : res (bool * store * A) :=
  if c_write c && (is_recovering st =? 0) then
    '(_, x, a) ← m_log_write tokens count (mods st) a;
    '(r, x, a) ← m_incr_sync cli tokens count x a;
    Ok (r =? 0, with_mods x st, a)
  else Ok (true, st, a).

(** [tokens[i]]: the array has [KVS_MAX_TOKENS] cells, NULL where
    the tokenizer stored nothing. *)
Definition token (tokens : list cptr) (i : nat) : cptr := mjoin (tokens !! i).

(** [kvs_filter_protocol] *)
Definition kvs_filter_protocol (tokens : list cptr) (count : Z) (cli : client_info) (st : store) (a : A)
    : res (Z * client_info * store * A) :=
  match token tokens 0 with
  | None => Ok (-1, cli, st, a)
  | Some tok =>
      if count <=? 0 then Ok (-1, cli, st, a) else
      let cmd := find_command (zip kvs_cmds command) tok in
      '(room, a) ← ensure_room cli a;
      match room with
      | None => Ok (-1, cli, st, a)
      | Some cli =>
          '(c, st, a) ← run_command cmd (token tokens 1) (token tokens 2) cli st a;
          '(r, cli, a) ← write_reply c tok cli a;
          match r with
          | None => Ok (-1, cli, st, a)
          | Some (length, cli) =>
              '(ok, st, a) ← propagate c tokens count cli st a;
              Ok (if (ok : bool) then length else -2, cli, st, a)
          end
      end
  end.

(** [kvs_protocol]; a token is the string its pointer leads to when the
    tokenizer returns, nothing writes to the receive buffer until the command
    is done. *)
Definition kvs_protocol (cli : client_info) (st : store) (a : A) : res (Z * client_info * store * A) :=
  '(count, cli, toks) ← kvs_split_token cli;
  if count <? 0 then Ok (-1, cli, st, a) else
  ts ← mapM (rd_cstr (rbuf cli)) toks;
  kvs_filter_protocol (Some <$> ts) count cli st a.

End Store.

Arguments engines : clear implicits.
Arguments store : clear implicits.
