(* ===== verification/StoreFacts.v ===== *)
(** * StoreFacts: the command layer refines four finite maps

    [request_run]: a request for one of the engines is answered as the finite
    map of that engine answers it, the reply is the text of the protocol, the
    other engines keep their contents, a successful write and nothing else is
    handed to the log and the replication, and every block stays owned by
    exactly one component. Proved against [EngineLaws] and [ModulesLaws]. *)

From S2P Require Import Prelude CLib Alloc Protocol ProtocolFacts Engine Owner Store.

(** ** What the command layer relies on in the modules *)

Definition m_wf {A G X} `{MX : Modules A G X} (x : X) (a : A) : Prop :=
  m_inv x /\ al_inv a /\ m_owned x ⊆ al_live a.
Definition m_frame {A G X} `{MX : Modules A G X} (x : X) (a : A) (x' : X) (a' : A) : Prop :=
  al_live a' ∖ m_owned x' = al_live a ∖ m_owned x.

(** A command the log can frame: the frame's length is an [int]. *)
Definition frame_fits (ts : list (list Z)) : Prop := ts <> [] /\ zlen (kvsp_frame ts) < INT_MAX.

Class ModulesLaws (A G X : Type) `{Modules A G X} : Prop := {
  log_law ts x a :
    m_wf x a -> frame_fits ts -> exists r x' a',
      m_log_write (Some <$> ts) (zlen ts) x a = Ok (r, x', a') /\ m_wf x' a' /\ m_frame x a x' a';
  incr_law cli ts x a :
    m_wf x a -> frame_fits ts -> exists x' a',
      m_incr_sync cli (Some <$> ts) (zlen ts) x a = Ok (0, x', a') /\ m_wf x' a' /\ m_frame x a x' a'
}.

(** ** Requests to the engines *)

Inductive engine_id := EArray | ERbtree | EHash | ESkiplist.

#[export] Instance engine_id_eq_dec : EqDecision engine_id.
Proof. solve_decision. Defined.

Definition prefix (e : engine_id) : list Z :=
  match e with EArray => [] | ERbtree => BS "R" | EHash => BS "H" | ESkiplist => BS "L" end.

Definition verb (o : eop) : list Z :=
  match o with
  | OpSet _ _ => BS "SET" | OpGet _ => BS "GET" | OpDel _ => BS "DEL" | OpMod _ _ => BS "MOD" | OpExist _ => BS "EXIST"
  end.

Definition op_key (o : eop) : list Z :=
  match o with OpSet k _ | OpGet k | OpDel k | OpMod k _ | OpExist k => k end.

Definition op_args (o : eop) : list (list Z) :=
  match o with OpSet k v | OpMod k v => [k; v] | _ => [op_key o] end.

(** The request [e]'s clients send for [o]. *)
Definition op_tokens (e : engine_id) (o : eop) : list (list Z) := (prefix e ++ verb o) :: op_args o.

Definition cmd_of (e : engine_id) (o : eop) : kvs_cmd_t :=
  match e, o with
  | EArray, OpSet _ _ => KVS_CMD_SET | EArray, OpGet _ => KVS_CMD_GET | EArray, OpDel _ => KVS_CMD_DEL
  | EArray, OpMod _ _ => KVS_CMD_MOD | EArray, OpExist _ => KVS_CMD_EXIST
  | ERbtree, OpSet _ _ => KVS_CMD_RSET | ERbtree, OpGet _ => KVS_CMD_RGET | ERbtree, OpDel _ => KVS_CMD_RDEL
  | ERbtree, OpMod _ _ => KVS_CMD_RMOD | ERbtree, OpExist _ => KVS_CMD_REXIST
  | EHash, OpSet _ _ => KVS_CMD_HSET | EHash, OpGet _ => KVS_CMD_HGET | EHash, OpDel _ => KVS_CMD_HDEL
  | EHash, OpMod _ _ => KVS_CMD_HMOD | EHash, OpExist _ => KVS_CMD_HEXIST
  | ESkiplist, OpSet _ _ => KVS_CMD_LSET | ESkiplist, OpGet _ => KVS_CMD_LGET | ESkiplist, OpDel _ => KVS_CMD_LDEL
  | ESkiplist, OpMod _ _ => KVS_CMD_LMOD | ESkiplist, OpExist _ => KVS_CMD_LEXIST
  end.

Lemma find_command_op e o : find_command (zip kvs_cmds command) (prefix e ++ verb o) = cmd_of e o.
Proof. by destruct e, o; vm_compute. Qed.

(** The reply to [o] when the engine answers [x]. *)
Definition result_of (o : eop) (x : eout) : cmd_result :=
  match o, x with
  | OpSet _ _, OutCode r => changed (reply_set r) r
  | (OpDel _ | OpMod _ _), OutCode r => changed (reply_change r) r
  | OpExist _, OutCode r => answered (reply_exist r)
  | _, OutValue v => valued v
  | OpGet _, OutCode _ => valued None
  end.

Definition value_text (v : list Z) : list Z := BS "$" ++ dec (zlen v) ++ CRLF ++ v ++ CRLF.

Definition reply_text (c : cmd_result) : list Z :=
  match c_reply c with
  | REPLY_OK => BS "+OK" ++ CRLF
  | REPLY_ERROR => BS "-ERR message" ++ CRLF
  | REPLY_EXIST => BS ":1" ++ CRLF
  | REPLY_NO_EXIST => BS "$-1" ++ CRLF
  | REPLY_VALUE => match c_value c with Some v => value_text v | None => [] end
  | REPLY_COMMAND => BS "*0" ++ CRLF
  | REPLY_NONE | REPLY_START => []
  end.

(** ** The write buffer *)

Record cli_wf (cli : client_info) : Prop := {
  cw_cap : 32 <= w_cap cli;
  cw_pos : 0 <= w_pos cli <= w_cap cli;
  cw_len : w_cap cli <= zlen (wbuf cli)
}.

(** [cli'] is [cli] after replies were appended to its write buffer: only the
    write buffer and its block changed. *)
Record grown (cli cli' : client_info) : Prop := {
  gr_keep : take (Z.to_nat (w_pos cli)) (wbuf cli') = take (Z.to_nat (w_pos cli)) (wbuf cli);
  gr_cap : w_cap cli <= w_cap cli';
  gr_eq : cli' = set_wblock (wbuf_p cli') (wbuf cli') (w_cap cli') cli
}.

Lemma grown_refl cli : grown cli cli.
Proof. split; [done | lia | by destruct cli]. Qed.

Lemma grown_trans c1 c2 c3 : grown c1 c2 -> grown c2 c3 -> grown c1 c3.
Proof.
  intros [K1 C1 E1] [K2 C2 E2].
  assert (Hp : w_pos c2 = w_pos c1) by (rewrite E1; done).
  split; [by rewrite <- K1, <- Hp, K2 | lia |]. rewrite E2, E1. done.
Qed.

Lemma grown_pos c c' : grown c c' -> w_pos c' = w_pos c.
Proof. intros [_ _ ->]. done. Qed.

Lemma grown_rbuf c c' : grown c c' -> rbuf c' = rbuf c.
Proof. intros [_ _ ->]. done. Qed.

Lemma put_reply_ok text cli :
  0 <= w_pos cli -> w_pos cli + zlen text + 1 <= zlen (wbuf cli) ->
  exists b, put_reply text cli = Ok (zlen text, set_wbuf b cli) /\ zlen b = zlen (wbuf cli) /\
    rd_range b (w_pos cli) (zlen text) = Ok text /\
    take (Z.to_nat (w_pos cli)) b = take (Z.to_nat (w_pos cli)) (wbuf cli).
Proof.
  intros Hp Hr. pose proof (zlen_nonneg text) as Ht. unfold put_reply.
  set (i := Z.to_nat (w_pos cli)) in *.
  destruct (wr_range _ _ _) as [b | |] eqn:Hw; unfold wr_range in Hw; zlen_simpl.
  2,3: by destruct (Z.leb_spec 0 (w_pos cli)), (Z.leb_spec (w_pos cli + (zlen text + (1 + 0))) (zlen (wbuf cli))); cbn in Hw; lia || done.
  exists b. split; [done |]. split.
  { eapply (wr_range_length _ _ (text ++ [0])). unfold wr_range. zlen_simpl. exact Hw. }
  assert (Hb : b = take i (wbuf cli) ++ text ++ [0] ++ drop (i + length (text ++ [0])) (wbuf cli)).
  { destruct (_ && _); [| done]. injection Hw as <-. by rewrite <- app_assoc. }
  assert (Hi : length (take i (wbuf cli)) = i) by (rewrite length_take; unfold zlen, i in *; lia).
  split.
  - replace (w_pos cli) with (zlen (take i (wbuf cli))) by (unfold zlen, i in *; lia).
    rewrite Hb. apply rd_range_app_mid.
  - rewrite Hb, take_app_le by lia. by rewrite take_take, Nat.min_id.
Qed.

(** ** The length of a printed number *)

Lemma dec_aux_length fuel n k :
  0 <= n < 10 ^ (Z.of_nat k) -> (0 < k)%nat -> (length (dec_aux fuel n []) <= k)%nat.
Proof.
  revert n k. induction fuel as [| f IH]; intros n k Hn Hk; cbn [dec_aux]; [cbn; lia |].
  destruct (Z.ltb_spec n 10); [cbn; lia |].
  rewrite dec_aux_app, length_app. cbn [length].
  destruct k as [| [| k]]; [lia | cbn in Hn; lia |].
  assert (0 <= n / 10 < 10 ^ Z.of_nat (S k)).
  { split; [apply Z.div_pos; lia |]. apply Z.div_lt_upper_bound; [lia |].
    rewrite (Nat2Z.inj_succ (S k)), Z.pow_succ_r in Hn by lia. lia. }
  specialize (IH (n / 10) (S k) ltac:(done) ltac:(lia)). lia.
Qed.

Lemma dec_length_9 n : 0 <= n < 10 ^ 9 -> zlen (dec n) <= 9.
Proof. intros Hn. pose proof (dec_aux_length (S (Z.to_nat (Z.log2 n))) n 9 Hn ltac:(lia)). unfold dec, zlen. lia. Qed.

Lemma value_text_len v : zlen (value_text v) = zlen v + zlen (dec (zlen v)) + 5.
Proof. unfold value_text, CRLF. zlen_simpl. change (zlen (BS "$")) with 1. lia. Qed.

(** ** One engine changes *)

Lemma step_owner {A E} `{AL : AllocatorLaws A} `{ENG : !Engine A E} `{LAWS : !EngineLaws A E} l1 l2 o (e : E) (a : A) :
  e_inv e -> al_inv a -> holds (al_live a) (l1 ++ e_owned e :: l2) ->
  exists x e' a', e_step o e a = Ok (x, e', a') /\
    abs_step (al_can_fail A) e_full e_del_absent (e_map e) o x (e_map e') /\
    e_inv e' /\ al_inv a' /\ holds (al_live a') (l1 ++ e_owned e' :: l2) /\
    al_live a' ∖ ⋃ (l1 ++ e_owned e' :: l2) = al_live a ∖ ⋃ (l1 ++ e_owned e :: l2).
Proof.
  intros Hi Ha Ho. destruct (step_correct o e a) as (x & e' & a' & Hs & (Hi' & Ha' & Hsub) & Hf & Habs).
  { split; [done |]. split; [done |]. eapply holds_sub; [exact Ho |]. set_solver. }
  destruct (holds_update _ _ _ _ _ _ Ho Hf Hsub) as [Ho' Hf']. eauto 10.
Qed.

(** ** The state and its owners *)

Section Facts.
Context {A TA TR TH TL X : Type} `{AL : AllocatorLaws A}.
Context `{EA : !Engine A TA} `{ER : !Engine A TR} `{EH : !Engine A TH} `{EL : !Engine A TL}.
Context `{LA : !EngineLaws A TA} `{LR : !EngineLaws A TR} `{LH : !EngineLaws A TH} `{LL : !EngineLaws A TL}.
Notation engines := (engines TA TR TH TL).
Notation store := (store TA TR TH TL X).
Context `{MX : !Modules A engines X}.

(** The contents of the engines. *)
Definition db (g : engines) (e : engine_id) : kvmap :=
  match e with
  | EArray => e_map (global_array g)
  | ERbtree => e_map (global_rbtree g)
  | EHash => e_map (global_hash g)
  | ESkiplist => e_map (global_skiplist g)
  end.

Definition db_full (e : engine_id) : kvmap -> bool :=
  match e with
  | EArray => e_full (Engine := EA) | ERbtree => e_full (Engine := ER)
  | EHash => e_full (Engine := EH) | ESkiplist => e_full (Engine := EL)
  end.

Definition db_absent (e : engine_id) : Z :=
  match e with
  | EArray => e_del_absent (Engine := EA) | ERbtree => e_del_absent (Engine := ER)
  | EHash => e_del_absent (Engine := EH) | ESkiplist => e_del_absent (Engine := EL)
  end.

Definition eng_inv (g : engines) : Prop :=
  e_inv (global_array g) /\ e_inv (global_rbtree g) /\ e_inv (global_hash g) /\ e_inv (global_skiplist g).

Context `{ML : !ModulesLaws A engines X}.

Definition owners (g : engines) (x : X) (rest : list (gset Z)) : list (gset Z) :=
  [e_owned (global_array g); e_owned (global_rbtree g); e_owned (global_hash g); e_owned (global_skiplist g); m_owned x]
  ++ rest.

(** The globals and the blocks [rest] of the connection are in order. *)
Definition store_wf (st : store) (rest : list (gset Z)) (a : A) : Prop :=
  eng_inv (eng st) /\ m_inv (mods st) /\ al_inv a /\ holds (al_live a) (owners (eng st) (mods st) rest).

Definition store_frame (st : store) (rest : list (gset Z)) (a : A) (st' : store) (rest' : list (gset Z)) (a' : A) : Prop :=
  al_live a' ∖ ⋃ (owners (eng st') (mods st') rest') = al_live a ∖ ⋃ (owners (eng st) (mods st) rest).

Lemma store_frame_trans st r a st1 r1 a1 st2 r2 a2 :
  store_frame st r a st1 r1 a1 -> store_frame st1 r1 a1 st2 r2 a2 -> store_frame st r a st2 r2 a2.
Proof. unfold store_frame. congruence. Qed.

Lemma with_array_same (st : store) : with_eng (with_array (global_array (eng st)) (eng st)) st = st.
Proof. by destruct st as [[]]. Qed.
Lemma with_rbtree_same (st : store) : with_eng (with_rbtree (global_rbtree (eng st)) (eng st)) st = st.
Proof. by destruct st as [[]]. Qed.
Lemma with_hash_same (st : store) : with_eng (with_hash (global_hash (eng st)) (eng st)) st = st.
Proof. by destruct st as [[]]. Qed.
Lemma with_skiplist_same (st : store) : with_eng (with_skiplist (global_skiplist (eng st)) (eng st)) st = st.
Proof. by destruct st as [[]]. Qed.

Definition op_value (o : eop) : cptr := match o with OpSet _ v | OpMod _ v => Some v | _ => None end.

(** [value] is the second argument of [o], any pointer when [o] has one. *)
Definition op_second (o : eop) (value : cptr) : Prop :=
  match o with OpSet _ v | OpMod _ v => value = Some v | _ => True end.

(** Runs the case of an engine command: [Hs] is the step of the engine. *)
Ltac run_case same :=
  match goal with Hv : op_second ?o _, Hs : e_step ?o _ _ = _ |- _ =>
    destruct o; cbn [op_second op_key cmd_of e_step run_command result_of] in *; subst;
    match type of Hs with
    | context [res_map _ ?c] => destruct c as [[[? ?] ?] | |]
    | context [?c ≫= _] => destruct c
    end; try done; cbn in Hs |- *; injection Hs as <- <- <-; rewrite ?same; done
  end.

Ltac finish_case :=
  split; [done |]; split; [by intros [] ? |]; do 2 (split; [done |]);
  split; [split; [done |]; split; [done |]; by split | done].

(** The case of [kvs_filter_protocol] for an engine command is the operation
    of that engine. *)
Lemma run_command_step e o value cli st a rest :
  op_second o value -> store_wf st rest a ->
  exists x st' a', run_command (cmd_of e o) (Some (op_key o)) value cli st a = Ok (result_of o x, st', a') /\
    abs_step (al_can_fail A) (db_full e) (db_absent e) (db (eng st) e) o x (db (eng st') e) /\
    (forall e', e' <> e -> db (eng st') e' = db (eng st) e') /\
    mods st' = mods st /\ is_recovering st' = is_recovering st /\
    store_wf st' rest a' /\ store_frame st rest a st' rest a'.
Proof.
  intros Hv ((I1 & I2 & I3 & I4) & Im & Ia & Ho). destruct e.
  - destruct (step_owner [] _ o (global_array (eng st)) a I1 Ia Ho) as (x & e & a' & Hs & Habs & He & Ha & Ho' & Hf).
    exists x, (with_eng (with_array e (eng st)) st), a'. split; [run_case with_array_same | finish_case].
  - destruct (step_owner [_] _ o (global_rbtree (eng st)) a I2 Ia Ho) as (x & e & a' & Hs & Habs & He & Ha & Ho' & Hf).
    exists x, (with_eng (with_rbtree e (eng st)) st), a'. split; [run_case with_rbtree_same | finish_case].
  - destruct (step_owner [_; _] _ o (global_hash (eng st)) a I3 Ia Ho) as (x & e & a' & Hs & Habs & He & Ha & Ho' & Hf).
    exists x, (with_eng (with_hash e (eng st)) st), a'. split; [run_case with_hash_same | finish_case].
  - destruct (step_owner [_; _; _] _ o (global_skiplist (eng st)) a I4 Ia Ho) as (x & e & a' & Hs & Habs & He & Ha & Ho' & Hf).
    exists x, (with_eng (with_skiplist e (eng st)) st), a'. split; [run_case with_skiplist_same | finish_case].
Qed.

(** *** The write buffer grows *)

Section Total.
Context `{TOT : !AllocatorTotal A}.

Lemma grow_wbuf st cli others a n cap :
  store_wf st ({[wbuf_p cli]} :: others) a -> cli_wf cli -> w_cap cli <= cap <= n -> 0 < n ->
  exists p a', kvs_realloc (wbuf_p cli) n a = Ok (Some p, a') /\ granted p n a' = n /\
    let cli' := set_wblock p (resize (wbuf cli) n) cap cli in
    cli_wf cli' /\ grown cli cli' /\ zlen (wbuf cli') = n /\ w_cap cli' = cap /\
    store_wf st ({[wbuf_p cli']} :: others) a' /\
    store_frame st ({[wbuf_p cli]} :: others) a st ({[wbuf_p cli']} :: others) a'.
Proof.
  intros ((I1 & I2 & I3 & I4) & Im & Ia & Ho) [C1 C2 C3] Hn Hn0.
  assert (Hl : wbuf_p cli ∈ al_live a).
  { eapply (holds_sub _ _ {[wbuf_p cli]}); [exact Ho | | set_solver]. do 5 right. left. }
  destruct (realloc_total (wbuf_p cli) n a Ia Hl Hn0) as (p & a' & Hr & Hg). exists p, a'. do 2 (split; [done |]). intros cli'.
  destruct (realloc_some _ _ _ _ _ Ia Hl Hr) as (Hf & Hl' & Ia').
  assert (Hlen : zlen (wbuf cli') = n) by (apply zlen_resize; lia).
  destruct (holds_update [_; _; _; _; _] {[wbuf_p cli]} others (al_live a) {[p]} (al_live a') Ho) as [Ho' Hfr].
  { rewrite Hl'. clear - Hf. set_solver. }
  { rewrite Hl'. clear. set_solver. }
  split; [split; cbn; cbn in Hlen; lia |]. split.
  { split; [| cbn; lia | done]. cbn. rewrite <- (Z2Nat.id n) by lia. apply take_resize; unfold zlen in *; lia. }
  split; [done |]. split; [done |]. split; [| exact Hfr].
  split; [done |]. split; [done |]. by split.
Qed.

Lemma ensure_room_ok st cli others a :
  store_wf st ({[wbuf_p cli]} :: others) a -> cli_wf cli -> w_cap cli * 2 <= INT_MAX ->
  exists cli' a', ensure_room cli a = Ok (Some cli', a') /\ cli_wf cli' /\ grown cli cli' /\
    32 <= w_cap cli' - w_pos cli' /\ w_cap cli' <= w_cap cli * 2 /\
    w_cap cli' <= Z.max (w_cap cli) (2 * w_pos cli + 64) /\
    store_wf st ({[wbuf_p cli']} :: others) a' /\
    store_frame st ({[wbuf_p cli]} :: others) a st ({[wbuf_p cli']} :: others) a'.
Proof.
  intros Hwf Hc Hmax. pose proof Hc as [C1 C2 C3]. unfold ensure_room.
  destruct (Z.ltb_spec (w_cap cli - w_pos cli) 32) as [Hlt | Hge].
  - destruct (grow_wbuf st cli others a (w_cap cli * 2) (w_cap cli * 2) Hwf Hc ltac:(lia) ltac:(lia))
      as (p & a' & Hre & Hgr & Hc' & Hg & Hlen & Hcap & Hwf' & Hf).
    rewrite (proj2 (Z.ltb_ge INT_MAX _)) by done. rewrite Hre. run. rewrite Hgr. do 2 eexists. split; [done |].
    split; [done |]. split; [done |]. rewrite Hcap, (grown_pos _ _ Hg). split; [lia |]. split; [lia |]. split; [lia |]. done.
  - exists cli, a. split; [done |]. split; [done |]. split; [apply grown_refl |]. split; [lia |]. split; [lia |]. split; [lia |]. done.
Qed.

(** *** Writing the reply *)

(** A reply [write_reply] can print without leaving the buffer. *)
Definition reply_fits (c : cmd_result) (cap : Z) : Prop :=
  match c_reply c with
  | REPLY_VALUE => exists v, c_value c = Some v /\ zlen v < 10 ^ 9 /\ cap + zlen v + 16 <= INT_MAX
  | REPLY_NONE | REPLY_START => False
  | _ => True
  end.

Definition replied (text : list Z) (cli cli' : client_info) : Prop :=
  cli_wf cli' /\ grown cli cli' /\ w_pos cli + zlen text <= w_cap cli' /\
  w_cap cli' <= Z.max (w_cap cli) (2 * (w_pos cli + zlen text) + 64) /\
  rd_range (wbuf cli') (w_pos cli) (zlen text) = Ok text.

Lemma put_replied text cli :
  cli_wf cli -> w_pos cli + zlen text + 1 <= zlen (wbuf cli) -> w_pos cli + zlen text <= w_cap cli ->
  exists cli', put_reply text cli = Ok (zlen text, cli') /\ replied text cli cli' /\ wbuf_p cli' = wbuf_p cli.
Proof.
  intros [C1 C2 C3] H1 H2. destruct (put_reply_ok text cli ltac:(lia) H1) as (b & -> & Hb & Hr & Ht).
  exists (set_wbuf b cli). split; [done |]. split; [| done].
  split; [split; cbn; lia |]. split; [split; [done | cbn; lia | by destruct cli] |].
  split; [done |]. split; [cbn; lia | done].
Qed.

Lemma write_fixed text st others cli a :
  store_wf st ({[wbuf_p cli]} :: others) a -> cli_wf cli -> 32 <= w_cap cli - w_pos cli -> zlen text <= 20 ->
  exists cli' cm a', (r ← put_reply text cli; Ok (Some r, cli, a)) = Ok (Some (zlen text, cli'), cm, a') /\
    replied text cli cli' /\ store_wf st ({[wbuf_p cli']} :: others) a' /\
    store_frame st ({[wbuf_p cli]} :: others) a st ({[wbuf_p cli']} :: others) a'.
Proof.
  intros Hwf Hc Hr Ht. destruct (put_replied text cli Hc) as (cli' & -> & Hrep & Hp); [destruct Hc; lia.. |].
  exists cli', cli, a. rewrite Hp. done.
Qed.

Lemma reply_value_ok v st others cli a :
  store_wf st ({[wbuf_p cli]} :: others) a -> cli_wf cli ->
  zlen v < 10 ^ 9 -> w_cap cli + zlen v + 16 <= INT_MAX ->
  exists cli' cm a', reply_value v cli a = Ok (Some (zlen (value_text v), cli'), cm, a') /\
    replied (value_text v) cli cli' /\ store_wf st ({[wbuf_p cli']} :: others) a' /\
    store_frame st ({[wbuf_p cli]} :: others) a st ({[wbuf_p cli']} :: others) a'.
Proof.
  intros Hwf Hc Hv Hmax. pose proof Hc as [C1 C2 C3]. pose proof (zlen_nonneg v) as Hv0.
  pose proof (dec_length_9 (zlen v) ltac:(lia)) as Hd. pose proof (value_text_len v) as Hlen.
  unfold reply_value. fold (value_text v).
  rewrite (proj2 (Z.ltb_ge INT_MAX (zlen v + 15))) by lia.
  destruct (Z.ltb_spec (w_cap cli - w_pos cli) (zlen v + 15)) as [Hlt | Hge].
  - rewrite (proj2 (Z.ltb_ge INT_MAX _)) by lia.
    destruct (grow_wbuf st cli others a (w_cap cli + (zlen v + 15) + 1) (w_cap cli + (zlen v + 15)) Hwf Hc ltac:(lia) ltac:(lia))
      as (p & a' & Hre & Hgr & Hc' & Hg & Hl & Hcap & Hwf' & Hf). rewrite Hre. run. rewrite Hgr. set (c1 := set_wblock _ _ _ _) in *.
    pose proof (grown_pos _ _ Hg) as Hp.
    destruct (put_replied (value_text v) c1 Hc') as (c2 & -> & (Hw2 & Hg2 & Hb2 & Hm2 & Hr2) & Hp2); [lia.. |].
    exists c2, c1, a'. run. rewrite Hp2. split; [done |].
    split; [| done]. rewrite Hp in *. split; [done |]. split; [by eapply grown_trans |].
    split; [done |]. split; [| done]. rewrite Hcap in Hm2. pose proof (dec_length_pos (zlen v)). lia.
  - destruct (put_replied (value_text v) cli Hc) as (c2 & -> & Hrep & Hp2); [lia.. |].
    exists c2, cli, a. rewrite Hp2. done.
Qed.

Lemma write_reply_ok c tok st others cli a :
  store_wf st ({[wbuf_p cli]} :: others) a -> cli_wf cli -> 32 <= w_cap cli - w_pos cli ->
  reply_fits c (w_cap cli) ->
  exists cli' cm a', write_reply c tok cli a = Ok (Some (zlen (reply_text c), cli'), cm, a') /\
    replied (reply_text c) cli cli' /\ store_wf st ({[wbuf_p cli']} :: others) a' /\
    store_frame st ({[wbuf_p cli]} :: others) a st ({[wbuf_p cli']} :: others) a'.
Proof.
  intros Hwf Hc Hr Hfit. unfold reply_fits in Hfit. unfold write_reply, reply_text.
  destruct (c_reply c); try done; try (apply write_fixed; [done | done | done | vm_compute; congruence]).
  destruct Hfit as (v & -> & Hv & Hmax). run. by apply reply_value_ok.
Qed.

(** *** Log and replication *)

(** The write [ts] is handed to the log and to the replication, whatever the
    log answers. *)
Definition propagated (ts : list (list Z)) (cli : client_info) (st st' : store) : Prop :=
  exists a1 r x1 a2 a3, m_wf (mods st) a1 /\ frame_fits ts /\
    m_log_write (Some <$> ts) (zlen ts) (mods st) a1 = Ok (r, x1, a2) /\
    m_incr_sync cli (Some <$> ts) (zlen ts) x1 a2 = Ok (0, mods st', a3).

Lemma owner_mods l1 l2 (x x' : X) a a' :
  holds (al_live a) (l1 ++ m_owned x :: l2) -> m_wf x' a' -> m_frame x a x' a' ->
  holds (al_live a') (l1 ++ m_owned x' :: l2) /\
  al_live a' ∖ ⋃ (l1 ++ m_owned x' :: l2) = al_live a ∖ ⋃ (l1 ++ m_owned x :: l2).
Proof. intros Ho (_ & _ & Hs) Hf. by apply holds_update. Qed.

Lemma propagate_ok c ts cli st rest a :
  store_wf st rest a -> frame_fits ts ->
  exists st' a', propagate c (Some <$> ts) (zlen ts) cli st a = Ok (true, st', a') /\
    eng st' = eng st /\ is_recovering st' = is_recovering st /\
    (if c_write c && (is_recovering st =? 0) then propagated ts cli st st' else mods st' = mods st) /\
    store_wf st' rest a' /\ store_frame st rest a st' rest a'.
Proof.
  intros Hwf Hfit. pose proof Hwf as (Ie & Im & Ia & Ho). unfold propagate.
  destruct (c_write c && (is_recovering st =? 0)); [| by exists st, a].
  assert (Hm : m_wf (mods st) a).
  { split; [done |]. split; [done |]. eapply holds_sub; [exact Ho |]. do 4 right. left. }
  destruct (log_law ts (mods st) a Hm Hfit) as (r & x1 & a1 & Hl & Hm1 & Hf1). rewrite Hl. run.
  destruct (incr_law cli ts x1 a1 Hm1 Hfit) as (x2 & a2 & Hi & Hm2 & Hf2). rewrite Hi. run.
  exists (with_mods x2 st), a2. do 3 (split; [done |]).
  split; [by exists a, r, x1, a1, a2 |].
  assert (Hf : m_frame (mods st) a x2 a2) by (unfold m_frame in *; congruence).
  destruct (owner_mods [_; _; _; _] rest _ _ _ _ Ho Hm2 Hf) as [Ho' Hfr].
  split; [| exact Hfr]. split; [done |]. split; [apply Hm2 |]. split; [apply Hm2 | done].
Qed.

(** *** The whole request *)

(** The reply to [o] can be printed: a stored value is shorter than a
    gigabyte and the buffer stays within an [int]. *)
Definition request_fits (o : eop) (m : kvmap) (cap : Z) : Prop :=
  cap * 2 <= INT_MAX /\
  forall k v, o = OpGet k -> m !! k = Some v -> zlen v < 10 ^ 9 /\ cap * 2 + zlen v + 16 <= INT_MAX.

Lemma result_fits oom full absent m o x m' cap cap' :
  abs_step oom full absent m o x m' -> request_fits o m cap -> cap' <= cap * 2 -> reply_fits (result_of o x) cap'.
Proof.
  intros Hs [_ Hv] Hcap. unfold reply_fits.
  destruct Hs as [k v r m' Hs | k | k r m' Hs | k v r m' Hs | k r | o k v r _ [-> | ->] _]; cbn;
    unfold reply_set, reply_change, reply_exist; try (by repeat case_match).
  destruct (m !! k) as [v |] eqn:Hk; cbn; [| done]. destruct (Hv k v eq_refl Hk). exists v. split; [done |]. lia.
Qed.

Lemma token_head (tok : list Z) ts : token (Some <$> tok :: ts) 0 = Some tok.
Proof. done. Qed.

(** A successful change: the requests the log records. *)
Definition is_write (o : eop) (x : eout) : bool := c_write (result_of o x).

Lemma request_run e o extra st others cli a :
  let ts := op_tokens e o ++ extra in
  store_wf st ({[wbuf_p cli]} :: others) a -> cli_wf cli -> frame_fits ts ->
  request_fits o (db (eng st) e) (w_cap cli) ->
  exists x cli' st' a',
    kvs_filter_protocol (Some <$> ts) (zlen ts) cli st a
      = Ok (zlen (reply_text (result_of o x)), cli', st', a') /\
    abs_step False (db_full e) (db_absent e) (db (eng st) e) o x (db (eng st') e) /\
    (forall e', e' <> e -> db (eng st') e' = db (eng st) e') /\
    is_recovering st' = is_recovering st /\
    replied (reply_text (result_of o x)) cli cli' /\
    (if is_write o x && (is_recovering st =? 0) then exists c, propagated ts c st st' else mods st' = mods st) /\
    store_wf st' ({[wbuf_p cli']} :: others) a' /\
    store_frame st ({[wbuf_p cli]} :: others) a st' ({[wbuf_p cli']} :: others) a'.
Proof.
  intros ts Hwf Hc Hfit Hreq. unfold kvs_filter_protocol.
  destruct (ensure_room_ok st cli others a Hwf Hc (proj1 Hreq)) as (c1 & a1 & Hroom & Hc1 & Hg1 & Hr1 & Hcap & Hmx1 & Hwf1 & Hf1).
  change (token (Some <$> ts) 0) with (Some (prefix e ++ verb o)). cbv beta iota.
  assert (Hcount : 0 < zlen ts) by (unfold ts, zlen; cbn; lia).
  rewrite (proj2 (Z.leb_gt (zlen ts) 0)) by done. rewrite Hroom, find_command_op. run.
  destruct (run_command_step e o (token (Some <$> ts) 2) c1 st a1 ({[wbuf_p c1]} :: others))
    as (x & st2 & a2 & Hrun & Habs & Hoth & Hmods & Hrec & Hwf2 & Hf2); [by destruct o | done |].
  assert (Hkey : token (Some <$> ts) 1 = Some (op_key o)) by (by destruct o). rewrite Hkey, Hrun. run.
  destruct (write_reply_ok (result_of o x) (prefix e ++ verb o) st2 others c1 a2 Hwf2 Hc1 Hr1)
    as (c3 & cm & a3 & -> & (Hc3 & Hg3 & Hb3 & Hmx3 & Hrd3) & Hwf3 & Hf3); [by eapply result_fits |]. run.
  destruct (propagate_ok (result_of o x) ts c3 st2 _ a3 Hwf3 Hfit) as (st4 & a4 & -> & Heng & Hrec4 & Hprop & Hwf4 & Hf4). run.
  exists x, c3, st4, a4. split; [done |]. rewrite Heng.
  split; [by eapply abs_step_oom; [apply total_no_fail |] |]. split; [done |]. split; [congruence |].
  split.
  { pose proof (grown_pos _ _ Hg1) as Hp1. rewrite Hp1 in Hb3, Hmx3, Hrd3.
    split; [done |]. split; [by eapply grown_trans |]. split; [done |]. split; [| done].
    pose proof (zlen_nonneg (reply_text (result_of o x))). lia. }
  split.
  { unfold is_write. rewrite <- Hrec. destruct (_ && _); [| congruence].
    exists c3. unfold propagated in *. by rewrite <- Hmods. }
  split; [done |]. eapply store_frame_trans; [exact Hf1 |]. eapply store_frame_trans; [exact Hf2 |].
  eapply store_frame_trans; [exact Hf3 | exact Hf4].
Qed.

End Total.
End Facts.
