(* ===== verification/Uring.v ===== *)
(** * Uring: the part of liburing the persistence code uses

    liburing is a dependency: its queues are a parameter, a type [R] with the
    calls of kvs_log.c and kvs_save.c. [UringLaws] states what its manual
    promises on entries and completions, [UringTotal] what happens when no call
    and no write fails. [u_flight] lists the requests that were taken from the
    submission queue and whose completion was not consumed yet, each with its
    user data; [u_todo] those of them the kernel has still to carry out, and
    [u_disk] is the contents of the file at this moment. The kernel carries
    requests out at any time and in any order; [settled] is the contents when
    it has done them all. *)

From S2P Require Import Prelude Alloc.

(** [io_write_ctx] as the writers use it: the address of the block, the
    buffer to write, its length and its place in the file. *)
Record io_write_ctx := WriteCtx { ctx_p : Z; ctx_buf : block; ctx_len : Z; ctx_offset : Z }.

Definition SIZEOF_WRITE_CTX : Z := 40.

(** A file after a write of [data], at least one byte, at [off]; a gap reads as
    zeros. *)
Definition file_write (f : list Z) (off : Z) (data : list Z) : list Z :=
  take (Z.to_nat off) f ++ replicate (Z.to_nat off - length f) 0 ++ data ++ drop (Z.to_nat off + length data) f.

(** The bytes of a request, and the file after it. *)
Definition ctx_data (c : io_write_ctx) : list Z := take (Z.to_nat (ctx_len c)) (b_str (ctx_buf c)).
Definition do_write (c : io_write_ctx) (f : list Z) : list Z := file_write f (ctx_offset c) (ctx_data c).

Class Uring (R : Type) := {
  (** [io_uring_queue_init] on a file with the given contents: [None] for an
      error *)
  u_init : list Z -> option R;
  (** [io_uring_get_sqe]: [false] for NULL *)
  u_get_sqe : R -> bool * R;
  (** [io_uring_prep_write] and [io_uring_sqe_set_data] on the entry just
      taken: [len] bytes of the buffer at [offset], user data *)
  u_prep_write : io_write_ctx -> R -> R;
  u_submit : R -> R;
  (** [io_uring_peek_cqe] and [io_uring_cqe_seen]: the user data of a
      completion, [Some None] for an entry whose data was never set *)
  u_peek : R -> option (option io_write_ctx) * R;
  (** [io_uring_wait_cqe] and [io_uring_cqe_seen]: [None] for an error *)
  u_wait : R -> option (option io_write_ctx) * R;
  u_flight : R -> list (option io_write_ctx);
  u_todo : R -> list io_write_ctx;
  u_disk : R -> list Z
}.

(** One completion was consumed. *)
Definition consumed {R} `{Uring R} (c : option io_write_ctx) (r r' : R) : Prop :=
  exists l1 l2, u_flight r = l1 ++ c :: l2 /\ u_flight r' = l1 ++ l2.

Class UringLaws (R : Type) `{Uring R} : Prop := {
  init_law f r : u_init f = Some r -> u_flight r = [] /\ u_todo r = [] /\ u_disk r = f;
  sqe_some r r' :
    u_get_sqe r = (true, r') -> u_flight r' = u_flight r ++ [None] /\ u_todo r' = u_todo r /\ u_disk r' = u_disk r;
  sqe_none r r' :
    u_get_sqe r = (false, r') -> u_flight r' = u_flight r /\ u_todo r' = u_todo r /\ u_disk r' = u_disk r;
  prep_law c r l :
    u_flight r = l ++ [None] ->
    u_flight (u_prep_write c r) = l ++ [Some c] /\
    u_todo (u_prep_write c r) = u_todo r ++ [c] /\ u_disk (u_prep_write c r) = u_disk r;
  submit_law r : u_flight (u_submit r) = u_flight r;
  peek_some r c r' : u_peek r = (Some c, r') -> consumed c r r';
  peek_none r r' : u_peek r = (None, r') -> u_flight r' = u_flight r;
  wait_some r c r' : u_wait r = (Some c, r') -> consumed c r r';
  wait_none r r' : u_wait r = (None, r') -> u_flight r' = u_flight r
}.

(** Meanwhile the kernel carried out some of the requests, [done], the last one
    first, each completely. *)
Definition progress {R} `{Uring R} (r r' : R) : Prop :=
  exists done, u_todo r ≡ₚ done ++ u_todo r' /\ u_disk r' = foldr do_write (u_disk r) done.

(** Runs without I/O errors: the queues can be set up and have room, no write
    fails or is cut short, a completion comes after its write and every request
    is completed in the end. The code does not look at the results of its
    writes, so the statements on the contents of files are for such runs. *)
Class UringTotal (R : Type) `{Uring R} : Prop := {
  init_total f : exists r, u_init f = Some r;
  sqe_total r : exists r', u_get_sqe r = (true, r');
  wait_total r : u_flight r <> [] -> exists c r', u_wait r = (Some c, r');
  submit_progress r : progress r (u_submit r);
  peek_progress r c r' : u_peek r = (c, r') -> progress r r';
  wait_progress r c r' : u_wait r = (c, r') -> progress r r';
  todo_flight r : Some <$> u_todo r ⊆+ u_flight r
}.

(** ** Writes to different places *)

Lemma length_file_write f off data :
  length (file_write f off data) = Nat.max (length f) (Z.to_nat off + length data).
Proof. unfold file_write. rewrite !length_app, length_take, length_replicate, length_drop. lia. Qed.

Lemma lookup_file_write f off data i :
  file_write f off data !! i =
    if decide (i < Z.to_nat off)%nat then Some (default 0 (f !! i))
    else if decide (i < Z.to_nat off + length data)%nat then data !! (i - Z.to_nat off)%nat else f !! i.
Proof.
  unfold file_write. set (o := Z.to_nat off). destruct (decide (i < o)%nat) as [Hi | Hi].
  - destruct (decide (i < length f)%nat) as [Hf | Hf].
    + rewrite lookup_app_l by (rewrite length_take; lia). rewrite lookup_take_lt by done.
      by destruct (lookup_lt_is_Some_2 f i Hf) as [x ->].
    + rewrite lookup_app_r by (rewrite length_take; lia). rewrite lookup_app_l by (rewrite length_take, length_replicate; lia).
      rewrite lookup_replicate_2 by (rewrite length_take; lia). by rewrite (lookup_ge_None_2 f i) by lia.
  - rewrite lookup_app_r by (rewrite length_take; lia).
    rewrite lookup_app_r by (rewrite length_take, length_replicate; lia). rewrite length_take, length_replicate.
    replace (i - o `min` length f - (o - length f))%nat with (i - o)%nat by lia.
    destruct (decide (i < o + length data)%nat) as [Hd | Hd].
    + by rewrite lookup_app_l by lia.
    + rewrite lookup_app_r by lia. rewrite lookup_drop. f_equal. lia.
Qed.

Lemma file_write_end f data : file_write f (zlen f) data = f ++ data.
Proof.
  unfold file_write, zlen. rewrite Nat2Z.id, firstn_all, Nat.sub_diag, drop_ge by lia.
  cbn. by rewrite app_nil_r.
Qed.

(** The end of a request, and requests that do not overlap. *)
Definition ctx_end (c : io_write_ctx) : nat := Z.to_nat (ctx_offset c) + length (ctx_data c).
Definition ctx_apart (c d : io_write_ctx) : Prop :=
  (ctx_end c <= Z.to_nat (ctx_offset d) \/ ctx_end d <= Z.to_nat (ctx_offset c))%nat.

Lemma do_write_comm c d f : ctx_apart c d -> do_write c (do_write d f) = do_write d (do_write c f).
Proof.
  unfold ctx_apart, ctx_end, do_write. intros Ha. apply list_eq. intros i. rewrite !lookup_file_write.
  set (o := Z.to_nat (ctx_offset c)) in *. set (o' := Z.to_nat (ctx_offset d)) in *.
  assert (Hin : forall (l : list Z) j, (j < length l)%nat -> Some (default 0 (l !! j)) = l !! j).
  { intros l j Hj. by destruct (lookup_lt_is_Some_2 l j Hj) as [x ->]. }
  repeat case_decide; try lia; try done; cbn [default]; try (by rewrite Hin by lia); try (by rewrite <- Hin by lia).
Qed.

Lemma length_do_write c f : length (do_write c f) = Nat.max (length f) (ctx_end c).
Proof. apply length_file_write. Qed.

(** Pairwise. *)
Definition todo_apart (l : list io_write_ctx) : Prop :=
  forall i j c d, i <> j -> l !! i = Some c -> l !! j = Some d -> ctx_apart c d.

Lemma todo_apart_perm l l' : l ≡ₚ l' -> todo_apart l -> todo_apart l'.
Proof.
  intros [_ (f & Hf & Hl)]%symmetry%Permutation_inj Ha i j c d Hij Hc Hd. rewrite Hl in Hc, Hd.
  apply (Ha (f i) (f j)); [intros He; by apply Hij, (inj f) | done | done].
Qed.

Lemma todo_apart_app_r l l' : todo_apart (l ++ l') -> todo_apart l'.
Proof.
  intros Ha i j c d Hij Hc Hd. apply (Ha (length l + i) (length l + j))%nat; [lia | |];
    rewrite lookup_app_r, Nat.add_comm, Nat.add_sub by lia; done.
Qed.

Lemma writes_perm f l l' : todo_apart l -> l ≡ₚ l' -> foldr do_write f l = foldr do_write f l'.
Proof.
  intros Ha. apply (foldr_permutation (=) do_write f).
  intros i c j d g Hij Hc Hd. apply do_write_comm. by apply (Ha i j).
Qed.

Lemma writes_end f l c : c ∈ l -> (ctx_end c <= length (foldr do_write f l))%nat.
Proof.
  induction l as [| d l IH]; [by intros ?%elem_of_nil |]. cbn [foldr]. rewrite length_do_write.
  intros [-> | Hc]%elem_of_cons; [lia |]. specialize (IH Hc). lia.
Qed.

(** ** The contents to come *)

Section Settled.
Context {R : Type} `{UL : UringLaws R}.
Implicit Types r : R.

Definition settled r : list Z := foldr do_write (u_disk r) (u_todo r).

Lemma settled_init f r : u_init f = Some r -> settled r = f /\ todo_apart (u_todo r).
Proof. intros (_ & Ht & Hd)%init_law. unfold settled. rewrite Ht, Hd. by split. Qed.

Lemma settled_sqe b r r' : u_get_sqe r = (b, r') -> settled r' = settled r /\ u_todo r' = u_todo r.
Proof.
  unfold settled. destruct b; [intros (_ & Ht & Hd)%sqe_some | intros (_ & Ht & Hd)%sqe_none]; by rewrite Ht, Hd.
Qed.

(** The kernel's progress does not change what is to come. *)
Lemma settled_progress r r' : progress r r' -> todo_apart (u_todo r) -> settled r' = settled r /\ todo_apart (u_todo r').
Proof.
  intros (done & Hp & Hd) Ha. unfold settled. rewrite Hd, <- foldr_app. split.
  - symmetry. apply writes_perm; [done |]. rewrite Hp. apply Permutation_app_comm.
  - eapply todo_apart_app_r. by eapply todo_apart_perm.
Qed.

(** A request behind the end of what is to come appends its bytes. *)
Lemma settled_prep c r l :
  u_flight r = l ++ [None] -> todo_apart (u_todo r) -> ctx_offset c = zlen (settled r) ->
  settled (u_prep_write c r) = settled r ++ ctx_data c /\ todo_apart (u_todo (u_prep_write c r)).
Proof.
  intros Hl Ha Ho. destruct (prep_law c r l Hl) as (_ & Ht & Hd).
  assert (Ha' : todo_apart (u_todo r ++ [c])).
  { assert (Hc : forall d, d ∈ u_todo r -> ctx_apart d c).
    { intros d Hd'. left. rewrite Ho. unfold zlen. rewrite Nat2Z.id. by apply writes_end. }
    intros i j x y Hij Hx Hy. rewrite lookup_app_Some in Hx, Hy.
    destruct Hx as [Hx | [Hxl Hx]], Hy as [Hy | [Hyl Hy]].
    - by apply (Ha i j).
    - apply list_lookup_singleton_Some in Hy as [_ <-]. apply Hc. by eapply list_elem_of_lookup_2.
    - apply list_lookup_singleton_Some in Hx as [_ <-]. apply or_comm, Hc. by eapply list_elem_of_lookup_2.
    - apply list_lookup_singleton_Some in Hx as [? _], Hy as [? _]. lia. }
  split; [| by rewrite Ht]. unfold settled at 1. rewrite Ht, Hd.
  rewrite (writes_perm _ _ (c :: u_todo r)) by (done || (symmetry; apply Permutation_cons_append)).
  cbn [foldr]. fold (settled r). unfold do_write. rewrite Ho. apply file_write_end.
Qed.

(** When every completion was consumed the contents are there. *)
Lemma settled_done `{!UringTotal R} r : u_flight r = [] -> u_disk r = settled r.
Proof.
  intros Hf. pose proof (todo_flight r) as Hs. rewrite Hf in Hs. apply submseteq_nil_r in Hs. unfold settled.
  by destruct (u_todo r).
Qed.

End Settled.

(** ** An instance that completes requests in order *)
Module Fifo.

(** An entry that was taken, one to carry out, one that is done. *)
Inductive entry := Empty | Queued (c : io_write_ctx) | Written (c : io_write_ctx).

Definition data (e : entry) : option io_write_ctx := match e with Empty => None | Queued c | Written c => Some c end.
Definition queued (e : entry) : option io_write_ctx := match e with Queued c => Some c | _ => None end.
Definition finish (e : entry) : entry := match e with Queued c => Written c | _ => e end.

Record t := mk { flight : list entry; disk : list Z; room : option nat }.

Definition init (f : list Z) : option t := Some (mk [] f None).
Definition get_sqe (r : t) : bool * t :=
  match room r with
  | Some O => (false, r)
  | Some (S n) => (true, mk (flight r ++ [Empty]) (disk r) (Some n))
  | None => (true, mk (flight r ++ [Empty]) (disk r) None)
  end.
Definition prep_write (c : io_write_ctx) (r : t) : t := mk (removelast (flight r) ++ [Queued c]) (disk r) (room r).
(** The kernel carries out everything that is queued, first to last. *)
Definition submit (r : t) : t :=
  mk (finish <$> flight r) (foldr do_write (disk r) (reverse (omap queued (flight r)))) (room r).
Definition take_first (r : t) : option (option io_write_ctx) * t :=
  match flight r with
  | [] => (None, r)
  | e :: l => (Some (data e), mk l (disk r) (room r))
  end.
(** Nothing is seen of a request that is not done. *)
Definition peek (r : t) : option (option io_write_ctx) * t :=
  match flight r with Queued _ :: _ => (None, r) | _ => take_first r end.
Definition wait (r : t) : option (option io_write_ctx) * t := take_first (submit r).

#[global] Instance uring : Uring t := {
  u_init := init; u_get_sqe := get_sqe; u_prep_write := prep_write; u_submit := submit;
  u_peek := peek; u_wait := wait; u_flight := fun r => data <$> flight r;
  u_todo := fun r => omap queued (flight r); u_disk := disk }.

Lemma data_finish (l : list entry) : data <$> (finish <$> l) = data <$> l.
Proof. rewrite <- list_fmap_compose. apply list_fmap_ext. by intros i [] _. Qed.

Lemma queued_finish (l : list entry) : omap queued (finish <$> l) = [].
Proof. induction l as [| [] l IH]; cbn; done. Qed.

(** A submission queue whose last entry is empty. *)
Lemma last_empty r l : data <$> flight r = l ++ [None] -> exists l', flight r = l' ++ [Empty] /\ data <$> l' = l.
Proof.
  intros Hl. destruct (flight r) as [| e es _] eqn:He using rev_ind; [by destruct l |].
  rewrite fmap_app in Hl. apply app_inj_tail in Hl as [<- He']. exists es. by destruct e.
Qed.

Lemma take_consumed r c r' : take_first r = (Some c, r') -> consumed c r r'.
Proof.
  unfold take_first, consumed. cbn. destruct (flight r) as [| e l]; [done |]. intros [= <- <-]. by exists [], (data <$> l).
Qed.

Lemma take_none r r' : take_first r = (None, r') -> r' = r.
Proof. unfold take_first. destruct (flight r); congruence. Qed.

Lemma peek_take r c r' : peek r = (Some c, r') -> take_first r = (Some c, r').
Proof. unfold peek. by destruct (flight r) as [| []]. Qed.

Lemma peek_empty r r' : peek r = (None, r') -> r' = r.
Proof. unfold peek, take_first. destruct (flight r) as [| []]; congruence. Qed.

Lemma submit_flight r : data <$> flight (submit r) = data <$> flight r.
Proof. apply data_finish. Qed.

#[global] Instance laws : UringLaws t.
Proof.
  split; cbn.
  - by intros f r [= <-].
  - intros [l f [[| n] |]] r' Hr; cbn in Hr; [done | |]; injection Hr as <-; cbn; rewrite fmap_app, omap_app; cbn; by rewrite app_nil_r.
  - intros [l f [[| n] |]] r' Hr; cbn in Hr; [by injection Hr as <- | done | done].
  - intros c r l (l' & Hl & <-)%last_empty. rewrite Hl, removelast_last, fmap_app, !omap_app. cbn. by rewrite app_nil_r.
  - apply submit_flight.
  - intros r c r' Hp%peek_take. by apply take_consumed.
  - by intros r r' ->%peek_empty.
  - intros r c r' (l1 & l2 & H1 & H2)%take_consumed. exists l1, l2. split; [| exact H2]. rewrite <- H1. symmetry. apply submit_flight.
  - intros r r' ->%take_none. apply submit_flight.
Qed.

Lemma progress_refl (r : t) : progress r r.
Proof. by exists []. Qed.

Lemma progress_submit r : progress r (submit r).
Proof. exists (reverse (omap queued (flight r))). cbn. rewrite queued_finish, app_nil_r. split; [symmetry; apply reverse_Permutation | done]. Qed.

(** Consuming what is not queued leaves the rest. *)
Lemma progress_take r c r' :
  (forall d l, flight r <> Queued d :: l) -> take_first r = (c, r') -> u_todo r' = u_todo r /\ disk r' = disk r.
Proof.
  unfold take_first. cbn. destruct (flight r) as [| [] l] eqn:Hr; intros Hq [= <- <-]; cbn; rewrite ?Hr; try done.
  by destruct (Hq c0 l).
Qed.

Lemma progress_peek r c r' : peek r = (c, r') -> progress r r'.
Proof.
  intros Hp. assert (Hsame : u_todo r' = u_todo r /\ disk r' = disk r).
  { unfold peek in Hp. destruct (flight r) as [| [] l] eqn:Hr; try (injection Hp as <- <-; done);
      apply (progress_take r c); [by rewrite Hr | done | by rewrite Hr | done | by rewrite Hr | done]. }
  destruct Hsame as [Ht Hd]. exists []. by rewrite Ht.
Qed.

Lemma progress_wait r c r' : wait r = (c, r') -> progress r r'.
Proof.
  intros Hw. destruct (progress_take (submit r) c r') as [Ht Hd]; [| done |].
  { cbn. intros d l Hl. destruct (flight r) as [| [] ?]; cbn in Hl; discriminate Hl. }
  destruct (progress_submit r) as (dn & Hp & Hdk). exists dn. cbn in *. by rewrite Ht, Hd.
Qed.

Lemma queued_data (l : list entry) : Some <$> omap queued l ⊆+ data <$> l.
Proof. induction l as [| [| c | c] l IH]; cbn; [done | by constructor | by constructor | by constructor]. Qed.

End Fifo.

(** An instance with unlimited room. *)
Module Roomy.

Record t := mk { under : Fifo.t }.

Definition get_sqe (r : t) : bool * t :=
  (true, mk (Fifo.mk (Fifo.flight (under r) ++ [Fifo.Empty]) (Fifo.disk (under r)) None)).
Definition lift {X} (m : X * Fifo.t) : X * t := (m.1, mk m.2).

#[global] Instance uring : Uring t := {
  u_init := fun f => Some (mk (Fifo.mk [] f None)); u_get_sqe := get_sqe;
  u_prep_write := fun c r => mk (Fifo.prep_write c (under r)); u_submit := fun r => mk (Fifo.submit (under r));
  u_peek := fun r => lift (Fifo.peek (under r)); u_wait := fun r => lift (Fifo.wait (under r));
  u_flight := fun r => u_flight (under r); u_todo := fun r => u_todo (under r); u_disk := fun r => u_disk (under r) }.

Lemma lift_eq {X} (m : X * Fifo.t) c r' : lift m = (c, r') -> m = (c, under r').
Proof. destruct m. by intros [= <- <-]. Qed.

#[global] Instance laws : UringLaws t.
Proof.
  split.
  - by intros f r [= <-].
  - intros r r' [= <-]. cbn. rewrite fmap_app, omap_app. cbn. by rewrite app_nil_r.
  - done.
  - intros c r l Hl. exact (prep_law c (under r) l Hl).
  - intros r. exact (submit_law (under r)).
  - intros r c r' Hp%lift_eq. exact (peek_some _ _ _ Hp).
  - intros r r' Hp%lift_eq. exact (peek_none _ _ Hp).
  - intros r c r' Hp%lift_eq. exact (wait_some _ _ _ Hp).
  - intros r r' Hp%lift_eq. exact (wait_none _ _ Hp).
Qed.

#[global] Instance total : UringTotal t.
Proof.
  split.
  - by eexists.
  - by eexists.
  - intros [[[| e l] f n]] Hne; [done |]. by eexists _, _.
  - intros r. exact (Fifo.progress_submit (under r)).
  - intros r c r' Hp%lift_eq. exact (Fifo.progress_peek _ _ _ Hp).
  - intros r c r' Hp%lift_eq. exact (Fifo.progress_wait _ _ _ Hp).
  - intros r. apply Fifo.queued_data.
Qed.

End Roomy.
