(* ===== verification/Log.v ===== *)
(** * Log: the append-only file (kvs-module/kvs_log.c)

    [kvs_file_read] feeds the frames of a file, one by one, to a handler: the
    command layer when the log is replayed, the snapshot loader of kvs_save.c
    otherwise. [kvs_log_write] frames a command and queues its write at the end
    of the file; the buffers are released when the completions are reaped. *)

From S2P Require Import Prelude CLib Alloc Protocol Engine Uring.

Definition BUFFER_SIZE : Z := 1024.

(** The globals of the file; [ring_log] is [None] where the ring is not one
    [io_uring_queue_init] has set up, and using it is undefined. *)
Record log_state (R : Type) := LogState {
  fd_log : Z;
  ring_log : option R;
  ring_log_inited : Z;
  global_log_offset : Z
}.
Arguments LogState {R}.
Arguments fd_log {R}.
Arguments ring_log {R}.
Arguments ring_log_inited {R}.
Arguments global_log_offset {R}.

(** What the calls of [kvs_log_init] answer: the descriptor [open] returns,
    whether [fstat] and [mmap] succeed, and the contents of the file. *)
Record log_env := LogEnv { le_fd : Z; le_fstat : bool; le_mmap : bool; le_file : list Z }.

Section Read.
Context {A S : Type} `{Allocator A}.

(** [msg_handler] with the state it works on. *)
Definition msg_handler : Type := client_info -> S -> A -> res (Z * client_info * S * A).

(** The connection [kvs_file_read] reads for: no descriptor, buffers of
    [BUFFER_SIZE + 1] bytes, whose initial contents are never read. *)
Definition file_client (rp wp : Z) : client_info :=
  ClientInfo 0 rp (replicate (Z.to_nat (BUFFER_SIZE + 1)) 0) BUFFER_SIZE 0 0 0
    wp (replicate (Z.to_nat (BUFFER_SIZE + 1)) 0) BUFFER_SIZE 0 0 PROTO_KVSP (Some kvsp_parse_bulk_size).

(** [if (total_len > cli.r_cap) realloc]; [None] when it fails. *)
Definition file_room (total_len : Z) (cli : client_info) (a : A) : res (option client_info * A) :=
  if r_cap cli <? total_len then
    if INT_MAX <? total_len + 1 then Undef else
    '(temp, a) ← kvs_realloc (rbuf_p cli) (total_len + 1) a;
    match temp with
    | None => Ok (None, a)
    | Some p => Ok (Some (set_rblock p (resize (rbuf cli) (granted p (total_len + 1) a)) total_len cli), a)
    end
  else Ok (Some cli, a).

(** The loop over the frames; [ptr] is what is left of the file. *)
Fixpoint file_loop (fuel : nat) (handler : msg_handler) (ptr : list Z) (cli : client_info) (s : S) (a : A)
    : res (client_info * S * A) :=
  if zlen ptr <=? 0 then Ok (cli, s, a) else
  match fuel with
  | O => NoFuel
  | Datatypes.S fuel =>
      '(total_len, head_len) ← kvsp_parse_bulk_size ptr (to_int (zlen ptr)) 0;
      if total_len <=? 0 then Ok (cli, s, a) else
      '(room, a) ← file_room total_len cli a;
      match room with
      | None => Ok (cli, s, a)
      | Some cli =>
          let cli := set_cmd total_len head_len cli in
          frame ← rd_range ptr 0 total_len;
          b ← wr_range (rbuf cli) 0 frame;
          b ← wr b total_len 0;
          '(ret, cli, s, a) ← handler (set_rbuf b cli) s a;
          if ret <? 0 then Ok (cli, s, a)
          else file_loop fuel handler (drop (Z.to_nat total_len) ptr) cli s a
      end
  end.

(** [kvs_file_read] *)
Definition kvs_file_read (ptr : list Z) (handler : msg_handler) (s : S) (a : A) : res (Z * S * A) :=
  if zlen ptr =? 0 then Ok (-1, s, a) else
  match kvs_malloc (BUFFER_SIZE + 1) a with
  | (None, a) => Ok (-2, s, a)
  | (Some wp, a) =>
      match kvs_malloc (BUFFER_SIZE + 1) a with
      | (None, a) => Ok (-2, s, kvs_free wp a)
      | (Some rp, a) =>
          '(cli, s, a) ← file_loop (Datatypes.S (length ptr)) handler ptr (file_client rp wp) s a;
          Ok (0, s, kvs_free (wbuf_p cli) (kvs_free (rbuf_p cli) a))
      end
  end.

End Read.

Arguments msg_handler : clear implicits.

Section Write.
Context {A R : Type} `{Allocator A} `{Uring R}.

(** [while (io_uring_peek_cqe(...) == 0)]: releases the buffers of the
    requests that are done; a completion without a context dereferences it. *)
Fixpoint reap (fuel : nat) (r : R) (a : A) : res (R * A) :=
  match u_peek r with
  | (None, r) => Ok (r, a)
  | (Some c, r) =>
      match fuel with
      | O => NoFuel
      | Datatypes.S fuel =>
          ctx ← of_option c;
          reap fuel r (kvs_free (ctx_p ctx) (kvs_free (b_addr (ctx_buf ctx)) a))
      end
  end.

Definition with_ring (r : R) (off : Z) (x : log_state R) : log_state R :=
  LogState (fd_log x) (Some r) (ring_log_inited x) off.

(** The second half of [kvs_log_write]: the frame [buf] is queued at the end
    of the file. *)
Definition log_append (buf : block) (buf_len : Z) (x : log_state R) (a : A) : res (Z * log_state R * A) :=
  ring ← of_option (ring_log x);
  '(ring, a) ← reap (length (u_flight ring)) ring a;
  match u_get_sqe ring with
  | (false, ring) =>
      Ok (-2, with_ring (u_submit ring) (global_log_offset x) x, kvs_free (b_addr buf) a)
  | (true, ring) =>
      match kvs_malloc SIZEOF_WRITE_CTX a with
      | (None, a) =>
          Ok (-2, with_ring ring (global_log_offset x) x, kvs_free (b_addr buf) a)
      | (Some p, a) =>
          let ctx := WriteCtx p buf buf_len (global_log_offset x) in
          Ok (0, with_ring (u_submit (u_prep_write ctx ring)) (global_log_offset x + buf_len) x, a)
      end
  end.

(** [kvs_log_write]; [enable] is [global_config.enable_log]. *)
Definition kvs_log_write (enable : Z) (tokens : list cptr) (count : Z) (x : log_state R) (a : A)
    : res (Z * log_state R * A) :=
  if enable =? 0 then Ok (0, x, a) else
  match tokens with
  | [] | None :: _ => Ok (-1, x, a)
  | Some _ :: _ =>
      if count <=? 0 then Ok (-1, x, a) else
      if (fd_log x <? 0) || negb (ring_log_inited x =? 1) then Ok (-1, x, a) else
      '(frame, a) ← kvs_build_kvsp_frame (take (Z.to_nat count) tokens) a;
      match frame with
      | None => Ok (-2, x, a)
      | Some (buf, buf_len) =>
          if buf_len <=? 0 then Ok (-2, x, a) else log_append buf buf_len x a
      end
  end.

(** [kvs_log_init]; the result of [io_uring_queue_init] is not tested. *)
Definition kvs_log_init {S} (enable : Z) (env : log_env) (handler : msg_handler A S)
    (x : log_state R) (s : S) (a : A) : res (Z * log_state R * S * A) :=
  if enable =? 0 then Ok (0, x, s, a) else
  if le_fd env <? 0
  then Ok (-1, LogState (le_fd env) (ring_log x) (ring_log_inited x) (global_log_offset x), s, a) else
  let ring := u_init (le_file env) in
  if negb (le_fstat env) then Ok (-1, LogState (le_fd env) ring 1 (global_log_offset x), s, a) else
  let size := zlen (le_file env) in
  if size <=? 0 then Ok (0, LogState (le_fd env) ring 1 (global_log_offset x), s, a) else
  if negb (le_mmap env) then Ok (-2, LogState (-1) ring 1 size, s, a) else
  '(_, s, a) ← kvs_file_read (le_file env) handler s a;
  Ok (0, LogState (le_fd env) ring 1 size, s, a).

(** [kvs_log_close]: releases the buffers of the requests that are done and
    leaves the queue. *)
Definition kvs_log_close (enable : Z) (x : log_state R) (a : A) : res (Z * log_state R * A) :=
  if enable =? 0 then Ok (0, x, a) else
  if ring_log_inited x =? 1 then
    ring ← of_option (ring_log x);
    let ring := u_submit ring in
    '(_, a) ← reap (length (u_flight ring)) ring a;
    Ok (0, LogState (fd_log x) None (ring_log_inited x) (global_log_offset x), a)
  else Ok (0, x, a).

End Write.
