(* ===== verification/LogFacts.v ===== *)
(** * LogFacts: the log keeps its buffers and appends frames

    The blocks of the requests in flight belong to the log until their
    completion is reaped; a write appends exactly the frame of the command to
    the file; reading a file of frames hands the commands to the handler in
    order. *)

From S2P Require Import Prelude CLib Alloc Protocol ProtocolFacts Engine Owner Uring Log.

(** ** Requests in flight *)

Definition ctx_addrs (c : option io_write_ctx) : list Z :=
  match c with Some c => [b_addr (ctx_buf c); ctx_p c] | None => [] end.

Definition flight_addrs {R} `{Uring R} (r : R) : list Z := u_flight r ≫= ctx_addrs.

(** Every request has its context, the blocks are distinct. *)
Definition flight_ok {R} `{Uring R} (r : R) : Prop :=
  Forall is_Some (u_flight r) /\ NoDup (flight_addrs r).

(** From [r] to [r'] no write was queued: without I/O errors the contents to
    come are the same. *)
Definition no_write {R} `{Uring R} (r r' : R) : Prop :=
  UringTotal R -> todo_apart (u_todo r) -> settled r' = settled r /\ todo_apart (u_todo r').

Lemma no_write_refl {R} `{Uring R} (r : R) : no_write r r.
Proof. by intros _ Ha. Qed.

Lemma no_write_trans {R} `{Uring R} (r r1 r2 : R) : no_write r r1 -> no_write r1 r2 -> no_write r r2.
Proof. intros H1 H2 HT Ha. destruct (H1 HT Ha) as [<- Ha1]. by apply H2. Qed.

Lemma progress_no_write {R} `{UL : UringLaws R} (r r' : R) : (UringTotal R -> progress r r') -> no_write r r'.
Proof. intros Hp HT Ha. by apply settled_progress; [apply Hp |]. Qed.

Section LogFacts.
Context {A R : Type} `{AL : AllocatorLaws A} `{UL : UringLaws R}.
Implicit Types (a : A) (r : R).

Lemma flight_peek l1 c l2 r r' :
  u_flight r = l1 ++ c :: l2 -> u_flight r' = l1 ++ l2 -> flight_ok r ->
  exists x, c = Some x /\ flight_ok r' /\ flight_addrs r ≡ₚ ctx_addrs c ++ flight_addrs r'.
Proof.
  intros Hl Hl' [Hs Hn]. unfold flight_ok, flight_addrs in *. rewrite Hl in Hs, Hn |- *. rewrite Hl'.
  rewrite !bind_app in *. cbn [mbind list_bind] in *. fold (mbind (M := list) ctx_addrs) in *.
  apply Forall_app in Hs as [Hs1 Hs2]. apply Forall_cons in Hs2 as [[x ->] Hs2]. exists x. split; [done |].
  assert (Hp : (l1 ≫= ctx_addrs) ++ ctx_addrs (Some x) ++ (l2 ≫= ctx_addrs)
               ≡ₚ ctx_addrs (Some x) ++ (l1 ≫= ctx_addrs) ++ (l2 ≫= ctx_addrs)) by apply Permutation_app_swap_app.
  split; [| exact Hp]. split; [by apply Forall_app |]. rewrite Hp in Hn. by apply NoDup_app in Hn as (_ & _ & ?).
Qed.

Definition ring_wf r a : Prop := flight_ok r /\ al_inv a /\ list_to_set (flight_addrs r) ⊆ al_live a.

Lemma release_ctx x L (rest : list Z) a :
  al_inv a -> NoDup ([b_addr (ctx_buf x); ctx_p x] ++ rest) ->
  list_to_set ([b_addr (ctx_buf x); ctx_p x] ++ rest) ⊆ al_live a -> L = al_live a ->
  let a' := kvs_free (ctx_p x) (kvs_free (b_addr (ctx_buf x)) a) in
  al_inv a' /\ list_to_set rest ⊆ al_live a' /\
  al_live a' ∖ list_to_set rest = L ∖ list_to_set ([b_addr (ctx_buf x); ctx_p x] ++ rest).
Proof.
  intros Hi Hn Hs -> a'. cbn in Hn, Hs. apply NoDup_cons in Hn as [N1 Hn]. apply NoDup_cons in Hn as [N2 _].
  apply not_elem_of_cons in N1 as [N0 N1]. rewrite <- (elem_of_list_to_set (C := gset Z)) in N1, N2.
  destruct (free_live (b_addr (ctx_buf x)) a Hi) as [L1 I1]; [set_solver |].
  destruct (free_live (ctx_p x) (kvs_free (b_addr (ctx_buf x)) a) I1) as [L2 I2]; [rewrite L1; set_solver |].
  split; [done |]. unfold a'. rewrite L2, L1. cbn.
  revert N1 N2 Hs. clear - N0. generalize (list_to_set (C := gset Z) rest). intros Y N1 N2 Hs. split; set_solver.
Qed.

(** [reap] releases the buffers of exactly the requests it takes out. *)
Lemma reap_spec fuel r a :
  ring_wf r a -> (length (u_flight r) <= fuel)%nat ->
  exists r' a', reap fuel r a = Ok (r', a') /\ ring_wf r' a' /\ no_write r r' /\
    al_live a' ∖ list_to_set (flight_addrs r') = al_live a ∖ list_to_set (flight_addrs r).
Proof.
  revert r a. induction fuel as [| fuel IH]; intros r a (Hok & Hi & Hs) Hf; cbn [reap];
    destruct (u_peek r) as [[c |] r1] eqn:Hp;
    pose proof (progress_no_write r r1 (fun HT => peek_progress r _ r1 Hp)) as Hd.
  - apply peek_some in Hp as (l1 & l2 & Hl & _). rewrite Hl, length_app in Hf. cbn in Hf. lia.
  - apply peek_none in Hp as Hl. exists r1, a. unfold ring_wf, flight_ok, flight_addrs in *. rewrite Hl. done.
  - apply peek_some in Hp as (l1 & l2 & Hl & Hl1).
    destruct (flight_peek _ _ _ _ _ Hl Hl1 Hok) as (x & -> & Hok1 & Hperm). run.
    destruct Hok as [_ Hn]. rewrite Hperm in Hn, Hs.
    destruct (release_ctx x (al_live a) (flight_addrs r1) a Hi Hn Hs eq_refl) as (Hi1 & Hs1 & Hf1).
    destruct (IH r1 _ (conj Hok1 (conj Hi1 Hs1))) as (r' & a' & -> & Hw & Hd' & Hf').
    { rewrite Hl1, length_app. rewrite Hl, length_app in Hf. cbn in Hf. lia. }
    exists r', a'. split; [done |]. split; [done |]. split; [by eapply no_write_trans |]. rewrite Hf', Hf1, Hperm. done.
  - apply peek_none in Hp as Hl. exists r1, a. unfold ring_wf, flight_ok, flight_addrs in *. rewrite Hl. done.
Qed.

(** Queueing a write of a fresh buffer. *)
Lemma queue_spec r a buf len off p r1 a1 :
  ring_wf r a -> b_addr buf ∈ al_live a -> b_addr buf ∉ flight_addrs r ->
  u_get_sqe r = (true, r1) -> kvs_malloc SIZEOF_WRITE_CTX a = (Some p, a1) ->
  let c := WriteCtx p buf len off in
  let r2 := u_submit (u_prep_write c r1) in
  ring_wf r2 a1 /\
  (UringTotal R -> todo_apart (u_todo r) -> off = zlen (settled r) ->
     settled r2 = settled r ++ take (Z.to_nat len) (b_str buf) /\ todo_apart (u_todo r2)) /\
  al_live a1 ∖ list_to_set (flight_addrs r2) = al_live a ∖ list_to_set (b_addr buf :: flight_addrs r).
Proof.
  intros ((Hs & Hn) & Hi & Hsub) Hb Hnb Hq Hm c r2.
  destruct (settled_sqe _ _ _ Hq) as [Hd1 Ht1]. apply sqe_some in Hq as (Hl1 & _). destruct (prep_law c r1 _ Hl1) as (Hl2 & _).
  pose proof (submit_law (u_prep_write c r1)) as Hl3.
  assert (Hfl : u_flight r2 = u_flight r ++ [Some c]) by (unfold r2; congruence).
  assert (Hfa : flight_addrs r2 = flight_addrs r ++ [b_addr buf; p]).
  { unfold flight_addrs. rewrite Hfl, bind_app. done. }
  destruct (malloc_some _ _ _ _ Hi Hm) as (Hf & Hlive & Hi1).
  assert (Hnp : p ∉ flight_addrs r).
  { intros Hp. apply Hf, Hsub. by apply elem_of_list_to_set. }
  assert (Hne : p <> b_addr buf) by (intros ->; done).
  split; [split; [split | split] |].
  - rewrite Hfl. apply Forall_app. split; [done |]. by repeat constructor.
  - rewrite Hfa. apply NoDup_app. split; [done |]. split.
    + intros y Hy Hin. rewrite !elem_of_cons, elem_of_nil in Hin. naive_solver.
    + apply NoDup_cons. rewrite list_elem_of_singleton. split; [done | apply NoDup_singleton].
  - done.
  - rewrite Hfa, Hlive, list_to_set_app_L. cbn. clear - Hsub Hb. set_solver.
  - split.
    { intros HT Ha Ho. rewrite <- Hd1 in Ho. rewrite <- Ht1 in Ha.
      destruct (settled_prep c r1 _ Hl1 Ha Ho) as [Hs1 Ha1]. rewrite Hd1 in Hs1.
      destruct (settled_progress _ _ (submit_progress _) Ha1) as [Hs2 Ha2].
      split; [| exact Ha2]. unfold r2. rewrite Hs2, Hs1. done. }
    rewrite Hfa, Hlive, list_to_set_app_L. cbn. clear - Hf. set_solver.
Qed.

(** ** The state of the log *)

(** The ring a write would use is in order and, without I/O errors, the next
    write goes to the end of the file. *)
Record log_inv (x : log_state R) : Prop := {
  li_ring : forall r, ring_log x = Some r -> flight_ok r /\
    (UringTotal R -> todo_apart (u_todo r) /\ global_log_offset x = zlen (settled r));
  li_init : ring_log_inited x = 1 -> is_Some (ring_log x)
}.

Definition log_addrs (x : log_state R) : list Z :=
  match ring_log x with Some r => flight_addrs r | None => [] end.

Definition log_owned (x : log_state R) : gset Z := list_to_set (log_addrs x).

(** The file when the requests in flight are carried out. *)
Definition log_disk (x : log_state R) : list Z :=
  match ring_log x with Some r => settled r | None => [] end.

(** Writes are recorded: the log is enabled, its file open and its ring set up. *)
Definition log_live (enable : Z) (x : log_state R) : bool :=
  negb (enable =? 0) && (0 <=? fd_log x) && (ring_log_inited x =? 1).

Definition log_wf (x : log_state R) a : Prop := log_inv x /\ al_inv a /\ log_owned x ⊆ al_live a.

Section Total.
Context `{TOT : !AllocatorTotal A}.

(** What a write does, without I/O errors: it appends [frame] to the file. *)
Definition log_wrote (frame : list Z) (x : log_state R) (ret : Z) (x' : log_state R) : Prop :=
  fd_log x' = fd_log x /\ ring_log_inited x' = ring_log_inited x /\
  (UringTotal R -> ret = 0 /\ log_disk x' = log_disk x ++ frame).

Lemma log_append_spec buf len frame x a :
  log_wf x a -> ring_log_inited x = 1 -> b_addr buf ∈ al_live a -> b_addr buf ∉ log_addrs x ->
  take (Z.to_nat len) (b_str buf) = frame -> len = zlen frame ->
  exists ret x' a', log_append buf len x a = Ok (ret, x', a') /\ log_wf x' a' /\
    al_live a' ∖ log_owned x' = al_live a ∖ ({[b_addr buf]} ∪ log_owned x) /\
    log_wrote frame x ret x'.
Proof.
  intros (Hinv & Hi & Hsub) Hin Hbl Hbn Hfr Hlen. destruct (li_init _ Hinv Hin) as [r Hr].
  destruct (li_ring _ Hinv r Hr) as [Hok Hoff]. unfold log_append. rewrite Hr. run.
  unfold log_owned, log_addrs in *. rewrite Hr in *.
  destruct (reap_spec _ r a (conj Hok (conj Hi Hsub)) (le_n _)) as (r1 & a1 & -> & Hw1 & Hd1 & Hf1). run.
  assert (Hb : b_addr buf ∉ flight_addrs r1 /\ b_addr buf ∈ al_live a1).
  { rewrite <- (elem_of_list_to_set (C := gset Z)) in Hbn |- *.
    assert (Hb : b_addr buf ∈ al_live a ∖ list_to_set (flight_addrs r)) by (by apply elem_of_difference).
    rewrite <- Hf1 in Hb. apply elem_of_difference in Hb. naive_solver. }
  destruct Hb as [Hb1 Hb2]. destruct (u_get_sqe r1) as [[|] r2] eqn:Hq.
  - destruct (malloc_total SIZEOF_WRITE_CTX a1 ltac:(pos_size)) as (p & a2 & Hm). rewrite Hm.
    destruct (queue_spec r1 a1 buf len (global_log_offset x) p r2 a2 Hw1 Hb2 Hb1 Hq Hm) as (Hw2 & Hd2 & Hf2).
    set (c := WriteCtx _ _ _ _) in *.
    assert (Happ : UringTotal R -> todo_apart (u_todo (u_submit (u_prep_write c r2))) /\
      settled (u_submit (u_prep_write c r2)) = settled r ++ frame /\ global_log_offset x = zlen (settled r)).
    { intros HT. destruct (Hoff HT) as [Ha Ho]. destruct (Hd1 HT Ha) as [Hs1 Ha1].
      destruct (Hd2 HT Ha1) as [Hs2 Ha2]; [congruence |]. by rewrite Hs2, Hs1, Hfr. }
    eexists 0, _, a2. split; [done |]. cbn [with_ring log_owned log_addrs ring_log].
    split; [split; [split; cbn |] |].
    + intros ? [= <-]. split; [apply Hw2 |]. intros HT. destruct (Happ HT) as (Ha & -> & ->). split; [done |]. rewrite zlen_app. lia.
    + eauto.
    + split; apply Hw2.
    + split; [rewrite Hf2; cbn; rewrite <- !difference_difference_l_L; clear - Hf1; set_solver |].
      split; [done |]. split; [done |]. intros HT. split; [done |]. unfold log_disk. cbn. rewrite Hr. by apply Happ.
  - assert (Hd2 : no_write r1 (u_submit r2)).
    { destruct (settled_sqe _ _ _ Hq) as [Hs2 Ht2]. intros HT Ha. rewrite <- Ht2 in Ha. rewrite <- Hs2.
      by apply settled_progress; [apply submit_progress |]. }
    destruct (sqe_none _ _ Hq) as (Hl2 & _). pose proof (submit_law r2) as Hl3.
    destruct (free_live (b_addr buf) a1) as [Hl4 Hi4]; [apply Hw1 | done |].
    assert (Hfa : flight_addrs (u_submit r2) = flight_addrs r1) by (unfold flight_addrs; congruence).
    eexists (-2), _, _. split; [done |]. cbn [with_ring log_owned log_addrs ring_log].
    split; [split; [split; cbn |] |].
    + intros ? [= <-]. split; [unfold flight_ok; rewrite Hfa, Hl3, Hl2; apply Hw1 |].
      intros HT. destruct (Hoff HT) as [Ha ->]. destruct (no_write_trans _ _ _ Hd1 Hd2 HT Ha) as [-> ?]. done.
    + eauto.
    + split; [done |]. unfold log_owned, log_addrs. cbn. rewrite Hfa, Hl4. destruct Hw1 as (_ & _ & Hs1).
      rewrite <- (elem_of_list_to_set (C := gset Z)) in Hb1. clear - Hs1 Hb1. set_solver.
    + unfold log_owned, log_addrs. cbn. rewrite Hfa, Hl4. split; [clear - Hf1; set_solver |].
      split; [done |]. split; [done |]. intros HT. destruct (sqe_total r1) as [r3 Hr3]. congruence.
Qed.

Lemma log_skip enable ret x a frame :
  log_wf x a -> log_live enable x = false -> ret <= 0 ->
  exists ret' x' a', Ok (ret, x, a) = Ok (ret', x', a') /\ log_wf x' a' /\
    al_live a' ∖ log_owned x' = al_live a ∖ log_owned x /\
    (if log_live enable x then log_wrote frame x ret' x' else x' = x).
Proof. intros Hwf Hl Hr. exists ret, x, a. rewrite Hl. done. Qed.

Lemma log_write_spec enable ts x a :
  log_wf x a -> ts <> [] -> zlen (kvsp_frame ts) < INT_MAX ->
  exists ret x' a', kvs_log_write enable (Some <$> ts) (zlen ts) x a = Ok (ret, x', a') /\
    log_wf x' a' /\ al_live a' ∖ log_owned x' = al_live a ∖ log_owned x /\
    (if log_live enable x then log_wrote (kvsp_frame ts) x ret x' else x' = x).
Proof.
  intros Hwf Hne Hmax. pose proof Hwf as (Hinv & Hi & Hsub).
  pose proof (log_skip enable 0 x a (kvsp_frame ts) Hwf) as Hskip0.
  pose proof (log_skip enable (-1) x a (kvsp_frame ts) Hwf) as Hskip.
  unfold kvs_log_write, log_live in *.
  destruct (Z.eqb_spec enable 0); [by apply Hskip0 |].
  destruct ts as [| t ts]; [done |]. cbn [fmap list_fmap].
  change (Some t :: (Some <$> ts)) with (Some <$> t :: ts). set (cmd := t :: ts) in *.
  rewrite (proj2 (Z.leb_gt (zlen cmd) 0)) by (unfold zlen; cbn; lia).
  destruct (Z.ltb_spec (fd_log x) 0) as [Hfd | Hfd]; cbn [orb];
    [rewrite (proj2 (Z.leb_gt 0 (fd_log x))) in * by done; by apply Hskip |].
  rewrite (proj2 (Z.leb_le 0 (fd_log x))) in * by done.
  destruct (Z.eqb_spec (ring_log_inited x) 1) as [Hin | Hin]; cbn [negb andb]; [| by apply Hskip].
  rewrite take_ge by (rewrite length_fmap; unfold zlen; lia).
  pose proof (build_frame_run cmd a Hne Hmax) as Hb.
  destruct (malloc_total (zlen (kvsp_frame cmd) + 1) a ltac:(pos_size)) as (pb & a1 & Hm). rewrite Hm in Hb.
  destruct Hb as (buf & -> & Htake & Hlen). run.
  rewrite (proj2 (Z.leb_gt _ 0)) by apply kvsp_frame_pos.
  destruct (malloc_some _ _ _ _ Hi Hm) as (Hfresh & Hl1 & Hi1).
  destruct (log_append_spec (Block pb buf) (zlen (kvsp_frame cmd)) (kvsp_frame cmd) x a1)
    as (ret & x' & a' & He & Hw & Hf & Hwr); cbn; [| done | | | | done |].
  - split; [done |]. split; [done |]. rewrite Hl1. clear - Hsub. set_solver.
  - rewrite Hl1. set_solver.
  - intros Hpb. apply Hfresh, Hsub. by apply elem_of_list_to_set.
  - unfold zlen. by rewrite Nat2Z.id.
  - exists ret, x', a'. split; [done |]. split; [done |]. split; [| done].
    rewrite Hf, Hl1. cbn. clear - Hfresh. set_solver.
Qed.

End Total.
End LogFacts.

(** ** Reading a file of frames *)

(** The connection of [kvs_file_read] between two frames. *)
Record fcli (cli : client_info) : Prop := {
  fc_protocol : protocol cli = PROTO_KVSP;
  fc_wpos : w_pos cli = 0;
  fc_wcap : w_cap cli = BUFFER_SIZE;
  fc_wbuf : BUFFER_SIZE <= zlen (wbuf cli);
  fc_rcap : BUFFER_SIZE <= r_cap cli;
  fc_rbuf : r_cap cli + 1 <= zlen (rbuf cli)
}.

Inductive steps {S} (step : list (list Z) -> S -> S -> Prop) : list (list (list Z)) -> S -> S -> Prop :=
| steps_nil s : steps step [] s s
| steps_cons ts s s1 cmds s2 : step ts s s1 -> steps step cmds s1 s2 -> steps step (ts :: cmds) s s2.

(** The file a list of commands is recorded in. *)
Definition frames (cmds : list (list (list Z))) : list Z := cmds ≫= kvsp_frame.

(** What follows the last frame is no complete request: nothing, or the
    beginning of a frame whose write was cut short. *)
Definition torn (tail : list Z) : Prop :=
  tail = [] \/ exists ts k, tail = take (Z.to_nat k) (kvsp_frame ts) /\ zlen (kvsp_frame ts) <= INT_MAX /\
    0 < k < zlen (kvsp_frame ts).

(** The bytes at which the loop over a file ends. *)
Definition stops (tail : list Z) : Prop :=
  zlen tail <= 0 \/ exists r hl, kvsp_parse_bulk_size tail (zlen tail) 0 = Ok (r, hl) /\ r <= 0.

Lemma torn_stops tail : torn tail -> stops tail.
Proof.
  intros [-> | (ts & k & -> & Hm & Hk)]; [by left | right].
  assert (Hl : zlen (take (Z.to_nat k) (kvsp_frame ts)) = k) by (unfold zlen in *; rewrite length_take; lia).
  destruct (kvsp_parse_partial ts [] k 0 Hm Hk) as [h Hp]. rewrite app_nil_r in Hp. rewrite Hl.
  exists 0, h. split; [done | lia].
Qed.

(** Frames appended behind a torn one are not found: when it was cut in its
    header, and, as long as all that follows is shorter than what it misses,
    when it was cut in its body. *)
Lemma covered_stops ts k cmds :
  zlen (kvsp_frame ts) <= INT_MAX -> 0 < k < zlen (kvsp_frame ts) ->
  k < zlen (fmt_head (zlen (kvsp_body ts))) \/ k + zlen (frames cmds) < zlen (kvsp_frame ts) ->
  stops (take (Z.to_nat k) (kvsp_frame ts) ++ frames cmds).
Proof.
  intros Hm Hk Hwhy. destruct cmds as [| t cmds].
  { rewrite app_nil_r. apply torn_stops. right. eauto. }
  pose proof (zlen_nonneg (kvsp_body ts)). unfold kvsp_frame at 1 in Hk. unfold kvsp_frame at 1 in Hm. rewrite zlen_app in Hm, Hk.
  set (hd := fmt_head (zlen (kvsp_body ts))) in *. pose proof (zlen_nonneg hd). right.
  destruct (Z.ltb_spec k (zlen hd)) as [Hlt | Hge].
  - assert (Hcut : take (Z.to_nat k) (kvsp_frame ts) = take (Z.to_nat k) hd).
    { unfold kvsp_frame. fold hd. apply take_app_le. unfold zlen in *. lia. }
    rewrite Hcut. replace (frames (t :: cmds)) with (KVSP_START_STR ++ drop 1 (frames (t :: cmds))) by done.
    destruct (kvsp_parse_broken_head (zlen (kvsp_body ts)) k (drop 1 (frames (t :: cmds))) 0) as (r & Hr & Hle);
      [unfold INT_MAX in *; lia | fold hd; lia |].
    exists r, 0. exact (conj Hr Hle).
  - destruct Hwhy as [? | Hshort]; [lia |]. assert (Hlen : zlen (kvsp_frame ts) = zlen hd + zlen (kvsp_body ts)) by (unfold kvsp_frame; by rewrite zlen_app).
    set (body := take (Z.to_nat (k - zlen hd)) (kvsp_body ts)).
    assert (Hcut : take (Z.to_nat k) (kvsp_frame ts) = hd ++ body).
    { unfold kvsp_frame, body. fold hd. rewrite take_app_ge by (unfold zlen in *; lia). do 2 f_equal. unfold zlen. lia. }
    rewrite Hcut, <- !app_assoc. assert (Hb : zlen body = k - zlen hd).
    { unfold body, zlen in *. rewrite length_take. lia. }
    unfold hd. rewrite kvsp_parse_head; fold hd; [| lia | lia | | lia].
    + rewrite (proj2 (Z.ltb_lt _ _)); [eexists _, _; split; [done | lia] |]. rewrite !zlen_app. lia.
    + rewrite !zlen_app. pose proof (zlen_nonneg body). pose proof (zlen_nonneg (frames (t :: cmds))). lia.
Qed.

Section ReadFacts.
Context {A S : Type} `{AL : AllocatorLaws A} `{TOT : !AllocatorTotal A}.
Context (P : S -> Prop) (own : S -> list (gset Z)).

Definition state_wf (s : S) (rest : list (gset Z)) (a : A) : Prop :=
  P s /\ al_inv a /\ holds (al_live a) (own s ++ rest).
Definition state_frame (s : S) (rest : list (gset Z)) (a : A) (s' : S) (rest' : list (gset Z)) (a' : A) : Prop :=
  al_live a' ∖ ⋃ (own s' ++ rest') = al_live a ∖ ⋃ (own s ++ rest).

(** The handler takes a command the file was written with and answers with
    a length. *)
Definition handles (h : msg_handler A S) (ok : list (list Z) -> S -> Prop) (step : list (list Z) -> S -> S -> Prop) : Prop :=
  forall ts rest cli s a extra,
    ok ts s -> fcli cli -> rbuf cli = kvsp_frame ts ++ 0 :: extra ->
    cmd_tl cli = zlen (kvsp_frame ts) -> cmd_hl cli = zlen (fmt_head (zlen (kvsp_body ts))) ->
    state_wf s ({[wbuf_p cli]} :: rest) a ->
    exists ret cli' s' a', h cli s a = Ok (ret, cli', s', a') /\ 0 <= ret /\ fcli cli' /\
      rbuf_p cli' = rbuf_p cli /\ step ts s s' /\
      state_wf s' ({[wbuf_p cli']} :: rest) a' /\
      state_frame s ({[wbuf_p cli]} :: rest) a s' ({[wbuf_p cli']} :: rest) a'.

(** The commands can be handled one after the other from [s] on. *)
Fixpoint admits (ok : list (list Z) -> S -> Prop) (step : list (list Z) -> S -> S -> Prop)
    (cmds : list (list (list Z))) (s : S) : Prop :=
  match cmds with
  | [] => True
  | ts :: cmds => ok ts s /\ forall s', step ts s s' -> admits ok step cmds s'
  end.

(** A block in the middle of the owners is replaced. *)
Lemma state_block s r1 p r2 a p' a' :
  state_wf s (r1 ++ {[p]} :: r2) a -> al_inv a' -> p' ∉ al_live a ∖ {[p]} ->
  al_live a' = {[p']} ∪ (al_live a ∖ {[p]}) ->
  state_wf s (r1 ++ {[p']} :: r2) a' /\ state_frame s (r1 ++ {[p]} :: r2) a s (r1 ++ {[p']} :: r2) a'.
Proof.
  intros (Hp & _ & Ho) Hi Hf Hl. unfold state_wf, state_frame. rewrite !app_assoc in *.
  destruct (holds_update (own s ++ r1) {[p]} r2 (al_live a) {[p']} (al_live a')) as [Ho' Hfr];
    [done | rewrite Hl; clear - Hf; set_solver | rewrite Hl; clear; set_solver | done].
Qed.

Lemma state_block_live s r1 p r2 a : state_wf s (r1 ++ {[p]} :: r2) a -> p ∈ al_live a.
Proof.
  intros (_ & _ & Ho). apply (holds_sub _ _ {[p]} Ho); [| set_solver].
  rewrite !elem_of_app, elem_of_cons. auto.
Qed.

Lemma file_room_ok n cli rest s a :
  fcli cli -> 0 < n < INT_MAX -> state_wf s ({[wbuf_p cli]} :: {[rbuf_p cli]} :: rest) a ->
  exists cli' a', file_room n cli a = Ok (Some cli', a') /\ fcli cli' /\ n <= r_cap cli' /\
    wbuf_p cli' = wbuf_p cli /\
    state_wf s ({[wbuf_p cli']} :: {[rbuf_p cli']} :: rest) a' /\
    state_frame s ({[wbuf_p cli]} :: {[rbuf_p cli]} :: rest) a s ({[wbuf_p cli']} :: {[rbuf_p cli']} :: rest) a'.
Proof.
  intros Hc Hn Hwf. pose proof Hc as [C1 C2 C3 C4 C5 C6]. unfold file_room.
  destruct (Z.ltb_spec (r_cap cli) n) as [Hlt | Hge]; [| by exists cli, a].
  rewrite (proj2 (Z.ltb_ge INT_MAX (n + 1))) by lia.
  pose proof (state_block_live s [_] (rbuf_p cli) rest a Hwf) as Hlive.
  destruct (realloc_total (rbuf_p cli) (n + 1) a (proj1 (proj2 Hwf)) Hlive ltac:(lia)) as (p & a' & Hr & Hg).
  rewrite Hr. run. rewrite Hg.
  destruct (realloc_some _ _ _ _ _ (proj1 (proj2 Hwf)) Hlive Hr) as (Hf & Hl & Hi).
  destruct (state_block s [_] (rbuf_p cli) rest a p a' Hwf Hi Hf Hl) as [Hwf' Hfr].
  eexists _, a'. split; [done |]. split; [split; cbn; try done; [lia |] |].
  { rewrite zlen_resize; lia. }
  split; [cbn; lia |]. done.
Qed.

Lemma state_frame_trans s r a s1 r1 a1 s2 r2 a2 :
  state_frame s r a s1 r1 a1 -> state_frame s1 r1 a1 s2 r2 a2 -> state_frame s r a s2 r2 a2.
Proof. unfold state_frame. congruence. Qed.

(** The receive buffer after the copy of a frame. *)
Lemma copy_frame (buf f ptr : list Z) rest :
  ptr = f ++ rest -> zlen f + 1 <= zlen buf ->
  exists extra, (frame ← rd_range ptr 0 (zlen f); b ← wr_range buf 0 frame; wr b (zlen f) 0)
    = Ok (f ++ 0 :: extra) /\ zlen (f ++ 0 :: extra) = zlen buf.
Proof.
  intros -> Hlen. pose proof (zlen_nonneg rest) as H0.
  pose proof (rd_range_app_mid [] f rest) as Hrd. cbn [app] in Hrd. change (zlen []) with 0 in Hrd. rewrite Hrd. run.
  pose proof (wr_range_app [] buf f ltac:(lia)) as Hwr. cbn [app] in Hwr. change (zlen []) with 0 in Hwr. rewrite Hwr. run.
  destruct (drop (length f) buf) as [| c extra] eqn:Hd.
  - assert (length (drop (length f) buf) = 0%nat) as Hl by (by rewrite Hd). rewrite length_drop in Hl. unfold zlen in *. lia.
  - exists extra. split; [apply wr_app_mid |].
    assert (Hl : length (drop (length f) buf) = Datatypes.S (length extra)) by (by rewrite Hd).
    rewrite length_drop in Hl. unfold zlen in *. rewrite length_app. cbn. lia.
Qed.

Lemma to_int_small n : 0 <= n <= INT_MAX -> to_int n = n.
Proof. unfold INT_MAX, to_int. intros Hn. rewrite Z.mod_small by lia. lia. Qed.

Lemma file_loop_spec h ok step rest cmds tail fuel cli s a :
  handles h ok step -> admits ok step cmds s -> stops tail ->
  fcli cli -> zlen (frames cmds ++ tail) < INT_MAX -> (length (frames cmds ++ tail) < fuel)%nat ->
  state_wf s ({[wbuf_p cli]} :: {[rbuf_p cli]} :: rest) a ->
  exists cli' s' a', file_loop fuel h (frames cmds ++ tail) cli s a = Ok (cli', s', a') /\
    steps step cmds s s' /\ state_wf s' ({[wbuf_p cli']} :: {[rbuf_p cli']} :: rest) a' /\
    state_frame s ({[wbuf_p cli]} :: {[rbuf_p cli]} :: rest) a s' ({[wbuf_p cli']} :: {[rbuf_p cli']} :: rest) a'.
Proof.
  intros Hh Hok Htorn. revert fuel cli s a Hok.
  induction cmds as [| ts cmds IH]; intros fuel cli s a Hok Hc Hmax Hf Hwf;
    (destruct fuel as [| fuel]; [lia |]).
  - cbn [frames mbind list_bind app] in *. exists cli, s, a. split; [| split; [constructor | done]].
    cbn [file_loop]. destruct Htorn as [Hnil | (r & hl & Hp & Hr)].
    + by rewrite (proj2 (Z.leb_le _ 0)).
    + destruct (Z.leb_spec (zlen tail) 0); [done |]. rewrite to_int_small by lia. rewrite Hp. run.
      by rewrite (proj2 (Z.leb_le r 0)).
  - destruct Hok as [Hts Hok]. unfold frames in *. cbn [mbind list_bind] in *. fold (mbind (M := list) kvsp_frame) in *.
    rewrite <- app_assoc in *. set (more := (cmds ≫= kvsp_frame) ++ tail) in *.
    pose proof (kvsp_frame_pos ts) as Hpos. pose proof (zlen_nonneg more) as Hmore.
    rewrite zlen_app in Hmax. rewrite length_app in Hf.
    cbn [file_loop]. rewrite (proj2 (Z.leb_gt (zlen (kvsp_frame ts ++ more)) 0)) by (rewrite zlen_app; lia).
    rewrite to_int_small by (rewrite zlen_app; lia).
    rewrite kvsp_parse_frame by (rewrite ?zlen_app; lia). run.
    rewrite (proj2 (Z.leb_gt (zlen (kvsp_frame ts)) 0)) by done.
    destruct (file_room_ok (zlen (kvsp_frame ts)) cli rest s a Hc ltac:(lia) Hwf)
      as (c1 & a1 & -> & Hc1 & Hcap & Hp1 & Hwf1 & Hf1). run.
    set (hl := zlen (fmt_head _)).
    destruct (copy_frame (rbuf c1) (kvsp_frame ts) _ more eq_refl) as (extra & Hcopy & Hlen);
      [pose proof (fc_rbuf _ Hc1); lia |].
    change (rbuf (set_cmd (zlen (kvsp_frame ts)) hl c1)) with (rbuf c1).
    destruct (rd_range _ _ _) as [f | |]; [| done..]. run. cbn [mbind res_bind] in Hcopy.
    destruct (wr_range _ _ _) as [b | |]; [| done..]. run. cbn [mbind res_bind] in Hcopy. rewrite Hcopy. run.
    set (c2 := set_rbuf _ _).
    destruct (Hh ts ({[rbuf_p c1]} :: rest) c2 s a1 extra) as (ret & c3 & s3 & a3 & -> & Hret & Hc3 & Hp3 & Hst & Hwf3 & Hf3);
      [done | | done | done | done | done |].
    { destruct Hc1. split; cbn [protocol w_pos w_cap wbuf r_cap rbuf set_rbuf set_cmd c2]; try done. lia. }
    run. rewrite (proj2 (Z.ltb_ge ret 0)) by done.
    unfold zlen at 1. rewrite Nat2Z.id, drop_app_length.
    assert (Hrp : rbuf_p c3 = rbuf_p c1) by (by rewrite Hp3).
    rewrite <- Hrp in Hwf3, Hf3 at 1.
    destruct (IH fuel c3 s3 a3) as (c4 & s4 & a4 & -> & Hst4 & Hwf4 & Hf4); [by apply Hok | done | lia | | done |].
    { unfold zlen in Hpos. lia. }
    exists c4, s4, a4. split; [done |]. split; [by econstructor |]. split; [done |].
    eapply state_frame_trans; [exact Hf1 |]. eapply state_frame_trans; [| exact Hf4].
    rewrite Hrp in *. exact Hf3.
Qed.

(** A block is taken, a block is given back. *)
Lemma state_take s rest a n p a' :
  state_wf s rest a -> kvs_malloc n a = (Some p, a') ->
  state_wf s ({[p]} :: rest) a' /\ state_frame s rest a s ({[p]} :: rest) a'.
Proof.
  intros (Hp & Hi & [Ha Hs]) Hm. destruct (malloc_some _ _ _ _ Hi Hm) as (Hf & Hl & Hi').
  unfold state_wf, state_frame, holds. rewrite apart_mid, union_mid, Hl.
  assert (Hfu : p ∉ ⋃ (own s ++ rest)) by (clear - Hf Hs; set_solver).
  revert Hs Hfu. generalize (⋃ (own s ++ rest)). intros U Hs Hfu.
  split; [split; [done |]; split; [done |]; split; [split; [set_solver | done] | set_solver] |]. set_solver.
Qed.

Lemma state_give s rest a p :
  state_wf s ({[p]} :: rest) a ->
  state_wf s rest (kvs_free p a) /\ state_frame s ({[p]} :: rest) a s rest (kvs_free p a).
Proof.
  intros Hwf. pose proof (state_block_live s [] p rest a Hwf) as Hl. destruct Hwf as (Hp & Hi & [Ha Hs]).
  destruct (free_live p a Hi Hl) as [Hl' Hi']. unfold state_wf, state_frame, holds.
  rewrite apart_mid in Ha. rewrite union_mid in Hs |- *. rewrite Hl'. destruct Ha as [Hd Ha].
  revert Hs Hd. generalize (⋃ (own s ++ rest)). intros U Hs Hd.
  split; [split; [done |]; split; [done |]; split; [done | set_solver] |]. set_solver.
Qed.

Lemma state_swap s p q rest a :
  state_wf s ({[p]} :: {[q]} :: rest) a <-> state_wf s ({[q]} :: {[p]} :: rest) a.
Proof.
  unfold state_wf, holds. rewrite !apart_mid, !union_mid.
  generalize (⋃ (own s ++ rest)). intros U.
  set_solver.
Qed.

Lemma file_read_spec h ok step rest cmds tail s a :
  handles h ok step -> admits ok step cmds s -> stops tail -> zlen (frames cmds ++ tail) < INT_MAX ->
  state_wf s rest a ->
  exists ret s' a', kvs_file_read (frames cmds ++ tail) h s a = Ok (ret, s', a') /\
    steps step cmds s s' /\ state_wf s' rest a' /\ state_frame s rest a s' rest a' /\
    (frames cmds ++ tail <> [] -> ret = 0).
Proof.
  intros Hh Hok Ht Hmax Hwf. unfold kvs_file_read. destruct (Z.eqb_spec (zlen (frames cmds ++ tail)) 0) as [Hz | Hnz].
  - exists (-1), s, a. split; [done |]. split; [| split; [done |]; split; [done |]].
    + destruct cmds as [| ts cmds]; [constructor |]. exfalso. pose proof (kvsp_frame_pos ts) as Hpos.
      change (frames (ts :: cmds)) with (kvsp_frame ts ++ frames cmds) in Hz. rewrite <- app_assoc, zlen_app in Hz.
      pose proof (zlen_nonneg (frames cmds ++ tail)). lia.
    + intros Hne. destruct (frames cmds ++ tail); [done |]. rewrite zlen_cons in Hz. pose proof (zlen_nonneg l). lia.
  - destruct (malloc_total (BUFFER_SIZE + 1) a ltac:(pos_size)) as (wp & a1 & Hm1). rewrite Hm1.
    destruct (malloc_total (BUFFER_SIZE + 1) a1 ltac:(pos_size)) as (rp & a2 & Hm2). rewrite Hm2.
    destruct (state_take s rest a _ wp a1 Hwf Hm1) as [Hwf1 Hf1].
    destruct (state_take s _ a1 _ rp a2 Hwf1 Hm2) as [Hwf2 Hf2]. apply state_swap in Hwf2.
    destruct (file_loop_spec h ok step rest cmds tail (Datatypes.S (length (frames cmds ++ tail))) (file_client rp wp) s a2)
      as (c & s' & a3 & -> & Hst & Hwf3 & Hf3); [done | done | done | | done | lia | done |].
    { by split. }
    run. apply state_swap in Hwf3. destruct (state_give _ _ _ _ Hwf3) as [Hwf4 Hf4].
    destruct (state_give _ _ _ _ Hwf4) as [Hwf5 Hf5].
    eexists 0, s', _. split; [done |]. split; [done |]. split; [done |]. split; [| done].
    eapply state_frame_trans; [exact Hf1 |]. eapply state_frame_trans; [exact Hf2 |].
    eapply state_frame_trans; [| eapply state_frame_trans; [| eapply state_frame_trans; [exact Hf4 | exact Hf5]]].
    { unfold state_frame. reflexivity. }
    unfold state_frame in *. rewrite (union_mid (own s')). rewrite !union_mid in *. clear - Hf3. set_solver.
Qed.

End ReadFacts.
