(* ===== verification/Save.v ===== *)
(** * Save: snapshots (kvs-module/kvs_save.c)

    A snapshot is written by a child process: every pair of the four engines
    becomes one KVSP frame [engine, key, value] in a temporary file that is
    renamed over the dump when it is complete. [kvs_save_handler] loads such a
    frame back. The parent keeps the status of the child in three globals. *)

From S2P Require Import Prelude CLib Alloc Protocol Engine Uring Log Store.
From S2P Require Import Array Hash Skiplist Rbtree.

Definition TARGET_LENGTH : Z := 512.

Inductive kvs_engine_type := KVS_ARRAY | KVS_HASH | KVS_RBTREE | KVS_SKIPLIST.

Definition engine_name (type : kvs_engine_type) : list Z :=
  match type with
  | KVS_ARRAY => BS "ARRAY"
  | KVS_HASH => BS "HASH"
  | KVS_RBTREE => BS "RBTREE"
  | KVS_SKIPLIST => BS "SKIPLIST"
  end.

(** ["%d"] *)
Definition fmt_d (n : Z) : list Z := if n <? 0 then 45 :: dec (- n) else dec n.

(** ["^%d&%s"] with a length kept in an [int] *)
Definition fmt_save_token (s : list Z) : list Z :=
  [KVSP_TOK_LEN_START_CHAR] ++ fmt_d (to_int (zlen s)) ++ [KVSP_TOK_START_CHAR] ++ s.

Definition fmt_save_body (engine key value : list Z) : list Z :=
  fmt_save_token engine ++ fmt_save_token key ++ fmt_save_token value ++ CRLF.

Section Frames.
Context {A : Type} `{Allocator A}.

(** [build_save_protocol] *)
Definition build_save_protocol (key value : cptr) (type : kvs_engine_type) (a : A)
    : res (option (block * Z) * A) :=
  match key, value with
  | Some key, Some value =>
      let body := fmt_save_body (engine_name type) key value in
      let body_len := snprintf_ret (zlen body) in
      let head := KVSP_START_STR ++ fmt_d body_len ++ CRLF in
      let head_len := zlen head in
      if INT_MAX <? body_len + head_len + 1 then Undef else
      let total_len := body_len + head_len in
      match kvs_malloc (total_len + 1) a with
      | (None, a) => Ok (None, a)
      | (Some p, a) =>
          let ret_len := snprintf_ret (zlen (head ++ body)) in
          if negb (ret_len =? total_len) then Ok (None, kvs_free p a)
          else Ok (Some (Block p (head ++ body ++ [0]), ret_len), a)
      end
  | _, _ => Ok (None, a)
  end.

End Frames.

(** ** Writing a snapshot *)

(** [main_ctx] of a traversal: the ring, the requests in flight, the place of
    the next record. *)
Record main_ctx (R : Type) := MainCtx { mc_ring : R; tasks_count : Z; mc_offset : Z }.
Arguments MainCtx {R}.
Arguments mc_ring {R}.
Arguments tasks_count {R}.
Arguments mc_offset {R}.

Section Traversal.
Context {A R : Type} `{Allocator A} `{Uring R}.

(** [io_uring_peek_batch_cqe] of at most [n] completions and the loop over
    them. *)
Fixpoint reap_batch (n : nat) (mc : main_ctx R) (a : A) : res (main_ctx R * A) :=
  match n with
  | O => Ok (mc, a)
  | S n =>
      match u_peek (mc_ring mc) with
      | (None, r) => Ok (MainCtx r (tasks_count mc) (mc_offset mc), a)
      | (Some c, r) =>
          ctx ← of_option c;
          reap_batch n (MainCtx r (tasks_count mc - 1) (mc_offset mc))
            (kvs_free (ctx_p ctx) (kvs_free (b_addr (ctx_buf ctx)) a))
      end
  end.

(** [kvs_io_uring_write]; [buf] is [None] for NULL. *)
Definition kvs_io_uring_write (fd : Z) (buf : option (block * Z)) (mc : main_ctx R) (a : A)
    : res (Z * main_ctx R * A) :=
  match buf with
  | None => Ok (-1, mc, a)
  | Some (buf, buf_len) =>
      if (fd <? 0) || (buf_len <=? 0) then Ok (-1, mc, a) else
      match kvs_malloc SIZEOF_WRITE_CTX a with
      | (None, a) => Ok (-2, mc, kvs_free (b_addr buf) a)
      | (Some p, a) =>
          let mc := if TARGET_LENGTH <=? tasks_count mc
                    then MainCtx (u_submit (mc_ring mc)) (tasks_count mc) (mc_offset mc) else mc in
          '(mc, a) ← reap_batch (Z.to_nat TARGET_LENGTH) mc a;
          match u_get_sqe (mc_ring mc) with
          | (false, r) =>
              Ok (-4, MainCtx (u_submit r) (tasks_count mc) (mc_offset mc), kvs_free p (kvs_free (b_addr buf) a))
          | (true, r) =>
              let ctx := WriteCtx p buf buf_len (mc_offset mc) in
              Ok (0, MainCtx (u_prep_write ctx r) (tasks_count mc + 1) (mc_offset mc + buf_len), a)
          end
      end
  end.

(** A record: [build_save_protocol], then [kvs_io_uring_write]. *)
Definition save_record (fd : Z) (type : kvs_engine_type) (key value : cptr) (mc : main_ctx R) (a : A)
    : res (Z * main_ctx R * A) :=
  '(buf, a) ← build_save_protocol key value type a;
  kvs_io_uring_write fd buf mc a.

Definition ptr_str (o : option block) : cptr := b_str <$> o.

(** [kvs_save_write_rbtree]: only the result for [node] itself is returned. *)
Fixpoint kvs_save_write_rbtree (fuel : nat) (T : rbtree) (node fd : Z) (mc : main_ctx R) (a : A)
    : res (Z * main_ctx R * A) :=
  if fd <? 0 then Ok (fd, mc, a) else
  if node =? nil T then Ok (0, mc, a) else
  match fuel with
  | O => NoFuel
  | S fuel =>
      n ← ld T node;
      '(ret, mc, a) ← save_record fd KVS_RBTREE (ptr_str (rb_key n)) (ptr_str (rb_value n)) mc a;
      let fd := if ret <? 0 then ret else fd in
      '(_, mc, a) ← kvs_save_write_rbtree fuel T (left n) fd mc a;
      '(_, mc, a) ← kvs_save_write_rbtree fuel T (right n) fd mc a;
      Ok (ret, mc, a)
  end.

(** [while (node != NULL)] over a chain; the number of pairs left. *)
Fixpoint save_chain (fd : Z) (chain : list hashnode_t) (count : Z) (mc : main_ctx R) (a : A)
    : res (Z * Z * main_ctx R * A) :=
  match chain with
  | [] => Ok (0, count, mc, a)
  | n :: chain =>
      '(ret, mc, a) ← save_record fd KVS_HASH (Some (b_str (h_key n))) (Some (b_str (h_value n))) mc a;
      if negb (ret =? 0) then Ok (ret, count, mc, a) else save_chain fd chain (count - 1) mc a
  end.

(** The loop over the slots of the hash table, left when all pairs are written. *)
Fixpoint save_slots (fd : Z) (heads : list (list hashnode_t)) (count : Z) (mc : main_ctx R) (a : A)
    : res (Z * main_ctx R * A) :=
  match heads with
  | [] => Ok (0, mc, a)
  | chain :: heads =>
      '(ret, count, mc, a) ← save_chain fd chain count mc a;
      if negb (ret =? 0) then Ok (ret, mc, a) else
      if count <=? 0 then Ok (0, mc, a) else save_slots fd heads count mc a
  end.

(** The loop over the cells of the array. *)
Fixpoint save_cells (fd : Z) (cells : list kvs_array_item_t) (count : Z) (mc : main_ctx R) (a : A)
    : res (Z * main_ctx R * A) :=
  match cells with
  | [] => Ok (0, mc, a)
  | it :: cells =>
      '(ret, count, mc, a) ←
        match key it with
        | None => Ok (0, count, mc, a)
        | Some k =>
            '(ret, mc, a) ← save_record fd KVS_ARRAY (Some (b_str k)) (ptr_str (value it)) mc a;
            Ok (ret, count - 1, mc, a)
        end;
      if negb (ret =? 0) then Ok (ret, mc, a) else
      if count <=? 0 then Ok (0, mc, a) else save_cells fd cells count mc a
  end.

(** The walk along the bottom level of the skip list. *)
Fixpoint save_nodes (fuel : nat) (fd : Z) (h : gmap Z Node) (current : option Z) (mc : main_ctx R) (a : A)
    : res (Z * main_ctx R * A) :=
  match current with
  | None => Ok (0, mc, a)
  | Some p =>
      match fuel with
      | O => NoFuel
      | S fuel =>
          n ← of_option (h !! p);
          '(ret, mc, a) ← save_record fd KVS_SKIPLIST (ptr_str (sk_key n)) (ptr_str (sk_value n)) mc a;
          if negb (ret =? 0) then Ok (ret, mc, a) else
          next ← get_fwd h p 0;
          save_nodes fuel fd h next mc a
      end
  end.

(** [while (io_uring_wait_cqe(...) == 0)]: waits for the requests in flight. *)
Fixpoint drain (fuel : nat) (mc : main_ctx R) (a : A) : res (main_ctx R * A) :=
  match u_wait (mc_ring mc) with
  | (None, r) => Ok (MainCtx r (tasks_count mc) (mc_offset mc), a)
  | (Some c, r) =>
      match fuel with
      | O => NoFuel
      | S fuel =>
          ctx ← of_option c;
          let a := kvs_free (ctx_p ctx) (kvs_free (b_addr (ctx_buf ctx)) a) in
          let mc := MainCtx r (tasks_count mc - 1) (mc_offset mc) in
          if tasks_count mc =? 0 then Ok (mc, a) else drain fuel mc a
      end
  end.

(** The three parts of [kvs_traversal_write] after the red-black tree. *)
Definition save_hash (fd : Z) (h : kvs_hash_t) (mc : main_ctx R) (a : A) : res (Z * main_ctx R * A) :=
  if 0 <? count h then
    '(_, heads) ← of_option (nodes h); save_slots fd heads (count h) mc a
  else Ok (0, mc, a).

Definition save_array (fd : Z) (inst : kvs_array_t) (mc : main_ctx R) (a : A) : res (Z * main_ctx R * A) :=
  if 0 <? total inst then
    '(_, cells) ← of_option (table inst); save_cells fd cells (total inst) mc a
  else Ok (0, mc, a).

Definition save_skiplist (fd : Z) (L : SkipList) (mc : main_ctx R) (a : A) : res (Z * main_ctx R * A) :=
  hd ← of_option (header L);
  first ← get_fwd (heap L) hd 0;
  save_nodes (size (heap L)) fd (heap L) first mc a.

(** Its end: the requests in flight are submitted and waited for. *)
Definition save_finish (mc : main_ctx R) (a : A) : res (Z * main_ctx R * A) :=
  let mc := MainCtx (u_submit (mc_ring mc)) (tasks_count mc) (mc_offset mc) in
  if negb (tasks_count mc =? 0) then
    '(mc, a) ← drain (length (u_flight (mc_ring mc))) mc a; Ok (0, mc, a)
  else Ok (0, mc, a).

(** [kvs_traversal_write] *)
Definition kvs_traversal_write (fd : Z) (g : engines kvs_array_t rbtree kvs_hash_t SkipList)
    (mc : main_ctx R) (a : A) : res (Z * main_ctx R * A) :=
  let T := global_rbtree g in
  '(ret, mc, a) ← kvs_save_write_rbtree (fuel_of T) T (root T) fd mc a;
  if negb (ret =? 0) then Ok (ret, mc, a) else
  '(ret, mc, a) ← save_hash fd (global_hash g) mc a;
  if negb (ret =? 0) then Ok (ret, mc, a) else
  '(ret, mc, a) ← save_array fd (global_array g) mc a;
  if negb (ret =? 0) then Ok (ret, mc, a) else
  '(ret, mc, a) ← save_skiplist fd (global_skiplist g) mc a;
  if negb (ret =? 0) then Ok (ret, mc, a) else
  save_finish mc a.

(** [kvs_save_start] in the child: the new contents of the dump file when
    the temporary file was renamed over it. [fd] is what [open] answers. *)
Definition kvs_save_start (fd : Z) (g : engines kvs_array_t rbtree kvs_hash_t SkipList) (a : A)
    : res (Z * option (list Z)) :=
  match u_init (R := R) [] with
  | None => Ok (-1, None)
  | Some ring =>
      if fd <? 0 then Ok (-2, None) else
      '(ret, mc, _) ← kvs_traversal_write fd g (MainCtx ring 0 0) a;
      if negb (ret =? 0) then Ok (-3, None) else Ok (0, Some (u_disk (mc_ring mc)))
  end.

End Traversal.

(** ** Loading a snapshot *)

Section Load.
Context {A TA TR TH TL : Type} `{Allocator A}.
Context `{EA : !Engine A TA} `{ER : !Engine A TR} `{EH : !Engine A TH} `{EL : !Engine A TL}.

(** [kvs_save_handler] *)
Definition kvs_save_handler : msg_handler A (engines TA TR TH TL) := fun cli g a =>
  '(count, cli, toks) ← kvs_split_token cli;
  if negb (count =? 3) then Ok (-2, cli, g, a) else
  ts ← mapM (rd_cstr (rbuf cli)) toks;
  match ts with
  | [t; key; value] =>
      let type := match t with [] => 0 | c :: _ => c end in
      if type =? 65 then
        '(r, e, a) ← e_set (global_array g) (Some key) (Some value) a; Ok (r, cli, with_array e g, a)
      else if type =? 72 then
        '(r, e, a) ← e_set (global_hash g) (Some key) (Some value) a; Ok (r, cli, with_hash e g, a)
      else if type =? 82 then
        '(r, e, a) ← e_set (global_rbtree g) (Some key) (Some value) a; Ok (r, cli, with_rbtree e g, a)
      else if type =? 83 then
        '(r, e, a) ← e_set (global_skiplist g) (Some key) (Some value) a; Ok (r, cli, with_skiplist e g, a)
      else Ok (0, cli, g, a)
  | _ => Ok (-2, cli, g, a)
  end.

(** [kvs_save_init]: [dump] is the contents of the dump file, [None] when it
    cannot be opened. *)
Definition kvs_save_init (enable : Z) (dump : option (list Z)) (fstat mmap : bool)
    (g : engines TA TR TH TL) (a : A) : res (Z * engines TA TR TH TL * A) :=
  if enable =? 0 then Ok (0, g, a) else
  match dump with
  | None => Ok (0, g, a)
  | Some f =>
      if negb fstat then Ok (-1, g, a) else
      if zlen f <=? 0 then Ok (0, g, a) else
      if negb mmap then Ok (-2, g, a) else
      '(_, g, a) ← kvs_file_read f kvs_save_handler g a;
      Ok (0, g, a)
  end.

End Load.

(** ** The status of the save child *)

Inductive kvs_save_status := SAVE_STATUS_IDLE | SAVE_STATUS_RUNNING | SAVE_STATUS_ERROR.

#[export] Instance kvs_save_status_eq_dec : EqDecision kvs_save_status.
Proof. solve_decision. Defined.

(** What the next call of [kvs_fork_save_child] meets: whether [socketpair]
    succeeds and what [fork] returns to the parent. *)
Record fork_env := ForkEnv { fe_pair : bool; fe_pid : Z }.

(** The globals, the argument blocks of the waiting coroutines, and what
    the operating system will answer. *)
Record save_state := SaveState {
  save_status : kvs_save_status;
  kvs_save_child_pid : Z;
  is_save_pending : Z;
  sv_waiters : list Z;
  sv_env : list fork_env
}.

Definition with_status (s : kvs_save_status) (x : save_state) : save_state :=
  SaveState s (kvs_save_child_pid x) (is_save_pending x) (sv_waiters x) (sv_env x).
Definition with_child (p : Z) (x : save_state) : save_state :=
  SaveState (save_status x) p (is_save_pending x) (sv_waiters x) (sv_env x).
Definition with_pending (n : Z) (x : save_state) : save_state :=
  SaveState (save_status x) (kvs_save_child_pid x) n (sv_waiters x) (sv_env x).
Definition with_waiters (w : list Z) (x : save_state) : save_state :=
  SaveState (save_status x) (kvs_save_child_pid x) (is_save_pending x) w (sv_env x).
Definition next_env (x : save_state) : fork_env * save_state :=
  match sv_env x with
  | [] => (ForkEnv false (-1), x)
  | e :: es => (e, SaveState (save_status x) (kvs_save_child_pid x) (is_save_pending x) (sv_waiters x) es)
  end.

Section Status.
Context {A : Type} `{Allocator A}.

(** [kvs_fork_save_child] in the parent. *)
Definition kvs_fork_save_child (x : save_state) (a : A) : Z * save_state * A :=
  let '(env, x) := next_env x in
  if negb (fe_pair env) then (-1, x, a) else
  if fe_pid env <? 0 then (-1, with_status SAVE_STATUS_ERROR x, a) else
  let x := with_child (fe_pid env) (with_status SAVE_STATUS_RUNNING x) in
  match kvs_malloc 4 a with
  | (None, a) => (-1, with_status SAVE_STATUS_ERROR x, a)
  | (Some p, a) => (0, with_waiters (p :: sv_waiters x) x, a)
  end.

(** [kvs_save_child_done]: [n] and [result] come from [recv], [ret] from
    [waitpid], [exit_ok] is [WIFEXITED(status) && WEXITSTATUS(status) == 0]. *)
Definition kvs_save_child_done (arg n result ret : Z) (exit_ok : bool) (x : save_state) (a : A) : save_state * A :=
  let pid := kvs_save_child_pid x in
  let x := with_status
    (if (n =? 1) && (result =? 48) && (ret =? pid) && exit_ok then SAVE_STATUS_IDLE else SAVE_STATUS_ERROR) x in
  let x := if ret =? pid then with_child 0 x else x in
  let '(x, a) :=
    if (is_save_pending x =? 1) && bool_decide (save_status x = SAVE_STATUS_IDLE)
    then let '(_, x, a) := kvs_fork_save_child (with_pending 0 x) a in (x, a)
    else (x, a) in
  (with_waiters (filter (fun p => p <> arg) (sv_waiters x)) x, kvs_free arg a).

(** [kvs_check_save_status], the poll of the servers without coroutines:
    [ret] and [exit_ok] are what [waitpid] with [WNOHANG] answers. *)
Definition kvs_check_save_status (enable ret : Z) (exit_ok : bool) (x : save_state) (a : A) : save_state * A :=
  if enable =? 0 then (x, a) else
  if bool_decide (save_status x <> SAVE_STATUS_RUNNING) || (kvs_save_child_pid x <=? 0) then (x, a) else
  if ret <? 0 then (with_status SAVE_STATUS_ERROR (with_child 0 x), a) else
  if ret =? kvs_save_child_pid x then
    let x := with_child 0 (with_status (if exit_ok then SAVE_STATUS_IDLE else SAVE_STATUS_ERROR) x) in
    if is_save_pending x =? 1
    then let '(_, x, a) := kvs_fork_save_child (with_pending 0 x) a in (x, a)
    else (x, a)
  else (x, a).

(** [kvs_save_write] of the coroutine server. *)
Definition kvs_save_write (enable : Z) (x : save_state) (a : A) : Z * save_state * A :=
  if enable =? 0 then (0, x, a) else
  match save_status x with
  | SAVE_STATUS_RUNNING => (1, with_pending 1 x, a)
  | SAVE_STATUS_ERROR => (-1, x, a)
  | SAVE_STATUS_IDLE => kvs_fork_save_child x a
  end.

End Status.
