(* ===== verification/SaveFacts.v ===== *)
(** * SaveFacts: a snapshot holds every pair of the engines

    [traversal_spec]: with memory and room in the ring, [kvs_traversal_write]
    succeeds and the file is the frames of one record per stored pair, in the
    order the engines are walked. [load_run]: reading such a file back into
    empty engines restores their contents. *)

From S2P Require Import Prelude CLib Alloc Protocol ProtocolFacts Engine Owner Bag Uring Log LogFacts Store StoreFacts Save.
From S2P Require Import Array Hash Skiplist SkiplistFacts Rbtree RbTheory RbHeap RbLoops RbFacts RbEngine.

(** One pair in the file. *)
Record record := Rec { r_type : kvs_engine_type; r_key : list Z; r_value : list Z }.

Definition rec_tokens (r : record) : list (list Z) := [engine_name (r_type r); r_key r; r_value r].
Definition rec_fits (r : record) : Prop := zlen (kvsp_frame (rec_tokens r)) < INT_MAX.

(** ** The records of the engines, in the order of the traversal *)

Fixpoint preorder (t : tree) : list item :=
  match t with
  | Leaf => []
  | Bin a _ k v l r => (a, k, v) :: preorder l ++ preorder r
  end.

Definition item_record (x : item) : option record :=
  match x with (_, k, Some v) => Some (Rec KVS_RBTREE (b_str k) (b_str v)) | _ => None end.
Definition hash_record (n : hashnode_t) : record := Rec KVS_HASH (b_str (h_key n)) (b_str (h_value n)).
Definition cell_record (it : kvs_array_item_t) : option record :=
  match key it, value it with
  | Some k, Some v => Some (Rec KVS_ARRAY (b_str k) (b_str v))
  | _, _ => None
  end.
Definition node_record (n : snode) : record := Rec KVS_SKIPLIST (b_str (sn_key n)) (b_str (sn_val n)).

Section Write.
Context {A R : Type} `{AL : AllocatorLaws A} `{TOT : !AllocatorTotal A} `{UL : UringLaws R} `{UT : !UringTotal R}.
Notation main_ctx := (main_ctx R).
Implicit Types (mc : main_ctx) (a : A).

(** The ring knows every request in flight and the next record goes to the
    end of the file. *)
Record mc_ok mc : Prop := {
  mo_flight : Forall is_Some (u_flight (mc_ring mc));
  mo_tasks : tasks_count mc = zlen (u_flight (mc_ring mc));
  mo_apart : todo_apart (u_todo (mc_ring mc));
  mo_offset : mc_offset mc = zlen (settled (mc_ring mc))
}.

(** The computation [m], started in [mc], appended the records [rs]. *)
Definition wrote (rs : list record) mc (m : res (Z * main_ctx * A)) : Prop :=
  exists mc' a', m = Ok (0, mc', a') /\ mc_ok mc' /\
    settled (mc_ring mc') = settled (mc_ring mc) ++ frames (rec_tokens <$> rs).

Lemma frames_app l1 l2 : frames (l1 ++ l2) = frames l1 ++ frames l2.
Proof. unfold frames. apply bind_app. Qed.

(** A record is a KVSP frame. *)
Lemma fmt_save_token_eq s : zlen s <= INT_MAX -> fmt_save_token s = fmt_token s.
Proof.
  intros Hs. unfold fmt_save_token, fmt_token, fmt_d. rewrite to_int_small by (split; [apply zlen_nonneg | done]).
  by rewrite (proj2 (Z.ltb_ge (zlen s) 0)) by apply zlen_nonneg.
Qed.

Lemma token_bound r s : rec_fits r -> s ∈ rec_tokens r -> zlen s <= INT_MAX.
Proof.
  unfold rec_fits. rewrite kvsp_frame_len. intros Hf Hs.
  pose proof (zlen_nonneg (fmt_head (zlen (kvsp_body (rec_tokens r))))).
  assert (zlen s <= zlen (rec_tokens r ≫= fmt_token)); [| lia].
  apply list_elem_of_split in Hs as (l1 & l2 & ->). rewrite bind_app. cbn [mbind list_bind].
  unfold fmt_token at 2. zlen_simpl. fold (mbind (M := list) fmt_token).
  pose proof (zlen_nonneg (l1 ≫= fmt_token)). pose proof (zlen_nonneg (l2 ≫= fmt_token)). pose proof (zlen_nonneg (dec (zlen s))).
  unfold mbind in *. lia.
Qed.

Lemma build_save_ok r a :
  rec_fits r ->
  exists p buf a', build_save_protocol (Some (r_key r)) (Some (r_value r)) (r_type r) a
    = Ok (Some (Block p buf, zlen (kvsp_frame (rec_tokens r))), a') /\
    take (Z.to_nat (zlen (kvsp_frame (rec_tokens r)))) buf = kvsp_frame (rec_tokens r).
Proof.
  intros Hfit. pose proof (token_bound r) as Hb. unfold build_save_protocol, fmt_save_body.
  rewrite !fmt_save_token_eq by (apply Hb; [done | unfold rec_tokens; set_solver]).
  assert (Hbody : fmt_token (engine_name (r_type r)) ++ fmt_token (r_key r) ++ fmt_token (r_value r) ++ CRLF
                  = kvsp_body (rec_tokens r)).
  { unfold kvsp_body, rec_tokens. cbn [mbind list_bind]. rewrite app_nil_r, <- !app_assoc. done. }
  rewrite Hbody. unfold rec_fits in Hfit. pose proof (kvsp_frame_len (rec_tokens r)) as Hlen.
  pose proof (zlen_nonneg (kvsp_body (rec_tokens r))) as Hb0.
  assert (Hfl : zlen (kvsp_frame (rec_tokens r)) = zlen (fmt_head (zlen (kvsp_body (rec_tokens r)))) + zlen (kvsp_body (rec_tokens r)))
    by (unfold kvsp_frame; by rewrite zlen_app).
  pose proof (zlen_nonneg (fmt_head (zlen (kvsp_body (rec_tokens r))))) as Hh0.
  set (B := kvsp_body (rec_tokens r)) in *. set (Hd := fmt_head (zlen B)) in *.
  assert (Hsn : snprintf_ret (zlen B) = zlen B) by (unfold snprintf_ret; by rewrite (proj2 (Z.leb_le _ _)) by lia).
  assert (Hfd : fmt_d (zlen B) = dec (zlen B)) by (unfold fmt_d; by rewrite (proj2 (Z.ltb_ge _ _)) by lia).
  rewrite !Hsn, !Hfd. change (KVSP_START_STR ++ dec (zlen B) ++ CRLF) with Hd. cbv zeta.
  change (Hd ++ B) with (kvsp_frame (rec_tokens r)). rewrite (proj2 (Z.ltb_ge INT_MAX _)) by lia.
  destruct (malloc_total (zlen B + zlen Hd + 1) a ltac:(pos_size)) as (p & a' & ->).
  assert (Hsf : snprintf_ret (zlen (kvsp_frame (rec_tokens r))) = zlen (kvsp_frame (rec_tokens r)))
    by (unfold snprintf_ret; by rewrite (proj2 (Z.leb_le _ _)) by lia).
  rewrite Hsf, (proj2 (Z.eqb_eq _ _)) by lia. cbn [negb].
  eexists p, _, a'. split; [done |]. unfold zlen. rewrite Nat2Z.id, app_assoc.
  change (Hd ++ B) with (kvsp_frame (rec_tokens r)). apply take_app_length.
Qed.

Lemma reap_batch_ok n mc a :
  mc_ok mc -> exists mc' a', reap_batch n mc a = Ok (mc', a') /\ mc_ok mc' /\
    settled (mc_ring mc') = settled (mc_ring mc).
Proof.
  revert mc a. induction n as [| n IH]; intros mc a Hok; cbn [reap_batch]; [by eauto |].
  destruct Hok as [Hf Ht Ha Ho]. destruct (u_peek (mc_ring mc)) as [[c |] r] eqn:Hp;
    destruct (settled_progress _ _ (peek_progress _ _ _ Hp) Ha) as [Hd Ha'].
  - apply peek_some in Hp as (l1 & l2 & Hl & Hl'). rewrite Hl in Hf, Ht.
    apply Forall_app in Hf as [Hf1 Hf2]. apply Forall_cons in Hf2 as [[x ->] Hf2]. run.
    destruct (IH (MainCtx r (tasks_count mc - 1) (mc_offset mc))
      (kvs_free (ctx_p x) (kvs_free (b_addr (ctx_buf x)) a))) as (mc' & a' & -> & Hok' & Hd').
    { split; cbn; rewrite ?Hl', ?Hd; [by apply Forall_app | | done | done]. zlen_simpl. lia. }
    exists mc', a'. split; [done |]. split; [done |]. cbn in Hd'. congruence.
  - apply peek_none in Hp as Hl. eexists _, a. split; [done |]. split; [split; cbn; [by rewrite Hl | by rewrite Hl | done | by rewrite Hd] | done].
Qed.

Lemma save_record_ok fd r mc a :
  0 <= fd -> rec_fits r -> mc_ok mc ->
  wrote [r] mc (save_record fd (r_type r) (Some (r_key r)) (Some (r_value r)) mc a).
Proof.
  intros Hfd Hfit Hok. unfold save_record.
  destruct (build_save_ok r a Hfit) as (p & buf & a1 & -> & Hbuf). run. unfold kvs_io_uring_write.
  rewrite (proj2 (Z.ltb_ge fd 0)), (proj2 (Z.leb_gt (zlen (kvsp_frame (rec_tokens r))) 0)) by (done || apply kvsp_frame_pos).
  cbn [orb]. destruct (malloc_total SIZEOF_WRITE_CTX a1 ltac:(pos_size)) as (q & a2 & ->).
  set (mc1 := if TARGET_LENGTH <=? tasks_count mc then _ else mc).
  assert (Hok1 : mc_ok mc1 /\ settled (mc_ring mc1) = settled (mc_ring mc)).
  { destruct Hok as [Hf Ht Ha Ho]. pose proof (submit_law (mc_ring mc)) as Hl.
    destruct (settled_progress _ _ (submit_progress (mc_ring mc)) Ha) as [Hd Ha']. unfold mc1.
    destruct (_ <=? _); [| done]. split; [split; cbn; rewrite ?Hl, ?Hd; done | done]. }
  destruct Hok1 as [Hok1 Hd1]. destruct (reap_batch_ok (Z.to_nat TARGET_LENGTH) mc1 a2 Hok1) as (mc2 & a3 & -> & [Hf Ht Ha Ho] & Hd2). run.
  destruct (sqe_total (mc_ring mc2)) as [r3 Hq]. rewrite Hq. destruct (settled_sqe _ _ _ Hq) as [Hd3 Ht3]. apply sqe_some in Hq as (Hl3 & _).
  set (c := WriteCtx _ _ _ _). destruct (prep_law c r3 _ Hl3) as (Hl4 & _).
  destruct (settled_prep c r3 _ Hl3) as [Hd4 Ha4]; [by rewrite Ht3 | by rewrite Hd3 |].
  assert (Hdisk : settled (u_prep_write c r3) = settled (mc_ring mc) ++ kvsp_frame (rec_tokens r)).
  { rewrite Hd4, Hd3. unfold ctx_data. cbn [c ctx_len ctx_buf b_str]. rewrite Hbuf. congruence. }
  eexists _, a3. split; [done |]. split; [split; cbn |].
  - rewrite Hl4. apply Forall_app. split; [done |]. by repeat constructor.
  - rewrite Hl4. zlen_simpl. lia.
  - done.
  - by rewrite Hdisk, zlen_app, Ho, Hd2, Hd1.
  - cbn [mc_ring]. rewrite Hdisk.
    change (frames (rec_tokens <$> [r])) with (kvsp_frame (rec_tokens r) ++ []). by rewrite app_nil_r.
Qed.

Lemma wrote_nil mc a : mc_ok mc -> wrote [] mc (Ok (0, mc, a)).
Proof. intros Hok. exists mc, a. split; [done |]. split; [done |]. cbn. by rewrite app_nil_r. Qed.

Lemma wrote_trans rs1 rs2 mc mc1 m :
  mc_ok mc1 -> settled (mc_ring mc1) = settled (mc_ring mc) ++ frames (rec_tokens <$> rs1) ->
  wrote rs2 mc1 m -> wrote (rs1 ++ rs2) mc m.
Proof.
  intros _ Hd (mc' & a' & -> & Hok & Hd'). exists mc', a'. split; [done |]. split; [done |].
  by rewrite Hd', Hd, fmap_app, frames_app, app_assoc.
Qed.


(** Binds on a computation that wrote records. *)
Lemma wrote_step rs1 rs2 mc m (k : Z * main_ctx * A -> res (Z * main_ctx * A)) :
  wrote rs1 mc m -> (forall mc1 a1, mc_ok mc1 -> wrote rs2 mc1 (k (0, mc1, a1))) -> wrote (rs1 ++ rs2) mc (m ≫= k).
Proof.
  intros (mc1 & a1 & -> & Hok & Hd) Hk. run. eapply wrote_trans; [exact Hok | exact Hd |]. by apply Hk.
Qed.

(** *** The four walks *)

Lemma save_rbtree_ok T nl fd ctx t fuel mc a :
  zip T nl ctx t -> (length (inorder t) <= fuel)%nat -> 0 <= fd -> mc_ok mc ->
  Forall (fun x : item => is_Some x.2) (inorder t) -> Forall rec_fits (omap item_record (preorder t)) ->
  wrote (omap item_record (preorder t)) mc (kvs_save_write_rbtree fuel T (addr nl t) fd mc a).
Proof.
  revert ctx fuel mc a. induction t as [| p c k v l IHl r IHr]; intros ctx fuel mc a Hz Hf Hfd Hok Hv Hfit;
    pose proof (z_nil _ _ _ _ Hz) as Hnil.
  - destruct fuel; cbn; rewrite (proj2 (Z.ltb_ge fd 0)), Hnil, Z.eqb_refl by done; by apply wrote_nil.
  - cbn in Hf. rewrite length_app in Hf. cbn in Hf. destruct fuel as [| fuel]; [lia |].
    destruct (zip_node _ _ _ _ _ _ _ _ _ Hz) as [Hp Hne]. cbn [inorder] in Hv.
    apply Forall_app in Hv as [Hvl Hvr]. apply Forall_cons in Hvr as [[vb Hvb] Hvr]. cbn in Hvb. subst v.
    cbn [preorder omap list_omap item_record] in Hfit |- *. rewrite omap_app in Hfit |- *.
    apply Forall_cons in Hfit as [Hfit0 Hfit]. apply Forall_app in Hfit as [Hfl Hfr].
    cbn [kvs_save_write_rbtree addr]. rewrite (proj2 (Z.ltb_ge fd 0)), Hnil, (proj2 (Z.eqb_neq p nl)) by done.
    unfold ld. rewrite Hp. run. cbn [rb_key rb_value left right ptr_str fmap option_fmap option_map].
    change (?x :: ?y ++ ?z) with ([x] ++ y ++ z).
    apply (wrote_step [Rec KVS_RBTREE (b_str k) (b_str vb)]); [by apply (save_record_ok fd (Rec KVS_RBTREE (b_str k) (b_str vb))) |].
    intros mc1 a1 Hok1. cbn [Z.ltb Z.compare].
    eapply wrote_step; [apply (IHl (InLeft p c k (Some vb) r :: ctx)); [by apply zip_up | lia | done..] |].
    intros mc2 a2 Hok2. rewrite <- (app_nil_r (omap item_record (preorder r))).
    eapply wrote_step; [apply (IHr (InRight p c k (Some vb) l :: ctx)); [by apply zip_up | lia | done..] |].
    intros mc3 a3 Hok3. by apply wrote_nil.
Qed.

Lemma save_chain_ok fd chain n mc a :
  0 <= fd -> mc_ok mc -> Forall rec_fits (hash_record <$> chain) ->
  exists mc' a', save_chain fd chain n mc a = Ok (0, n - zlen chain, mc', a') /\ mc_ok mc' /\
    settled (mc_ring mc') = settled (mc_ring mc) ++ frames (rec_tokens <$> (hash_record <$> chain)).
Proof.
  intros Hfd. revert n mc a. induction chain as [| x chain IH]; intros n mc a Hok Hfit; cbn [save_chain].
  - exists mc, a. rewrite Z.sub_0_r. split; [done |]. split; [done |]. cbn. by rewrite app_nil_r.
  - apply Forall_cons in Hfit as [Hx Hfit].
    destruct (save_record_ok fd (hash_record x) mc a Hfd Hx Hok) as (mc1 & a1 & He & Hok1 & Hd1).
    cbn [hash_record r_type r_key r_value] in He. rewrite He. run.
    destruct (IH (n - 1) mc1 a1 Hok1 Hfit) as (mc2 & a2 & -> & Hok2 & Hd2).
    exists mc2, a2. split; [rewrite zlen_cons; do 4 f_equal; lia |]. split; [done |].
    rewrite Hd2, Hd1, <- app_assoc. f_equal. cbn [fmap list_fmap]. by rewrite <- frames_app.
Qed.

Lemma save_slots_ok fd heads n mc a :
  0 <= fd -> mc_ok mc -> n = zlen (mjoin heads) -> Forall rec_fits (hash_record <$> mjoin heads) ->
  wrote (hash_record <$> mjoin heads) mc (save_slots fd heads n mc a).
Proof.
  intros Hfd. revert n mc a. induction heads as [| chain heads IH]; intros n mc a Hok Hn Hfit; cbn [save_slots].
  - by apply wrote_nil.
  - change (mjoin (chain :: heads)) with (chain ++ mjoin heads) in *. rewrite fmap_app in Hfit |- *. apply Forall_app in Hfit as [Hf1 Hf2].
    destruct (save_chain_ok fd chain n mc a Hfd Hok Hf1) as (mc1 & a1 & -> & Hok1 & Hd1). run.
    rewrite zlen_app in Hn. eapply wrote_trans; [exact Hok1 | exact Hd1 |].
    destruct (Z.leb_spec (n - zlen chain) 0) as [Hle | Hgt].
    + destruct (mjoin heads) as [| y l]; [by apply wrote_nil |].
      rewrite zlen_cons in Hn. pose proof (zlen_nonneg l). lia.
    + apply IH; [done | lia | done].
Qed.

Lemma save_cells_ok fd cells n mc a :
  0 <= fd -> mc_ok mc -> Forall item_ok cells -> n = zlen (omap cell_record cells) ->
  Forall rec_fits (omap cell_record cells) ->
  wrote (omap cell_record cells) mc (save_cells fd cells n mc a).
Proof.
  intros Hfd. revert n mc a. induction cells as [| it cells IH]; intros n mc a Hok Hit Hn Hfit; cbn [save_cells].
  - by apply wrote_nil.
  - apply Forall_cons in Hit as [Hi Hit]. destruct it as [[k |] [v |]]; cbn [key value] in *.
    + cbn [omap list_omap cell_record key value] in Hn, Hfit |- *.
      apply Forall_cons in Hfit as [Hf Hfit]. rewrite zlen_cons in Hn.
      destruct (save_record_ok fd (Rec KVS_ARRAY (b_str k) (b_str v)) mc a Hfd Hf Hok) as (mc1 & a1 & He & Hok1 & Hd1).
      cbn [r_type r_key r_value] in He. cbn [ptr_str fmap option_fmap option_map]. rewrite He. run.
      change (?x :: ?y) with ([x] ++ y). eapply wrote_trans; [exact Hok1 | exact Hd1 |].
      destruct (Z.leb_spec (n - 1) 0) as [Hle | Hgt].
      * destruct (omap cell_record cells) as [| y l]; [by apply wrote_nil |].
        rewrite zlen_cons in Hn. pose proof (zlen_nonneg l). lia.
      * apply IH; [done | done | lia | done].
    + exfalso. by destruct (proj1 Hi (ex_intro _ k eq_refl)).
    + exfalso. by destruct (proj2 Hi (ex_intro _ v eq_refl)).
    + run. destruct (Z.leb_spec n 0) as [Hle | Hgt]; [| by apply IH].
      cbn [omap list_omap cell_record key value] in Hn |- *.
      destruct (omap cell_record cells) as [| y l]; [by apply wrote_nil |].
      rewrite zlen_cons in Hn. pose proof (zlen_nonneg l). lia.
Qed.

Lemma save_nodes_ok fd hdr hfa h l1 ns fuel mc a :
  repr hdr hfa std h (l1 ++ ns) None -> (length ns <= fuel)%nat -> 0 <= fd -> mc_ok mc ->
  Forall rec_fits (node_record <$> ns) ->
  wrote (node_record <$> ns) mc (save_nodes fuel fd h (nxt std 0 ns) mc a).
Proof.
  intros Hr. revert l1 fuel mc a Hr. induction ns as [| n ns IH]; intros l1 fuel mc a Hr Hf Hfd Hok Hfit.
  - destruct fuel; by apply wrote_nil.
  - destruct fuel as [| fuel]; [cbn in Hf; lia |]. apply Forall_cons in Hfit as [Hn Hfit].
    change (nxt std 0 (n :: ns)) with (Some (sn_addr n)). cbn [save_nodes].
    assert (Hs : splits (l1 ++ n :: ns) (Some n) ns) by (by exists l1).
    pose proof (Hr (Some n) ns Hs ltac:(done)) as Hc. cbn [cell_addr] in Hc. rewrite Hc. run.
    cbn [cell_node sk_key sk_value].
    change (node_record <$> n :: ns) with ([node_record n] ++ (node_record <$> ns)).
    apply (wrote_step [node_record n] (node_record <$> ns)); [by apply (save_record_ok fd (node_record n)) |]. intros mc1 a1 Hok1. run.
    pose proof (repr_get_fwd _ _ _ _ _ _ _ _ 0 Hr Hs ltac:(done) ltac:(cbn; lia)) as Hg. cbn [cell_addr] in Hg.
    rewrite Hg. run. apply (IH (l1 ++ [n])); [by rewrite <- app_assoc | cbn in Hf; lia | done..].
Qed.

Lemma drain_ok fuel mc a :
  mc_ok mc -> tasks_count mc <> 0 -> (length (u_flight (mc_ring mc)) <= fuel)%nat ->
  exists mc' a', drain fuel mc a = Ok (mc', a') /\ mc_ok mc' /\ tasks_count mc' = 0 /\
    settled (mc_ring mc') = settled (mc_ring mc).
Proof.
  revert mc a. induction fuel as [| fuel IH]; intros mc a [Hf Ht Ha Ho] Hne Hlen.
  { exfalso. unfold zlen in Ht. lia. }
  cbn [drain]. destruct (wait_total (mc_ring mc)) as (c & r & Hw).
  { intros Hnil. rewrite Hnil in Ht. done. }
  rewrite Hw. destruct (settled_progress _ _ (wait_progress _ _ _ Hw) Ha) as [Hd Ha'].
  apply wait_some in Hw as (l1 & l2 & Hl & Hl'). rewrite Hl in Hf, Ht, Hlen.
  apply Forall_app in Hf as [Hf1 Hf2]. apply Forall_cons in Hf2 as [[x ->] Hf2]. run.
  set (mc1 := MainCtx r _ _). rewrite length_app in Hlen. cbn in Hlen. zlen_simpl.
  assert (Hok1 : mc_ok mc1).
  { split; cbn; rewrite ?Hl', ?Hd; [by apply Forall_app | | done | done]. zlen_simpl. lia. }
  change (tasks_count mc - 1) with (tasks_count mc1).
  destruct (Z.eqb_spec (tasks_count mc1) 0) as [Hz | Hnz]; [by eexists mc1, _ |].
  destruct (IH mc1 (kvs_free (ctx_p x) (kvs_free (b_addr (ctx_buf x)) a)) Hok1 Hnz) as (mc2 & a2 & -> & Hok2 & Hz & Hd2).
  { cbn. rewrite Hl', length_app. lia. }
  exists mc2, a2. split; [done |]. split; [done |]. split; [done |]. cbn in Hd2. congruence.
Qed.

(** *** The whole traversal *)

(** The records of the engines, in the order of the walks. *)
Definition snapshot (t : tree) (g : engines kvs_array_t rbtree kvs_hash_t SkipList) : list record :=
  omap item_record (preorder t) ++ (hash_record <$> mjoin (hash_heads (global_hash g))) ++
  omap cell_record (array_cells (global_array g)) ++ (node_record <$> sk_nodes (global_skiplist g)).

Lemma omap_cell_pairs cells : Forall item_ok cells -> length (omap cell_record cells) = length (omap item_pair cells).
Proof.
  induction 1 as [| it cells Hi _ IH]; [done |]. destruct it as [[k |] [v |]]; cbn; unfold omap in *; lia.
Qed.

Context (XXH : list Z -> Z) (SIZE HSIZE : Z) (random : nat -> Z).

(** The invariants of the four engines, the tree of the red-black one made
    explicit. *)
Definition snap_inv (nl : Z) (t : tree) (g : engines kvs_array_t rbtree kvs_hash_t SkipList) : Prop :=
  array_inv SIZE (global_array g) /\ rb_ok (global_rbtree g) nl t /\ hash_inv XXH HSIZE (global_hash g) /\
  exists hdr hfa ns, skip_ok (global_skiplist g) hdr hfa ns.

Lemma hash_part_ok fd h mc a :
  hash_inv XXH HSIZE h -> 0 <= fd -> mc_ok mc -> Forall rec_fits (hash_record <$> mjoin (hash_heads h)) ->
  wrote (hash_record <$> mjoin (hash_heads h)) mc
    (save_hash fd h mc a).
Proof.
  unfold save_hash.
  intros Hinv Hfd Hok Hfit. pose proof (hi_count _ _ _ Hinv) as Hc.
  destruct (Z.ltb_spec 0 (count h)) as [Hlt | Hge].
  - unfold hash_heads in *. destruct (nodes h) as [[p heads] |]; [| by rewrite Hc in Hlt]. run. by apply save_slots_ok.
  - destruct (mjoin (hash_heads h)) as [| y l]; [by apply wrote_nil |].
    rewrite zlen_cons in Hc. pose proof (zlen_nonneg l). lia.
Qed.

Lemma array_part_ok fd inst mc a :
  array_inv SIZE inst -> 0 <= fd -> mc_ok mc -> Forall rec_fits (omap cell_record (array_cells inst)) ->
  wrote (omap cell_record (array_cells inst)) mc
    (save_array fd inst mc a).
Proof.
  unfold save_array.
  intros Hinv Hfd Hok Hfit. pose proof (ai_total _ _ Hinv) as Ht. pose proof (ai_items _ _ Hinv) as Hit.
  assert (Hn : total inst = zlen (omap cell_record (array_cells inst))).
  { rewrite Ht. unfold zlen. by rewrite omap_cell_pairs. }
  destruct (Z.ltb_spec 0 (total inst)) as [Hlt | Hge].
  - unfold array_cells in *. destruct (table inst) as [[p cells] |]; [| by rewrite Ht in Hlt]. run. by apply save_cells_ok.
  - destruct (omap cell_record (array_cells inst)) as [| y l]; [by apply wrote_nil |].
    rewrite zlen_cons in Hn. pose proof (zlen_nonneg l). lia.
Qed.

Lemma skip_part_ok fd L mc a :
  (exists hdr hfa ns, skip_ok L hdr hfa ns) -> 0 <= fd -> mc_ok mc -> Forall rec_fits (node_record <$> sk_nodes L) ->
  wrote (node_record <$> sk_nodes L) mc
    (save_skiplist fd L mc a).
Proof.
  unfold save_skiplist.
  intros (hdr & hfa & ns & Hs) Hfd Hok Hfit. destruct (sk_nodes_ok _ _ _ _ Hs) as [Hns _]. rewrite Hns in *.
  rewrite (so_header _ _ _ _ Hs). run. pose proof (so_repr _ _ _ _ Hs) as Hr.
  pose proof (repr_get_fwd _ _ _ _ _ _ None ns 0 Hr eq_refl ltac:(done) ltac:(unfold cell_lvl, SKIPLIST_MAX_LEVEL; lia)) as Hg.
  cbn [cell_addr] in Hg. rewrite Hg. run. eapply (save_nodes_ok fd hdr hfa _ []); [done | | done..].
  rewrite (skip_size _ _ _ _ Hs). lia.
Qed.

Lemma finish_ok mc a :
  mc_ok mc -> exists mc' a', save_finish mc a = Ok (0, mc', a') /\ tasks_count mc' = 0 /\
    u_disk (mc_ring mc') = settled (mc_ring mc).
Proof.
  intros Hok. unfold save_finish. set (mc1 := MainCtx _ _ _).
  pose proof (submit_law (mc_ring mc)) as Hl.
  destruct (settled_progress _ _ (submit_progress (mc_ring mc)) (mo_apart _ Hok)) as [Hd Ha].
  assert (Hok1 : mc_ok mc1) by (destruct Hok; split; cbn; rewrite ?Hl, ?Hd; done).
  assert (Hend : forall mc2, mc_ok mc2 -> tasks_count mc2 = 0 -> u_disk (mc_ring mc2) = settled (mc_ring mc2)).
  { intros mc2 [_ Ht2 _ _] Hz. apply settled_done, nil_length_inv. unfold zlen in Ht2. lia. }
  destruct (Z.eqb_spec (tasks_count mc1) 0) as [Hz | Hnz]; cbn [negb].
  - exists mc1, a. split; [done |]. split; [done |]. by rewrite Hend.
  - destruct (drain_ok (length (u_flight (mc_ring mc1))) mc1 a Hok1 Hnz (le_n _)) as (mc2 & a2 & -> & Hok2 & Hz & Hd2).
    run. exists mc2, a2. split; [done |]. split; [done |]. by rewrite Hend, Hd2.
Qed.

(** With memory and room in the ring a traversal succeeds, waits for every
    request, and leaves in the file the frames of all records. *)
Lemma traversal_spec fd nl t g mc a :
  snap_inv nl t g -> 0 <= fd -> mc_ok mc -> Forall rec_fits (snapshot t g) ->
  exists mc' a', kvs_traversal_write fd g mc a = Ok (0, mc', a') /\ tasks_count mc' = 0 /\
    u_disk (mc_ring mc') = settled (mc_ring mc) ++ frames (rec_tokens <$> snapshot t g).
Proof.
  intros (Ia & Hrb & Ih & Is) Hfd Hok Hfit. unfold snapshot in *. rewrite !Forall_app in Hfit.
  destruct Hfit as (F1 & F2 & F3 & F4). pose proof (ro_zip _ _ _ Hrb) as Hz. unfold kvs_traversal_write.
  rewrite (z_root _ _ _ _ Hz). change (plug [] t) with t.
  destruct (save_rbtree_ok (global_rbtree g) nl fd [] t (fuel_of (global_rbtree g)) mc a)
    as (mc1 & a1 & -> & Hok1 & Hd1); [done | unfold fuel_of; rewrite (rb_size _ _ _ Hrb); lia | done | done | apply Hrb | done |].
  run. destruct (hash_part_ok fd _ mc1 a1 Ih Hfd Hok1 F2) as (mc2 & a2 & -> & Hok2 & Hd2).
  run. destruct (array_part_ok fd _ mc2 a2 Ia Hfd Hok2 F3) as (mc3 & a3 & -> & Hok3 & Hd3).
  run. destruct (skip_part_ok fd _ mc3 a3 Is Hfd Hok3 F4) as (mc4 & a4 & -> & Hok4 & Hd4).
  run. destruct (finish_ok mc4 a4 Hok4) as (mc5 & a5 & -> & Hz5 & Hd5).
  exists mc5, a5. split; [done |]. split; [done |].
  rewrite Hd5, Hd4, Hd3, Hd2, Hd1, !fmap_app, !frames_app, <- !app_assoc. done.
Qed.

End Write.
