(* ===== verification/LoadFacts.v ===== *)
(** * LoadFacts: loading a snapshot

    [kvs_save_handler] on the records of a snapshot, and the round trip: what
    [kvs_save_start] wrote, [kvs_save_init] restores. *)

From S2P Require Import Prelude CLib Alloc Protocol ProtocolFacts Engine Owner Bag Uring Log LogFacts Store StoreFacts Save SaveFacts.
From S2P Require Import Array Hash Skiplist SkiplistFacts Rbtree RbTheory RbHeap RbLoops RbFacts RbEngine.

Definition engine_of (t : kvs_engine_type) : engine_id :=
  match t with KVS_ARRAY => EArray | KVS_HASH => EHash | KVS_RBTREE => ERbtree | KVS_SKIPLIST => ESkiplist end.

(** The pairs of one engine among the records. *)
Definition rec_pair (e : engine_id) (r : record) : option (list Z * list Z) :=
  if decide (engine_of (r_type r) = e) then Some (r_key r, r_value r) else None.
Definition pairs (e : engine_id) (rs : list record) : list (list Z * list Z) := omap (rec_pair e) rs.

(** Records [build_save_protocol] can frame and the tokenizer reads back. *)
Definition rec_ok (r : record) : Prop := nul_free (r_key r) /\ nul_free (r_value r) /\ rec_fits r.

Lemma engine_name_nul t : nul_free (engine_name t).
Proof. destruct t; repeat constructor; vm_compute; congruence. Qed.

Section Load.
Context {A TA TR TH TL : Type} `{AL : AllocatorLaws A} `{TOT : !AllocatorTotal A}.
Context `{EA : !Engine A TA} `{ER : !Engine A TR} `{EH : !Engine A TH} `{EL : !Engine A TL}.
Context `{LA : !EngineLaws A TA} `{LR : !EngineLaws A TR} `{LH : !EngineLaws A TH} `{LL : !EngineLaws A TL}.
Notation engines := (engines TA TR TH TL).
Implicit Types (g : engines) (a : A).

Definition eng_own g : list (gset Z) :=
  [e_owned (global_array g); e_owned (global_rbtree g); e_owned (global_hash g); e_owned (global_skiplist g)].

Definition load_ok (ts : list (list Z)) g : Prop :=
  exists r, ts = rec_tokens r /\ rec_ok r /\ db_full (TA := TA) (TR := TR) (TH := TH) (TL := TL) (engine_of (r_type r)) (db g (engine_of (r_type r))) = false /\
    db g (engine_of (r_type r)) !! r_key r = None.

Definition load_step (ts : list (list Z)) g g' : Prop :=
  forall r, ts = rec_tokens r ->
    db g' (engine_of (r_type r)) = <[r_key r := r_value r]> (db g (engine_of (r_type r))) /\
    forall e, e <> engine_of (r_type r) -> db g' e = db g e.

Lemma rec_tokens_inj r r' : rec_tokens r = rec_tokens r' -> r = r'.
Proof.
  destruct r as [t k v], r' as [t' k' v']. unfold rec_tokens. cbn. intros [= Ht -> ->].
  f_equal. by destruct t, t'.
Qed.

(** One insertion into an engine with room, in terms of its owner list. *)
Lemma load_engine {E} `{ENG : !Engine A E} `{LAWS : !EngineLaws A E} l1 l2 k v (e : E) a :
  e_inv e -> al_inv a -> holds (al_live a) (l1 ++ e_owned e :: l2) ->
  e_full (e_map e) = false -> e_map e !! k = None ->
  exists e' a', e_set e (Some k) (Some v) a = Ok (0, e', a') /\ e_map e' = <[k := v]> (e_map e) /\
    e_inv e' /\ al_inv a' /\ holds (al_live a') (l1 ++ e_owned e' :: l2) /\
    al_live a' ∖ ⋃ (l1 ++ e_owned e' :: l2) = al_live a ∖ ⋃ (l1 ++ e_owned e :: l2).
Proof.
  intros Hi Ha Ho Hfull Hk.
  destruct (step_owner l1 l2 (OpSet k v) e a Hi Ha Ho) as (x & e' & a' & Hs & Habs & Hi' & Ha' & Ho' & Hf).
  cbn [e_step] in Hs. destruct (e_set _ _ _ _) as [[[r e1] a1] | |]; try done. injection Hs as <- <- <-.
  inversion Habs as [? ? ? ? Hset | | | | | ? ? ? ? Hoom]; subst; [| by apply total_no_fail in Hoom].
  rewrite Hfull in Hset. inversion Hset; simplify_eq. eauto 10.
Qed.

(** The end of each case of the handler: the new state [g'] and allocator. *)
Ltac load_tail g' a' :=
  eexists 0, _, g', a'; split; [done |]; split; [lia |]; do 2 (split; [done |]);
  match goal with Hs : forall x, _ -> _ -> load_step _ _ x |- _ => split; [apply Hs; [done | by intros [] ?] |] end;
  split; [split; [done |]; by split | assumption].

Lemma save_handler_ok : handles eng_inv eng_own kvs_save_handler load_ok load_step.
Proof.
  intros ts rest cli g a extra (r & -> & (Hk & Hv & Hfit) & Hfull & Hnone) Hc Hr Htl Hhl ((I1 & I2 & I3 & I4) & Ia & Ho).
  unfold rec_fits in Hfit.
  destruct (kvsp_split_frame (rec_tokens r) (0 :: extra) cli) as (b & toks & Hs & Hm & [Hlen _]);
    [repeat constructor; try done; apply engine_name_nul | vm_compute; congruence | done | apply Hc | lia | done | done |].
  unfold kvs_save_handler. rewrite Hs. run. cbn [rbuf set_rbuf]. rewrite Hm. run.
  assert (Hc' : fcli (set_rbuf b cli)) by (destruct Hc; split; cbn; try done; lia).
  destruct r as [t k v]. cbn [rec_tokens r_type r_key r_value] in *.
  assert (Hstep : forall g', db g' (engine_of t) = <[k := v]> (db g (engine_of t)) ->
    (forall e, e <> engine_of t -> db g' e = db g e) -> load_step (rec_tokens (Rec t k v)) g g').
  { intros g' H1 H2 r Hr'. apply rec_tokens_inj in Hr' as <-. done. }
  destruct t; cbn [engine_of db db_full] in *.
  - destruct (load_engine [] _ k v (global_array g) a I1 Ia Ho Hfull Hnone) as (e' & a' & He & Hmap & Hi' & Ia' & Ho' & Hf).
    change (match engine_name KVS_ARRAY with [] => 0 | c :: _ => c end) with 65. cbv beta iota zeta. cbn [Z.eqb Pos.eqb]. rewrite He. run.
    load_tail (with_array e' g) a'.
  - destruct (load_engine [_; _] _ k v (global_hash g) a I3 Ia Ho Hfull Hnone) as (e' & a' & He & Hmap & Hi' & Ia' & Ho' & Hf).
    change (match engine_name KVS_HASH with [] => 0 | c :: _ => c end) with 72. cbv beta iota zeta. cbn [Z.eqb Pos.eqb]. rewrite He. run.
    load_tail (with_hash e' g) a'.
  - destruct (load_engine [_] _ k v (global_rbtree g) a I2 Ia Ho Hfull Hnone) as (e' & a' & He & Hmap & Hi' & Ia' & Ho' & Hf).
    change (match engine_name KVS_RBTREE with [] => 0 | c :: _ => c end) with 82. cbv beta iota zeta. cbn [Z.eqb Pos.eqb]. rewrite He. run.
    load_tail (with_rbtree e' g) a'.
  - destruct (load_engine [_; _; _] _ k v (global_skiplist g) a I4 Ia Ho Hfull Hnone) as (e' & a' & He & Hmap & Hi' & Ia' & Ho' & Hf).
    change (match engine_name KVS_SKIPLIST with [] => 0 | c :: _ => c end) with 83. cbv beta iota zeta. cbn [Z.eqb Pos.eqb]. rewrite He. run.
    load_tail (with_skiplist e' g) a'.
Qed.

(** *** A list of records *)

Lemma pairs_cons e r rs :
  pairs e (r :: rs) = (if decide (engine_of (r_type r) = e) then [(r_key r, r_value r)] else []) ++ pairs e rs.
Proof. unfold pairs, rec_pair. cbn. by destruct (decide _). Qed.

(** Loading the records [rs] into engines that hold the pairs of [acc]. *)
Lemma load_steps rs acc g :
  Forall rec_ok rs -> (forall e, db g e = list_to_map (pairs e acc)) ->
  (forall e, NoDup (pairs e (rs ++ acc)).*1) ->
  (forall e (m : kvmap), (size m < length (pairs e (rs ++ acc)))%nat ->
     db_full (TA := TA) (TR := TR) (TH := TH) (TL := TL) e m = false) ->
  admits load_ok load_step (rec_tokens <$> rs) g /\
  forall g', steps load_step (rec_tokens <$> rs) g g' -> forall e, db g' e = list_to_map (pairs e (rs ++ acc)).
Proof.
  intros Hok. revert acc g. induction Hok as [| r rs Hr Hok IH]; intros acc g Hdb Hnd Hroom.
  - split; [done |]. intros g' Hs. by inversion Hs; subst.
  - set (e0 := engine_of (r_type r)).
    assert (Hperm : forall e, pairs e (rs ++ r :: acc) ≡ₚ pairs e ((r :: rs) ++ acc)).
    { intros e. unfold pairs. apply omap_Permutation. cbn. by rewrite Permutation_middle. }
    assert (Hnd' : forall e, NoDup (pairs e (rs ++ r :: acc)).*1) by (intros e; rewrite Hperm; apply Hnd).
    assert (Hlen : forall e, length (pairs e (rs ++ r :: acc)) = length (pairs e ((r :: rs) ++ acc)))
      by (intros e; by rewrite Hperm).
    assert (Hdb' : forall g1, load_step (rec_tokens r) g g1 -> forall e, db g1 e = list_to_map (pairs e (r :: acc))).
    { intros g1 Hst e. destruct (Hst r eq_refl) as [H1 H2]. rewrite pairs_cons. destruct (decide _) as [<- | Hne].
      - by rewrite H1, Hdb.
      - cbn. by rewrite H2. }
    assert (Hfresh : r_key r ∉ (pairs e0 acc).*1).
    { specialize (Hnd e0). cbn [app] in Hnd. rewrite pairs_cons in Hnd. unfold e0 in Hnd. rewrite decide_True in Hnd by done.
      cbn in Hnd. apply NoDup_cons in Hnd as [Hn _]. unfold pairs in Hn |- *. rewrite omap_app, fmap_app in Hn.
      intros Hin. apply Hn. apply elem_of_app. by right. }
    assert (Hsize : (size (db g e0) < length (pairs e0 ((r :: rs) ++ acc)))%nat).
    { rewrite Hdb.
      rewrite map_size_list_to_map.
      - cbn [app]. rewrite pairs_cons. unfold e0. rewrite decide_True by done. unfold pairs. rewrite omap_app. cbn. rewrite length_app. lia.
      - specialize (Hnd e0). unfold pairs in Hnd |- *. rewrite omap_app, fmap_app in Hnd. by apply NoDup_app in Hnd as (_ & _ & ?). }
    split.
    + cbn [fmap list_fmap admits]. split.
      * exists r. split; [done |]. split; [done |]. split; [by apply Hroom |].
        fold e0. rewrite Hdb. by apply not_elem_of_list_to_map_1.
      * intros g1 Hst. apply (IH (r :: acc) g1); [by apply Hdb' | done |]. intros e m Hm. apply Hroom. by rewrite <- Hlen.
    + intros g' Hs e. inversion Hs as [| ? ? g1 ? ? Hst Hrest]; subst.
      destruct (IH (r :: acc) g1) as [_ Hfin]; [by apply Hdb' | done | intros e' m Hm; apply Hroom; by rewrite <- Hlen |].
      rewrite (Hfin g' Hrest e). apply list_to_map_proper; [done | apply Hperm].
Qed.

End Load.

(** ** Round trip *)

Section RoundTrip.
Context {A R : Type} `{AL : AllocatorLaws A} `{TOT : !AllocatorTotal A} `{UL : UringLaws R} `{UT : !UringTotal R}.
Context (XXH : list Z -> Z) (SIZE HSIZE : Z) (random : nat -> Z).
Context (Hsize : 0 < SIZE) (Hhsize : 0 < HSIZE <= INT_MAX).
Notation engines := (engines kvs_array_t rbtree kvs_hash_t SkipList).

#[local] Instance load_array : Engine A kvs_array_t := array_engine SIZE.
#[local] Instance load_rbtree : Engine A rbtree := rb_engine.
#[local] Instance load_hash : Engine A kvs_hash_t := hash_engine XXH HSIZE.
#[local] Instance load_skip : Engine A SkipList := skip_engine random.
#[local] Instance load_array_laws : EngineLaws A kvs_array_t := array_laws SIZE Hsize.
#[local] Instance load_hash_laws : EngineLaws A kvs_hash_t := hash_laws XXH HSIZE Hhsize.

Lemma preorder_inorder t : preorder t ≡ₚ inorder t.
Proof.
  induction t as [| a c k v l IHl r IHr]; cbn; [done |]. rewrite IHl, IHr. apply Permutation_middle.
Qed.

Lemma pairs_omap {X} e (f : X -> option record) (l : list X) :
  pairs e (omap f l) = omap (fun x => f x ≫= rec_pair e) l.
Proof.
  unfold pairs. induction l as [| x l IH]; [done |]. cbn [omap list_omap].
  destruct (f x) as [r |]; cbn; [| exact IH]. destruct (rec_pair e r); cbn; unfold omap in *; by rewrite IH.
Qed.

Lemma pairs_fmap {X} e (f : X -> record) (l : list X) : pairs e (f <$> l) = omap (fun x => rec_pair e (f x)) l.
Proof.
  unfold pairs. induction l as [| x l IH]; [done |]. cbn. destruct (rec_pair e (f x)); unfold omap, fmap in *; by rewrite IH.
Qed.

(** The records of a snapshot are the pairs of the four maps. *)
Lemma snapshot_pairs nl t (g : engines) :
  snap_inv XXH SIZE HSIZE nl t g -> forall e, NoDup (pairs e (snapshot t g)).*1 /\ list_to_map (pairs e (snapshot t g)) = db g e.
Proof.
  intros (Ia & Hrb & Ih & (hdr & hfa & ns & Hs)) e. unfold snapshot, pairs. rewrite !omap_app.
  fold (pairs e (omap item_record (preorder t))). fold (pairs e (omap cell_record (array_cells (global_array g)))).
  fold (pairs e (hash_record <$> mjoin (hash_heads (global_hash g)))). fold (pairs e (node_record <$> sk_nodes (global_skiplist g))).
  rewrite !pairs_omap, !pairs_fmap. destruct (rb_entries_ok _ _ _ Hrb) as [Hent _].
  destruct e; cbn [db].
  - rewrite (omap_const_none _ (preorder t)), (omap_const_none _ (mjoin _)), (omap_const_none _ (sk_nodes _));
      [| done | done | intros [[? ?] [?|]]; done].
    rewrite app_nil_l, app_nil_l, app_nil_r.
    rewrite (omap_pointwise _ item_pair) by (by intros [[?|] [?|]]). split; [apply Ia | done].
  - rewrite (omap_const_none _ (mjoin _)), (omap_const_none _ (array_cells _)), (omap_const_none _ (sk_nodes _));
      [| done | intros [[?|] [?|]]; done | done].
    rewrite !app_nil_r.
    rewrite (omap_pointwise _ (fun x => en_pair <$> item_entry x)) by (by intros [[? ?] [?|]]).
    rewrite <- fmap_omap. pose proof (ro_bag _ _ _ Hrb) as [Hk _].
    assert (Hp : en_pair <$> omap item_entry (preorder t) ≡ₚ en_pair <$> omap item_entry (inorder t))
      by (by rewrite (preorder_inorder t)).
    split; [by rewrite Hp |]. cbn [e_map rb_engine load_rbtree]. unfold bag_map. rewrite Hent. unfold entries.
    apply list_to_map_proper; [by rewrite Hp | done].
  - rewrite (omap_const_none _ (preorder t)), (omap_const_none _ (array_cells _)), (omap_const_none _ (sk_nodes _));
      [| done | intros [[?|] [?|]]; done | intros [[? ?] [?|]]; done].
    rewrite app_nil_l, app_nil_l, app_nil_r.
    rewrite (omap_some _ (fun n => en_pair (node_entry n))) by done.
    change (fun n => en_pair (node_entry n)) with (en_pair ∘ node_entry). rewrite list_fmap_compose.
    split; [apply (hi_bag _ _ _ Ih) | done].
  - rewrite (omap_const_none _ (preorder t)), (omap_const_none _ (mjoin _)), (omap_const_none _ (array_cells _));
      [| intros [[?|] [?|]]; done | done | intros [[? ?] [?|]]; done].
    rewrite !app_nil_l. rewrite (omap_some _ (fun n => en_pair (sn_entry n))) by done.
    change (fun n => en_pair (sn_entry n)) with (en_pair ∘ sn_entry). rewrite list_fmap_compose.
    destruct (sk_nodes_ok _ _ _ _ Hs) as [Hn _]. split; [rewrite Hn; apply (so_bag _ _ _ _ Hs) | done].
Qed.

(** Pairs of C strings whose record fits an [int]. *)
Definition storable (g : engines) : Prop :=
  forall e k v, db g e !! k = Some v -> nul_free k /\ nul_free v /\ zlen k + zlen v + 64 <= INT_MAX.

Lemma dec_length_10 n : 0 <= n <= INT_MAX -> zlen (dec n) <= 10.
Proof.
  intros Hn. pose proof (dec_aux_length (S (Z.to_nat (Z.log2 n))) n 10) as Hd. unfold dec, zlen.
  assert (0 <= n < 10 ^ Z.of_nat 10) as H1 by (unfold INT_MAX in Hn; cbn; lia). specialize (Hd H1 ltac:(lia)). lia.
Qed.

Lemma rec_fits_short r : zlen (r_key r) + zlen (r_value r) + 64 <= INT_MAX -> rec_fits r.
Proof.
  intros Hl. unfold rec_fits. pose proof (zlen_nonneg (r_key r)) as K0. pose proof (zlen_nonneg (r_value r)) as V0.
  assert (Hn : 0 <= zlen (engine_name (r_type r)) <= 8) by (destruct (r_type r); vm_compute; split; congruence).
  pose proof (dec_length_10 (zlen (engine_name (r_type r))) ltac:(lia)) as D1.
  pose proof (dec_length_10 (zlen (r_key r)) ltac:(lia)) as D2.
  pose proof (dec_length_10 (zlen (r_value r)) ltac:(lia)) as D3.
  assert (Hb : zlen (kvsp_body (rec_tokens r)) = zlen (engine_name (r_type r)) + zlen (dec (zlen (engine_name (r_type r)))) + zlen (r_key r)
    + zlen (dec (zlen (r_key r))) + zlen (r_value r) + zlen (dec (zlen (r_value r))) + 8).
  { unfold kvsp_body, rec_tokens, fmt_token, KVSP_END_STR, CRLF. cbn [mbind list_bind]. zlen_simpl. lia. }
  pose proof (zlen_nonneg (dec (zlen (engine_name (r_type r))))). pose proof (zlen_nonneg (dec (zlen (r_key r)))).
  pose proof (zlen_nonneg (dec (zlen (r_value r)))).
  pose proof (dec_length_10 (zlen (kvsp_body (rec_tokens r))) ltac:(lia)) as D4.
  unfold kvsp_frame. rewrite zlen_app, fmt_head_len. lia.
Qed.

Lemma snapshot_records nl t (g : engines) :
  snap_inv XXH SIZE HSIZE nl t g -> storable g -> Forall rec_ok (snapshot t g).
Proof.
  intros Hinv Hst. apply Forall_forall. intros r Hr.
  destruct (snapshot_pairs nl t g Hinv (engine_of (r_type r))) as [Hnd Hm].
  assert (Hin : (r_key r, r_value r) ∈ pairs (engine_of (r_type r)) (snapshot t g)).
  { unfold pairs. apply list_elem_of_omap. exists r. split; [done |]. unfold rec_pair. by rewrite decide_True. }
  apply elem_of_list_to_map_1 in Hin; [| done]. rewrite Hm in Hin.
  destruct (Hst _ _ _ Hin) as (Hk & Hv & Hl). split; [done |]. split; [done |]. by apply rec_fits_short.
Qed.

Lemma snapshot_room (nl : Z) (t : tree) (g : engines) (e : engine_id) (m : kvmap) :
  snap_inv XXH SIZE HSIZE nl t g -> (size m < length (pairs e (snapshot t g)))%nat ->
  db_full (TA := kvs_array_t) (TR := rbtree) (TH := kvs_hash_t) (TL := SkipList) e m = false.
Proof.
  intros Hinv Hlt. destruct e; try done. cbn [db_full e_full load_array array_engine]. apply Z.eqb_neq.
  destruct (snapshot_pairs nl t g Hinv EArray) as [Hnd Hm].
  assert (Hsz : Z.of_nat (length (pairs EArray (snapshot t g))) = Z.of_nat (size (db g EArray))).
  { rewrite <- Hm. by rewrite map_size_list_to_map. }
  pose proof (array_total_size SIZE (global_array g) (proj1 Hinv)) as Ht. cbn [db e_map load_array array_engine] in Hsz.
  pose proof (ai_total _ _ (proj1 Hinv)) as Ht'. pose proof (ai_size _ _ (proj1 Hinv)) as Hs.
  assert (zlen (omap item_pair (array_cells (global_array g))) <= zlen (array_cells (global_array g))).
  { unfold zlen. apply inj_le. generalize (array_cells (global_array g)). intros l.
    induction l as [| x l IH]; cbn; [done |]. destruct (item_pair x); cbn; unfold omap in *; lia. }
  lia.
Qed.

(** The file of a snapshot. *)
Definition snapshot_file (t : tree) (g : engines) : list Z := frames (rec_tokens <$> snapshot t g).

Lemma snapshot_nonempty nl t (g : engines) e k v :
  snap_inv XXH SIZE HSIZE nl t g -> db g e !! k = Some v -> snapshot_file t g <> [].
Proof.
  intros Hinv Hk Hnil. destruct (snapshot_pairs nl t g Hinv e) as [_ Hm]. rewrite <- Hm in Hk.
  unfold snapshot_file in Hnil. destruct (snapshot t g) as [| r rs]; [done |].
  cbn [fmap list_fmap] in Hnil. change (frames (rec_tokens r :: ?l)) with (kvsp_frame (rec_tokens r) ++ frames l) in Hnil.
  apply app_eq_nil in Hnil as [Hnil _]. pose proof (kvsp_frame_pos (rec_tokens r)) as Hp. rewrite Hnil in Hp. done.
Qed.

Lemma snapshot_writes fd nl t (g : engines) (ring : R) a :
  snap_inv XXH SIZE HSIZE nl t g -> storable g -> 0 <= fd -> u_init [] = Some ring ->
  exists mc a', kvs_traversal_write fd g (MainCtx ring 0 0) a = Ok (0, mc, a') /\ u_disk (mc_ring mc) = snapshot_file t g.
Proof.
  intros Hinv Hst Hfd Hring. destruct (init_law _ _ Hring) as (Hfl & _). destruct (settled_init _ _ Hring) as [Hdk Ha].
  destruct (traversal_spec XXH SIZE HSIZE fd nl t g (MainCtx ring 0 0) a) as (mc & a1 & Ht & _ & Hd); [done | done | | |].
  { split; cbn; by rewrite ?Hfl, ?Hdk. }
  { eapply Forall_impl; [by eapply snapshot_records |]. by intros r (_ & _ & ?). }
  exists mc, a1. split; [done |]. rewrite Hd. cbn. by rewrite Hdk.
Qed.

Lemma snapshot_loads nl t (g g0 : engines) rest a0 :
  snap_inv XXH SIZE HSIZE nl t g -> storable g -> zlen (snapshot_file t g) < INT_MAX ->
  state_wf eng_inv eng_own g0 rest a0 -> (forall e, db g0 e = ∅) ->
  exists ret g' a', kvs_file_read (snapshot_file t g) kvs_save_handler g0 a0 = Ok (ret, g', a') /\
    (forall e, db g' e = db g e) /\ state_wf eng_inv eng_own g' rest a' /\ state_frame eng_own g0 rest a0 g' rest a' /\
    (snapshot_file t g <> [] -> ret = 0).
Proof.
  intros Hinv Hst Hmax Hwf0 Hempty. unfold snapshot_file in *.
  destruct (load_steps (snapshot t g) [] g0) as [Hadm Hfin]; [by eapply snapshot_records | | | |].
  { intros e. by rewrite Hempty. } { intros e. rewrite app_nil_r. by apply (snapshot_pairs nl t g Hinv). }
  { intros e m. rewrite app_nil_r. by apply (snapshot_room nl). }
  destruct (file_read_spec eng_inv eng_own kvs_save_handler load_ok load_step rest (rec_tokens <$> snapshot t g) [] g0 a0)
    as (ret & g' & a' & Hread & Hsteps & Hwf' & Hfr & Hret); [apply save_handler_ok | done | by left | by rewrite app_nil_r | done |].
  rewrite app_nil_r in Hread, Hret. specialize (Hfin g' Hsteps). rewrite app_nil_r in Hfin.
  exists ret, g', a'. split; [done |]. split; [| done]. intros e. rewrite Hfin. by apply (snapshot_pairs nl t g Hinv).
Qed.

(** What [kvs_save_start] writes, [kvs_save_init] restores. *)
Lemma save_start_ok fd nl t (g : engines) a :
  snap_inv XXH SIZE HSIZE nl t g -> storable g -> 0 <= fd -> kvs_save_start (R := R) fd g a = Ok (0, Some (snapshot_file t g)).
Proof.
  intros Hinv Hst Hfd. destruct (init_total (R := R) []) as [ring Hring].
  destruct (snapshot_writes fd nl t g ring a Hinv Hst Hfd Hring) as (mc & a1 & Ht & Hd).
  unfold kvs_save_start. rewrite Hring, (proj2 (Z.ltb_ge fd 0)), Ht by done. run. by rewrite Hd.
Qed.

Lemma snapshot_run fd (g : engines) a :
  eng_inv g -> storable g -> 0 <= fd ->
  exists f, kvs_save_start (R := R) fd g a = Ok (0, Some f) /\
    forall (g0 : engines) a0, zlen f < INT_MAX -> state_wf eng_inv eng_own g0 [] a0 -> (forall e, db g0 e = ∅) ->
    exists g' a', kvs_save_init 1 (Some f) true true g0 a0 = Ok (0, g', a') /\ (forall e, db g' e = db g e) /\
      state_wf eng_inv eng_own g' [] a' /\ state_frame eng_own g0 [] a0 g' [] a'.
Proof.
  intros (I1 & (nl & t & I2) & I3 & I4) Hst Hfd.
  assert (Hinv : snap_inv XXH SIZE HSIZE nl t g) by done.
  exists (snapshot_file t g). split; [by apply (save_start_ok fd nl) |].
  intros g0 a0 Hmax Hwf0 Hempty.
  destruct (snapshot_loads nl t g g0 [] a0 Hinv Hst Hmax Hwf0 Hempty) as (ret & g' & a' & Hread & Hdb & Hwf' & Hfr & _).
  exists g', a'. split; [| done]. unfold kvs_save_init. cbn [Z.eqb negb].
  destruct (Z.leb_spec (zlen (snapshot_file t g)) 0) as [Hz | Hnz]; [| by rewrite Hread].
  revert Hread. unfold kvs_file_read. rewrite (proj2 (Z.eqb_eq _ _)); [by intros [= _ <- <-] |].
  pose proof (zlen_nonneg (snapshot_file t g)). lia.
Qed.

End RoundTrip.
