(* ===== verification/SaveStatus.v ===== *)
(** * SaveStatus: the life of the save child

    The parent starts a child for a snapshot and a coroutine that waits for
    it; a request that comes while a child runs is remembered. The step
    relation below is the interleaving of SAVE requests and of children that
    end, as the server makes it. *)

From S2P Require Import Prelude CLib Alloc Protocol Engine Uring Log Store Save.

Section Status.
Context {A : Type} `{AL : AllocatorLaws A}.
Implicit Types (x : save_state) (a : A).

(** A SAVE request with its result, or the end of the child as the coroutine
    with the block [arg] sees it. *)
Inductive save_event :=
| SaveRequest (r : Z)
| ChildDone (arg n result ret : Z) (exit_ok : bool).

Inductive save_step : save_state * A -> save_event -> save_state * A -> Prop :=
| step_request x a r x' a' : kvs_save_write 1 x a = (r, x', a') -> save_step (x, a) (SaveRequest r) (x', a')
| step_done x a arg n result ret exit_ok x' a' :
    arg ∈ sv_waiters x -> kvs_save_child_done arg n result ret exit_ok x a = (x', a') ->
    save_step (x, a) (ChildDone arg n result ret exit_ok) (x', a').

Inductive save_steps : save_state * A -> list save_event -> save_state * A -> Prop :=
| save_nil s : save_steps s [] s
| save_cons s e s1 es s2 : save_step s e s1 -> save_steps s1 es s2 -> save_steps s (e :: es) s2.

(** One waiting coroutine while a child runs, none otherwise, and no child is
    forgotten; [L] are the blocks of the rest of the program. *)
Definition save_inv (L : gset Z) (s : save_state * A) : Prop :=
  al_inv s.2 /\ al_live s.2 = list_to_set (sv_waiters s.1) ∪ L /\
  match save_status s.1 with
  | SAVE_STATUS_IDLE => sv_waiters s.1 = [] /\ kvs_save_child_pid s.1 = 0
  | SAVE_STATUS_RUNNING => exists p, sv_waiters s.1 = [p] /\ p ∉ L
  | SAVE_STATUS_ERROR => sv_waiters s.1 = []
  end.

(** What a fork of a child does: a child and its waiter, or nothing and
    perhaps the error status. *)
Lemma fork_spec x a r x' a' : al_inv a -> kvs_fork_save_child x a = (r, x', a') ->
  is_save_pending x' = is_save_pending x /\ al_inv a' /\
  ((r = 0 /\ save_status x' = SAVE_STATUS_RUNNING /\
     exists p, sv_waiters x' = p :: sv_waiters x /\ p ∉ al_live a /\ al_live a' = {[p]} ∪ al_live a) \/
   (r < 0 /\ sv_waiters x' = sv_waiters x /\ al_live a' = al_live a /\
     (save_status x' = SAVE_STATUS_ERROR \/ (save_status x' = save_status x /\ kvs_save_child_pid x' = kvs_save_child_pid x)))).
Proof.
  intros Hi. unfold kvs_fork_save_child, next_env. destruct x as [st pid pend ws env].
  assert (Hno : forall x1, sv_waiters x1 = ws -> is_save_pending x1 = pend -> save_status x1 = SAVE_STATUS_ERROR \/
      (save_status x1 = st /\ kvs_save_child_pid x1 = pid) -> (-1, x1, a) = (r, x', a') ->
    is_save_pending x' = pend /\ al_inv a' /\ ((r = 0 /\ save_status x' = SAVE_STATUS_RUNNING /\
     exists p, sv_waiters x' = p :: ws /\ p ∉ al_live a /\ al_live a' = {[p]} ∪ al_live a) \/
    (r < 0 /\ sv_waiters x' = ws /\ al_live a' = al_live a /\
     (save_status x' = SAVE_STATUS_ERROR \/ (save_status x' = st /\ kvs_save_child_pid x' = pid))))).
  { intros x1 H1 H2 H3 [= <- <- <-]. split; [done |]. split; [done |]. right. split; [lia |]. done. }
  destruct env as [| e env]; cbn; [apply Hno; cbn; auto |]. destruct (fe_pair e); cbn; [| apply Hno; cbn; auto].
  destruct (fe_pid e <? 0); [apply Hno; cbn; auto |].
  destruct (kvs_malloc 4 a) as [[p |] a1] eqn:Hm; intros [= <- <- <-]; cbn.
  - destruct (malloc_some _ _ _ _ Hi Hm) as (Hp & Hl' & Hi'). split; [done |]. split; [done |]. left. do 2 (split; [done |]). by exists p.
  - destruct (malloc_none _ _ _ Hi Hm) as [Hl' Hi']. split; [done |]. split; [done |]. right. split; [lia |]. auto.
Qed.

(** The waiters after one of them ended. *)
Lemma drop_waiter (p arg : Z) : p <> arg -> filter (fun q : Z => q <> arg) [p; arg] = [p].
Proof. intros Hne. rewrite !filter_cons, filter_nil, decide_True, decide_False by naive_solver. done. Qed.

Lemma drop_only arg : filter (fun q : Z => q <> arg) [arg] = [].
Proof. rewrite filter_cons, filter_nil, decide_False by naive_solver. done. Qed.

Lemma request_inv L x a r x' a' : save_inv L (x, a) -> kvs_save_write 1 x a = (r, x', a') -> save_inv L (x', a').
Proof.
  intros (Hi & Hl & Hst) Hr. cbn [fst snd] in *. unfold kvs_save_write in Hr. cbn [Z.eqb] in Hr. destruct (save_status x) eqn:Hs.
  - destruct Hst as [Hw Hc]. rewrite Hw in Hl. destruct (fork_spec _ _ _ _ _ Hi Hr) as (_ & Hi' & [(_ & Hs' & p & Hw' & Hp & Hl') | (_ & Hw' & Hl' & Hs')]).
    + split; [done |]. cbn. rewrite Hs', Hw', Hw, Hl', Hl. split; [set_solver |]. exists p. split; [done |]. rewrite Hl in Hp. set_solver.
    + split; [done |]. cbn. rewrite Hw', Hw, Hl', Hl. split; [done |]. destruct Hs' as [-> | [-> ->]]; [done |]. by rewrite Hs, Hc.
  - injection Hr as <- <- <-. split; [done |]. split; [done |]. cbn. by rewrite Hs.
  - injection Hr as <- <- <-. split; [done |]. split; [done |]. cbn. by rewrite Hs.
Qed.

(** The state when the coroutine has seen the end of its child. *)
Definition child_seen (n result ret : Z) (exit_ok : bool) x : save_state :=
  let x1 := with_status (if (n =? 1) && (result =? 48) && (ret =? kvs_save_child_pid x) && exit_ok then SAVE_STATUS_IDLE else SAVE_STATUS_ERROR) x in
  if ret =? kvs_save_child_pid x then with_child 0 x1 else x1.

Lemma child_seen_ok n result ret exit_ok x :
  sv_waiters (child_seen n result ret exit_ok x) = sv_waiters x /\ is_save_pending (child_seen n result ret exit_ok x) = is_save_pending x /\
  (save_status (child_seen n result ret exit_ok x) = SAVE_STATUS_ERROR \/
   (save_status (child_seen n result ret exit_ok x) = SAVE_STATUS_IDLE /\ kvs_save_child_pid (child_seen n result ret exit_ok x) = 0)).
Proof.
  unfold child_seen. destruct (ret =? kvs_save_child_pid x); cbn; [| rewrite andb_false_r; cbn; auto].
  destruct (_ && _ && _ && _); cbn; auto.
Qed.

Lemma done_inv L x a arg n result ret exit_ok x' a' :
  save_inv L (x, a) -> arg ∈ sv_waiters x -> kvs_save_child_done arg n result ret exit_ok x a = (x', a') -> save_inv L (x', a').
Proof.
  intros (Hi & Hl & Hst) Hin. cbn [fst snd] in *.
  assert (Hrun : sv_waiters x = [arg] /\ arg ∉ L).
  { destruct (save_status x); [destruct Hst as [Hw _] | destruct Hst as (p & Hw & Hp) | rename Hst into Hw]; rewrite Hw in Hin; set_solver. }
  destruct Hrun as [Hw Hp]. rewrite Hw in Hl. cbn in Hl. unfold kvs_save_child_done. fold (child_seen n result ret exit_ok x).
  destruct (child_seen_ok n result ret exit_ok x) as (W & P & S). set (x2 := child_seen n result ret exit_ok x) in *. rewrite Hw in W.
  destruct ((is_save_pending x2 =? 1) && bool_decide (save_status x2 = SAVE_STATUS_IDLE)) eqn:Hpend.
  - apply andb_true_iff in Hpend as [_ Hidle]. apply bool_decide_eq_true in Hidle. destruct S as [S | [_ S]]; [congruence |].
    destruct (kvs_fork_save_child (with_pending 0 x2) a) as [[r x3] a3] eqn:Hf. intros [= <- <-].
    destruct (fork_spec _ _ _ _ _ Hi Hf) as (_ & Hi3 & [(_ & S3 & p & W3 & Hp3 & L3) | (_ & W3 & L3 & S3)]); cbn in W3; rewrite W in W3.
    + destruct (free_live arg a3 Hi3) as [Hlf Hif]; [rewrite L3, Hl; set_solver |].
      assert (Hne : p <> arg) by (rewrite Hl in Hp3; set_solver). split; [done |]. cbn. rewrite W3, drop_waiter, S3, Hlf, L3, Hl by done.
      rewrite Hl in Hp3. split; [set_solver | exists p; split; [done | set_solver]].
    + destruct (free_live arg a3 Hi3) as [Hlf Hif]; [rewrite L3, Hl; set_solver |].
      split; [done |]. cbn. rewrite W3, drop_only, Hlf, L3, Hl. split; [set_solver |].
      destruct S3 as [-> | [-> ->]]; [done |]. cbn. by rewrite Hidle.
  - intros [= <- <-]. destruct (free_live arg a Hi) as [Hlf Hif]; [rewrite Hl; set_solver |]. split; [done |]. cbn.
    rewrite W, drop_only, Hlf, Hl. split; [set_solver |]. destruct S as [-> | [-> ->]]; done.
Qed.

Lemma save_steps_inv L s es s' : save_inv L s -> save_steps s es s' -> save_inv L s'.
Proof.
  intros Hi Hr. induction Hr as [| s e s1 es s2 Hs _ IH]; [done |]. apply IH. destruct Hs; [by eapply request_inv | by eapply done_inv].
Qed.

Lemma error_step s e s' : save_status s.1 = SAVE_STATUS_ERROR -> sv_waiters s.1 = [] -> save_step s e s' -> s' = s /\ e = SaveRequest (-1).
Proof.
  intros Hs Hw Hstep. destruct Hstep as [x a r x' a' Hr | x a arg n result ret ok x' a' Hin Hd]; cbn in *; [| rewrite Hw in Hin; set_solver].
  unfold kvs_save_write in Hr. cbn in Hr. rewrite Hs in Hr. injection Hr as <- <- <-. done.
Qed.

(** C27: along every interleaving of SAVE requests and ends of children, at
    most one save child is waited for, exactly one while the status says that
    one runs; an idle server has no child left to reap; and the argument block
    of the waiting coroutine is released exactly once. *)
Theorem save_single_child L es x a x' a' :
  save_status x = SAVE_STATUS_IDLE -> kvs_save_child_pid x = 0 -> sv_waiters x = [] -> al_inv a -> al_live a = L ->
  save_steps (x, a) es (x', a') ->
  al_live a' = list_to_set (sv_waiters x') ∪ L /\ (length (sv_waiters x') <= 1)%nat /\
  (save_status x' = SAVE_STATUS_RUNNING <-> sv_waiters x' <> []) /\
  (save_status x' = SAVE_STATUS_IDLE -> kvs_save_child_pid x' = 0).
Proof.
  intros Hs Hc Hw Hi Hl Hr. assert (H0 : save_inv L (x, a)).
  { split; [done |]. cbn. rewrite Hw, Hs, Hl. split; [set_solver | done]. }
  destruct (save_steps_inv L _ _ _ H0 Hr) as (_ & Hl' & Hst). cbn in *. split; [done |].
  destruct (save_status x'); [destruct Hst as [-> ->] | destruct Hst as (p & -> & _) | rewrite Hst]; cbn; split; try lia; try done; split; done.
Qed.

(** C34: a request that arrived while a child was running is not lost: when the
    child ends well and the next fork succeeds, a new child is started at once
    and nothing stays pending. *)
Theorem save_pending_restarts x a arg env envs p a1 :
  save_status x = SAVE_STATUS_RUNNING -> 0 < kvs_save_child_pid x -> sv_env x = env :: envs -> fe_pair env = true -> 0 <= fe_pid env ->
  kvs_malloc 4 a = (Some p, a1) ->
  exists x' a', kvs_save_child_done arg 1 48 (kvs_save_child_pid x) true (kvs_save_write 1 x a).1.2 (kvs_save_write 1 x a).2 = (x', a') /\
    (kvs_save_write 1 x a).1.1 = 1 /\ save_status x' = SAVE_STATUS_RUNNING /\ kvs_save_child_pid x' = fe_pid env /\ is_save_pending x' = 0.
Proof.
  intros Hs Hc He Hpair Hpid Hm. destruct x as [st pid pend ws envs']. cbn in Hs, Hc, He. subst st envs'.
  unfold kvs_save_write, kvs_save_child_done, kvs_fork_save_child, next_env, with_pending, with_status, with_child, with_waiters.
  cbn [Z.eqb fst snd save_status kvs_save_child_pid is_save_pending sv_waiters sv_env andb Pos.eqb]. rewrite Z.eqb_refl.
  cbn [fst snd save_status kvs_save_child_pid is_save_pending sv_waiters sv_env andb]. rewrite bool_decide_true by done.
  cbn. rewrite Hpair. cbn. rewrite (proj2 (Z.ltb_ge (fe_pid env) 0)), Hm by lia. cbn. eexists _, _. done.
Qed.

(** Once a save child failed the status is an error for good: every later
    request answers -1, no child is started, and a request that was pending is
    forgotten. *)
Theorem save_error_sticky L es x a x' a' :
  save_inv L (x, a) -> save_status x = SAVE_STATUS_ERROR -> save_steps (x, a) es (x', a') ->
  (x', a') = (x, a) /\ Forall (fun e => e = SaveRequest (-1)) es.
Proof.
  intros (_ & _ & Hst) Hs Hr. cbn in Hst. rewrite Hs in Hst. remember (x, a) as s eqn:Es. remember (x', a') as s' eqn:Es'.
  assert (Hall : s' = s /\ Forall (fun e => e = SaveRequest (-1)) es); [| by subst].
  assert (H1 : save_status s.1 = SAVE_STATUS_ERROR) by (by subst). assert (H2 : sv_waiters s.1 = []) by (by subst). clear Es Es' Hs Hst.
  induction Hr as [| s e s1 es s2 Hstep _ IH]; [done |]. destruct (error_step _ _ _ H1 H2 Hstep) as [-> ->].
  destruct (IH H1 H2) as [-> Hf]. split; [done | by constructor].
Qed.

End Status.

(** ** Instances *)

Definition demo_save_env : list fork_env := [ForkEnv true 77; ForkEnv true 78].
Definition demo_save_idle : save_state := SaveState SAVE_STATUS_IDLE 0 0 [] demo_save_env.

Lemma save_single_child_witness : exists x' a',
  save_steps (demo_save_idle, Bump.start None) [SaveRequest 0; SaveRequest 1; ChildDone 16 1 48 77 true] (x', a') /\ sv_waiters x' <> [].
Proof.
  eexists _, _. assert (Hr : save_steps (demo_save_idle, Bump.start None) [SaveRequest 0; SaveRequest 1; ChildDone 16 1 48 77 true]
    (SaveState SAVE_STATUS_RUNNING 78 0 [32] [], (kvs_save_child_done (A := Bump.t) 16 1 48 77 true
       (SaveState SAVE_STATUS_RUNNING 77 1 [16] [ForkEnv true 78]) (kvs_save_write 1 demo_save_idle (Bump.start None)).2).2)).
  { econstructor; [by constructor |]. econstructor; [by constructor |].
    econstructor; [constructor; [cbn; set_solver |]; reflexivity | constructor]. }
  split; [exact Hr |].
  destruct (save_single_child ∅ _ demo_save_idle (Bump.start None) _ _ eq_refl eq_refl eq_refl ltac:(exact (Bump.start_inv None)) eq_refl Hr)
    as (_ & _ & [Hiff _] & _).
  exact (Hiff eq_refl).
Defined.

Lemma save_pending_restarts_witness : exists x' a',
  kvs_save_child_done (A := Bump.t) 16 1 48 77 true
    (kvs_save_write 1 (SaveState SAVE_STATUS_RUNNING 77 0 [16] [ForkEnv true 78]) (Bump.start None)).1.2 (Bump.start None) = (x', a') /\
  save_status x' = SAVE_STATUS_RUNNING.
Proof.
  destruct (save_pending_restarts (A := Bump.t) (SaveState SAVE_STATUS_RUNNING 77 0 [16] [ForkEnv true 78]) (Bump.start None) 16 (ForkEnv true 78) []
    16 (Bump.malloc 4 (Bump.start None)).2) as (x' & a' & H1 & _ & H2 & _);
    [reflexivity | cbn; lia | reflexivity | reflexivity | cbn; lia | reflexivity |].
  exists x', a'. split; [exact H1 | exact H2].
Defined.

Lemma save_error_sticky_witness : exists x' a',
  save_steps (A := Bump.t) (SaveState SAVE_STATUS_ERROR 0 1 [] demo_save_env, Bump.start None) [SaveRequest (-1)] (x', a') /\
  Forall (fun e => e = SaveRequest (-1)) [SaveRequest (-1)].
Proof.
  assert (Hr : save_steps (A := Bump.t) (SaveState SAVE_STATUS_ERROR 0 1 [] demo_save_env, Bump.start None) [SaveRequest (-1)]
    (SaveState SAVE_STATUS_ERROR 0 1 [] demo_save_env, Bump.start None)) by (econstructor; [by constructor | constructor]).
  exists (SaveState SAVE_STATUS_ERROR 0 1 [] demo_save_env), (Bump.start None). split; [exact Hr |].
  destruct (save_error_sticky ∅ _ (SaveState SAVE_STATUS_ERROR 0 1 [] demo_save_env) (Bump.start None) _ _
    ltac:(split; [exact (Bump.start_inv None) | split; [reflexivity | reflexivity]]) eq_refl Hr) as [_ Hf].
  exact Hf.
Defined.
