(* ===== verification/Net.v ===== *)
(** * Net: sockets and the one-command messages of the replication

    A connected socket is an oracle: what the next calls of [recv] and [send]
    answer, and the bytes sent so far. [kvs_send_single_command] and
    [kvs_recv_single_command] of kvs_protocol.c exchange a frame over it. *)

From S2P Require Import Prelude CLib Alloc Protocol Engine.

(** [sk_in]: what successive [recv] calls find, [None] for an error; the
    peer has closed when nothing is left. [sk_send]: what the next [send]
    calls return: a positive number is how much they take at most, the others
    are errors; they take everything when the list is empty. *)
Record sock := Sock { sk_in : list (option (list Z)); sk_out : list Z; sk_send : list Z }.

(** [recv(fd, buf, n, 0)]: the result and the bytes. *)
Definition sock_recv (n : Z) (s : sock) : Z * list Z * sock :=
  match sk_in s with
  | [] => (0, [], s)
  | None :: cs => (-1, [], Sock cs (sk_out s) (sk_send s))
  | Some c :: cs =>
      let got := take (Z.to_nat n) c in
      (zlen got, got,
       Sock (if zlen c <=? n then cs else Some (drop (Z.to_nat n) c) :: cs) (sk_out s) (sk_send s))
  end.

(** [send(fd, data, len, 0)] *)
Definition sock_send (data : list Z) (s : sock) : Z * sock :=
  match sk_send s with
  | [] => (zlen data, Sock (sk_in s) (sk_out s ++ data) [])
  | r :: rs =>
      let taken := take (Z.to_nat r) data in
      (if r <=? 0 then r else zlen taken, Sock (sk_in s) (sk_out s ++ taken) rs)
  end.

Section Messages.
Context {A : Type} `{Allocator A}.

(** [kvs_send_single_command] *)
Definition kvs_send_single_command (sockfd : Z) (cmd : cptr) (s : sock) (a : A) : res (Z * sock * A) :=
  if sockfd <? 0 then Ok (-1, s, a) else
  match cmd with
  | None => Ok (-1, s, a)
  | Some c =>
      '(msg, a) ← kvs_build_kvsp_frame [Some c] a;
      match msg with
      | None => Ok (-2, s, a)
      | Some (buf, msg_len) =>
          if msg_len <=? 0 then Ok (-2, s, a) else
          data ← rd_range (b_str buf) 0 msg_len;
          let '(n, s) := sock_send data s in
          let a := kvs_free (b_addr buf) a in
          if negb (n =? msg_len) then Ok (-2, s, a) else Ok (0, s, a)
      end
  end.

(** [kvs_recv_single_command] into a zero-filled buffer of [buf_size] bytes:
    the result and the tokens. *)
Definition kvs_recv_single_command (sockfd buf_size : Z) (s : sock) : res (Z * list (list Z) * sock) :=
  if (sockfd <? 0) || (buf_size =? 0) then Ok (-1, [], s) else
  let '(n, got, s) := sock_recv buf_size s in
  if n <=? 0 then Ok (-2, [], s) else
  buf ← wr_range (replicate (Z.to_nat buf_size) 0) 0 got;
  '(total_len, head_len) ← kvsp_parse_bulk_size buf n 0;
  if total_len <=? 0 then Ok (-2, [], s) else
  let cli := ClientInfo 0 0 buf 0 0 total_len head_len 0 [] 0 0 0 PROTO_KVSP None in
  '(count, cli, toks) ← kvs_split_token cli;
  if count <? 0 then Ok (-2, [], s) else
  ts ← mapM (rd_cstr (rbuf cli)) toks;
  Ok (count, ts, s).

End Messages.
