(* ===== verification/Server.v ===== *)
(** * Server: the coroutine server (kvs-server/ntyco.c)

    [client_info_init] sets a connection up; [server_reader] is the body of
    the coroutine that serves it: it receives, frames, hands every complete
    request to the handler, keeps the rest for the next round and sends the
    replies. The coroutine library is a dependency: between two of its calls
    nothing else runs. *)

From S2P Require Import Prelude CLib Alloc Protocol Engine Log Store Net.

(** [BUFFER_SIZE] of ntyco.c *)
Definition SERVER_BUFFER_SIZE : Z := 4 * 1024.

Definition KVS_ERR_PROTO_LEN : Z := 22.

(** [sizeof(client_info)] *)
Definition SIZEOF_CLIENT_INFO : Z := 64.

Definition ERR_PROTO : list Z := BS "-ERR protocol error" ++ CRLF.

Section Init.
Context {A : Type} `{Allocator A}.

(** [client_info_init]: the address of the block and its contents. *)
Definition client_info_init (fd : Z) (a : A) : option (Z * client_info) * A :=
  match kvs_malloc SIZEOF_CLIENT_INFO a with
  | (None, a) => (None, a)
  | (Some p, a) =>
      match kvs_malloc (SERVER_BUFFER_SIZE + 1) a with
      | (None, a) => (None, kvs_free p a)
      | (Some rp, a) =>
          match kvs_malloc (SERVER_BUFFER_SIZE + 1) a with
          | (None, a) => (None, kvs_free p (kvs_free rp a))
          | (Some wp, a) =>
              let zeros := replicate (Z.to_nat (SERVER_BUFFER_SIZE + 1)) 0 in
              (Some (p, ClientInfo fd rp zeros SERVER_BUFFER_SIZE 0 0 0 wp zeros SERVER_BUFFER_SIZE 0 0 PROTO_UNKNOWN None), a)
          end
      end
  end.

(** The label [cleanup] of [server_reader] and [echo_server]. *)
Definition client_cleanup (cli_p : Z) (cli : client_info) (a : A) : A :=
  kvs_free cli_p (kvs_free (wbuf_p cli) (kvs_free (rbuf_p cli) a)).

End Init.

Section Reader.
Context {A S : Type} `{Allocator A} (kvs_handler : msg_handler A S).

(** How a part of the loop ends: it goes on, or it jumps to [cleanup]. *)
Inductive flow := Continue | Cleanup.

(** The received bytes are appended to the receive buffer, which is doubled
    when it is too small. *)
Definition reader_append (got : list Z) (cli : client_info) (a : A) : res (option client_info * A) :=
  let ret := zlen got in
  if r_cap cli <=? r_pos cli + ret then
    if INT_MAX <? 2 * r_cap cli + 1 then Undef else
    '(temp, a) ← kvs_realloc (rbuf_p cli) (2 * r_cap cli + 1) a;
    match temp with
    | None => Ok (None, a)
    | Some p =>
        let cli := set_rblock p (resize (rbuf cli) (granted p (2 * r_cap cli + 1) a)) (r_cap cli * 2) cli in
        b ← wr_range (rbuf cli) (r_pos cli) got;
        Ok (Some (set_r_pos (r_pos cli + ret) (set_rbuf b cli)), a)
    end
  else
    b ← wr_range (rbuf cli) (r_pos cli) got;
    Ok (Some (set_r_pos (r_pos cli + ret) (set_rbuf b cli)), a).

(** The error reply to a malformed request. *)
Definition reader_error (cli : client_info) (sk : sock) (a : A) : res (client_info * sock * A) :=
  '(room, a) ←
    (if w_cap cli - w_pos cli <? KVS_ERR_PROTO_LEN then
       if INT_MAX <? w_cap cli + 23 then Undef else
       '(temp, a) ← kvs_realloc (wbuf_p cli) (w_cap cli + 23) a;
       match temp with
       | None => Ok (None, a)
       | Some p =>
           Ok (Some (set_wblock p (resize (wbuf cli) (granted p (w_cap cli + 23) a)) (w_cap cli + KVS_ERR_PROTO_LEN) cli), a)
       end
     else Ok (Some cli, a));
  match room with
  | None => Ok (cli, sk, a)
  | Some cli =>
      '(len, cli) ← put_reply ERR_PROTO cli;
      data ← rd_range (wbuf cli) (w_pos cli) len;
      let '(_, sk) := sock_send data sk in
      Ok (cli, sk, a)
  end.

(** [while (cli_info->r_pos > 0)]: the complete requests of the receive
    buffer, one after the other. *)
Fixpoint reader_requests (fuel : nat) (cli : client_info) (sk : sock) (s : S) (a : A)
    : res (flow * client_info * sock * S * A) :=
  if negb (0 <? r_pos cli) then Ok (Continue, cli, sk, s, a) else
  match fuel with
  | O => NoFuel
  | Datatypes.S fuel =>
      match recv_protocol cli with
      | None => Ok (Cleanup, cli, sk, s, a)
      | Some parse =>
          '(total_len, head_len) ← parse (rbuf cli) (r_pos cli) 0;
          if total_len =? 0 then Ok (Continue, cli, sk, s, a) else
          if total_len <? 0 then
            '(cli, sk, a) ← reader_error cli sk a; Ok (Cleanup, cli, sk, s, a)
          else
            let cli := set_cmd total_len head_len cli in
            temp ← rd (rbuf cli) total_len;
            b ← wr (rbuf cli) total_len 0;
            '(slen, cli, s, a) ← kvs_handler (set_rbuf b cli) s a;
            b ← wr (rbuf cli) total_len temp;
            let cli := set_rbuf b cli in
            if slen <? 0 then Ok (Cleanup, cli, sk, s, a) else
            let cli := set_w_pos (w_pos cli + slen) cli in
            let cli := set_r_pos (r_pos cli - total_len) cli in
            if 0 <? r_pos cli then
              rest ← rd_range (rbuf cli) total_len (r_pos cli);
              b ← wr_range (rbuf cli) 0 rest;
              reader_requests fuel (set_rbuf b cli) sk s a
            else reader_requests fuel cli sk s a
      end
  end.

(** [while (cli_info->w_pos - sent > 0)] *)
Fixpoint reader_send (fuel : nat) (sent : Z) (cli : client_info) (sk : sock) : res (flow * sock) :=
  if negb (0 <? w_pos cli - sent) then Ok (Continue, sk) else
  match fuel with
  | O => NoFuel
  | Datatypes.S fuel =>
      data ← rd_range (wbuf cli) sent (w_pos cli - sent);
      let '(ret, sk) := sock_send data sk in
      if ret <=? 0 then Ok (Cleanup, sk) else reader_send fuel (sent + ret) cli sk
  end.

(** One round of [server_reader] after [recv] returned the bytes [got]. *)
Definition reader_round (got : list Z) (cli : client_info) (sk : sock) (s : S) (a : A)
    : res (flow * client_info * sock * S * A) :=
  '(room, a) ← reader_append got cli a;
  match room with
  | None => Ok (Cleanup, cli, sk, s, a)
  | Some cli =>
      '(dp_ret, cli) ←
        (if bool_decide (protocol cli = PROTO_UNKNOWN) then kvs_detect_protocol cli else Ok (0, cli));
      if dp_ret <? 0 then Ok (Cleanup, cli, sk, s, a) else
      if 0 <? dp_ret then Ok (Continue, cli, sk, s, a) else
      '(f, cli, sk, s, a) ← reader_requests (Datatypes.S (Z.to_nat (r_pos cli))) cli sk s a;
      match f with
      | Cleanup => Ok (Cleanup, cli, sk, s, a)
      | Continue =>
          if role cli =? 1 then Ok (Continue, set_w_pos 0 cli, sk, s, a) else
          '(f, sk) ← reader_send (Z.to_nat (w_pos cli)) 0 cli sk;
          match f with
          | Cleanup => Ok (Cleanup, cli, sk, s, a)
          | Continue => Ok (Continue, set_w_pos 0 cli, sk, s, a)
          end
      end
  end.

(** [server_reader]; [fuel] bounds the number of calls of [recv]. *)
Fixpoint server_reader (fuel : nat) (cli_p : Z) (cli : client_info) (sk : sock) (s : S) (a : A)
    : res (sock * S * A) :=
  match fuel with
  | O => NoFuel
  | Datatypes.S fuel =>
      let '(ret, got, sk) := sock_recv SERVER_BUFFER_SIZE sk in
      if ret <=? 0 then Ok (sk, s, client_cleanup cli_p cli a) else
      '(f, cli, sk, s, a) ← reader_round got cli sk s a;
      match f with
      | Cleanup => Ok (sk, s, client_cleanup cli_p cli a)
      | Continue => server_reader fuel cli_p cli sk s a
      end
  end.

(** [echo_server] *)
Fixpoint echo_server (fuel : nat) (cli_p : Z) (cli : client_info) (sk : sock) (a : A) : res (sock * A) :=
  match fuel with
  | O => NoFuel
  | Datatypes.S fuel =>
      let '(ret, got, sk) := sock_recv 1024 sk in
      if 0 <? ret then
        b ← wr_range (rbuf cli) 0 got;
        let cli := set_rbuf b cli in
        data ← rd_range (rbuf cli) 0 ret;
        let '(ret, sk) := sock_send data sk in
        if ret =? -1 then Ok (sk, client_cleanup cli_p cli a) else echo_server fuel cli_p cli sk a
      else Ok (sk, client_cleanup cli_p cli a)
  end.

(** The body of the accept loop of [server]: the connection is set up and its
    coroutine started, here run to its end; without memory the loop ends. *)
Definition server (cli_fd : Z) (fuel : nat) (sk : sock) (s : S) (a : A) : res (flow * sock * S * A) :=
  match client_info_init cli_fd a with
  | (None, a) => Ok (Cleanup, sk, s, a)
  | (Some (cli_p, cli), a) =>
      '(sk, s, a) ← server_reader fuel cli_p cli sk s a; Ok (Continue, sk, s, a)
  end.

End Reader.
