(* ===== verification/RequestFacts.v ===== *)
(** * RequestFacts: a framed request, from the bytes to the reply

    [protocol_run]: [kvs_protocol] on a receive buffer that starts with the
    frame of an engine request. The abstract store is one finite map per
    engine, [db_step] a request on it. *)

From S2P Require Import Prelude CLib Alloc Protocol ProtocolFacts Engine Owner Uring Log LogFacts Store StoreFacts.

(** A request: the engine and the operation. *)
Definition request : Type := engine_id * eop.
Definition tokens_of (q : request) : list (list Z) := op_tokens q.1 q.2.

(** The abstract store and its requests; [full] and [absent] are what the
    engines answer when they are full and for the deletion of an absent key. *)
Section Abstract.
Context (full : engine_id -> kvmap -> bool) (absent : engine_id -> Z).

Definition db_step (q : request) (x : eout) (d d' : engine_id -> kvmap) : Prop :=
  abs_step False (full q.1) (absent q.1) (d q.1) q.2 x (d' q.1) /\ forall e, e <> q.1 -> d' e = d e.

Inductive db_run : list request -> list eout -> (engine_id -> kvmap) -> (engine_id -> kvmap) -> Prop :=
| db_nil d : db_run [] [] d d
| db_cons q x d d1 qs xs d2 : db_step q x d d1 -> db_run qs xs d1 d2 -> db_run (q :: qs) (x :: xs) d d2.

End Abstract.

(** The bytes of the reply. *)
Definition reply_of (q : request) (x : eout) : list Z := reply_text (result_of q.2 x).

Definition replies (qs : list request) (xs : list eout) : list Z := mjoin (zip_with reply_of qs xs).

(** Requests whose arguments are C strings and whose frame fits. *)
Definition request_ok (q : request) : Prop :=
  Forall nul_free (op_args q.2) /\ frame_fits (tokens_of q).

Lemma tokens_nul_free q : request_ok q -> Forall nul_free (tokens_of q).
Proof.
  intros [Hargs _]. constructor; [| done].
  destruct q as [[] []]; cbn; repeat constructor; vm_compute; congruence.
Qed.

Lemma tokens_count q : zlen (tokens_of q) <= KVS_MAX_TOKENS.
Proof. destruct q as [e []]; vm_compute; congruence. Qed.

Section Request.
Context {A TA TR TH TL X : Type} `{AL : AllocatorLaws A} `{TOT : !AllocatorTotal A}.
Context `{EA : !Engine A TA} `{ER : !Engine A TR} `{EH : !Engine A TH} `{EL : !Engine A TL}.
Context `{LA : !EngineLaws A TA} `{LR : !EngineLaws A TR} `{LH : !EngineLaws A TH} `{LL : !EngineLaws A TL}.
Notation engines := (engines TA TR TH TL).
Notation store := (store TA TR TH TL X).
Context `{MX : !Modules A engines X} `{ML : !ModulesLaws A engines X}.

Definition db_full_of : engine_id -> kvmap -> bool := db_full (TA := TA) (TR := TR) (TH := TH) (TL := TL).
Definition db_absent_of : engine_id -> Z := db_absent (TA := TA) (TR := TR) (TH := TH) (TL := TL).

(** The log and the replication saw [ts] if the request was a successful
    write outside recovery. *)
Definition recorded (q : request) (x : eout) (st st' : store) : Prop :=
  if is_write q.2 x && (is_recovering st =? 0)
  then exists c, propagated (tokens_of q) c st st' else mods st' = mods st.

Lemma protocol_run q extra st others cli a :
  request_ok q -> store_wf st ({[wbuf_p cli]} :: others) a -> cli_wf cli ->
  request_fits q.2 (db (eng st) q.1) (w_cap cli) ->
  rbuf cli = kvsp_frame (tokens_of q) ++ 0 :: extra -> protocol cli = PROTO_KVSP ->
  cmd_tl cli = zlen (kvsp_frame (tokens_of q)) -> cmd_hl cli = zlen (fmt_head (zlen (kvsp_body (tokens_of q)))) ->
  exists x b cli' st' a',
    kvs_protocol cli st a = Ok (zlen (reply_of q x), cli', st', a') /\
    db_step db_full_of db_absent_of q x (db (eng st)) (db (eng st')) /\
    is_recovering st' = is_recovering st /\ recorded q x st st' /\
    same_outside (cmd_hl cli) (cmd_tl cli) (rbuf cli) b /\ replied (reply_of q x) (set_rbuf b cli) cli' /\
    store_wf st' ({[wbuf_p cli']} :: others) a' /\
    store_frame st ({[wbuf_p cli]} :: others) a st' ({[wbuf_p cli']} :: others) a'.
Proof.
  intros Hq Hwf Hc Hreq Hr Hp Htl Hhl. pose proof Hq as [Hargs Hfit].
  destruct (kvsp_split_frame (tokens_of q) (0 :: extra) cli) as (b & toks & Hs & Hm & Hso);
    [by apply tokens_nul_free | apply tokens_count | done | done | destruct Hfit; lia | done | done |].
  unfold kvs_protocol. rewrite Hs. run.
  rewrite (proj2 (Z.ltb_ge _ 0)) by apply zlen_nonneg. cbn [rbuf set_rbuf]. rewrite Hm. run.
  assert (Hc' : cli_wf (set_rbuf b cli)) by (destruct Hc; by split).
  destruct (request_run q.1 q.2 [] st others (set_rbuf b cli) a) as (x & cli' & st' & a' & Hrun & Habs & Hoth & Hrec & Hrep & Hprop & Hwf' & Hf');
    [done | done | by rewrite app_nil_r | done |].
  rewrite app_nil_r in Hrun, Hprop. exists x, b, cli', st', a'. split; [exact Hrun |]. split; [by split |].
  split; [done |]. split; [exact Hprop |]. split; [done |]. done.
Qed.

(** A sequence of requests, each answered and recorded. *)
Inductive store_run : list request -> list eout -> store -> store -> Prop :=
| run_nil st : store_run [] [] st st
| run_cons q x st st1 qs xs st2 :
    db_step db_full_of db_absent_of q x (db (eng st)) (db (eng st1)) -> is_recovering st1 = is_recovering st ->
    recorded q x st st1 -> store_run qs xs st1 st2 -> store_run (q :: qs) (x :: xs) st st2.

Lemma store_run_app qs xs st st1 qs' xs' st2 :
  store_run qs xs st st1 -> store_run qs' xs' st1 st2 -> store_run (qs ++ qs') (xs ++ xs') st st2.
Proof. induction 1; [done |]. intros Hr. econstructor; eauto. Qed.

Lemma store_run_length qs xs st st' : store_run qs xs st st' -> length qs = length xs.
Proof. induction 1; cbn; congruence. Qed.

Lemma store_run_take n qs xs st st' :
  store_run qs xs st st' -> exists stn, store_run (take n qs) (take n xs) st stn /\
    store_run (drop n qs) (drop n xs) stn st'.
Proof.
  intros Hr. revert n. induction Hr as [st | q x st st1 qs xs st2 H1 H2 H3 H4 IH]; intros [| n]; cbn.
  - exists st. split; constructor.
  - exists st. split; constructor.
  - exists st. split; [constructor |]. by econstructor.
  - destruct (IH n) as (stn & Ha & Hb). exists stn. split; [by econstructor | done].
Qed.

(** The contents follow the abstract store. *)
Lemma store_run_db qs xs st st' :
  store_run qs xs st st' -> db_run db_full_of db_absent_of qs xs (db (eng st)) (db (eng st')).
Proof. induction 1; econstructor; eauto. Qed.

(** The store as the owner of its blocks. *)
Definition store_blocks (st : store) : list (gset Z) := owners (eng st) (mods st) [].
Definition store_good (st : store) : Prop := eng_inv (eng st) /\ m_inv (mods st).

Lemma store_state st rest a : store_wf st rest a <-> state_wf store_good store_blocks st rest a.
Proof. unfold store_wf, state_wf, store_good. tauto. Qed.

Lemma store_state_frame st rest a st' rest' a' :
  store_frame st rest a st' rest' a' <-> state_frame store_blocks st rest a st' rest' a'.
Proof. done. Qed.

End Request.

(** *** Sizes of values and replies *)

Definition values_below (V : Z) (d : engine_id -> kvmap) : Prop := forall e k v, d e !! k = Some v -> zlen v <= V.

Definition op_below (V : Z) (o : eop) : Prop :=
  match o with OpSet _ v | OpMod _ v => zlen v <= V | _ => True end.

Lemma abs_step_below full absent V m o x m' :
  abs_step False full absent m o x m' -> op_below V o -> (forall k v, m !! k = Some v -> zlen v <= V) ->
  forall k v, m' !! k = Some v -> zlen v <= V.
Proof.
  intros Hs Ho Hm. destruct Hs as [k v r m' Hs | k | k r m' Hs | k v r m' Hs | k r | o k v r [] _ _]; intros k1 v1 H1; eauto.
  - destruct Hs; eauto; destruct (decide (k = k1)) as [-> |]; simplify_map_eq; eauto.
  - destruct Hs; eauto; destruct (decide (k = k1)) as [-> |]; simplify_map_eq; eauto.
  - destruct Hs; eauto; destruct (decide (k = k1)) as [-> |]; simplify_map_eq; eauto.
Qed.

Lemma db_step_below full absent V q x d d' :
  db_step full absent q x d d' -> op_below V q.2 -> values_below V d -> values_below V d'.
Proof.
  intros [Hs Ho] Hq Hd e k v Hk. destruct (decide (e = q.1)) as [-> | Hne].
  - eapply abs_step_below; [exact Hs | exact Hq | apply Hd | exact Hk].
  - rewrite Ho in Hk by done. by eapply Hd.
Qed.

Lemma reply_length full absent V q x d d' :
  db_step full absent q x d d' -> values_below V d -> 0 <= V < 10 ^ 9 -> 0 <= zlen (reply_of q x) <= V + 32.
Proof.
  intros [Hs _] Hd HV. split; [apply zlen_nonneg |]. unfold reply_of. destruct q as [e o]. cbn [fst snd] in *.
  destruct Hs as [k v r m' Hs | k | k r m' Hs | k v r m' Hs | k r | o k v r [] _ _]; cbn [result_of];
    unfold changed, answered, valued, reply_set, reply_change, reply_exist; unfold reply_text; cbn [c_reply c_value].
  all: try (repeat case_match; vm_compute zlen; lia).
  all: try (repeat case_match; cbn; lia).
  destruct (d e !! k) as [v |] eqn:Hk; cbn [c_reply c_value reply_get]; [| vm_compute zlen; lia].
  rewrite value_text_len. pose proof (Hd e k v Hk). pose proof (zlen_nonneg v).
  pose proof (dec_length_9 (zlen v) ltac:(lia)). lia.
Qed.
