(* ===== verification/ServerFacts.v ===== *)
(** * ServerFacts: the server answers a stream of requests in order

    [reader_stream]: however the bytes of a list of KVSP requests are cut into
    segments, the coroutine of the connection answers every request, in order,
    as the abstract store does, never writes outside its buffers, and returns
    every block when the peer closes. *)

From S2P Require Import Prelude CLib Alloc Protocol ProtocolFacts Engine Owner Uring Log LogFacts Store StoreFacts RequestFacts Net Server.

(** The connection between two requests: [q] are the bytes received and not
    consumed. *)
Record reader_wf (cli : client_info) (q : list Z) : Prop := {
  rw_cli : cli_wf cli;
  rw_buf : exists stale, rbuf cli = q ++ stale;
  rw_pos : r_pos cli = zlen q;
  rw_cap : r_pos cli < r_cap cli;
  rw_len : r_cap cli + 1 <= zlen (rbuf cli)
}.

(** *** Lists *)

(** A buffer that agrees with [F ++ 0 :: ext] from [length F] on. *)
Lemma same_tail (F ext b : list Z) hl :
  same_outside hl (zlen F) (F ++ 0 :: ext) b -> exists F', b = F' ++ 0 :: ext /\ zlen F' = zlen F.
Proof.
  intros [Hl Hr]. exists (take (length F) b).
  assert (Hlen : (length F < length b)%nat) by (unfold zlen in Hl; rewrite length_app in Hl; cbn in Hl; lia).
  split; [| unfold zlen; rewrite length_take; lia].
  rewrite <- (take_drop (length F) b) at 1. f_equal. apply list_eq. intros i.
  rewrite lookup_drop. specialize (Hr (zlen F + Z.of_nat i) ltac:(lia)).
  rewrite rd_app_r in Hr by lia. replace (zlen F + Z.of_nat i - zlen F) with (Z.of_nat i) in Hr by lia.
  unfold rd in Hr. rewrite (proj2 (Z.ltb_ge (Z.of_nat i) 0)), (proj2 (Z.ltb_ge (zlen F + Z.of_nat i) 0)) in Hr
    by (pose proof (zlen_nonneg F); lia).
  rewrite Nat2Z.id in Hr. unfold zlen in Hr. rewrite <- Nat2Z.inj_add, Nat2Z.id in Hr.
  destruct (b !! (length F + i)%nat), ((0 :: ext) !! i); cbn in Hr; congruence.
Qed.

(** [memmove] of the rest to the front. *)
Lemma move_front (F rest stale : list Z) :
  exists stale', (r ← rd_range (F ++ rest ++ stale) (zlen F) (zlen rest); wr_range (F ++ rest ++ stale) 0 r)
    = Ok (rest ++ stale') /\ zlen (rest ++ stale') = zlen (F ++ rest ++ stale).
Proof.
  rewrite rd_range_app_mid. run. set (buf := F ++ rest ++ stale).
  assert (Hlen : zlen rest <= zlen buf).
  { unfold buf. rewrite !zlen_app. pose proof (zlen_nonneg F). pose proof (zlen_nonneg stale). lia. }
  pose proof (wr_range_app [] buf rest Hlen) as Hw. cbn [app] in Hw. change (zlen []) with 0 in Hw. rewrite Hw.
  eexists. split; [done |]. unfold zlen in *. rewrite length_app, length_drop. lia.
Qed.

Section Append.
Context {A S : Type} `{AL : AllocatorLaws A} `{TOT : !AllocatorTotal A}.
Context (P : S -> Prop) (own : S -> list (gset Z)).

Lemma wr_range_prefix (q stale got : list Z) :
  zlen got <= zlen stale -> exists stale', wr_range (q ++ stale) (zlen q) got = Ok ((q ++ got) ++ stale') /\
    zlen ((q ++ got) ++ stale') = zlen (q ++ stale).
Proof.
  intros Hl. rewrite wr_range_app by done. eexists. rewrite <- app_assoc. split; [done |].
  unfold zlen in *. rewrite !length_app, length_drop. lia.
Qed.

(** Receiving [got]: the buffer grows before it overflows. *)
Lemma reader_append_ok got cli q rest s a :
  reader_wf cli q -> 0 < zlen got <= SERVER_BUFFER_SIZE -> SERVER_BUFFER_SIZE <= r_cap cli ->
  2 * (zlen q + zlen got) < INT_MAX - 1 -> r_cap cli * 2 < INT_MAX ->
  state_wf P own s ({[wbuf_p cli]} :: {[rbuf_p cli]} :: rest) a ->
  exists cli' a', reader_append got cli a = Ok (Some cli', a') /\ reader_wf cli' (q ++ got) /\
    r_cap cli <= r_cap cli' <= Z.max (r_cap cli) (2 * (zlen q + zlen got)) /\
    (exists p b c n, cli' = set_r_pos n (set_rblock p b c cli)) /\
    state_wf P own s ({[wbuf_p cli']} :: {[rbuf_p cli']} :: rest) a' /\
    state_frame own s ({[wbuf_p cli]} :: {[rbuf_p cli]} :: rest) a s ({[wbuf_p cli']} :: {[rbuf_p cli']} :: rest) a'.
Proof.
  intros Hw Hg Hcap0 Hmax Hcm Hwf. pose proof Hw as [W1 (stale & W2) W3 W4 W5]. unfold reader_append.
  pose proof (zlen_nonneg q) as Hq0.
  destruct (Z.leb_spec (r_cap cli) (r_pos cli + zlen got)) as [Hgrow | Hfits].
  - rewrite (proj2 (Z.ltb_ge INT_MAX (2 * r_cap cli + 1))) by lia.
    pose proof (state_block_live P own s [_] (rbuf_p cli) rest a Hwf) as Hlive.
    destruct (realloc_total (rbuf_p cli) (2 * r_cap cli + 1) a (proj1 (proj2 Hwf)) Hlive ltac:(lia)) as (p & a' & Hr & Hgr).
    rewrite Hr. run. rewrite Hgr.
    destruct (realloc_some _ _ _ _ _ (proj1 (proj2 Hwf)) Hlive Hr) as (Hf & Hl & Hi).
    destruct (state_block P own s [_] (rbuf_p cli) rest a p a' Hwf Hi Hf Hl) as [Hwf' Hfr].
    assert (Hrs : exists st2, resize (rbuf cli) (2 * r_cap cli + 1) = q ++ st2).
    { unfold resize. rewrite W2, take_app_ge by (unfold zlen in *; lia). rewrite <- app_assoc. eauto. }
    destruct Hrs as [st2 Hrs]. assert (Hlen : zlen (q ++ st2) = 2 * r_cap cli + 1) by (rewrite <- Hrs; apply zlen_resize; lia).
    cbn [rbuf r_pos set_rblock]. rewrite Hrs, W3.
    destruct (wr_range_prefix q st2 got) as (st3 & -> & Hl3); [rewrite zlen_app in Hlen; lia |]. run.
    eexists _, a'. split; [done |]. split; [split; cbn; [by destruct W1 | eauto | rewrite zlen_app; lia | lia | lia] |].
    split; [cbn; lia |]. split; [eexists p, _, _, _; done | done].
  - rewrite W3, W2 in *. destruct (wr_range_prefix q stale got) as (st3 & -> & Hl3); [rewrite zlen_app in W5; lia |]. run.
    eexists _, a. split; [done |]. split; [split; cbn; [by destruct W1 | eauto | rewrite zlen_app; lia | lia | lia] |].
    split; [cbn; lia |]. split; [| done]. eexists (rbuf_p cli), _, (r_cap cli), _. done.
Qed.

End Append.

(** *** Prefixes of a stream of frames *)

Lemma prefix_cases (q rest f more : list Z) :
  q ++ rest = f ++ more -> 0 < zlen f ->
  (exists q', q = f ++ q' /\ q' ++ rest = more) \/ (zlen q < zlen f /\ q = take (length q) f).
Proof.
  intros Heq Hf. destruct (decide (length f <= length q)%nat) as [Hle | Hgt].
  - left. exists (drop (length f) q).
    assert (Ht : take (length f) q = f).
    { rewrite <- (take_app_le q rest) by done. rewrite Heq. apply take_app_length. }
    split; [by rewrite <- Ht at 1; rewrite take_drop |].
    rewrite <- (take_drop (length f) q), Ht, <- app_assoc in Heq. by apply app_inv_head in Heq.
  - right. split; [unfold zlen; lia |].
    rewrite <- (take_app_le f more) by lia. rewrite <- Heq. by rewrite take_app_length.
Qed.

(** *** The replies waiting in the write buffer *)

Definition pending (cli : client_info) (out : list Z) : Prop :=
  w_pos cli = zlen out /\ take (Z.to_nat (w_pos cli)) (wbuf cli) = out.

Lemma pending_grow cli cli' out text :
  pending cli out -> grown cli cli' -> rd_range (wbuf cli') (w_pos cli) (zlen text) = Ok text ->
  pending (set_w_pos (w_pos cli + zlen text) cli') (out ++ text).
Proof.
  intros [Hp Ht] [Hk _ _] Hr. unfold pending. cbn [w_pos wbuf set_w_pos]. split; [rewrite zlen_app; lia |].
  unfold rd_range in Hr. pose proof (zlen_nonneg out). pose proof (zlen_nonneg text).
  destruct (_ && _) eqn:Hb; [| done]. injection Hr as Hr.
  rewrite Z2Nat.inj_add by lia. rewrite take_add_app_drop || rewrite <- (take_drop (Z.to_nat (w_pos cli)) (wbuf cli')) at 1.
  rewrite Hk, Ht. assert (Hl : length out = Z.to_nat (w_pos cli)) by (unfold zlen in Hp; lia).
  rewrite take_app_ge by lia. f_equal. rewrite Hl. replace (_ + _ - _)%nat with (Z.to_nat (zlen text)) by lia. done.
Qed.

(** *** The loop over the requests of the receive buffer *)

Section Loop.
Context {A TA TR TH TL X : Type} `{AL : AllocatorLaws A} `{TOT : !AllocatorTotal A}.
Context `{EA : !Engine A TA} `{ER : !Engine A TR} `{EH : !Engine A TH} `{EL : !Engine A TL}.
Context `{LA : !EngineLaws A TA} `{LR : !EngineLaws A TR} `{LH : !EngineLaws A TH} `{LL : !EngineLaws A TL}.
Notation engines := (engines TA TR TH TL).
Notation store := (store TA TR TH TL X).
Context `{MX : !Modules A engines X} `{ML : !ModulesLaws A engines X}.

(** Bounds: [V] on the length of a value, [W] on the replies of a round. *)
Context (V W : Z) (HV : 0 <= V < 10 ^ 9) (HW : 2 * W + 4096 <= 2 ^ 29) (HWV : V + 64 <= W).

(** What does not change while the requests of a buffer are served. *)
Definition same_conn (cli cli' : client_info) : Prop :=
  rbuf_p cli' = rbuf_p cli /\ r_cap cli' = r_cap cli /\ role cli' = role cli /\
  protocol cli' = protocol cli /\ recv_protocol cli' = recv_protocol cli.

(** A request is served whole. *)
Definition served (q : request) (st st' : store) (x : eout) : Prop :=
  db_step (db_full_of (TA := TA) (TR := TR) (TH := TH) (TL := TL)) (db_absent_of (TA := TA) (TR := TR) (TH := TH) (TL := TL)) q x (db (eng st)) (db (eng st')) /\
  is_recovering st' = is_recovering st /\ recorded q x st st'.

Definition w_room (n : nat) (cli : client_info) : Prop :=
  w_pos cli + Z.of_nat n * (V + 32) <= W /\ w_cap cli <= Z.max SERVER_BUFFER_SIZE (2 * W + 64).

Definition starved (q : list Z) (reqs : list request) : Prop :=
  match reqs with [] => q = [] | r :: _ => zlen q < zlen (kvsp_frame (tokens_of r)) end.

(** One request at the front of the receive buffer: the body of the loop. *)
Lemma request_round r q cli sk st a others n fuel out :
  reader_wf cli (kvsp_frame (tokens_of r) ++ q) -> request_ok r -> op_below V r.2 -> values_below V (db (eng st)) ->
  w_room (Datatypes.S n) cli -> pending cli out -> protocol cli = PROTO_KVSP ->
  recv_protocol cli = Some kvsp_parse_bulk_size -> r_cap cli < INT_MAX ->
  store_wf st ({[wbuf_p cli]} :: others) a ->
  exists x cli' st' a', served r st st' x /\
    reader_requests kvs_protocol (Datatypes.S fuel) cli sk st a = reader_requests kvs_protocol fuel cli' sk st' a' /\
    reader_wf cli' q /\ w_room n cli' /\ pending cli' (out ++ reply_of r x) /\ same_conn cli cli' /\
    values_below V (db (eng st')) /\
    store_wf st' ({[wbuf_p cli']} :: others) a' /\
    store_frame st ({[wbuf_p cli]} :: others) a st' ({[wbuf_p cli']} :: others) a'.
Proof.
  intros Hw Hr Hb Hv [Hroom Hcap] Hpend Hproto Hrecv Hrcap Hwf. pose proof Hw as [W1 (stale & W2) W3 W4 W5].
  set (F := kvsp_frame (tokens_of r)) in *. pose proof (kvsp_frame_pos (tokens_of r)) as HF. fold F in HF.
  pose proof (zlen_nonneg q) as Hq0. rewrite zlen_app in W3. rewrite <- app_assoc in W2.
  cbn [reader_requests]. rewrite (proj2 (Z.ltb_lt 0 (r_pos cli))) by lia. run. rewrite Hrecv.
  rewrite W2. unfold F at 1. rewrite kvsp_parse_frame; [| destruct Hr as [_ [_ ?]]; lia | fold F; lia | fold F; rewrite W2 in W5; lia].
  fold F. run. rewrite (proj2 (Z.eqb_neq (zlen F) 0)), (proj2 (Z.ltb_ge (zlen F) 0)) by lia.
  set (hl := zlen (fmt_head _)). cbn [rbuf set_cmd]. rewrite W2.
  destruct (q ++ stale) as [| c ext] eqn:Hext.
  { exfalso. rewrite W2 in W5. rewrite app_nil_r in W5. lia. }
  rewrite rd_at. run. rewrite wr_app_mid. run. set (c0 := set_rbuf _ _).
  assert (Hc0 : cli_wf c0) by (destruct W1; by split).
  destruct (protocol_run r ext st others c0 a) as (x & b & c1 & st1 & a1 & -> & Hdb & Hrec & Hrcd & Hso & Hrep & Hwf1 & Hf1);
    [done | done | done | | done | done | done | done |].
  { change (w_cap c0) with (w_cap cli). unfold request_fits, INT_MAX, SERVER_BUFFER_SIZE in *. split; [lia |].
    intros k v _ Hk. specialize (Hv _ _ _ Hk). lia. }
  run. destruct (same_tail F ext b hl) as (F' & -> & HF'); [exact Hso |].
  destruct Hrep as (R1 & R2 & R3 & R4 & R5). pose proof (gr_eq _ _ R2) as Heq.
  pose proof (grown_rbuf _ _ R2) as Hrb. cbn [rbuf set_rbuf] in Hrb. rewrite Hrb, <- HF', wr_app_mid. run.
  rewrite (proj2 (Z.ltb_ge (zlen (reply_of r x)) 0)) by apply zlen_nonneg. rewrite <- Hext.
  pose proof (reply_length _ _ V _ _ _ _ Hdb Hv HV) as Hrl.
  set (c2 := set_r_pos _ _).
  assert (Hs2 : exists b', reader_requests kvs_protocol fuel (set_rbuf b' c2) sk st1 a1
     = (if 0 <? r_pos c2 then rest ← rd_range (rbuf c2) (zlen F') (r_pos c2); b ← wr_range (rbuf c2) 0 rest;
          reader_requests kvs_protocol fuel (set_rbuf b c2) sk st1 a1
        else reader_requests kvs_protocol fuel c2 sk st1 a1) /\
     (exists st', b' = q ++ st') /\ zlen b' = zlen (rbuf cli)).
  { assert (Hrp : r_pos c2 = zlen q) by (unfold c2; cbn; rewrite Heq; cbn; lia).
    assert (Hrbl : zlen (F' ++ q ++ stale) = zlen (rbuf cli)) by (rewrite W2, <- Hext, !zlen_app; lia).
    rewrite Hrp. change (rbuf c2) with (F' ++ q ++ stale). destruct (Z.ltb_spec 0 (zlen q)) as [Hpos | Hnil].
    - destruct (move_front F' q stale) as (st' & Hmv & Hl). exists (q ++ st').
      rewrite rd_range_app_mid in Hmv |- *. cbn [mbind res_bind] in Hmv |- *. rewrite Hmv. run.
      split; [done |]. split; [eauto | lia].
    - exists (F' ++ q ++ stale). destruct q; [| rewrite zlen_cons in *; pose proof (zlen_nonneg q); lia].
      split; [done |]. split; [by eexists | done]. }
  destruct Hs2 as (b' & <- & Hb' & Hlb'). exists x, (set_rbuf b' c2), st1, a1.
  assert (Hwp : w_pos c1 = w_pos cli) by (by rewrite Heq).
  split; [by split |]. split; [done |].
  split.
  { split; [| exact Hb' | | |].
    - destruct R1 as [Q1 Q2 Q3]. split; cbn; [done | | done]. change (w_pos (set_rbuf _ c0)) with (w_pos cli) in R3. lia.
    - cbn. rewrite Heq. cbn. lia.
    - cbn. rewrite Heq. cbn. lia.
    - cbn. rewrite Heq. cbn. lia. }
  split.
  { split; cbn; [rewrite Hwp; lia |]. cbn in R4. lia. }
  split.
  { pose proof (pending_grow (set_rbuf (F' ++ 0 :: ext) c0) c1 out (reply_of r x)) as Hpg.
    unfold pending in *. cbn in Hpg |- *. rewrite Hwp. apply Hpg; [done | done | done]. }
  split; [unfold same_conn; cbn; rewrite Heq; done |].
  split; [by eapply db_step_below |]. done.
Qed.

(** All complete requests of the buffer; what is left is the beginning of the
    next one. *)
Lemma requests_run reqs : forall q later cli sk st a others fuel out,
  reader_wf cli q -> q ++ later = frames (tokens_of <$> reqs) ->
  Forall request_ok reqs -> Forall (fun r => op_below V r.2) reqs -> values_below V (db (eng st)) ->
  w_room (length reqs) cli -> pending cli out -> protocol cli = PROTO_KVSP ->
  recv_protocol cli = Some kvsp_parse_bulk_size -> r_cap cli < INT_MAX -> (Z.to_nat (r_pos cli) < fuel)%nat ->
  store_wf st ({[wbuf_p cli]} :: others) a ->
  exists don rest xs q' cli' st' a', reqs = don ++ rest /\
    reader_requests kvs_protocol fuel cli sk st a = Ok (Continue, cli', sk, st', a') /\
    store_run don xs st st' /\ reader_wf cli' q' /\ q' ++ later = frames (tokens_of <$> rest) /\ starved q' rest /\
    pending cli' (out ++ replies don xs) /\ w_room (length rest) cli' /\ same_conn cli cli' /\
    values_below V (db (eng st')) /\ store_wf st' ({[wbuf_p cli']} :: others) a' /\
    store_frame st ({[wbuf_p cli]} :: others) a st' ({[wbuf_p cli']} :: others) a'.
Proof.
  induction reqs as [| r reqs IH]; intros q later cli sk st a others fuel out Hw Hq Hok Hlow Hv Hroom Hpend Hproto Hrecv Hrcap Hfuel Hwf;
    pose proof (rw_pos _ _ Hw) as Hpos.
  - cbn in Hq. apply app_eq_nil in Hq as [-> ->]. change (zlen []) with 0 in Hpos.
    exists [], [], [], [], cli, st, a. split; [done |]. split; [destruct fuel; cbn; by rewrite Hpos |].
    split; [constructor |]. do 3 (split; [done |]). unfold replies. cbn. rewrite app_nil_r. by do 4 (split; [done |]).
  - apply Forall_cons in Hok as [Hr Hok]. apply Forall_cons in Hlow as [Hl Hlow].
    change (frames (tokens_of <$> r :: reqs)) with (kvsp_frame (tokens_of r) ++ frames (tokens_of <$> reqs)) in Hq.
    pose proof (kvsp_frame_pos (tokens_of r)) as HF.
    destruct (prefix_cases _ _ _ _ Hq HF) as [(q1 & -> & Hq1) | [Hshort Htake]].
    + destruct fuel as [| fuel]; [lia |]. cbn [length] in Hroom.
      destruct (request_round r q1 cli sk st a others (length reqs) fuel out)
        as (x & c1 & st1 & a1 & (Hdb & Hrec & Hrcd) & -> & Hw1 & Hroom1 & Hp1 & Hc1 & Hv1 & Hwf1 & Hf1); [done.. |].
      pose proof (rw_pos _ _ Hw1) as Hpos1. destruct Hc1 as (E1 & E2 & E3 & E4 & E5). rewrite zlen_app in Hpos.
      destruct (IH q1 later c1 sk st1 a1 others fuel (out ++ reply_of r x)) as (don & rest & xs & q' & c' & st' & a' & -> & Hrun & Hst & H3);
        [done.. | congruence | congruence | lia | unfold zlen in *; lia | done |].
      exists (r :: don), rest, (x :: xs), q', c', st', a'. split; [done |]. split; [done |].
      split; [by econstructor |]. destruct H3 as (H3 & H4 & H5 & H6 & H7 & (F1 & F2 & F3 & F4 & F5) & H9 & H10 & H11).
      do 3 (split; [done |]). split; [by rewrite <- app_assoc in H6 |]. split; [done |].
      split; [unfold same_conn; by rewrite F1, F2, F3, F4, F5 |]. do 2 (split; [done |]). by eapply store_frame_trans.
    + exists [], (r :: reqs), [], q, cli, st, a. split; [done |]. split.
      { destruct fuel as [| fuel]; [lia |]. cbn [reader_requests].
        destruct (Z.ltb_spec 0 (r_pos cli)) as [Hp |]; [| done]. run. rewrite Hrecv.
        pose proof (rw_buf _ _ Hw) as [stale ->]. rewrite Htake at 1.
        destruct (kvsp_parse_partial (tokens_of r) stale (zlen q) 0) as [h Hh]; [destruct Hr as [_ [_ ?]]; lia | lia |].
        replace (Z.to_nat (zlen q)) with (length q) in Hh by (unfold zlen; lia). rewrite Hpos, Hh. done. }
      split; [constructor |]. do 3 (split; [done |]). unfold replies. cbn [zip_with mjoin list_join]. rewrite app_nil_r.
      by do 4 (split; [done |]).
Qed.

(** *** One round *)

Definition conn_ok (cli : client_info) : Prop :=
  protocol cli = PROTO_UNKNOWN \/ protocol cli = PROTO_KVSP /\ recv_protocol cli = Some kvsp_parse_bulk_size.

Lemma detect_kvsp cli q :
  reader_wf cli (35 :: q) -> kvs_detect_protocol cli = Ok (0, set_protocol PROTO_KVSP kvsp_parse_bulk_size cli).
Proof.
  intros [_ [stale Hb] Hp _ _]. unfold kvs_detect_protocol. rewrite zlen_cons in Hp. pose proof (zlen_nonneg q).
  rewrite (proj2 (Z.eqb_neq (r_pos cli) 0)) by lia. rewrite Hb.
  change (rd ((35 :: q) ++ stale) 0) with (Ok 35). run. change (35 =? 42) with false. cbv iota. unfold KVSP_START_STR_LEN.
  rewrite (proj2 (Z.ltb_ge (r_pos cli) 1)) by lia. unfold memeq, KVSP_START_STR.
  pose proof (rd_range_app_mid [] [35] (q ++ stale)) as Hr. cbn [app] in Hr |- *. change (zlen []) with 0 in Hr.
  change (BS "#") with [35]. rewrite Hr. done.
Qed.

(** Sends that take a part, one after the other, take everything. *)
Lemma send_rest cli fuel : forall out1 out2 sk,
  pending cli (out1 ++ out2) -> zlen (out1 ++ out2) <= zlen (wbuf cli) -> (length out2 <= fuel)%nat ->
  Forall (fun r => 0 < r) (sk_send sk) ->
  exists rs, rs `suffix_of` sk_send sk /\
    reader_send fuel (zlen out1) cli sk = Ok (Continue, Sock (sk_in sk) (sk_out sk ++ out2) rs).
Proof.
  induction fuel as [| fuel IH]; intros out1 out2 [i o sd] Hp Hl Hf Hs; pose proof Hp as [Hw Ht]; rewrite zlen_app in Hw;
    cbn [reader_send sk_send sk_in sk_out] in *.
  - destruct out2; [| cbn in Hf; lia]. exists sd. split; [done |]. change (zlen []) with 0 in Hw.
    rewrite (proj2 (Z.ltb_ge 0 _)) by lia. by rewrite app_nil_r.
  - destruct (Z.ltb_spec 0 (w_pos cli - zlen out1)) as [Hpos | Hpos]; cbn [negb].
    2: { assert (out2 = []) as -> by (destruct out2; [done | rewrite zlen_cons in *; pose proof (zlen_nonneg out2); lia]).
         exists sd. split; [done |]. by rewrite app_nil_r. }
    assert (Hrd : rd_range (wbuf cli) (zlen out1) (w_pos cli - zlen out1) = Ok out2).
    { replace (w_pos cli - zlen out1) with (zlen out2) by lia. pose proof (take_drop (Z.to_nat (w_pos cli)) (wbuf cli)) as Hb.
      rewrite Ht in Hb. rewrite <- Hb, <- app_assoc. apply rd_range_app_mid. }
    rewrite Hrd. run. destruct sd as [| r sd]; cbn [sock_send sk_send sk_in sk_out].
    + rewrite (proj2 (Z.leb_gt (zlen out2) 0)) by lia.
      destruct (IH (out1 ++ out2) [] (Sock i (o ++ out2) [])) as (rs & Hrs & E); [by rewrite app_nil_r | by rewrite app_nil_r | cbn; lia | done |].
      rewrite zlen_app in E. cbn [sk_in sk_out] in E. rewrite E, app_nil_r. exists rs. done.
    + inversion Hs as [| ? ? Hr Hs']; subst. rewrite (proj2 (Z.leb_gt r 0)) by lia.
      assert (Hne : (0 < length (take (Z.to_nat r) out2))%nat).
      { rewrite length_take. assert (0 < length out2)%nat by (unfold zlen in *; lia). lia. }
      rewrite (proj2 (Z.leb_gt (zlen (take (Z.to_nat r) out2)) 0)) by (unfold zlen; lia).
      destruct (IH (out1 ++ take (Z.to_nat r) out2) (drop (Z.to_nat r) out2) (Sock i (o ++ take (Z.to_nat r) out2) sd)) as (rs & Hrs & E).
      * by rewrite <- app_assoc, take_drop.
      * by rewrite <- app_assoc, take_drop.
      * rewrite length_drop. rewrite length_take in Hne. lia.
      * done.
      * rewrite zlen_app in E. cbn [sk_in sk_out] in E. rewrite E, <- app_assoc, take_drop. exists rs. split; [by apply suffix_cons_r | done].
Qed.

Lemma send_all cli sk out :
  pending cli out -> zlen out <= zlen (wbuf cli) -> Forall (fun r => 0 < r) (sk_send sk) ->
  exists rs, rs `suffix_of` sk_send sk /\
    reader_send (Z.to_nat (w_pos cli)) 0 cli sk = Ok (Continue, Sock (sk_in sk) (sk_out sk ++ out) rs).
Proof.
  intros Hp Hl Hs. apply (send_rest cli _ [] out sk); [done | done | | done]. destruct Hp as [-> _]. unfold zlen. lia.
Qed.

Lemma sends_left (rs sd : list Z) : rs `suffix_of` sd -> Forall (fun r => 0 < r) sd -> Forall (fun r => 0 < r) rs.
Proof. by intros [l ->] [_ Hr]%Forall_app. Qed.

(** [L] bounds the stream that is still to be served. *)
Context (L : Z) (HL : L <= 2 ^ 28).

Record conn_wf (cli : client_info) (q : list Z) (n : nat) : Prop := {
  cn_reader : reader_wf cli q;
  cn_proto : conn_ok cli;
  cn_pend : pending cli [];
  cn_room : w_room n cli;
  cn_rcap : SERVER_BUFFER_SIZE <= r_cap cli <= Z.max SERVER_BUFFER_SIZE (2 * L)
}.

(** What the peer reads: nothing when the peer is the master of this server. *)
Definition output (cli : client_info) (out : list Z) : list Z := if role cli =? 1 then [] else out.

Lemma frame_first ts : exists f, kvsp_frame ts = 35 :: f.
Proof. unfold kvsp_frame, fmt_head. by eexists. Qed.

Lemma stream_first q later reqs :
  q ++ later = frames (tokens_of <$> reqs) -> q <> [] -> exists q', q = 35 :: q'.
Proof.
  intros Hq Hne. destruct reqs as [| r reqs]; [by destruct q |].
  change (frames (tokens_of <$> r :: reqs)) with (kvsp_frame (tokens_of r) ++ frames (tokens_of <$> reqs)) in Hq.
  destruct (frame_first (tokens_of r)) as [f Hf]. rewrite Hf in Hq. destruct q as [| c q]; [done |].
  injection Hq as -> _. eauto.
Qed.

(** The protocol is known once the first bytes of a stream are there. *)
Lemma detect_ok cli q later reqs :
  reader_wf cli q -> conn_ok cli -> q ++ later = frames (tokens_of <$> reqs) -> q <> [] ->
  exists cli', (if bool_decide (protocol cli = PROTO_UNKNOWN) then kvs_detect_protocol cli else Ok (0, cli)) = Ok (0, cli') /\
    protocol cli' = PROTO_KVSP /\ recv_protocol cli' = Some kvsp_parse_bulk_size /\
    exists p f, cli' = ClientInfo (fd cli) (rbuf_p cli) (rbuf cli) (r_cap cli) (r_pos cli) (cmd_tl cli) (cmd_hl cli)
      (wbuf_p cli) (wbuf cli) (w_cap cli) (w_pos cli) (role cli) p f.
Proof.
  intros Hw Hc Hq Hne. destruct (stream_first _ _ _ Hq Hne) as [q' ->].
  case_bool_decide as Hu.
  - rewrite (detect_kvsp _ _ Hw). eexists. split; [done |]. do 2 (split; [done |]). by eexists _, _.
  - destruct Hc as [| [Hp Hr]]; [done |]. exists cli. do 3 (split; [done |]). exists (protocol cli), (recv_protocol cli).
    by destruct cli.
Qed.

Lemma round_run reqs got q later cli sk st a others :
  conn_wf cli q (length reqs) -> 0 < zlen got <= SERVER_BUFFER_SIZE -> q ++ got ++ later = frames (tokens_of <$> reqs) ->
  zlen (q ++ got ++ later) <= L ->
  Forall request_ok reqs -> Forall (fun r => op_below V r.2) reqs -> values_below V (db (eng st)) ->
  Forall (fun r => 0 < r) (sk_send sk) -> store_wf st ({[wbuf_p cli]} :: {[rbuf_p cli]} :: others) a ->
  exists don rest xs q' rs cli' st' a', reqs = don ++ rest /\
    reader_round kvs_protocol got cli sk st a
      = Ok (Continue, cli', Sock (sk_in sk) (sk_out sk ++ output cli (replies don xs)) rs, st', a') /\ rs `suffix_of` sk_send sk /\
    store_run don xs st st' /\ conn_wf cli' q' (length rest) /\ q' ++ later = frames (tokens_of <$> rest) /\
    starved q' rest /\ role cli' = role cli /\ values_below V (db (eng st')) /\
    store_wf st' ({[wbuf_p cli']} :: {[rbuf_p cli']} :: others) a' /\
    store_frame st ({[wbuf_p cli]} :: {[rbuf_p cli]} :: others) a st' ({[wbuf_p cli']} :: {[rbuf_p cli']} :: others) a'.
Proof.
  intros [Hw Hpr Hp Hrm Hrc] Hg Hq HLq Hok Hlow Hv Hs Hwf. pose proof (zlen_nonneg q) as Z1. pose proof (zlen_nonneg later) as Z2.
  rewrite !zlen_app in HLq. unfold reader_round.
  destruct (reader_append_ok store_good store_blocks got cli q others st a) as (c1 & a1 & -> & Hw1 & Hcap1 & (p & b & cp & n & ->) & Hwf1 & Hf1);
    [done | done | lia | unfold INT_MAX; lia | unfold INT_MAX, SERVER_BUFFER_SIZE in *; lia | by apply store_state |].
  run. set (c1 := set_r_pos n _) in *.
  destruct (detect_ok c1 (q ++ got) later reqs) as (c2 & -> & Hp2 & Hr2 & pr & rf & Heq2);
    [done | exact Hpr | by rewrite <- app_assoc | intros [_ ->]%app_eq_nil; change (zlen []) with 0 in Hg; lia |].
  run. change (0 <? 0) with false. cbv iota.
  assert (Hw2 : reader_wf c2 (q ++ got)) by (rewrite Heq2; destruct Hw1 as [[] ? ? ? ?]; by split).
  destruct (requests_run reqs (q ++ got) later c2 sk st a1 ({[rbuf_p c1]} :: others) (Datatypes.S (Z.to_nat (r_pos c2))) [])
    as (don & rest & xs & q' & c3 & st3 & a3 & -> & -> & Hst & Hw3 & Hq3 & Hsv & Hp3 & Hrm3 & (E1 & E2 & E3 & E4 & E5) & Hv3 & Hwf3 & Hf3);
    [done | by rewrite <- app_assoc | done | done | done | by rewrite Heq2 | by rewrite Heq2 | done | done | | lia | |].
  { rewrite Heq2. cbn [r_cap]. unfold INT_MAX, SERVER_BUFFER_SIZE in *. lia. }
  { rewrite Heq2. by apply store_state. }
  run. cbn [app] in Hp3. assert (Hrp : rbuf_p c3 = rbuf_p c1) by (by rewrite E1, Heq2).
  assert (Hrole : role c3 = role cli) by (by rewrite E3, Heq2).
  assert (Hconn : conn_wf (set_w_pos 0 c3) q' (length rest)).
  { destruct Hw3 as [[C1 C2 C3] ? ? ? ?], Hrm3 as [M1 M2]. split.
    - split; cbn; try done. split; cbn; lia.
    - right. cbn. rewrite E4, E5. done.
    - done.
    - split; [| done]. cbn [w_pos set_w_pos]. lia.
    - cbn [r_cap set_w_pos]. rewrite E2, Heq2. cbn [r_cap]. lia. }
  destruct (send_all c3 sk (replies don xs)) as (rs & Hrs & Hsend); [done | | done |].
  { destruct Hw3 as [[? ? ?] ? ? ? ?], Hp3 as [<- _]. lia. }
  exists don, rest, xs, q', (if role cli =? 1 then sk_send sk else rs), (set_w_pos 0 c3), st3, a3. split; [done |]. split.
  { unfold output. rewrite Hrole. destruct (role cli =? 1); [rewrite app_nil_r; by destruct sk | by rewrite Hsend]. }
  split; [by destruct (role cli =? 1) |]. do 4 (split; [done |]). split; [exact Hrole |]. split; [done |]. cbn [wbuf_p rbuf_p set_w_pos]. rewrite Hrp.
  split; [done |]. eapply store_frame_trans; [by apply store_state_frame |]. rewrite Heq2 in Hf3. exact Hf3.
Qed.

(** *** A connection *)

Lemma stream_run chunks : forall reqs q cli sk st a cli_p others fuel,
  conn_wf cli q (length reqs) -> Forall (fun c => 0 < zlen c <= SERVER_BUFFER_SIZE) chunks ->
  q ++ mjoin chunks = frames (tokens_of <$> reqs) -> zlen (q ++ mjoin chunks) <= L -> starved q reqs ->
  Forall request_ok reqs -> Forall (fun r => op_below V r.2) reqs -> values_below V (db (eng st)) ->
  Forall (fun r => 0 < r) (sk_send sk) -> sk_in sk = Some <$> chunks -> (length chunks < fuel)%nat ->
  store_wf st ({[wbuf_p cli]} :: {[rbuf_p cli]} :: {[cli_p]} :: others) a ->
  exists xs rs st' a',
    server_reader kvs_protocol fuel cli_p cli sk st a
      = Ok (Sock [] (sk_out sk ++ output cli (replies reqs xs)) rs, st', a') /\ rs `suffix_of` sk_send sk /\
    store_run reqs xs st st' /\ store_wf st' others a' /\
    store_frame st ({[wbuf_p cli]} :: {[rbuf_p cli]} :: {[cli_p]} :: others) a st' others a'.
Proof.
  induction chunks as [| got chunks IH]; intros reqs q cli sk st a cli_p others fuel Hc Hch Hq HLq Hsv Hok Hlow Hv Hs Hin Hfuel Hwf;
    (destruct fuel as [| fuel]; [cbn in Hfuel; lia |]); cbn [server_reader]; unfold sock_recv; rewrite Hin; cbn [fmap list_fmap].
  - cbn [mjoin list_join] in Hq. rewrite app_nil_r in Hq.
    assert (reqs = []) as ->.
    { destruct reqs as [| r reqs]; [done |]. exfalso. cbn [starved] in Hsv. rewrite Hq in Hsv.
      change (frames (tokens_of <$> r :: reqs)) with (kvsp_frame (tokens_of r) ++ frames (tokens_of <$> reqs)) in Hsv.
      rewrite zlen_app in Hsv. pose proof (zlen_nonneg (frames (tokens_of <$> reqs))). lia. }
    change (0 <=? 0) with true. cbv iota. exists [], (sk_send sk), st, (client_cleanup cli_p cli a).
    split; [| split; [done |]; split; [constructor |]].
    { do 3 f_equal. unfold output, replies. destruct sk; cbn in *. rewrite Hin. destruct (role cli =? 1); by rewrite app_nil_r. }
    apply store_state in Hwf. rewrite store_state, store_state_frame. unfold client_cleanup.
    apply state_swap in Hwf. destruct (state_give _ _ _ _ _ _ Hwf) as [Hw1 Hf1].
    destruct (state_give _ _ _ _ _ _ Hw1) as [Hw2 Hf2]. destruct (state_give _ _ _ _ _ _ Hw2) as [Hw3 Hf3].
    split; [exact Hw3 |]. eapply state_frame_trans; [| exact Hf3]. eapply state_frame_trans; [| exact Hf2].
    unfold state_frame in *. rewrite Hf1. rewrite !union_mid. f_equal. clear. set_solver.
  - apply Forall_cons in Hch as [Hg Hch]. change (mjoin (got :: chunks)) with (got ++ mjoin chunks) in *.
    assert (Hfull : take (Z.to_nat SERVER_BUFFER_SIZE) got = got) by (apply take_ge; unfold zlen in Hg; lia).
    rewrite Hfull, (proj2 (Z.leb_gt (zlen got) 0)), (proj2 (Z.leb_le (zlen got) _)) by lia.
    set (sk1 := Sock _ _ _).
    destruct (round_run reqs got q (mjoin chunks) cli sk1 st a ({[cli_p]} :: others))
      as (don & rest & xs & q' & rs1 & c1 & st1 & a1 & -> & -> & Hrs1 & Hst1 & Hc1 & Hq1 & Hsv1 & Hr1 & Hv1 & Hwf1 & Hf1); [done.. |].
    run. apply Forall_app in Hok as [_ Hok]. apply Forall_app in Hlow as [_ Hlow].
    destruct (IH rest q' c1 (Sock (sk_in sk1) (sk_out sk1 ++ output cli (replies don xs)) rs1) st1 a1 cli_p others fuel)
      as (xs' & rs' & st' & a' & -> & Hrs' & Hst' & Hwf' & Hf');
      [done | done | done | | done | done | done | done | by eapply sends_left | done | cbn in Hfuel; lia | done |].
    { rewrite Hq1. rewrite Hq in HLq. rewrite fmap_app in HLq. unfold frames in *. rewrite bind_app, zlen_app in HLq.
      pose proof (zlen_nonneg ((tokens_of <$> don) ≫= kvsp_frame)). lia. }
    exists (xs ++ xs'), rs', st', a'. split.
    { do 3 f_equal. cbn [sk_out sk1]. rewrite <- app_assoc. do 2 f_equal. unfold output. rewrite Hr1.
      destruct (role cli =? 1); [done |]. unfold replies. rewrite zip_with_app by (by eapply store_run_length).
      by rewrite join_app. }
    split; [by etrans |]. split; [by eapply store_run_app |]. split; [done |]. by eapply store_frame_trans.
Qed.

(** An accepted connection from its set-up to its end. *)
Lemma client_init_ok fd n st a others :
  store_wf st others a -> Z.of_nat n * (V + 32) <= W ->
  exists cli_p cli a', client_info_init fd a = (Some (cli_p, cli), a') /\ conn_wf cli [] n /\ role cli = 0 /\
    store_wf st ({[wbuf_p cli]} :: {[rbuf_p cli]} :: {[cli_p]} :: others) a' /\
    store_frame st others a st ({[wbuf_p cli]} :: {[rbuf_p cli]} :: {[cli_p]} :: others) a'.
Proof.
  intros Hwf Hn. unfold client_info_init. apply store_state in Hwf.
  destruct (malloc_total SIZEOF_CLIENT_INFO a ltac:(pos_size)) as (p & a1 & Hm1). rewrite Hm1.
  destruct (malloc_total (SERVER_BUFFER_SIZE + 1) a1 ltac:(pos_size)) as (rp & a2 & Hm2). rewrite Hm2.
  destruct (malloc_total (SERVER_BUFFER_SIZE + 1) a2 ltac:(pos_size)) as (wp & a3 & Hm3). rewrite Hm3.
  destruct (state_take _ _ _ _ _ _ _ _ Hwf Hm1) as [Hw1 Hf1]. destruct (state_take _ _ _ _ _ _ _ _ Hw1 Hm2) as [Hw2 Hf2].
  destruct (state_take _ _ _ _ _ _ _ _ Hw2 Hm3) as [Hw3 Hf3].
  eexists p, _, a3. split; [done |]. split; [| split; [done |]; split; [by apply store_state |]].
  - assert (Hz : zlen (replicate (Z.to_nat (SERVER_BUFFER_SIZE + 1)) 0) = SERVER_BUFFER_SIZE + 1).
    { unfold zlen. rewrite length_replicate. done. }
    split; cbn [role]; [split | by left | done | split | cbn; lia].
    + split; cbn [w_cap w_pos wbuf]; [done | done | rewrite Hz; lia].
    + by eexists.
    + done.
    + done.
    + cbn [r_cap rbuf]. rewrite Hz. lia.
    + cbn [w_pos]. lia.
    + cbn [w_cap]. lia.
  - apply store_state_frame. eapply state_frame_trans; [exact Hf1 |]. by eapply state_frame_trans.
Qed.

Lemma session_run fd reqs chunks sends st a others :
  store_wf st others a -> Z.of_nat (length reqs) * (V + 32) <= W ->
  Forall (fun c => 0 < zlen c <= SERVER_BUFFER_SIZE) chunks -> mjoin chunks = frames (tokens_of <$> reqs) ->
  zlen (mjoin chunks) <= L -> Forall request_ok reqs -> Forall (fun r => op_below V r.2) reqs ->
  values_below V (db (eng st)) -> Forall (fun r => 0 < r) sends ->
  exists xs rs st' a',
    server kvs_protocol fd (Datatypes.S (length chunks)) (Sock (Some <$> chunks) [] sends) st a
      = Ok (Continue, Sock [] (replies reqs xs) rs, st', a') /\ rs `suffix_of` sends /\
    store_run reqs xs st st' /\ store_wf st' others a' /\ store_frame st others a st' others a'.
Proof.
  intros Hwf Hn Hch Hj HLj Hok Hlow Hv Hs. unfold server.
  destruct (client_init_ok fd (length reqs) st a others Hwf Hn) as (p & cli & a1 & -> & Hc & Hr & Hwf1 & Hf1).
  destruct (stream_run chunks reqs [] cli (Sock (Some <$> chunks) [] sends) st a1 p others (Datatypes.S (length chunks)))
    as (xs & rs & st' & a' & -> & Hrs & Hst & Hwf' & Hf'); [done | done | done | done | | done | done | done | done | done | lia | done |].
  { destruct reqs; [done |]. apply kvsp_frame_pos. }
  exists xs, rs, st', a'. split; [| split; [done |]; split; [done |]; split; [done |]; by eapply store_frame_trans].
  run. unfold output. rewrite Hr. done.
Qed.

End Loop.
