(* ===== verification/Sync.v ===== *)
(** * Sync: replication (kvs-module/kvs_sync.c)

    The full synchronisation: the master forks a child that writes a snapshot
    to a temporary file, tells the slave its size, waits for the slave and
    sends the file; the slave receives the file and loads it. Then the slave
    connects to the agent and serves the stream of commands it forwards. The
    configuration of the build: the file goes over the socket with [sendfile],
    the increments go through the agent. *)

From S2P Require Import Prelude CLib Alloc Protocol Engine Uring Log Store Save Net Server.
From S2P Require Import Array Hash Skiplist Rbtree.

Definition KVS_SYNC_COMMAND : list Z := BS "SYNC".
Definition KVS_SLAVE_FULLSYNC_READY : list Z := BS "FULLSYNC READY".
Definition KVS_SLAVE_FULLSYNC_FINISHED : list Z := BS "FULLSYNC FINISHED".
Definition KVS_SLAVE_FULLSYNC_ERROR : list Z := BS "FULLSYNC ERROR".
Definition KVS_MASTER_FULLSYNC_ERROR : list Z := BS "FULLSYNC ERROR".
Definition KVS_MASTER_FULLSYNC_BUSY : list Z := BS "FULLSYNC BUSY".

(** [KVS_MASTER_FULLSYNC_OK], printed with the size of the file. *)
Definition fullsync_ok (file_size : Z) : list Z := BS "FULLSYNC OK " ++ dec file_size.

Definition KVS_SYNC_RET_ERROR : Z := -100.
Definition KVS_SYNC_RET_BUSY : Z := -101.

Definition SSIZE_MAX : Z := 2 ^ 63 - 1.
Definition SIZE_MAX : Z := 2 ^ 64 - 1.

(** ** [sscanf(command, "FULLSYNC OK %zu", &file_size)]

    A literal matches itself, white space in the format any white space; the
    conversion skips white space, takes a sign and digits, and saturates. *)
Fixpoint skip_space (s : list Z) : list Z :=
  match s with
  | c :: s' => if is_space c then skip_space s' else s
  | [] => []
  end.

Fixpoint scan_literal (lit s : list Z) : option (list Z) :=
  match lit, s with
  | [], _ => Some s
  | l :: lit, c :: s => if l =? c then scan_literal lit s else None
  | _ :: _, [] => None
  end.

Fixpoint scan_digits (s : list Z) (acc : Z) : Z :=
  match s with
  | c :: s => if is_digit c then scan_digits s (Z.min (10 * acc + (c - 48)) SIZE_MAX) else acc
  | [] => acc
  end.

Definition scan_number (s : list Z) : option Z :=
  match s with
  | c :: _ => if is_digit c then Some (scan_digits s 0) else None
  | [] => None
  end.

Definition scan_size (s : list Z) : option Z :=
  match skip_space s with
  | [] => None
  | c :: s' =>
      if c =? 45 then (fun n => (- n) mod 2 ^ 64) <$> scan_number s'
      else if c =? 43 then scan_number s' else scan_number (c :: s')
  end.

Definition scan_fullsync_ok (s : list Z) : option Z :=
  s ← scan_literal (BS "FULLSYNC") s;
  s ← scan_literal (BS "OK") (skip_space s);
  scan_size (skip_space s).

Section Slave.
Context {A : Type} `{Allocator A}.

(** [kvs_connect_to_remote]: [sockfd] and [connected] are what [socket] and
    [connect] answer. *)
Definition kvs_connect_to_remote (ip : cptr) (port sockfd : Z) (connected : bool) : Z :=
  match ip with
  | None => -1
  | Some _ =>
      if 65535 <? port then -1 else
      if sockfd <? 0 then -2 else
      if negb connected then -3 else sockfd
  end.

(** The first token of a message; [strcmp] of the NULL left by a message
    without tokens is undefined. *)
Definition message (ts : list (list Z)) : res (list Z) := of_option (head ts).

(** [kvs_slave_obtain_file_size] *)
Definition kvs_slave_obtain_file_size (sockfd : Z) (sk : sock) (a : A) : res (Z * sock * A) :=
  if sockfd <? 0 then Ok (-1, sk, a) else
  '(r, sk, a) ← kvs_send_single_command sockfd (Some KVS_SYNC_COMMAND) sk a;
  if negb (r =? 0) then Ok (-2, sk, a) else
  '(n, ts, sk) ← kvs_recv_single_command sockfd BUFFER_SIZE sk;
  if n <? 0 then Ok (-2, sk, a) else
  command ← message ts;
  if strcmp command KVS_MASTER_FULLSYNC_BUSY =? 0 then Ok (KVS_SYNC_RET_BUSY, sk, a) else
  if strcmp command KVS_MASTER_FULLSYNC_ERROR =? 0 then Ok (KVS_SYNC_RET_ERROR, sk, a) else
  match scan_fullsync_ok command with
  | None => Ok (KVS_SYNC_RET_ERROR, sk, a)
  | Some file_size =>
      if SSIZE_MAX <? file_size then Ok (KVS_SYNC_RET_ERROR, sk, a) else Ok (file_size, sk, a)
  end.

(** [while (received < file_size)] of [kvs_slave_obtain_file]: the bytes
    received so far. *)
Fixpoint recv_file (fuel : nat) (file_size : Z) (buf : list Z) (sk : sock) : res (list Z * sock) :=
  if file_size <=? zlen buf then Ok (buf, sk) else
  match fuel with
  | O => NoFuel
  | S fuel =>
      let '(n, got, sk) := sock_recv (file_size - zlen buf) sk in
      if n <=? 0 then Ok (buf, sk) else recv_file fuel file_size (buf ++ got) sk
  end.

(** [kvs_slave_obtain_file]: the block with the file, [None] for NULL. *)
Definition kvs_slave_obtain_file (file_size sockfd : Z) (sk : sock) (a : A) : res (option block * sock * A) :=
  if (file_size <=? 0) || (sockfd <? 0) then Ok (None, sk, a) else
  match kvs_malloc (file_size + 1) a with
  | (None, a) => Ok (None, sk, a)
  | (Some p, a) =>
      '(r, sk, a) ← kvs_send_single_command sockfd (Some KVS_SLAVE_FULLSYNC_READY) sk a;
      if negb (r =? 0) then Ok (None, sk, kvs_free p a) else
      '(buf, sk) ← recv_file (S (length (sk_in sk))) file_size [] sk;
      if zlen buf <? file_size then Ok (None, sk, kvs_free p a) else Ok (Some (Block p buf), sk, a)
  end.

Context {TA TR TH TL : Type}.
Context `{EA : !Engine A TA} `{ER : !Engine A TR} `{EH : !Engine A TH} `{EL : !Engine A TL}.
Notation engines := (engines TA TR TH TL).

(** The label [cleanup] of [kvs_slave_full_sync]. *)
Definition slave_cleanup (ret sockfd : Z) (buf : option block) (sk : sock) (g : engines) (a : A)
    : res (Z * sock * engines * A) :=
  '(sk, a) ←
    (if negb (ret =? 0)
     then '(_, sk, a) ← kvs_send_single_command sockfd (Some KVS_SLAVE_FULLSYNC_ERROR) sk a; Ok (sk, a)
     else Ok (sk, a));
  Ok (ret, sk, g, match buf with Some b => kvs_free (b_addr b) a | None => a end).

(** [kvs_slave_full_sync] *)
Definition kvs_slave_full_sync (sockfd : Z) (sk : sock) (g : engines) (a : A) : res (Z * sock * engines * A) :=
  if sockfd <? 0 then Ok (-1, sk, g, a) else
  '(file_size, sk, a) ← kvs_slave_obtain_file_size sockfd sk a;
  if file_size =? KVS_SYNC_RET_BUSY then Ok (KVS_SYNC_RET_BUSY, sk, g, a) else
  if file_size =? KVS_SYNC_RET_ERROR then Ok (KVS_SYNC_RET_ERROR, sk, g, a) else
  if file_size =? 0 then Ok (0, sk, g, a) else
  if file_size <? 0 then slave_cleanup (-2) sockfd None sk g a else
  '(buf, sk, a) ← kvs_slave_obtain_file file_size sockfd sk a;
  match buf with
  | None => slave_cleanup (-3) sockfd None sk g a
  | Some b =>
      if zlen (b_str b) <=? 0 then slave_cleanup (-3) sockfd buf sk g a else
      '(r, g, a) ← kvs_file_read (b_str b) kvs_save_handler g a;
      slave_cleanup (if negb (r =? 0) then -3 else 0) sockfd buf sk g a
  end.

(** [kvs_slave_incr_sync]: [agent_fd] is the connection to the agent. The
    coroutine it starts, and the descriptors it closes. *)
Definition kvs_slave_incr_sync (master_fd agent_fd : Z) (sk : sock) (a : A)
    : res (Z * option (Z * client_info) * list Z * sock * A) :=
  if master_fd <? 0 then Ok (-1, None, [], sk, a) else
  if agent_fd <? 0 then Ok (-1, None, [master_fd], sk, a) else
  let '(cli_info, a) := client_info_init agent_fd a in
  '(p, cli) ← of_option cli_info;
  let cli := set_role 1 cli in
  '(r, sk, a) ← kvs_send_single_command master_fd (Some KVS_SLAVE_FULLSYNC_FINISHED) sk a;
  if negb (r =? 0)
  then Ok (-2, Some (p, cli), (if negb (agent_fd =? master_fd) then [agent_fd] else []) ++ [master_fd], sk, a)
  else Ok (0, Some (p, cli), if negb (agent_fd =? master_fd) then [master_fd] else [], sk, a).

(** [kvs_slave_sync] *)
Definition kvs_slave_sync (enable_sync master_fd agent_fd : Z) (sk : sock) (g : engines) (a : A)
    : res (Z * option (Z * client_info) * list Z * sock * engines * A) :=
  if enable_sync =? 0 then Ok (0, None, [], sk, g, a) else
  if master_fd <? 0 then Ok (-1, None, [], sk, g, a) else
  '(ret, sk, g, a) ← kvs_slave_full_sync master_fd sk g a;
  if ret =? KVS_SYNC_RET_BUSY then Ok (KVS_SYNC_RET_BUSY, None, [master_fd], sk, g, a) else
  if negb (ret =? 0) then Ok (-2, None, [master_fd], sk, g, a) else
  '(ret, co, closed, sk, a) ← kvs_slave_incr_sync master_fd agent_fd sk a;
  if negb (ret =? 0) then Ok (-2, co, closed ++ [master_fd], sk, g, a) else Ok (0, co, closed, sk, g, a).

End Slave.

(** ** The master *)

(** What the calls of a full synchronisation answer: [open], [socketpair],
    [fork] in the parent, the length [recv] reads from the child, [waitpid] and
    [WIFEXITED], [fstat]; and what successive [sendfile] calls do. *)
Inductive sendfile_result := SfBytes (n : Z) | SfAgain | SfError.
Record sync_env := SyncEnv {
  se_open : Z; se_pair : bool; se_pid : Z; se_recv : Z; se_wait : Z; se_exited : bool; se_fstat : bool;
  se_sendfile : list sendfile_result
}.

(** [is_full_sync], the socket of the slave and what the next calls meet. *)
Record sync_state := SyncState { is_full_sync : Z; sy_sock : sock; sy_env : list sync_env }.

Section Master.
Context {A R : Type} `{Allocator A} `{Uring R}.
Notation engines := (engines kvs_array_t rbtree kvs_hash_t SkipList).

(** [kvs_sync_write_snapshot] in the child: the result and the contents of
    the file. *)
Definition kvs_sync_write_snapshot (fd : Z) (g : engines) (a : A) : res (Z * list Z) :=
  if fd <? 0 then Ok (-1, []) else
  match u_init (R := R) [] with
  | None => Ok (-2, [])
  | Some ring =>
      '(ret, mc, _) ← kvs_traversal_write fd g (MainCtx ring 0 0) a;
      Ok (if ret <? 0 then -2 else 0, u_disk (mc_ring mc))
  end.

(** [kvs_master_write_snapshot]: the descriptor and the contents of the file.
    The child works on a copy of the memory. *)
Definition kvs_master_write_snapshot (env : sync_env) (g : engines) (a : A) : res (Z * list Z) :=
  let fd := se_open env in
  if fd <? 0 then Ok (-1, []) else
  if negb (se_pair env) then Ok (-1, []) else
  if se_pid env <? 0 then Ok (-1, []) else
  '(ret, file) ← kvs_sync_write_snapshot fd g a;
  let result := if ret =? 0 then 48 else 49 in
  let exit_status := if ret =? 0 then 0 else 1 in
  if negb (se_wait env =? se_pid env) || negb (se_exited env) || negb (exit_status =? 0) then Ok (-1, file) else
  if negb (se_recv env =? 1) || negb (result =? 48) then Ok (-1, file) else Ok (fd, file).

(** [while (remaining > 0)] of [kvs_master_send_file]: what is left and the
    bytes sent. *)
Fixpoint send_loop (fuel : nat) (file : list Z) (start_pos remaining : Z) (rs : list sendfile_result) (sk : sock)
    : res (Z * sock) :=
  if negb (0 <? remaining) then Ok (remaining, sk) else
  match fuel with
  | O => NoFuel
  | S fuel =>
      let '(r, rs) := match rs with [] => (SfBytes remaining, []) | r :: rs => (r, rs) end in
      match r with
      | SfAgain => send_loop fuel file start_pos remaining rs sk
      | SfError => Ok (remaining, sk)
      | SfBytes n =>
          let data := take (Z.to_nat (Z.min n remaining)) (drop (Z.to_nat start_pos) file) in
          let bytes := zlen data in
          if bytes =? 0 then Ok (remaining, sk) else
          send_loop fuel file (start_pos + bytes) (remaining - bytes) rs (Sock (sk_in sk) (sk_out sk ++ data) (sk_send sk))
      end
  end.

(** [kvs_master_send_file] *)
Definition kvs_master_send_file (fd file_size : Z) (file : list Z) (rs : list sendfile_result) (sk : sock) : res (Z * sock) :=
  if file_size =? 0 then Ok (0, sk) else
  if fd <? 0 then Ok (-1, sk) else
  '(remaining, sk) ← send_loop (S (length rs)) file 0 file_size rs sk;
  if negb (remaining =? 0) then Ok (-2, sk) else Ok (0, sk).

(** [kvs_master_notify_and_wait_slave] *)
Definition kvs_master_notify_and_wait_slave (cli_fd file_size : Z) (sk : sock) (a : A) : res (Z * sock * A) :=
  let send_msg := take (Z.to_nat (BUFFER_SIZE - 1)) (fullsync_ok file_size) in
  '(r, sk, a) ← kvs_send_single_command cli_fd (Some send_msg) sk a;
  if negb (r =? 0) then Ok (-2, sk, a) else
  if file_size =? 0 then Ok (0, sk, a) else
  '(n, ts, sk) ← kvs_recv_single_command cli_fd BUFFER_SIZE sk;
  if n <? 0 then Ok (-2, sk, a) else
  command ← message ts;
  if negb (strcmp command KVS_SLAVE_FULLSYNC_READY =? 0) then Ok (-2, sk, a) else Ok (0, sk, a).

(** The body of [kvs_master_full_sync] up to [cleanup]: [ret] and
    [is_fullsync_ok_sent]. *)
Definition master_transfer (cli_fd : Z) (env : sync_env) (g : engines) (sk : sock) (a : A)
    : res (Z * bool * sock * A) :=
  '(fd, file) ← kvs_master_write_snapshot env g a;
  if fd <? 0 then Ok (-2, false, sk, a) else
  if negb (se_fstat env) then Ok (-2, false, sk, a) else
  '(r, sk, a) ← kvs_master_notify_and_wait_slave cli_fd (zlen file) sk a;
  if negb (r =? 0) then Ok (-2, false, sk, a) else
  '(r, sk) ← kvs_master_send_file fd (zlen file) file (se_sendfile env) sk;
  if negb (r =? 0) then Ok (-2, true, sk, a) else Ok (0, true, sk, a).

(** [kvs_master_full_sync] for the connection [cli] *)
Definition kvs_master_full_sync (enable_sync : Z) (cli : client_info) (g : engines) (x : sync_state) (a : A)
    : res (Z * sync_state * A) :=
  if enable_sync =? 0 then Ok (0, x, a) else
  if negb (is_full_sync x =? 0) then
    '(_, sk, a) ← kvs_send_single_command (fd cli) (Some KVS_MASTER_FULLSYNC_BUSY) (sy_sock x) a;
    Ok (0, SyncState (is_full_sync x) sk (sy_env x), a)
  else
    let '(env, envs) := match sy_env x with
      | [] => (SyncEnv (-1) false (-1) 0 (-1) false false [], []) | e :: es => (e, es) end in
    '(ret, sent, sk, a) ← master_transfer (fd cli) env g (sy_sock x) a;
    '(sk, a) ←
      (if negb (ret =? 0) && negb sent
       then '(_, sk, a) ← kvs_send_single_command (fd cli) (Some KVS_MASTER_FULLSYNC_ERROR) sk a; Ok (sk, a)
       else Ok (sk, a));
    Ok (ret, SyncState 0 sk envs, a).

(** [kvs_master_incr_sync] of the build with the agent: the commands are
    captured outside the process. *)
Definition kvs_master_incr_sync (enable_sync : Z) (tokens : list cptr) (count : Z) (x : sync_state) (a : A)
    : res (Z * sync_state * A) :=
  if enable_sync =? 0 then Ok (0, x, a) else
  if count <=? 0 then Ok (-1, x, a) else Ok (0, x, a).

End Master.
