(* ===== verification/SyncFacts.v ===== *)
(** * SyncFacts: a full synchronisation copies the master's data

    [full_sync_run]: however [sendfile] cuts the file and however the network
    cuts the stream, a slave that starts empty ends with the contents of the
    master. *)

From S2P Require Import Prelude CLib Alloc Protocol ProtocolFacts Engine Owner Uring Log LogFacts Store StoreFacts Save SaveFacts LoadFacts.
From S2P Require Import Array Hash Skiplist SkiplistFacts Rbtree RbTheory RbFacts RbEngine Net Server Sync.

(** ** The size in the master's answer *)

Lemma scan_digits_dval ds acc :
  Forall (fun c => is_digit c = true) ds -> 0 <= acc -> dval acc ds <= SIZE_MAX -> scan_digits ds acc = dval acc ds.
Proof.
  intros Hd. revert acc. induction Hd as [| c ds Hc Hd IH]; intros acc Ha Hm; [done |].
  cbn [scan_digits]. rewrite Hc. change (dval acc (c :: ds)) with (dval (10 * acc + (c - 48)) ds) in *.
  unfold is_digit in Hc. assert (0 <= c - 48) by (destruct (Z.leb_spec 48 c); [lia | done]).
  pose proof (dval_mono (10 * acc + (c - 48)) ds ltac:(lia) Hd). rewrite Z.min_l by lia. apply IH; [lia | done].
Qed.

Lemma skip_space_dec n : 0 <= n -> skip_space (dec n) = dec n.
Proof.
  intros Hn. pose proof (dec_digits n Hn) as Hd. destruct (dec_nonempty n) as (c & ds & Hc). rewrite Hc in *.
  apply Forall_cons in Hd as [Hd _]. cbn. unfold is_digit, is_space in *.
  destruct (Z.leb_spec 48 c); [| done]. destruct (Z.eqb_spec c 32), (Z.leb_spec 9 c), (Z.leb_spec c 13); try lia; done.
Qed.

(** What the master prints, the slave reads. *)
Lemma scan_fullsync n : 0 <= n <= SSIZE_MAX -> scan_fullsync_ok (fullsync_ok n) = Some n.
Proof.
  intros Hn. unfold scan_fullsync_ok, fullsync_ok.
  change (scan_literal (BS "FULLSYNC") (BS "FULLSYNC OK " ++ dec n)) with (Some (BS " OK " ++ dec n)). cbn [mbind option_bind].
  change (scan_literal (BS "OK") (skip_space (BS " OK " ++ dec n))) with (Some (BS " " ++ dec n)). cbn [mbind option_bind].
  change (skip_space (BS " " ++ dec n)) with (skip_space (dec n)). rewrite skip_space_dec by lia.
  unfold scan_size. rewrite skip_space_dec by lia. pose proof (dec_digits n ltac:(lia)) as Hd.
  pose proof (dec_dval n ltac:(lia)) as Hv. destruct (dec_nonempty n) as (c & ds & Hc). rewrite Hc in *.
  pose proof Hd as Hd'. apply Forall_cons in Hd' as [Hc' _]. pose proof Hc' as Hr. unfold is_digit in Hr.
  rewrite (proj2 (Z.eqb_neq c 45)), (proj2 (Z.eqb_neq c 43)) by (destruct (Z.leb_spec 48 c); [lia | done]).
  unfold scan_number. rewrite Hc', scan_digits_dval; [by rewrite Hv | done | lia |].
  rewrite Hv. unfold SIZE_MAX, SSIZE_MAX in *. lia.
Qed.

(** ** One-command messages *)

Section Messages.
Context {A : Type} `{AL : AllocatorLaws A} `{TOT : !AllocatorTotal A}.

Lemma send_command_ok sockfd c sk (a : A) :
  0 <= sockfd -> zlen (kvsp_frame [c]) < INT_MAX -> sk_send sk = [] -> al_inv a ->
  exists a', kvs_send_single_command sockfd (Some c) sk a = Ok (0, Sock (sk_in sk) (sk_out sk ++ kvsp_frame [c]) [], a') /\
    al_inv a' /\ al_live a' = al_live a.
Proof.
  intros Hfd Hm Hs Hi. unfold kvs_send_single_command. rewrite (proj2 (Z.ltb_ge sockfd 0)) by done.
  pose proof (build_frame_run [c] a ltac:(done) Hm) as Hb.
  destruct (malloc_total (zlen (kvsp_frame [c]) + 1) a ltac:(pos_size)) as (p & a1 & Hal). rewrite Hal in Hb.
  destruct Hb as (buf & Hbf & Htake & Hlen). change (Some <$> [c]) with [Some c] in Hbf. rewrite Hbf. run.
  rewrite (proj2 (Z.leb_gt _ 0)) by apply kvsp_frame_pos. cbn [b_str b_addr].
  assert (Hr : rd_range buf 0 (zlen (kvsp_frame [c])) = Ok (kvsp_frame [c])).
  { unfold rd_range. pose proof (zlen_nonneg (kvsp_frame [c])).
    replace (_ && _) with true by (symmetry; rewrite !andb_true_iff, !Z.leb_le; lia).
    unfold zlen at 1. rewrite Nat2Z.id. by rewrite drop_0, Htake. }
  rewrite Hr. run. unfold sock_send. rewrite Hs. rewrite Z.eqb_refl. cbn [negb].
  destruct (malloc_some _ _ _ _ Hi Hal) as (Hf & Hl & Hi1).
  destruct (free_live p a1 Hi1) as [Hl2 Hi2]; [rewrite Hl; set_solver |].
  exists (kvs_free p a1). split; [done |]. split; [done |]. rewrite Hl2, Hl. clear - Hf. set_solver.
Qed.

Lemma recv_command_ok sockfd c sk rest :
  0 <= sockfd -> nul_free c -> zlen (kvsp_frame [c]) <= BUFFER_SIZE -> sk_in sk = Some (kvsp_frame [c]) :: rest ->
  kvs_recv_single_command sockfd BUFFER_SIZE sk = Ok (1, [c], Sock rest (sk_out sk) (sk_send sk)).
Proof.
  intros Hfd Hc Hm Hin. unfold kvs_recv_single_command. set (F := kvsp_frame [c]) in *.
  pose proof (kvsp_frame_pos [c]) as HF. fold F in HF.
  rewrite (proj2 (Z.ltb_ge sockfd 0)) by done. change (BUFFER_SIZE =? 0) with false. run. unfold sock_recv. rewrite Hin.
  rewrite take_ge by (unfold zlen in *; lia). rewrite (proj2 (Z.leb_gt (zlen F) 0)), (proj2 (Z.leb_le (zlen F) _)) by lia.
  pose proof (wr_range_app [] (replicate (Z.to_nat BUFFER_SIZE) 0) F) as Hw. cbn [app] in Hw. change (zlen []) with 0 in Hw.
  rewrite Hw by (unfold zlen; rewrite length_replicate; unfold zlen, BUFFER_SIZE in *; lia). run.
  set (st := drop _ _). pose proof (zlen_nonneg st). unfold F. rewrite kvsp_parse_frame;
    [| fold F; unfold INT_MAX, BUFFER_SIZE in *; lia | done | rewrite zlen_app; fold F; lia].
  run. fold F. rewrite (proj2 (Z.leb_gt (zlen F) 0)) by lia. set (cli := ClientInfo _ _ _ _ _ _ _ _ _ _ _ _ _ _).
  destruct (kvsp_split_frame [c] st cli) as (b & toks & -> & Hmap & _);
    [by repeat constructor | done | done | done | fold F; unfold INT_MAX, BUFFER_SIZE in *; lia | done | done |].
  run. change (zlen [c] <? 0) with false. cbn [rbuf set_rbuf]. rewrite Hmap. done.
Qed.

End Messages.

(** ** The stream of the file *)

Lemma recv_file_ok chunks : forall fuel size buf out sends,
  (length chunks < fuel)%nat -> Forall (fun c => 0 < zlen c) chunks -> size = zlen buf + zlen (mjoin chunks) ->
  recv_file fuel size buf (Sock (Some <$> chunks) out sends) = Ok (buf ++ mjoin chunks, Sock [] out sends).
Proof.
  induction chunks as [| c chunks IH]; intros fuel size buf out sends Hf Hc Hs.
  - cbn [mjoin list_join] in *. change (zlen []) with 0 in Hs. rewrite app_nil_r.
    destruct fuel; cbn [recv_file]; rewrite (proj2 (Z.leb_le size _)) by lia; done.
  - apply Forall_cons in Hc as [Hc Hcs]. change (mjoin (c :: chunks)) with (c ++ mjoin chunks) in *. rewrite zlen_app in Hs.
    pose proof (zlen_nonneg (mjoin chunks)). destruct fuel as [| fuel]; [cbn in Hf; lia |]. cbn [recv_file].
    rewrite (proj2 (Z.leb_gt size _)) by lia. unfold sock_recv. cbn [sk_in fmap list_fmap].
    rewrite take_ge by (unfold zlen in *; lia). rewrite (proj2 (Z.leb_gt (zlen c) 0)), (proj2 (Z.leb_le (zlen c) _)) by lia.
    rewrite app_assoc. apply (IH fuel); [cbn in Hf; lia | done | rewrite zlen_app; lia].
Qed.

(** [sendfile] makes progress or asks to try again. *)
Definition progresses (r : sendfile_result) : Prop := match r with SfBytes n => 0 < n | SfAgain => True | SfError => False end.

Lemma drop_zlen_app {X} (l k : list X) : drop (Z.to_nat (zlen l)) (l ++ k) = k.
Proof. unfold zlen. by rewrite Nat2Z.id, drop_app_length. Qed.

Lemma take_zlen {X} (l : list X) : take (Z.to_nat (zlen l)) l = l.
Proof. unfold zlen. by rewrite Nat2Z.id, firstn_all. Qed.

Lemma send_loop_ok file rs : Forall progresses rs -> forall fuel sent rest sk,
  (length rs < fuel)%nat -> file = sent ++ rest ->
  send_loop fuel file (zlen sent) (zlen rest) rs sk = Ok (0, Sock (sk_in sk) (sk_out sk ++ rest) (sk_send sk)).
Proof.
  induction 1 as [| r rs Hr Hrs IH]; intros fuel sent rest sk Hf ->; (destruct fuel as [| fuel]; [cbn in Hf; lia |]); cbn [send_loop];
    (destruct (Z.ltb_spec 0 (zlen rest)) as [Hpos | Hnil];
     [| pose proof (zlen_nonneg rest); destruct rest as [| z rest]; [| rewrite zlen_cons in Hnil; pose proof (zlen_nonneg rest); lia];
        cbn [negb]; change (zlen []) with 0; rewrite app_nil_r; by destruct sk]); cbn [negb].
  - rewrite drop_zlen_app, Z.min_id, take_zlen.
    rewrite (proj2 (Z.eqb_neq (zlen rest) 0)) by lia. rewrite Z.sub_diag. destruct fuel; done.
  - cbn [length] in Hf. destruct r as [n | |]; [| apply IH; [lia | done] | done]. cbn [progresses] in Hr.
    rewrite drop_zlen_app. set (d := take _ rest).
    assert (Hd : d ++ drop (Z.to_nat (Z.min n (zlen rest))) rest = rest) by apply take_drop.
    set (rest' := drop _ rest) in *. assert (Hlen : zlen d = Z.min n (zlen rest)).
    { unfold d, zlen in *. rewrite length_take. lia. }
    rewrite (proj2 (Z.eqb_neq (zlen d) 0)) by lia. rewrite <- zlen_app.
    replace (zlen rest - zlen d) with (zlen rest') by (rewrite <- Hd, zlen_app; lia).
    rewrite (IH fuel (sent ++ d) rest'); [| lia | by rewrite <- app_assoc, Hd]. cbn [sk_in sk_out sk_send]. by rewrite <- app_assoc, Hd.
Qed.

(** ** Both ends *)

Section FullSync.
Context {A R : Type} `{AL : AllocatorLaws A} `{TOT : !AllocatorTotal A} `{UL : UringLaws R} `{UT : !UringTotal R}.
Context (XXH : list Z -> Z) (SIZE HSIZE : Z) (random : nat -> Z).
Context (Hsize : 0 < SIZE) (Hhsize : 0 < HSIZE <= INT_MAX).
Notation engines := (engines kvs_array_t rbtree kvs_hash_t SkipList).

#[local] Instance sync_array : Engine A kvs_array_t := array_engine SIZE.
#[local] Instance sync_rbtree : Engine A rbtree := rb_engine.
#[local] Instance sync_hash : Engine A kvs_hash_t := hash_engine XXH HSIZE.
#[local] Instance sync_skip : Engine A SkipList := skip_engine random.
#[local] Instance sync_array_laws : EngineLaws A kvs_array_t := array_laws SIZE Hsize.
#[local] Instance sync_hash_laws : EngineLaws A kvs_hash_t := hash_laws XXH HSIZE Hhsize.

(** The calls of the master succeed. *)
Record env_ok (env : sync_env) : Prop := {
  eo_open : 0 <= se_open env;
  eo_pair : se_pair env = true;
  eo_pid : 0 < se_pid env;
  eo_recv : se_recv env = 1;
  eo_wait : se_wait env = se_pid env;
  eo_exited : se_exited env = true;
  eo_fstat : se_fstat env = true;
  eo_send : Forall progresses (se_sendfile env)
}.

Lemma ok_message n : 0 <= n <= INT_MAX -> zlen (fullsync_ok n) <= 22 /\ nul_free (fullsync_ok n).
Proof.
  intros Hn. unfold fullsync_ok. split.
  - rewrite zlen_app. pose proof (dec_length_10 n Hn). change (zlen (BS "FULLSYNC OK ")) with 12. lia.
  - apply Forall_app. split; [repeat constructor; vm_compute; congruence |].
    eapply Forall_impl; [apply dec_digits; lia |]. intros c Hc ->. done.
Qed.

Lemma short_frame c : zlen c <= 22 -> zlen (kvsp_frame [c]) <= 48.
Proof.
  intros Hc. pose proof (zlen_nonneg c). pose proof (dec_length_9 (zlen c) ltac:(lia)) as D1.
  assert (Hb : zlen (kvsp_body [c]) = zlen c + zlen (dec (zlen c)) + 4).
  { unfold kvsp_body, fmt_token, KVSP_END_STR, CRLF. cbn [mbind list_bind]. zlen_simpl. lia. }
  pose proof (zlen_nonneg (dec (zlen c))). pose proof (dec_length_9 (zlen (kvsp_body [c])) ltac:(lia)) as D2.
  unfold kvsp_frame. rewrite zlen_app, fmt_head_len. lia.
Qed.

(** The child writes the snapshot file of the store. *)
Lemma write_snapshot_ok (g : engines) nl t env (a : A) :
  snap_inv XXH SIZE HSIZE nl t g -> storable XXH SIZE HSIZE random g -> env_ok env ->
  kvs_master_write_snapshot (R := R) env g a = Ok (se_open env, snapshot_file t g).
Proof.
  intros Hinv Hst [E1 E2 E3 E4 E5 E6 E7 E8]. unfold kvs_master_write_snapshot, kvs_sync_write_snapshot.
  destruct (init_total (R := R) []) as [ring Hring].
  destruct (snapshot_writes XXH SIZE HSIZE random (se_open env) nl t g ring a Hinv Hst E1 Hring) as (mc & a1 & Ht & Hd).
  rewrite (proj2 (Z.ltb_ge (se_open env) 0)), E2, (proj2 (Z.ltb_ge (se_pid env) 0)) by lia. cbn [negb]. rewrite Hring, Ht. run.
  rewrite Hd. cbn [Z.eqb Z.ltb Z.compare]. rewrite E5, E6, E4, Z.eqb_refl. cbn [negb orb Z.eqb Pos.eqb]. run. done.
Qed.

(** The slave is told the size and has announced itself. *)
Lemma notify_ok cli_fd n rest out (a : A) :
  0 <= cli_fd -> 0 < n <= INT_MAX -> al_inv a ->
  exists a', kvs_master_notify_and_wait_slave cli_fd n (Sock (Some (kvsp_frame [KVS_SLAVE_FULLSYNC_READY]) :: rest) out []) a
    = Ok (0, Sock rest (out ++ kvsp_frame [fullsync_ok n]) [], a') /\ al_inv a' /\ al_live a' = al_live a.
Proof.
  intros Hfd Hn Hi. unfold kvs_master_notify_and_wait_slave. destruct (ok_message n ltac:(lia)) as [Hml Hmn].
  rewrite take_ge by (unfold zlen, BUFFER_SIZE in *; lia). pose proof (short_frame _ Hml) as Hsf.
  destruct (send_command_ok cli_fd (fullsync_ok n) (Sock (Some (kvsp_frame [KVS_SLAVE_FULLSYNC_READY]) :: rest) out []) a)
    as (a2 & -> & Hi2 & Hl2); [done | unfold INT_MAX; lia | done | done |].
  run. cbn [Z.eqb negb]. rewrite (proj2 (Z.eqb_neq n 0)) by lia.
  rewrite (recv_command_ok cli_fd KVS_SLAVE_FULLSYNC_READY _ rest);
    [| done | repeat constructor; vm_compute; congruence | vm_compute; congruence | done]. run.
  cbn [Z.ltb Z.compare Pos.compare message head of_option]. run. rewrite strcmp_refl. cbn [Z.eqb negb]. run. eauto.
Qed.

Lemma nonempty_pos (f : list Z) : f <> [] -> 0 < zlen f.
Proof. intros Hf. destruct f; [done |]. rewrite zlen_cons. pose proof (zlen_nonneg f). lia. Qed.

(** The master's side. *)
Lemma master_run cli (g : engines) nl t env envs out rest a :
  snap_inv XXH SIZE HSIZE nl t g -> storable XXH SIZE HSIZE random g -> env_ok env -> 0 <= fd cli -> al_inv a ->
  let f := snapshot_file t g in
  zlen f < INT_MAX -> f <> [] ->
  exists a', kvs_master_full_sync (R := R) 1 cli g
      (SyncState 0 (Sock (Some (kvsp_frame [KVS_SLAVE_FULLSYNC_READY]) :: rest) out []) (env :: envs)) a
    = Ok (0, SyncState 0 (Sock rest (out ++ kvsp_frame [fullsync_ok (zlen f)] ++ f) []) envs, a') /\
    al_inv a' /\ al_live a' = al_live a.
Proof.
  intros Hinv Hst Henv Hfd Hi f Hf Hne. pose proof (nonempty_pos f Hne) as Hpos. unfold kvs_master_full_sync. cbn [Z.eqb negb is_full_sync sy_env sy_sock].
  unfold master_transfer. rewrite (write_snapshot_ok g nl t env a Hinv Hst Henv). run. fold f.
  rewrite (proj2 (Z.ltb_ge (se_open env) 0)), (eo_fstat _ Henv) by apply (eo_open _ Henv). cbn [negb].
  destruct (notify_ok (fd cli) (zlen f) rest out a Hfd ltac:(lia) Hi) as (a2 & -> & Hi2 & Hl2). run. cbn [Z.eqb negb].
  unfold kvs_master_send_file. rewrite (proj2 (Z.eqb_neq (zlen f) 0)), (proj2 (Z.ltb_ge (se_open env) 0)) by (lia || apply (eo_open _ Henv)).
  pose proof (send_loop_ok f (se_sendfile env) (eo_send _ Henv) (S (length (se_sendfile env))) [] f) as Hsend. change (zlen []) with 0 in Hsend.
  rewrite Hsend by (lia || done). run. cbn [Z.eqb negb andb]. run.
  exists a2. cbn [sk_in sk_out sk_send]. by rewrite <- app_assoc.
Qed.

(** The slave asks and learns the size. *)
Lemma obtain_size_ok sockfd n rest out (a : A) :
  0 <= sockfd -> 0 <= n <= INT_MAX -> al_inv a ->
  exists a', kvs_slave_obtain_file_size sockfd (Sock (Some (kvsp_frame [fullsync_ok n]) :: rest) out []) a
    = Ok (n, Sock rest (out ++ kvsp_frame [KVS_SYNC_COMMAND]) [], a') /\ al_inv a' /\ al_live a' = al_live a.
Proof.
  intros Hfd Hn Hi. unfold kvs_slave_obtain_file_size. rewrite (proj2 (Z.ltb_ge sockfd 0)) by done.
  destruct (send_command_ok sockfd KVS_SYNC_COMMAND (Sock (Some (kvsp_frame [fullsync_ok n]) :: rest) out []) a)
    as (a1 & -> & Hi1 & Hl1); [done | vm_compute; congruence | done | done |].
  run. cbn [Z.eqb negb]. destruct (ok_message n Hn) as [Hml Hmn]. pose proof (short_frame _ Hml) as Hsf.
  rewrite (recv_command_ok sockfd (fullsync_ok n) _ rest); [| done | done | unfold BUFFER_SIZE; lia | done]. run.
  cbn [Z.ltb Z.compare Pos.compare message head of_option]. run.
  assert (Hbusy : (strcmp (fullsync_ok n) KVS_MASTER_FULLSYNC_BUSY =? 0) = false) by done.
  assert (Herr : (strcmp (fullsync_ok n) KVS_MASTER_FULLSYNC_ERROR =? 0) = false) by done.
  rewrite Hbusy, Herr, scan_fullsync by (unfold SSIZE_MAX, INT_MAX in *; lia).
  rewrite (proj2 (Z.ltb_ge SSIZE_MAX n)) by (unfold SSIZE_MAX, INT_MAX in *; lia). eauto.
Qed.

(** The file in the block [p] is loaded and the block given back. *)
Lemma slave_load_ok sockfd (g g0 : engines) nl t p mem rest sk a :
  snap_inv XXH SIZE HSIZE nl t g -> storable XXH SIZE HSIZE random g ->
  state_wf eng_inv eng_own g0 ({[p]} :: rest) a -> (forall e, db g0 e = ∅) ->
  let f := snapshot_file t g in
  zlen f < INT_MAX -> f <> [] ->
  exists g' a', (kvs_file_read f kvs_save_handler g0 a ≫= fun '(r, g', a') =>
      slave_cleanup (if negb (r =? 0) then -3 else 0) sockfd (Some (Block p mem)) sk g' a') = Ok (0, sk, g', a') /\
    (forall e, db g' e = db g e) /\ state_wf eng_inv eng_own g' rest a' /\ state_frame eng_own g0 ({[p]} :: rest) a g' rest a'.
Proof.
  intros Hinv Hst Hwf Hempty f Hf Hne.
  destruct (snapshot_loads XXH SIZE HSIZE random Hsize Hhsize nl t g g0 ({[p]} :: rest) a Hinv Hst Hf Hwf Hempty)
    as (ret & g' & a4 & Hread & Hdb & Hwf4 & Hfr4 & Hret).
  specialize (Hret Hne). subst ret.
  assert (Hload : kvs_file_read f kvs_save_handler g0 a = Ok (0, g', a4)) by exact Hread. rewrite Hload. run. unfold slave_cleanup. cbn [Z.eqb negb]. run.
  destruct (state_give _ _ _ _ _ _ Hwf4) as [Hwf5 Hfr5]. exists g', (kvs_free p a4). split; [done |]. split; [done |]. split; [done |].
  by eapply state_frame_trans.
Qed.

(** The slave's side. *)
Lemma slave_run sockfd (g g0 : engines) nl t chunks out rest a :
  snap_inv XXH SIZE HSIZE nl t g -> storable XXH SIZE HSIZE random g -> 0 <= sockfd ->
  state_wf eng_inv eng_own g0 rest a -> (forall e, db g0 e = ∅) ->
  let f := snapshot_file t g in
  zlen f < INT_MAX -> f <> [] -> mjoin chunks = f -> Forall (fun c => 0 < zlen c) chunks ->
  exists g' a', kvs_slave_full_sync sockfd (Sock (Some (kvsp_frame [fullsync_ok (zlen f)]) :: (Some <$> chunks)) out []) g0 a
    = Ok (0, Sock [] (out ++ kvsp_frame [KVS_SYNC_COMMAND] ++ kvsp_frame [KVS_SLAVE_FULLSYNC_READY]) [], g', a') /\
    (forall e, db g' e = db g e) /\ state_wf eng_inv eng_own g' rest a' /\ state_frame eng_own g0 rest a g' rest a'.
Proof.
  intros Hinv Hst Hfd (Hp0 & Hi & Ho) Hempty f Hf Hne Hch Hpos. pose proof (nonempty_pos f Hne) as Hnz. unfold kvs_slave_full_sync.
  rewrite (proj2 (Z.ltb_ge sockfd 0)) by done.
  destruct (obtain_size_ok sockfd (zlen f) (Some <$> chunks) out a Hfd ltac:(lia) Hi) as (a1 & -> & Hi1 & Hl1). run.
  unfold KVS_SYNC_RET_BUSY, KVS_SYNC_RET_ERROR.
  rewrite (proj2 (Z.eqb_neq (zlen f) (-101))), (proj2 (Z.eqb_neq (zlen f) (-100))), (proj2 (Z.eqb_neq (zlen f) 0)), (proj2 (Z.ltb_ge (zlen f) 0)) by lia.
  unfold kvs_slave_obtain_file. rewrite (proj2 (Z.leb_gt (zlen f) 0)), (proj2 (Z.ltb_ge sockfd 0)) by lia. cbn [orb].
  assert (Hwf1 : state_wf eng_inv eng_own g0 rest a1) by (split; [done |]; split; [done |]; by rewrite Hl1).
  destruct (malloc_total (zlen f + 1) a1 ltac:(pos_size)) as (p & a2 & Hm). rewrite Hm.
  destruct (state_take _ _ _ _ _ _ _ _ Hwf1 Hm) as [Hwf2 Hfr2].
  destruct (send_command_ok sockfd KVS_SLAVE_FULLSYNC_READY (Sock (Some <$> chunks) (out ++ kvsp_frame [KVS_SYNC_COMMAND]) []) a2)
    as (a3 & -> & Hi3 & Hl3); [done | vm_compute; congruence | done | apply Hwf2 |].
  run. cbn [Z.eqb negb sk_in sk_out]. rewrite recv_file_ok; [| rewrite length_fmap; lia | done | rewrite Hch; change (zlen []) with 0; lia].
  run. cbn [app]. rewrite Hch, Z.ltb_irrefl. run. cbn [b_str b_addr]. rewrite (proj2 (Z.leb_gt (zlen f) 0)) by lia.
  assert (Hwf3 : state_wf eng_inv eng_own g0 ({[p]} :: rest) a3)
    by (destruct Hwf2 as (? & _ & ?); split; [done |]; split; [done |]; by rewrite Hl3).
  destruct (slave_load_ok sockfd g g0 nl t p f rest (Sock [] (out ++ kvsp_frame [KVS_SYNC_COMMAND] ++ kvsp_frame [KVS_SLAVE_FULLSYNC_READY]) []) a3 Hinv Hst Hwf3 Hempty Hf Hne)
    as (g' & a' & Hload & Hdb & Hwf' & Hfr').
  exists g', a'. rewrite <- app_assoc. split; [exact Hload |]. split; [done |]. split; [done |].
  eapply state_frame_trans; [| exact Hfr']. unfold state_frame in *. rewrite Hl3, Hfr2, Hl1. done.
Qed.

End FullSync.
