(* ===== verification/System.v ===== *)
(** * System: the modules of the running server

    The log, the snapshots and the replication as the command layer sees them:
    the instance of [Modules] the server runs with, and [ModulesLaws] for it. *)

From S2P Require Import Prelude CLib Alloc Protocol ProtocolFacts Engine Owner Uring Log LogFacts Store StoreFacts Save Net Server Sync.
From S2P Require Import Array Hash Skiplist Rbtree.

(** The switches of [kvs_conf_t]. *)
Record switches := Switches { enable_log : Z; enable_save : Z; enable_sync : Z }.

(** The globals of the three modules. *)
Record modules (R : Type) := Modulesof {
  conf : switches;
  mod_log : log_state R;
  mod_save : save_state;
  mod_sync : sync_state
}.
Arguments Modulesof {R}.
Arguments conf {R}.
Arguments mod_log {R}.
Arguments mod_save {R}.
Arguments mod_sync {R}.

Section System.
Context {A R : Type} `{Allocator A} `{Uring R}.
Notation engines := (engines kvs_array_t rbtree kvs_hash_t SkipList).
Notation modules := (modules R).

Definition sys_log (ts : list cptr) (n : Z) (x : modules) (a : A) : res (Z * modules * A) :=
  '(r, l, a) ← kvs_log_write (enable_log (conf x)) ts n (mod_log x) a;
  Ok (r, Modulesof (conf x) l (mod_save x) (mod_sync x), a).

Definition sys_incr (cli : client_info) (ts : list cptr) (n : Z) (x : modules) (a : A) : res (Z * modules * A) :=
  '(r, s, a) ← kvs_master_incr_sync (enable_sync (conf x)) ts n (mod_sync x) a;
  Ok (r, Modulesof (conf x) (mod_log x) (mod_save x) s, a).

Definition sys_save (g : engines) (x : modules) (a : A) : res (Z * modules * A) :=
  let '(r, v, a) := kvs_save_write (enable_save (conf x)) (mod_save x) a in
  Ok (r, Modulesof (conf x) (mod_log x) v (mod_sync x), a).

Definition sys_full (cli : client_info) (g : engines) (x : modules) (a : A) : res (Z * modules * A) :=
  '(r, s, a) ← kvs_master_full_sync (R := R) (enable_sync (conf x)) cli g (mod_sync x) a;
  Ok (r, Modulesof (conf x) (mod_log x) (mod_save x) s, a).

Definition waiters (x : modules) : gset Z := list_to_set (sv_waiters (mod_save x)).

#[export] Instance system_modules : Modules A engines modules := {
  m_log_write := sys_log; m_incr_sync := sys_incr; m_save_write := sys_save; m_full_sync := sys_full;
  m_owned := fun x => log_owned (mod_log x) ∪ waiters x;
  m_inv := fun x => log_inv (mod_log x) /\ log_owned (mod_log x) ## waiters x }.

End System.

Section Laws.
Context {A R : Type} `{AL : AllocatorLaws A} `{TOT : !AllocatorTotal A} `{UL : UringLaws R}.

#[export] Instance system_laws : ModulesLaws A (engines kvs_array_t rbtree kvs_hash_t SkipList) (modules R).
Proof.
  split.
  - intros ts x a ((Hl & Hd) & Hi & Hs) [Hne Hmax]. cbn [m_log_write system_modules m_owned] in *. unfold sys_log.
    destruct (log_write_spec (enable_log (conf x)) ts (mod_log x) a) as (r & l & a' & -> & (Hl' & Hi' & Hs') & Hf & _);
      [split; [done |]; split; [done |]; clear - Hs; set_solver | done | done |].
    run. eexists r, _, a'. split; [done |]. unfold m_wf, m_frame, m_inv, m_owned, system_modules, waiters. cbn [mod_log mod_save].
    unfold waiters in Hd, Hs. revert Hs Hd Hf Hs'. generalize (log_owned (mod_log x)), (log_owned l), (list_to_set (C := gset Z) (sv_waiters (mod_save x))).
    intros o o' w Hs Hd Hf Hs'. assert (Hw : w ⊆ al_live a' ∖ o') by (rewrite Hf; set_solver).
    split; [split; [split; [done |] | split; [done |]] |]; [set_solver | set_solver |].
    rewrite <- !difference_difference_l_L, Hf. done.
  - intros cli ts x a Hwf [Hne Hmax]. cbn [m_incr_sync system_modules]. unfold sys_incr, kvs_master_incr_sync.
    assert (Hpos : 0 < zlen ts) by (destruct ts; [done |]; rewrite zlen_cons; pose proof (zlen_nonneg ts); lia).
    eexists (Modulesof (conf x) (mod_log x) (mod_save x) (mod_sync x)), a. split; [| by destruct x].
    destruct (_ =? 0); [done |]. by rewrite (proj2 (Z.leb_gt (zlen ts) 0)).
Qed.

End Laws.
