(* ===== verification/RecoveryFacts.v ===== *)
(** * RecoveryFacts: what a restart finds

    The requests on the abstract store are functions ([db_apply]); a log of the
    successful writes, replayed from the empty store, gives the contents back,
    and a log cut anywhere gives the contents of an earlier moment. *)

From S2P Require Import Prelude CLib Alloc Protocol ProtocolFacts Engine Owner Uring Log LogFacts Store StoreFacts RequestFacts.
From S2P Require Import Net Server ServerFacts.

(** ** Requests as functions *)

Definition apply_op (full : kvmap -> bool) (o : eop) (m : kvmap) : kvmap :=
  match o with
  | OpSet k v => if full m then m else match m !! k with Some _ => m | None => <[k := v]> m end
  | OpMod k v => match m !! k with Some _ => <[k := v]> m | None => m end
  | OpDel k => delete k m
  | OpGet _ | OpExist _ => m
  end.

Lemma abs_step_apply full absent m o x m' : abs_step False full absent m o x m' -> m' = apply_op full o m.
Proof.
  destruct 1 as [k v r m' Hs | k | k r m' Hs | k v r m' Hs | k r | o k v r [] _ _]; cbn; try done.
  - by destruct Hs as [-> | r v' -> -> | -> ->].
  - destruct Hs as [v Hv | Hn]; [done |]. by rewrite delete_id.
  - by destruct Hs as [v' -> | r -> _].
Qed.

Definition db_apply (full : engine_id -> kvmap -> bool) (q : request) (d : engine_id -> kvmap) (e : engine_id) : kvmap :=
  if decide (e = q.1) then apply_op (full e) q.2 (d e) else d e.

(** The contents after a list of requests, first to last. *)
Fixpoint db_after (full : engine_id -> kvmap -> bool) (qs : list request) (d : engine_id -> kvmap) : engine_id -> kvmap :=
  match qs with [] => d | q :: qs => db_after full qs (db_apply full q d) end.

Lemma db_step_apply full absent q x d d' : db_step full absent q x d d' -> forall e, d' e = db_apply full q d e.
Proof.
  intros [Hs Ho] e. unfold db_apply. destruct (decide (e = q.1)) as [-> |]; [by eapply abs_step_apply | by apply Ho].
Qed.

Lemma db_after_ext full qs : forall d d', (forall e, d e = d' e) -> forall e, db_after full qs d e = db_after full qs d' e.
Proof.
  induction qs as [| q qs IH]; intros d d' Hd e; cbn; [done |]. apply IH. intros e'. unfold db_apply. by rewrite Hd.
Qed.

Lemma db_run_after full absent qs xs d d' : db_run full absent qs xs d d' -> forall e, d' e = db_after full qs d e.
Proof.
  induction 1 as [| q x d d1 qs xs d2 Hs _ IH]; intros e; cbn; [done |].
  rewrite IH. apply db_after_ext. by eapply db_step_apply.
Qed.

(** A property of the stored pairs that the requests introduce. *)
Definition op_stores (P : list Z -> list Z -> Prop) (o : eop) : Prop :=
  match o with OpSet k v | OpMod k v => P k v | _ => True end.

Lemma db_after_pairs full (P : list Z -> list Z -> Prop) qs : forall d,
  Forall (fun q => op_stores P q.2) qs -> (forall e k v, d e !! k = Some v -> P k v) ->
  forall e k v, db_after full qs d e !! k = Some v -> P k v.
Proof.
  induction qs as [| q qs IH]; intros d Hq Hd e k v; cbn; [apply Hd |]. apply Forall_cons in Hq as [Hq Hqs].
  apply IH; [done |]. clear e k v. intros e k v. unfold db_apply. destruct (decide _); [| apply Hd].
  destruct (q.2) as [k' v' | k' | k' | k' v' | k']; cbn in Hq |- *; try apply Hd.
  - destruct (full _ _); [apply Hd |]. destruct (d e !! k') eqn:Hk; [apply Hd |].
    destruct (decide (k' = k)) as [-> |]; rewrite ?lookup_insert_eq, ?lookup_insert_ne by done; [by intros [= <-] | apply Hd].
  - rewrite lookup_delete_Some. intros [_ Hk]. by eapply Hd.
  - destruct (d e !! k') eqn:Hk; [| apply Hd].
    destruct (decide (k' = k)) as [-> |]; rewrite ?lookup_insert_eq, ?lookup_insert_ne by done; [by intros [= <-] | apply Hd].
Qed.

(** ** The successful writes *)

Fixpoint writes (qs : list request) (xs : list eout) : list request :=
  match qs, xs with
  | q :: qs, x :: xs => (if is_write q.2 x then [q] else []) ++ writes qs xs
  | _, _ => []
  end.

(** Requests that may change the contents. *)
Definition changes (o : eop) : Prop := match o with OpSet _ _ | OpMod _ _ | OpDel _ => True | _ => False end.

Lemma is_write_changes o x : is_write o x = true -> changes o.
Proof. by destruct o, x. Qed.

Lemma unwritten full absent m o x m' :
  absent <> 0 -> abs_step False full absent m o x m' -> is_write o x = false -> m' = m.
Proof.
  intros Hab. destruct 1 as [k v r m' Hs | k | k r m' Hs | k v r m' Hs | k r | o k v r [] _ _]; intros Hw; try done;
    destruct Hs; cbn in Hw; try done; by (rewrite (proj2 (Z.eqb_neq _ 0)) in Hw by lia || done).
Qed.

Lemma writes_changes qs : forall xs, Forall (fun q => changes q.2) (writes qs xs).
Proof.
  induction qs as [| q qs IH]; intros [| x xs]; cbn; [constructor.. |]. apply Forall_app. split; [| apply IH].
  destruct (is_write q.2 x) eqn:Hw; [| constructor]. repeat constructor. by eapply is_write_changes.
Qed.

Lemma writes_forall (P : request -> Prop) qs : forall xs, Forall P qs -> Forall P (writes qs xs).
Proof.
  induction qs as [| q qs IH]; intros [| x xs] Hp; cbn; [constructor.. |].
  apply Forall_cons in Hp as [Hq Hp]. apply Forall_app. split; [| by apply IH]. destruct (is_write _ _); by repeat constructor.
Qed.

(** The successful writes alone lead to the same contents. *)
Lemma writes_after full absent qs xs d d' :
  (forall e, absent e <> 0) -> db_run full absent qs xs d d' ->
  forall e, db_after full (writes qs xs) d e = d' e.
Proof.
  intros Hab. induction 1 as [| q x d d1 qs xs d2 Hs _ IH]; intros e; cbn; [done |].
  destruct (is_write q.2 x) eqn:Hw; cbn.
  - rewrite <- IH. apply db_after_ext. intros e'. symmetry. by eapply db_step_apply.
  - rewrite <- IH. apply db_after_ext. intros e'. destruct Hs as [Hs Ho]. destruct (decide (e' = q.1)) as [-> | Hne].
    + symmetry. by eapply unwritten.
    + symmetry. by apply Ho.
Qed.

(** ** A log that was cut *)

Lemma cut_frames cmds k :
  Forall (fun ts => zlen (kvsp_frame ts) <= INT_MAX) cmds ->
  exists n tail, take k (frames cmds) = frames (take n cmds) ++ tail /\ torn tail /\ (n <= length cmds)%nat /\
    ((length (frames cmds) <= k)%nat -> n = length cmds).
Proof.
  intros Hc. revert k. induction Hc as [| ts cmds Hts _ IH]; intros k.
  - exists 0%nat, []. cbn. rewrite take_nil. split; [done |]. split; [by left | done].
  - change (frames (ts :: cmds)) with (kvsp_frame ts ++ frames cmds). destruct (decide (length (kvsp_frame ts) <= k)%nat) as [Hle | Hgt].
    + destruct (IH (k - length (kvsp_frame ts))%nat) as (n & tail & Ht & Htorn & Hn & Hall). exists (S n), tail.
      rewrite take_app_ge by done. rewrite Ht. cbn [take]. change (frames (ts :: take n cmds)) with (kvsp_frame ts ++ frames (take n cmds)).
      rewrite <- app_assoc. split; [done |]. split; [done |]. split; [cbn; lia |]. intros Hk. rewrite length_app in Hk. cbn. f_equal.
      apply Hall. lia.
    + exists 0%nat, (take k (kvsp_frame ts)). rewrite take_app_le by lia. split; [done |]. split.
      * destruct k as [| k]; [by left |]. right. exists ts, (Z.of_nat (S k)). rewrite Nat2Z.id. split; [done |]. split; [done |].
        unfold zlen. lia.
      * split; [cbn; lia |]. rewrite length_app. intros Hk. lia.
Qed.

Lemma take_writes qs : forall xs n, length qs = length xs ->
  exists m, take n (writes qs xs) = writes (take m qs) (take m xs) /\ (m <= length qs)%nat /\
    (n = length (writes qs xs) -> m = length qs).
Proof.
  induction qs as [| q qs IH]; intros [| x xs] n Hl; cbn in Hl; try done.
  - exists 0%nat. cbn. by rewrite take_nil.
  - injection Hl as Hl. cbn [writes]. destruct (is_write q.2 x) eqn:Hw; cbn [app].
    + destruct n as [| n]; [exists 0%nat; split; [done |]; cbn; lia |]. destruct (IH xs n Hl) as (m & Hm & Hle & Hall).
      exists (S m). cbn. rewrite Hw, Hm. split; [done |]. split; [lia |]. intros [= Hn]. f_equal. auto.
    + destruct (IH xs n Hl) as (m & Hm & Hle & Hall). exists (S m). cbn. rewrite Hw, Hm. split; [done |]. split; [lia |].
      intros Hn. f_equal. auto.
Qed.

Lemma writes_prefix qs : forall xs n, exists m, writes (take n qs) (take n xs) = take m (writes qs xs) /\
  (m <= length (writes qs xs))%nat.
Proof.
  induction qs as [| q qs IH]; intros [| x xs] [| n]; try (exists 0%nat; cbn; split; [done | lia]).
  destruct (IH xs n) as (m & Hm & Hle). cbn [take writes]. rewrite Hm. destruct (is_write q.2 x); cbn [app].
  - exists (S m). cbn. split; [done | lia].
  - exists m. done.
Qed.

Lemma writes_frames qs : forall xs, zlen (frames (tokens_of <$> writes qs xs)) <= zlen (frames (tokens_of <$> qs)).
Proof.
  induction qs as [| q qs IH]; intros [| x xs]; cbn [writes fmap list_fmap]; [done.. | apply zlen_nonneg |].
  change (frames (tokens_of q :: (tokens_of <$> qs))) with (kvsp_frame (tokens_of q) ++ frames (tokens_of <$> qs)).
  specialize (IH xs). pose proof (zlen_nonneg (kvsp_frame (tokens_of q))). rewrite fmap_app. unfold frames in *. rewrite bind_app, !zlen_app.
  destruct (is_write q.2 x); cbn [fmap list_fmap mbind list_bind app]; rewrite ?app_nil_r; [lia |]. rewrite zlen_nil. lia.
Qed.

Lemma writes_length qs : forall xs, (length (writes qs xs) <= length qs)%nat.
Proof.
  induction qs as [| q qs IH]; intros [| x xs]; cbn; try lia. rewrite length_app. specialize (IH xs).
  destruct (is_write _ _); cbn; lia.
Qed.

Lemma tokens_of_inj q q' : tokens_of q = tokens_of q' -> q = q'.
Proof.
  destruct q as [e o], q' as [e' o']. destruct e, e', o, o'; cbn; intros Heq; try discriminate Heq; injection Heq; intros; by subst.
Qed.

(** ** A log replayed over a snapshot

    The log is replayed from its beginning over a snapshot taken in the middle
    of it. Key by key: the first write to a key is a SET, which a snapshot that
    has the key ignores; the next MOD or DEL brings both states together. *)

Section Keys.
Context (e : engine_id) (k : list Z).

Definition concerns (q : request) : bool := bool_decide (q.1 = e /\ op_key q.2 = k).

Definition key_step (q : request) (s : option (list Z)) : option (list Z) :=
  if concerns q then
    match q.2 with
    | OpSet _ v => match s with Some _ => s | None => Some v end
    | OpMod _ v => match s with Some _ => Some v | None => None end
    | OpDel _ => None
    | OpGet _ | OpExist _ => s
    end
  else s.

Fixpoint key_after (ws : list request) (s : option (list Z)) : option (list Z) :=
  match ws with [] => s | q :: ws => key_after ws (key_step q s) end.

(** The write took effect: a SET of an absent key, a MOD or DEL of a present
    one. *)
Definition took (o : eop) (s : option (list Z)) : Prop :=
  match o with OpSet _ _ => s = None | OpMod _ _ | OpDel _ => is_Some s | _ => True end.

Fixpoint all_took (ws : list request) (s : option (list Z)) : Prop :=
  match ws with
  | [] => True
  | q :: ws => (concerns q = true -> took q.2 s) /\ all_took ws (key_step q s)
  end.

Lemma resync ws : forall u s, all_took ws (Some u) ->
  key_after ws (Some s) = key_after ws (Some u) \/
  key_after ws (Some s) = Some s /\ forall n, key_after (take n ws) (Some u) = Some u.
Proof.
  induction ws as [| q ws IH]; intros u s Ht; cbn [key_after].
  - right. split; [done |]. intros n. by rewrite take_nil.
  - destruct Ht as [Hq Ht].
    assert (Hskip : key_step q (Some u) = Some u -> key_step q (Some s) = Some s ->
      key_after ws (key_step q (Some s)) = key_after ws (key_step q (Some u)) \/
      key_after ws (key_step q (Some s)) = Some s /\ forall n, key_after (take n (q :: ws)) (Some u) = Some u).
    { intros H1 H2. rewrite H1 in Ht |- *. rewrite H2. destruct (IH u s Ht) as [| [H3 H4]]; [by left | right].
      split; [done |]. intros [| n]; cbn; [done |]. by rewrite H1. }
    unfold key_step in *. destruct (concerns q); [| by apply Hskip].
    destruct (q.2); try (by left); try (by apply Hskip).
Qed.

Lemma key_over_snapshot ws : forall n, all_took ws None -> key_after ws (key_after (take n ws) None) = key_after ws None.
Proof.
  induction ws as [| q ws IH]; intros [| n] Ht; [done.. |]. cbn [take key_after]. destruct Ht as [Hq Ht].
  unfold key_step in *. destruct (concerns q); [| by apply IH]. specialize (Hq eq_refl).
  destruct (q.2) as [k' v | k' | k' | k' v | k']; cbn [took] in Hq; try (by apply IH); try (by destruct Hq).
  destruct (key_after (take n ws) (Some v)) as [s |] eqn:Hs; [| done].
  destruct (resync ws v s Ht) as [-> | [_ Hn]]; [done |]. rewrite Hn in Hs. by injection Hs as ->.
Qed.

End Keys.

(** The contents key by key, for engines that are never full. *)
Definition never_full (e : engine_id) (m : kvmap) : bool := false.

Lemma db_apply_key q d e k : db_apply never_full q d e !! k = key_step e k q (d e !! k).
Proof.
  unfold db_apply, key_step, concerns. destruct (decide (e = q.1)) as [-> | Hne].
  - destruct (q.2) as [k' v | k' | k' | k' v | k'] eqn:Ho; cbn [apply_op never_full op_key]; case_bool_decide as Hk;
      try (destruct Hk as [_ ->]); try (assert (k' <> k) by naive_solver); repeat case_match; simplify_map_eq; try done.
  - case_bool_decide as Hk; [naive_solver | done].
Qed.

Lemma db_after_key ws : forall d e k, db_after never_full ws d e !! k = key_after e k ws (d e !! k).
Proof. induction ws as [| q ws IH]; intros d e k; cbn; [done |]. by rewrite IH, db_apply_key. Qed.

Lemma size_apply full o m : (size (apply_op full o m) <= S (size m))%nat.
Proof.
  destruct o as [k v | k | k | k v | k]; cbn; repeat case_match; rewrite ?map_size_insert, ?map_size_delete;
    repeat case_match; cbn; lia.
Qed.

Lemma size_after full ws : forall d e, (size (db_after full ws d e) <= size (d e) + length ws)%nat.
Proof.
  induction ws as [| q ws IH]; intros d e; cbn; [lia |]. specialize (IH (db_apply full q d) e). etrans; [exact IH |].
  unfold db_apply. destruct (decide _); [| lia]. pose proof (size_apply (full e) q.2 (d e)). lia.
Qed.

Lemma db_after_never_full full N ws : forall d,
  (forall e (m : kvmap), (size m < N)%nat -> full e m = false) -> (forall e, (size (d e) + length ws <= N)%nat) ->
  forall e, db_after full ws d e = db_after never_full ws d e.
Proof.
  induction ws as [| q ws IH]; intros d Hf Hs e; cbn [db_after]; [done |].
  assert (Hq : forall e', db_apply full q d e' = db_apply never_full q d e').
  { intros e'. unfold db_apply. destruct (decide _); [| done]. cbn in Hs. specialize (Hs e').
    destruct (q.2); cbn; [| done..]. by rewrite Hf by lia. }
  rewrite (db_after_ext full ws _ _ Hq). apply IH; [done |]. intros e'. specialize (Hs e'). cbn in Hs.
  unfold db_apply. destruct (decide _); [| lia]. pose proof (size_apply (never_full e') q.2 (d e')). lia.
Qed.

Lemma writes_took full absent qs xs d d' e k :
  (forall e, absent e <> 0) -> db_run full absent qs xs d d' ->
  all_took e k (writes qs xs) (d e !! k).
Proof.
  intros Hab Hrun. induction Hrun as [| q x d d1 qs xs d2 [Hs Ho] _ IH]; cbn; [done |].
  assert (Hsame : is_write q.2 x = false -> d1 e = d e).
  { intros Hw. destruct (decide (e = q.1)) as [-> | Hne]; [by eapply unwritten | by apply Ho]. }
  destruct (is_write q.2 x) eqn:Hw; cbn [app all_took]; [| by rewrite <- Hsame].
  assert (Htook : concerns e k q = true -> took q.2 (d e !! k) /\ d1 e !! k = key_step e k q (d e !! k)).
  { intros Hc. unfold key_step. rewrite Hc. apply bool_decide_eq_true in Hc as [<- <-].
    destruct Hs as [k' v r m' Hs | k' | k' r m' Hs | k' v r m' Hs | k' r | o k' v r [] _ _]; try done; cbn in Hw |- *;
      destruct Hs; cbn in Hw; try done; try (by rewrite (proj2 (Z.eqb_neq _ 0)) in Hw by (done || lia));
      simplify_map_eq; try done; eauto. }
  split; [intros Hc; by apply Htook |]. replace (key_step e k q (d e !! k)) with (d1 e !! k); [exact IH |].
  destruct (concerns e k q) eqn:Hc; [by apply Htook |]. unfold key_step. rewrite Hc.
  destruct (decide (e = q.1)) as [-> | Hne]; [| by rewrite Ho].
  rewrite (abs_step_apply _ _ _ _ _ _ Hs). apply bool_decide_eq_false in Hc.
  destruct (q.2) as [k' v | k' | k' | k' v | k']; cbn in Hc |- *; assert (k' <> k) by naive_solver; repeat case_match; by simplify_map_eq.
Qed.

(** ** Replaying a log *)

Section Replay.
Context {A TA TR TH TL X : Type} `{AL : AllocatorLaws A} `{TOT : !AllocatorTotal A}.
Context `{EA : !Engine A TA} `{ER : !Engine A TR} `{EH : !Engine A TH} `{EL : !Engine A TL}.
Context `{LA : !EngineLaws A TA} `{LR : !EngineLaws A TR} `{LH : !EngineLaws A TH} `{LL : !EngineLaws A TL}.
Notation engines := (engines TA TR TH TL).
Notation store := (store TA TR TH TL X).
Context `{MX : !Modules A engines X} `{ML : !ModulesLaws A engines X}.

Notation dfull := (db_full_of (TA := TA) (TR := TR) (TH := TH) (TL := TL)).
Notation dabsent := (db_absent_of (TA := TA) (TR := TR) (TH := TH) (TL := TL)).

Lemma db_absent_nonzero e : dabsent e <> 0.
Proof. destruct e; apply del_absent_nonzero. Qed.

Definition replay_ok (ts : list (list Z)) (st : store) : Prop :=
  is_recovering st = 1 /\ exists q, ts = tokens_of q /\ request_ok q /\ changes q.2.

Definition replay_step (ts : list (list Z)) (st st' : store) : Prop :=
  is_recovering st' = is_recovering st /\ mods st' = mods st /\
  forall q, ts = tokens_of q -> forall e, db (eng st') e = db_apply dfull q (db (eng st)) e.

(** [kvs_protocol] as the handler of [kvs_file_read]. *)
Lemma protocol_handles : handles store_good store_blocks kvs_protocol replay_ok replay_step.
Proof.
  intros ts rest cli st a extra [Hrec (q & -> & Hq & Hch)] [F1 F2 F3 F4 F5 F6] Hr Htl Hhl Hwf.
  assert (Hc : cli_wf cli) by (split; unfold BUFFER_SIZE in *; lia).
  destruct (protocol_run q extra st rest cli a) as (x & b & c & st1 & a1 & -> & Hdb & Hrec1 & Hrcd & [Hlen _] & (R1 & R2 & R3 & R4 & R5) & Hwf1 & Hf1);
    [done | by apply store_state | done | | done | done | done | done |].
  { rewrite F3. split; [vm_compute; congruence |]. intros k v Ho. by rewrite Ho in Hch. }
  pose proof (gr_eq _ _ R2) as Heq. exists (zlen (reply_of q x)), c, st1, a1. split; [done |]. split; [apply zlen_nonneg |].
  assert (Hshort : zlen (reply_of q x) <= 32).
  { destruct q as [e o]. unfold reply_of, reply_text. destruct Hdb as [Hs _]. cbn [fst snd] in *.
    destruct o; cbn in Hch; try done; inversion Hs; subst; try done; cbn [result_of changed c_reply c_value];
      unfold reply_set, reply_change; repeat case_match; vm_compute; congruence. }
  split.
  { rewrite Heq. cbn in R4 |- *. destruct R1 as [Q1 Q2 Q3]. rewrite F2, F3 in R4. unfold BUFFER_SIZE in *.
    assert (Hwc : w_cap c = 1024). { pose proof (gr_cap _ _ R2) as Hg. cbn in Hg. rewrite F3 in Hg. lia. }
    split; cbn; try done; unfold BUFFER_SIZE; lia. }
  split; [by rewrite Heq |]. split.
  { split; [done |]. split.
    - unfold recorded in Hrcd. rewrite Hrec in Hrcd. change (1 =? 0) with false in Hrcd. by rewrite andb_false_r in Hrcd.
    - intros q' Hq'. apply tokens_of_inj in Hq' as <-. by eapply db_step_apply. }
  split; [by apply store_state |]. by apply store_state_frame.
Qed.

Lemma replay_admits ws : forall st, is_recovering st = 1 -> Forall request_ok ws -> Forall (fun q => changes q.2) ws ->
  admits replay_ok replay_step (tokens_of <$> ws) st.
Proof.
  induction ws as [| q ws IH]; intros st Hr Hok Hch; cbn; [done |].
  apply Forall_cons in Hok as [Hq Hok]. apply Forall_cons in Hch as [Hc Hch]. split; [split; [done |]; by exists q |].
  intros st' (Hr' & _). apply IH; [congruence | done | done].
Qed.

Lemma replay_after ws : forall st st', steps replay_step (tokens_of <$> ws) st st' ->
  is_recovering st' = is_recovering st /\ mods st' = mods st /\ forall e, db (eng st') e = db_after dfull ws (db (eng st)) e.
Proof.
  induction ws as [| q ws IH]; intros st st' Hs; inversion Hs as [| ? ? st1 ? ? H1 H2]; subst; [done |].
  destruct (IH st1 st' H2) as (I1 & I2 & I3). destruct H1 as (J1 & J2 & J3). split; [congruence |]. split; [congruence |].
  intros e. rewrite I3. cbn. apply db_after_ext. by apply J3.
Qed.

(** [kvs_log_init] on a file of writes, up to where the reading stops. *)
Lemma log_init_run {R} `{UL : UringLaws R} fd ws tail rest (l : log_state R) st a :
  0 <= fd -> Forall request_ok ws -> Forall (fun q => changes q.2) ws -> stops tail ->
  let file := frames (tokens_of <$> ws) ++ tail in
  zlen file < INT_MAX -> store_wf st rest a -> is_recovering st = 1 ->
  exists l' st' a', kvs_log_init 1 (LogEnv fd true true file) kvs_protocol l st a = Ok (0, l', st', a') /\
    (forall e, db (eng st') e = db_after dfull ws (db (eng st)) e) /\ is_recovering st' = 1 /\ mods st' = mods st /\
    fd_log l' = fd /\ ring_log_inited l' = 1 /\ ring_log l' = u_init file /\
    (global_log_offset l' = zlen file \/ file = [] /\ global_log_offset l' = global_log_offset l) /\
    store_wf st' rest a' /\ store_frame st rest a st' rest a'.
Proof.
  intros Hfd Hok Hch Htorn file Hmax Hwf Hrec. unfold kvs_log_init. cbn [Z.eqb le_fd le_fstat le_mmap le_file negb].
  rewrite (proj2 (Z.ltb_ge fd 0)) by done.
  destruct (file_read_spec store_good store_blocks kvs_protocol replay_ok replay_step rest (tokens_of <$> ws) tail st a)
    as (ret & st' & a' & Hread & Hst & Hwf' & Hfr & _);
    [apply protocol_handles | by apply replay_admits | done | done | by apply store_state |].
  fold file in Hread. destruct (replay_after ws st st' Hst) as (H1 & H2 & H3).
  destruct (Z.leb_spec (zlen file) 0) as [Hz | Hnz].
  - assert (Hnil : file = []) by (apply length_zero_iff_nil; unfold zlen in Hz; lia).
    revert Hread. unfold kvs_file_read. rewrite Hnil. cbn [zlen length Z.of_nat Z.eqb]. intros [= <- <- <-].
    eexists _, st, a. split; [done |]. split; [done |]. do 2 (split; [done |]). do 3 (split; [done |]). split; [by right |]. done.
  - rewrite Hread. run. eexists _, st', a'. split; [done |]. cbn. split; [done |]. split; [congruence |]. split; [done |].
    do 3 (split; [done |]). split; [by left |]. split; [by apply store_state | by apply store_state_frame].
Qed.

End Replay.
