(* ===== verification/Config.v ===== *)
(** * Config: the configuration file (kvstore.c)

    [kvs_config_init] reads the file line by line, cuts a key and a value out of
    each with [strtok], and stores the values of the keys it knows. The file is
    a list of bytes, or absent. *)

From S2P Require Import Prelude CLib Alloc Engine Uring Store System.

Definition IPV4_MAX_STR_LEN : Z := 16.
Definition PORT_MAX_STR_LEN : Z := 6.
Definition CONF_BUFFER_SIZE : Z := 1024.

(** [kvs_conf_t]; the character arrays are lists of their size. *)
Record kvs_conf_t := Conf {
  cf_switches : switches;
  master_ip : list Z;
  master_port : Z;
  mode : Z;
  port : Z;
  rdma_port : list Z;
  agent_ip : list Z;
  agent_port : Z
}.

(** The zeroed global [global_config]. *)
Definition zero_conf : kvs_conf_t :=
  Conf (Switches 0 0 0) (replicate (Z.to_nat IPV4_MAX_STR_LEN) 0) 0 0 0
    (replicate (Z.to_nat PORT_MAX_STR_LEN) 0) (replicate (Z.to_nat IPV4_MAX_STR_LEN) 0) 0.

(** [configuation], in the order of the enumeration that follows it. *)
Definition configuation : list (list Z) :=
  [BS "ENABLE_MODULE_SYNC"; BS "ENABLE_MODULE_LOG"; BS "ENABLE_MODULE_SAVE"; BS "Master_ip"; BS "Master_port";
   BS "Mode"; BS "Port"; BS "Rdma_port"; BS "Agent_ip"; BS "Agent_port"].

(** ** The C library *)

(** [fgets (buf, n + 1, fp)]: the bytes up to and including the next newline, at
    most [n], and the rest of the file. *)
Fixpoint fgets (n : nat) (file : list Z) : list Z * list Z :=
  match n, file with
  | O, _ | _, [] => ([], file)
  | S n, c :: file =>
      if c =? LF then ([c], file) else let '(l, rest) := fgets n file in (c :: l, rest)
  end.

(** [strtok] on the rest of a string: a token, and what a next call sees. *)
Fixpoint skip_delim (delim s : list Z) : list Z :=
  match s with
  | c :: s' => if bool_decide (c ∈ delim) then skip_delim delim s' else s
  | [] => []
  end.

Fixpoint token (delim s : list Z) : list Z * list Z :=
  match s with
  | [] => ([], [])
  | c :: s' => if bool_decide (c ∈ delim) then ([], s') else let '(t, rest) := token delim s' in (c :: t, rest)
  end.

Definition strtok (delim s : list Z) : option (list Z) * list Z :=
  match skip_delim delim s with
  | [] => (None, [])
  | s => let '(t, rest) := token delim s in (Some t, rest)
  end.

(** [atoi] of a string; undefined for NULL. *)
Definition atoi_str (s : option (list Z)) : res Z :=
  match s with Some s => atoi (s ++ [0]) 0 | None => Undef end.

(** [strncpy (dst, value, strlen (value) + 1)] *)
Definition copy_str (dst : list Z) (value : option (list Z)) : res (list Z) :=
  match value with Some s => wr_range dst 0 (s ++ [0]) | None => Undef end.

(** ** [kvs_config_init] *)

(** The [switch] on the index of the key. *)
Definition conf_set (temp : Z) (value : option (list Z)) (c : kvs_conf_t) : res kvs_conf_t :=
  let '(Conf sw mip mport md pt rport aip aport) := c in
  let '(Switches l sv sy) := sw in
  if temp =? 0 then n ← atoi_str value; Ok (Conf (Switches l sv n) mip mport md pt rport aip aport)
  else if temp =? 1 then n ← atoi_str value; Ok (Conf (Switches n sv sy) mip mport md pt rport aip aport)
  else if temp =? 2 then n ← atoi_str value; Ok (Conf (Switches l n sy) mip mport md pt rport aip aport)
  else if temp =? 3 then s ← copy_str mip value; Ok (Conf sw s mport md pt rport aip aport)
  else if temp =? 4 then n ← atoi_str value; Ok (Conf sw mip n md pt rport aip aport)
  else if temp =? 5 then n ← atoi_str value; Ok (Conf sw mip mport n pt rport aip aport)
  else if temp =? 6 then n ← atoi_str value; Ok (Conf sw mip mport md n rport aip aport)
  else if temp =? 7 then s ← copy_str rport value; Ok (Conf sw mip mport md pt s aip aport)
  else if temp =? 8 then s ← copy_str aip value; Ok (Conf sw mip mport md pt rport s aport)
  else if temp =? 9 then n ← atoi_str value; Ok (Conf sw mip mport md pt rport aip n)
  else Ok c.

(** The index of a key, the number of keys for an unknown one. *)
Definition conf_key (key : list Z) : Z :=
  match find_idx (fun k => strcmp key k =? 0) configuation with
  | Some (i, _) => Z.of_nat i
  | None => zlen configuation
  end.

(** One line of the file. *)
Definition conf_line (line : list Z) (c : kvs_conf_t) : res kvs_conf_t :=
  s ← cstr_of (line ++ [0]);
  let '(key, s) := strtok (BS " " ++ [LF]) s in
  let '(value, s) := strtok (BS "= " ++ [LF]) s in
  match key with
  | None => Ok c
  | Some key => conf_set (conf_key key) value c
  end.

(** The loop over the lines; a line has at least one byte, so the length of the
    file bounds their number. *)
Fixpoint conf_lines (fuel : nat) (file : list Z) (c : kvs_conf_t) : res kvs_conf_t :=
  match file with
  | [] => Ok c
  | _ =>
      match fuel with
      | O => NoFuel
      | S fuel =>
          let '(line, file) := fgets (Z.to_nat (CONF_BUFFER_SIZE - 1)) file in
          c ← conf_line line c; conf_lines fuel file c
      end
  end.

Definition kvs_config_init (file : option (list Z)) (c : kvs_conf_t) : res (Z * kvs_conf_t) :=
  match file with
  | None => Ok (-2, c)
  | Some file => c ← conf_lines (length file) file c; Ok (0, c)
  end.

(** The configuration of the running server, the switches of the modules
    included: the first step of [kvs_init], which does not test the result. *)
Definition with_config {R} (file : option (list Z)) (x : modules R) : res (kvs_conf_t * modules R) :=
  '(_, c) ← kvs_config_init file zero_conf;
  Ok (c, Modulesof (cf_switches c) (mod_log x) (mod_save x) (mod_sync x)).
