(* ===== verification/ConfigFacts.v ===== *)
(** * ConfigFacts: the values the configuration file gives

    A file of lines [key = value], with comments, empty lines and unknown keys,
    sets every parameter to the value of its last line. *)

From S2P Require Import Prelude CLib Alloc Protocol ProtocolFacts RespFacts Engine Uring Store System Config.

(** ** Lines of settings *)

(** A line [key = value], with a comment behind the value. *)
Definition setting (key value comment : list Z) : list Z :=
  key ++ BS " = " ++ value ++ (if bool_decide (comment = []) then [] else BS " " ++ comment) ++ [LF].

Definition word (s : list Z) : Prop := s <> [] /\ Forall (fun c => c <> 0 /\ c <> 32 /\ c <> 61 /\ c <> LF) s.
Definition text (s : list Z) : Prop := Forall (fun c => c <> 0 /\ c <> LF) s.

Lemma fgets_line n l rest :
  Forall (fun c => c <> LF) l -> (length l < n)%nat -> fgets n (l ++ LF :: rest) = (l ++ [LF], rest).
Proof.
  intros Hl. revert n. induction Hl as [| c l Hc _ IH]; intros [| n] Hn; cbn [length] in Hn; try lia; cbn [fgets app].
  - done.
  - rewrite (proj2 (Z.eqb_neq c LF)) by done. by rewrite IH by lia.
Qed.

Lemma token_word delim s rest c :
  Forall (fun x => x ∉ delim) s -> c ∈ delim -> token delim (s ++ c :: rest) = (s, rest).
Proof.
  intros Hs Hc. induction Hs as [| x s Hx _ IH]; cbn [token app].
  - by rewrite bool_decide_true.
  - rewrite bool_decide_false by done. by rewrite IH.
Qed.

Lemma strtok_word delim pre s rest c :
  Forall (fun x => x ∈ delim) pre -> s <> [] -> Forall (fun x => x ∉ delim) s -> c ∈ delim ->
  strtok delim (pre ++ s ++ c :: rest) = (Some s, rest).
Proof.
  intros Hpre Hne Hs Hc. unfold strtok.
  assert (skip_delim delim (pre ++ s ++ c :: rest) = s ++ c :: rest) as ->.
  { induction Hpre as [| x pre Hx _ IH]; cbn [app skip_delim]; [| by rewrite bool_decide_true].
    destruct s as [| y s]; [done |]. cbn. rewrite bool_decide_false; [done |]. by apply Forall_cons in Hs as [? _]. }
  destruct s as [| y s]; [done |]. cbn [app]. change (y :: s ++ c :: rest) with ((y :: s) ++ c :: rest).
  by rewrite token_word.
Qed.

(** The parts [strtok] sees of a line. *)
Lemma setting_parts key value comment :
  exists d rest, setting key value comment = key ++ 32 :: ([61; 32] ++ value ++ d :: rest) /\ (d = 32 \/ d = LF).
Proof.
  unfold setting. case_bool_decide.
  - exists LF, []. auto.
  - exists 32, (comment ++ [LF]). auto.
Qed.

Lemma word_free delim s : delim ⊆ [32; 61; LF] -> word s -> Forall (fun x => x ∉ delim) s.
Proof.
  intros Hd [_ Hs]. eapply Forall_impl; [exact Hs |]. cbn. intros x (? & ? & ? & ?) Hx%Hd. set_solver.
Qed.

Lemma setting_nul_free key value comment :
  word key -> word value -> text comment -> nul_free (setting key value comment).
Proof.
  intros [_ Hk] [_ Hv] Hc. unfold nul_free, setting.
  rewrite !Forall_app. split_and!; [by eapply Forall_impl; [exact Hk | naive_solver] | by repeat constructor |
    by eapply Forall_impl; [exact Hv | naive_solver] | | by repeat constructor].
  case_bool_decide; [constructor |]. rewrite Forall_app. split; [by repeat constructor |].
  by eapply Forall_impl; [exact Hc | naive_solver].
Qed.

(** A line of a setting stores its value. *)
Lemma setting_run key value comment c :
  word key -> word value -> text comment ->
  conf_line (setting key value comment) c = conf_set (conf_key key) (Some value) c.
Proof.
  intros Hk Hv Hc. unfold conf_line. rewrite cstr_of_app by (by apply setting_nul_free). run.
  destruct (setting_parts key value comment) as (d & rest & -> & Hd).
  rewrite (strtok_word _ [] key ([61; 32] ++ value ++ d :: rest) 32); [| constructor | apply Hk | | set_solver].
  - rewrite (strtok_word _ [61; 32] value rest d); [done | | apply Hv | |].
    + repeat constructor; cbn; set_solver.
    + apply word_free; [| done]. cbn. set_solver.
    + cbn. destruct Hd as [-> | ->]; set_solver.
  - apply word_free; [| done]. cbn. set_solver.
Qed.

(** ** Files *)

Inductive value := Num (n : Z) | Str (s : list Z).

Definition value_text (v : value) : list Z := match v with Num n => dec n | Str s => s end.

(** A line of the file: a parameter by its index in [configuation], another key,
    or an empty line. *)
Inductive entry :=
| Param (i : Z) (v : value) (comment : list Z)
| Other (key v comment : list Z)
| Blank.

Definition key_of (i : Z) : list Z := configuation !!! Z.to_nat i.

Definition entry_line (e : entry) : list Z :=
  match e with
  | Param i v comment => setting (key_of i) (value_text v) comment
  | Other key v comment => setting key v comment
  | Blank => [LF]
  end.

Definition str_size (i : Z) : Z := if i =? 7 then PORT_MAX_STR_LEN else IPV4_MAX_STR_LEN.
Definition is_str (i : Z) : bool := (i =? 3) || (i =? 7) || (i =? 8).

Definition value_ok (i : Z) (v : value) : Prop :=
  match v with
  | Num n => is_str i = false /\ 0 <= n <= INT_MAX
  | Str s => is_str i = true /\ word s /\ zlen s < str_size i
  end.

Definition entry_ok (e : entry) : Prop :=
  zlen (entry_line e) < CONF_BUFFER_SIZE /\
  match e with
  | Param i v comment => 0 <= i < zlen configuation /\ value_ok i v /\ text comment
  | Other key v comment => word key /\ key ∉ configuation /\ word v /\ text comment
  | Blank => True
  end.

(** The value of a parameter: a number, or the string in an array. *)
Definition str_of (arr : list Z) : value := Str (match cstr_of arr with Ok s => s | _ => [] end).

Definition conf_get (i : Z) (c : kvs_conf_t) : value :=
  if i =? 0 then Num (enable_sync (cf_switches c)) else if i =? 1 then Num (enable_log (cf_switches c))
  else if i =? 2 then Num (enable_save (cf_switches c)) else if i =? 3 then str_of (master_ip c)
  else if i =? 4 then Num (master_port c) else if i =? 5 then Num (mode c) else if i =? 6 then Num (port c)
  else if i =? 7 then str_of (rdma_port c) else if i =? 8 then str_of (agent_ip c) else Num (agent_port c).

(** The value of the last line of a parameter, [d] without one. *)
Fixpoint last_value (i : Z) (es : list entry) (d : value) : value :=
  match es with
  | [] => d
  | Param j v _ :: es => last_value i es (if i =? j then v else d)
  | _ :: es => last_value i es d
  end.

Definition conf_shape (c : kvs_conf_t) : Prop :=
  zlen (master_ip c) = IPV4_MAX_STR_LEN /\ zlen (rdma_port c) = PORT_MAX_STR_LEN /\ zlen (agent_ip c) = IPV4_MAX_STR_LEN.

Lemma index_cases i : 0 <= i < zlen configuation ->
  i = 0 \/ i = 1 \/ i = 2 \/ i = 3 \/ i = 4 \/ i = 5 \/ i = 6 \/ i = 7 \/ i = 8 \/ i = 9.
Proof. change (zlen configuation) with 10. lia. Qed.

Lemma key_of_ok i : 0 <= i < zlen configuation -> word (key_of i) /\ conf_key (key_of i) = i.
Proof.
  intros Hi. destruct (index_cases i Hi) as [-> | [-> | [-> | [-> | [-> | [-> | [-> | [-> | [-> | ->]]]]]]]]];
    (split; [split; [done | apply Forall_forall; intros c Hc; vm_compute in Hc; set_solver by lia] | done]).
Qed.

Lemma conf_key_other key : key ∉ configuation -> conf_key key = zlen configuation.
Proof.
  intros Hn. unfold conf_key. destruct (find_idx _ configuation) as [[j k] |] eqn:Hf; [exfalso | done].
  apply find_idx_some in Hf as (l1 & l2 & Hl & _ & Hk & _). apply Z.eqb_eq, strcmp_eq in Hk as <-.
  apply Hn. rewrite Hl. set_solver.
Qed.

Lemma conf_set_other value c : conf_set (zlen configuation) value c = Ok c.
Proof. by destruct c as [[] ? ? ? ? ? ? ?]. Qed.

Lemma atoi_num n : 0 <= n <= INT_MAX -> atoi_str (Some (dec n)) = Ok n.
Proof. intros Hn. exact (atoi_dec [] n 0 [] Hn eq_refl). Qed.

Lemma copy_str_run dst s : zlen s < zlen dst -> exists rest, copy_str dst (Some s) = Ok (s ++ 0 :: rest) /\ zlen (s ++ 0 :: rest) = zlen dst.
Proof.
  intros Hs. exists (drop (length (s ++ [0])) dst). unfold copy_str.
  assert (Hw : wr_range dst 0 (s ++ [0]) = Ok (s ++ 0 :: drop (length (s ++ [0])) dst)).
  { unfold wr_range. autorewrite with zlen. change (0 <=? 0) with true.
    rewrite (proj2 (Z.leb_le _ (zlen dst))) by lia. cbn [andb]. change (Z.to_nat 0) with 0%nat.
    rewrite take_0, Nat.add_0_l. cbn [app]. by rewrite <- app_assoc. }
  split; [done |]. by apply wr_range_length in Hw.
Qed.

Lemma str_of_run s rest : word s -> str_of (s ++ 0 :: rest) = Str s.
Proof.
  intros [_ Hs]. unfold str_of. rewrite cstr_of_app; [done |]. eapply Forall_impl; [exact Hs | naive_solver].
Qed.

(** One parameter is set, the others stay. *)
Lemma conf_set_run i v c :
  0 <= i < zlen configuation -> value_ok i v -> conf_shape c ->
  exists c', conf_set i (Some (value_text v)) c = Ok c' /\ conf_shape c' /\
    forall j, 0 <= j < zlen configuation -> conf_get j c' = if j =? i then v else conf_get j c.
Proof.
  intros Hi Hv (H1 & H2 & H3). destruct c as [[l sv sy] mip mport md pt rport aip aport]. cbn in H1, H2, H3.
  assert (Hget : forall (x : kvs_conf_t), let y := Conf (Switches l sv sy) mip mport md pt rport aip aport in
    Forall (fun j => conf_get j x = if j =? i then v else conf_get j y) [0; 1; 2; 3; 4; 5; 6; 7; 8; 9] ->
    forall j, 0 <= j < zlen configuation -> conf_get j x = if j =? i then v else conf_get j y).
  { intros x y Hall j Hjr. rewrite Forall_forall in Hall. apply Hall.
    destruct (index_cases j Hjr) as [-> | [-> | [-> | [-> | [-> | [-> | [-> | [-> | [-> | ->]]]]]]]]]; set_solver. }
  destruct v as [n | s].
  - destruct Hv as [Hnum Hn]. cbn [value_text]. pose proof (atoi_num n Hn) as Hat.
    destruct (index_cases i Hi) as [-> | [-> | [-> | [-> | [-> | [-> | [-> | [-> | [-> | ->]]]]]]]]]; try discriminate Hnum;
      unfold conf_set; cbn [Z.eqb Pos.eqb]; rewrite Hat; cbn [mbind res_bind]; eexists; (split; [reflexivity |]; split; [exact (conj H1 (conj H2 H3)) |]);
      apply Hget; repeat (constructor; [reflexivity |]); constructor.
  - destruct Hv as (Hs & Hw & Hlen). cbn [value_text].
    destruct (index_cases i Hi) as [-> | [-> | [-> | [-> | [-> | [-> | [-> | [-> | [-> | ->]]]]]]]]]; try discriminate Hs;
      unfold str_size in Hlen; cbn [Z.eqb Pos.eqb] in Hlen;
      [destruct (copy_str_run mip s) as (rest & Hc & Hz); [by rewrite H1 |] | destruct (copy_str_run rport s) as (rest & Hc & Hz); [by rewrite H2 |] |
       destruct (copy_str_run aip s) as (rest & Hc & Hz); [by rewrite H3 |]];
      unfold conf_set; cbn [Z.eqb Pos.eqb]; rewrite Hc; cbn [mbind res_bind]; eexists; (split; [reflexivity |];
      split; [split_and!; cbn [master_ip rdma_port agent_ip]; congruence |]);
      apply Hget; repeat (constructor; [first [reflexivity | by apply str_of_run] |]); constructor.
Qed.

(** ** Runs *)

Lemma value_word i v : value_ok i v -> word (value_text v).
Proof.
  destruct v as [n | s]; [| by intros (_ & ? & _)]. intros [_ Hn]. cbn. split.
  - destruct (dec_nonempty n) as (d & ds & ->). done.
  - eapply Forall_impl; [apply dec_digits; lia |]. cbn. intros d Hd. apply digit_range in Hd. unfold LF. lia.
Qed.

Lemma entry_run e c :
  entry_ok e -> conf_shape c ->
  exists c', conf_line (entry_line e) c = Ok c' /\ conf_shape c' /\
    forall j, 0 <= j < zlen configuation -> conf_get j c' = last_value j [e] (conf_get j c).
Proof.
  intros [_ He] Hc. destruct e as [i v comment | key v comment |]; cbn [entry_line last_value].
  - destruct He as (Hi & Hv & Ht). destruct (key_of_ok i Hi) as [Hw Hk].
    rewrite setting_run; [| done | | done].
    + rewrite Hk. by apply conf_set_run.
    + by apply (value_word i).
  - destruct He as (Hk & Hn & Hv & Ht). rewrite setting_run, conf_key_other, conf_set_other by done. eauto.
  - exists c. done.
Qed.

Lemma entry_line_lf e : entry_ok e -> exists l, entry_line e = l ++ [LF] /\ Forall (fun c => c <> LF) l.
Proof.
  assert (Hset : forall key v comment, word key -> word v -> text comment ->
    exists l, setting key v comment = l ++ [LF] /\ Forall (fun c => c <> LF) l).
  { intros key v comment [_ Hk] [_ Hv] Ht. unfold setting. eexists. split; [by rewrite !app_assoc |].
    rewrite !Forall_app. split_and!; [by eapply Forall_impl; [exact Hk | naive_solver] | by repeat constructor |
      by eapply Forall_impl; [exact Hv | naive_solver] |].
    case_bool_decide; [constructor |]. rewrite Forall_app. split; [by repeat constructor |].
    by eapply Forall_impl; [exact Ht | naive_solver]. }
  intros [_ He]. destruct e as [i v comment | key v comment |]; cbn [entry_line].
  - destruct He as (Hi & Hv & Ht). destruct (key_of_ok i Hi) as [Hw _]. apply Hset; [done | by apply (value_word i) | done].
  - destruct He as (Hk & _ & Hv & Ht). by apply Hset.
  - by exists [].
Qed.

Lemma last_value_cons i e es d : last_value i (e :: es) d = last_value i es (last_value i [e] d).
Proof. by destruct e. Qed.

Lemma conf_lines_run es c fuel :
  Forall entry_ok es -> conf_shape c -> (length (mjoin (entry_line <$> es)) <= fuel)%nat ->
  exists c', conf_lines fuel (mjoin (entry_line <$> es)) c = Ok c' /\
    forall j, 0 <= j < zlen configuation -> conf_get j c' = last_value j es (conf_get j c).
Proof.
  intros Hes. revert c fuel. induction Hes as [| e es He _ IH]; intros c fuel Hc Hf.
  - exists c. by destruct fuel.
  - rewrite fmap_cons in *. change (mjoin (?x :: ?l)) with (x ++ mjoin l) in *.
    destruct (entry_line_lf e He) as (l & Hl & Hlf). destruct (entry_run e c He Hc) as (c1 & Hrun & Hc1 & Hget).
    pose proof (proj1 He) as Hlen. rewrite Hl, <- app_assoc in *. cbn [app] in *.
    rewrite length_app in Hf. cbn [length] in Hf. destruct fuel as [| fuel]; [lia |].
    assert (Hstep : conf_lines (S fuel) (l ++ LF :: mjoin (entry_line <$> es)) c = conf_lines fuel (mjoin (entry_line <$> es)) c1).
    { cbn [conf_lines]. rewrite (fgets_line _ l) by (done || (unfold zlen in Hlen; rewrite length_app in Hlen; cbn in Hlen; unfold CONF_BUFFER_SIZE in *; lia)).
      rewrite Hrun. by destruct l. }
    rewrite Hstep. destruct (IH c1 fuel Hc1 ltac:(lia)) as (c' & Hrun' & Hget'). exists c'. split; [done |].
    intros j Hj. by rewrite last_value_cons, Hget', Hget.
Qed.

(** ** Claims *)

(** C36: a configuration file made of lines [key = value] in exactly this form,
    with or without a comment behind the value, empty lines and unknown keys, in
    any order, with lines that fit the buffer and values that fit their fields
    ([entry_ok]), is read without leaving a buffer, and every parameter gets the
    value of its last line, or keeps its initial one. *)
Theorem config_settings es :
  Forall entry_ok es ->
  exists c, kvs_config_init (Some (mjoin (entry_line <$> es))) zero_conf = Ok (0, c) /\
    forall j, 0 <= j < zlen configuation -> conf_get j c = last_value j es (conf_get j zero_conf).
Proof.
  intros Hes. destruct (conf_lines_run es zero_conf _ Hes ltac:(done) (le_n _)) as (c & Hrun & Hget).
  exists c. unfold kvs_config_init. rewrite Hrun. done.
Qed.

(** The parameters of a slave, the address with a comment. *)
Definition slave_file : list entry :=
  [Param 5 (Num 1) []; Blank; Param 6 (Num 2000) (BS "# kvstore run port"); Param 3 (Str (BS "192.168.184.138")) [];
   Other (BS "Rdma_server_ip") (BS "192.168.184.138") []; Param 6 (Num 2001) []].

Lemma slave_file_ok : Forall entry_ok slave_file.
Proof.
  assert (Ht : text (BS "# kvstore run port")) by (vm_compute; repeat constructor; discriminate).
  assert (Hw : word (BS "192.168.184.138")) by (split; [done | vm_compute; repeat constructor; discriminate]).
  assert (Hk : word (BS "Rdma_server_ip")) by (split; [done | vm_compute; repeat constructor; discriminate]).
  assert (Hn : BS "Rdma_server_ip" ∉ configuation) by (apply (bool_decide_unpack _); by vm_compute).
  repeat constructor; try done; apply Hw || apply Hk || exact Hn || apply Ht.
Qed.

Lemma config_settings_witness :
  exists c, kvs_config_init (Some (mjoin (entry_line <$> slave_file))) zero_conf = Ok (0, c) /\
    forall j, 0 <= j < zlen configuation -> conf_get j c = last_value j slave_file (conf_get j zero_conf).
Proof. apply (config_settings slave_file). exact slave_file_ok. Defined.

(** A known key without a value makes [atoi] read at NULL; a host name of sixteen
    bytes is copied past the end of [master_ip]. *)
Theorem config_value_missing :
  kvs_config_init (Some (BS "Mode" ++ [LF])) zero_conf = Undef /\
  kvs_config_init (Some (BS "Master_ip = kvs.example.com." ++ [LF])) zero_conf = Undef.
Proof. split; vm_compute; reflexivity. Qed.
