(* ===== verification/Main.v ===== *)
(** * Main: start and stop of the server (kvstore.c)

    The engines are created, the snapshot and then the log are read back, and
    the server starts; at the end the engines are destroyed and the log is
    closed. *)

From S2P Require Import Prelude CLib Alloc Protocol Engine Uring Log Store Save Net Server Sync System.
From S2P Require Import Array Hash Skiplist SkiplistFacts Rbtree RbEngine.

Section Main.
Context {A R : Type} `{Allocator A} `{Uring R}.
Context (XXH : list Z -> Z) (SIZE HSIZE : Z) (random : nat -> Z).
Notation engines := (engines kvs_array_t rbtree kvs_hash_t SkipList).
Notation store := (store kvs_array_t rbtree kvs_hash_t SkipList (modules R)).

#[local] Instance main_array : Engine A kvs_array_t := array_engine SIZE.
#[local] Instance main_rbtree : Engine A rbtree := rb_engine.
#[local] Instance main_hash : Engine A kvs_hash_t := hash_engine XXH HSIZE.
#[local] Instance main_skip : Engine A SkipList := skip_engine random.

(** [init_kvengine]: the globals are zeroed and the engines created; the
    results are not tested. [cells], [heads] and [junk] are what the fresh
    tables and the sentinel contain, which the code does not initialise. *)
Definition init_kvengine (cells : list kvs_array_item_t) (heads : list (list hashnode_t)) (junk : rbtree_node) (a : A)
    : res (engines * A) :=
  let '(_, arr, a) := kvs_array_create SIZE (Array None 0 0) cells a in
  '(_, rb, a) ← kvs_rbtree_create (RBTree NULL NULL ∅) junk a;
  let '(_, h, a) := kvs_hash_create HSIZE (HashTable None 0 0) heads a in
  let '(_, sl, a) := kvs_skiplist_create (MkSkipList None 0 ∅ 0) a in
  Ok (Engines arr rb h sl, a).

(** [dest_kvengine] *)
Definition dest_kvengine (g : engines) (a : A) : res (engines * A) :=
  let '(arr, a) := kvs_array_destory (global_array g) a in
  '(rb, a) ← kvs_rbtree_destory (global_rbtree g) a;
  '(h, a) ← kvs_hash_destory (global_hash g) a;
  '(sl, a) ← kvs_skiplist_destroy (global_skiplist g) a;
  Ok (Engines arr rb h sl, a).

(** [kvs_init] after the configuration was read: [dump] is the snapshot file,
    [fstat] and [mmap] whether these calls succeed on it, [env] what the calls
    on the log file answer. *)
Definition kvs_init (cells : list kvs_array_item_t) (heads : list (list hashnode_t)) (junk : rbtree_node)
    (dump : option (list Z)) (fstat mmap : bool) (env : log_env) (x : modules R) (a : A) : res (store * A) :=
  '(g, a) ← init_kvengine cells heads junk a;
  '(_, g, a) ← kvs_save_init (enable_save (conf x)) dump fstat mmap g a;
  '(_, l, st, a) ← kvs_log_init (enable_log (conf x)) env kvs_protocol (mod_log x) (Store g 1 x) a;
  Ok (with_mods (Modulesof (conf x) l (mod_save x) (mod_sync x)) st, a).

(** The rest of [main] before the event loop: [is_recovering = 0], and the
    synchronisation of a slave; the coroutine that was started, the closed
    descriptors and the socket of the master. *)
Definition main_start (mode master_fd agent_fd : Z) (sk : sock) (st : store) (a : A)
    : res (option (Z * client_info) * list Z * sock * store * A) :=
  if mode =? 1 then
    '(_, co, closed, sk, g, a) ← kvs_slave_sync (enable_sync (conf (mods st))) master_fd agent_fd sk (eng st) a;
    Ok (co, closed, sk, Store g 0 (mods st), a)
  else Ok (None, [], sk, Store (eng st) 0 (mods st), a).

(** [kvs_deinit] before the pool is destroyed. *)
Definition kvs_deinit (st : store) (a : A) : res (store * A) :=
  '(g, a) ← dest_kvengine (eng st) a;
  let x := mods st in
  '(_, l, a) ← kvs_log_close (enable_log (conf x)) (mod_log x) a;
  Ok (Store g (is_recovering st) (Modulesof (conf x) l (mod_save x) (mod_sync x)), a).

End Main.
