(* ===== verification/MainFacts.v ===== *)
(** * MainFacts: the life of the server

    Starting with no files gives the empty store; stopping returns every block;
    the log holds exactly the successful writes; a restart from the log, cut
    anywhere, or from a snapshot and the whole log, finds the contents again. *)

From S2P Require Import Prelude CLib Alloc Protocol ProtocolFacts Engine Owner Bag Uring Log LogFacts Store StoreFacts RequestFacts Save SaveFacts LoadFacts.
From S2P Require Import Array Hash Skiplist SkiplistFacts Rbtree RbTheory RbHeap RbLoops RbFacts RbEngine.
From S2P Require Import Net Server ServerFacts Sync System RecoveryFacts Main.

Section MainFacts.
Context {A R : Type} `{AL : AllocatorLaws A} `{TOT : !AllocatorTotal A} `{UL : UringLaws R}.
Context (XXH : list Z -> Z) (SIZE HSIZE : Z) (random : nat -> Z).
Context (Hsize : 0 < SIZE) (Hhsize : 0 < HSIZE <= INT_MAX).
Notation engines := (engines kvs_array_t rbtree kvs_hash_t SkipList).
Notation store := (store kvs_array_t rbtree kvs_hash_t SkipList (modules R)).

#[local] Existing Instance system_modules.
#[local] Instance mf_array : Engine A kvs_array_t := array_engine SIZE.
#[local] Instance mf_rbtree : Engine A rbtree := rb_engine.
#[local] Instance mf_hash : Engine A kvs_hash_t := hash_engine XXH HSIZE.
#[local] Instance mf_skip : Engine A SkipList := skip_engine random.
#[local] Instance mf_array_laws : EngineLaws A kvs_array_t := array_laws SIZE Hsize.
#[local] Instance mf_hash_laws : EngineLaws A kvs_hash_t := hash_laws XXH HSIZE Hhsize.

(** ** The engines *)

Definition zero_cells : list kvs_array_item_t := replicate (Z.to_nat SIZE) (Item None None).
Definition zero_heads : list (list hashnode_t) := replicate (Z.to_nat HSIZE) [].

Lemma init_engines_ok junk rest a :
  al_inv a -> holds (al_live a) rest ->
  exists g a', init_kvengine SIZE HSIZE zero_cells zero_heads junk a = Ok (g, a') /\ (forall e, db g e = ∅) /\
    state_wf eng_inv eng_own g rest a' /\ al_live a' ∖ ⋃ (eng_own g ++ rest) = al_live a ∖ ⋃ rest.
Proof.
  intros Hi Ho. unfold init_kvengine, zero_cells, zero_heads.
  destruct (malloc_total (SIZE * 16) a ltac:(pos_size)) as (p1 & a1 & Hm1).
  destruct (array_create_spec SIZE 0 0 a p1 a1 Hi Hm1 ltac:(lia)) as (arr & -> & (W1 & I1 & S1) & E1 & L1).
  destruct (holds_new [] _ rest _ _ Ho L1 S1) as [Ho1 F1].
  destruct (malloc_total 48 a1 ltac:(pos_size)) as (p2 & a2 & Hm2).
  destruct (rb_create_spec junk NULL NULL a1 p2 a2 I1 Hm2) as (rb & -> & (W2 & I2 & S2) & E2 & L2). run.
  destruct (holds_new [_] _ rest _ _ Ho1 L2 S2) as [Ho2 F2].
  destruct (malloc_total (8 * HSIZE) a2 ltac:(pos_size)) as (p3 & a3 & Hm3).
  destruct (hash_create_spec XXH HSIZE Hhsize 0 0 a2 p3 a3 I2 Hm3) as (h & -> & (W3 & I3 & S3) & E3 & L3).
  destruct (holds_new [_; _] _ rest _ _ Ho2 L3 S3) as [Ho3 F3].
  assert (Hsl : exists sl a4, kvs_skiplist_create (MkSkipList None 0 ∅ 0) a3 = (0, sl, a4)).
  { unfold kvs_skiplist_create, createNode. destruct (malloc_total 24 a3 ltac:(pos_size)) as (q1 & b1 & ->).
    destruct (malloc_total (8 * (Z.of_nat SKIPLIST_MAX_LEVEL + 1)) b1 ltac:(pos_size)) as (q2 & b2 & ->). eauto. }
  destruct Hsl as (sl & a4 & Hsl). rewrite Hsl.
  destruct (skip_create_spec random 0 0 a3 sl a4 I3 Hsl) as ((W4 & I4 & S4) & E4 & L4).
  destruct (holds_new [_; _; _] _ rest _ _ Ho3 L4 S4) as [Ho4 F4].
  eexists _, a4. split; [done |]. split; [by intros [] |]. split; [split; [split; [exact W1 |]; split; [exact W2 |]; split; [exact W3 | exact W4] |]; split; [exact I4 | exact Ho4] |].
  cbn [eng_own global_array global_rbtree global_hash global_skiplist app] in *. etrans; [exact F4 |]. etrans; [exact F3 |].
  etrans; [exact F2 |]. exact F1.
Qed.

Lemma dest_engines_ok (g : engines) rest a :
  state_wf eng_inv eng_own g rest a ->
  exists g' a', dest_kvengine g a = Ok (g', a') /\ al_inv a' /\ holds (al_live a') rest /\
    al_live a' ∖ ⋃ rest = al_live a ∖ ⋃ (eng_own g ++ rest).
Proof.
  intros ((W1 & W2 & W3 & W4) & Ia & Ho). unfold dest_kvengine.
  assert (Hsub : forall X, X ∈ eng_own g ++ rest -> X ⊆ al_live a) by (intros X HX; by eapply holds_sub).
  destruct (array_destroy_spec SIZE (global_array g) a) as [L1 I1]; [split; [done |]; split; [done |]; apply Hsub; left |].
  destruct (kvs_array_destory (global_array g) a) as [arr a1]. cbn [snd] in L1, I1.
  destruct (holds_end [] _ _ _ _ Ho L1) as [Ho1 F1]. cbn [app] in Ho1, F1.
  destruct (rb_destroy_spec (global_rbtree g) a1) as (rb & a2 & -> & _ & _ & L2 & I2).
  { split; [done |]. split; [done |]. eapply holds_sub; [exact Ho1 | left]. }
  run. destruct (holds_end [] _ _ _ _ Ho1 L2) as [Ho2 F2]. cbn [app] in Ho2, F2.
  destruct (hash_destroy_spec XXH HSIZE (global_hash g) a2) as (h & a3 & -> & _ & L3 & I3).
  { split; [done |]. split; [done |]. eapply holds_sub; [exact Ho2 | left]. }
  run. destruct (holds_end [] _ _ _ _ Ho2 L3) as [Ho3 F3]. cbn [app] in Ho3, F3.
  destruct (skip_destroy_spec random (global_skiplist g) a3) as (sl & a4 & -> & L4 & I4).
  { split; [done |]. split; [done |]. eapply holds_sub; [exact Ho3 | left]. }
  run. destruct (holds_end [] _ _ _ _ Ho3 L4) as [Ho4 F4]. cbn [app] in Ho4, F4.
  eexists _, a4. split; [done |]. split; [done |]. split; [done |].
  etrans; [exact F4 |]. etrans; [exact F3 |]. etrans; [exact F2 |]. exact F1.
Qed.

(** ** The log of a run *)

Definition logging (st : store) : Prop :=
  is_recovering st = 0 /\ log_live (enable_log (conf (mods st))) (mod_log (mods st)) = true.

Definition logged (st : store) : list Z := log_disk (mod_log (mods st)).

Section Log.
Context `{UT : !UringTotal R}.

Lemma log_step q x (st st' : store) :
  recorded q x st st' -> logging st -> is_recovering st' = is_recovering st ->
  logging st' /\ logged st' = logged st ++ (if is_write q.2 x then kvsp_frame (tokens_of q) else []).
Proof.
  intros Hr [Hr0 Hl] Hrec. unfold recorded in Hr. rewrite Hr0 in Hr. rewrite andb_true_r in Hr.
  unfold logging, logged. destruct (is_write q.2 x); [| rewrite Hr, app_nil_r; split; [split; [congruence | done] | done]].
  destruct Hr as (c & a1 & r & x1 & a2 & a3 & ((Li & Ld) & Ia & Hs) & [Hne Hm] & Hw & Hi).
  cbn [m_log_write m_incr_sync m_owned system_modules] in Hw, Hi, Hs. unfold sys_log in Hw. unfold sys_incr, kvs_master_incr_sync in Hi.
  destruct (log_write_spec (enable_log (conf (mods st))) (tokens_of q) (mod_log (mods st)) a1)
    as (r' & l & a' & He & _ & _ & Hwr); [split; [done |]; split; [done |]; clear - Hs; set_solver | done | done |].
  rewrite He in Hw. cbn [mbind res_bind] in Hw. injection Hw as <- <- <-. cbn [conf mod_log mod_save mod_sync] in Hi.
  rewrite Hl in Hwr. destruct Hwr as (W1 & W2 & Hd). destruct (Hd _) as [_ Hd']. clear Hd. rename Hd' into Hd.
  assert (Hms : mods st' = Modulesof (conf (mods st)) l (mod_save (mods st)) (mod_sync (mods st))).
  { destruct (enable_sync _ =? 0), (zlen (tokens_of q) <=? 0); cbn in Hi; congruence. }
  rewrite Hms. cbn [conf mod_log]. unfold log_live in *. rewrite W1, W2. split; [split; [congruence | done] | done].
Qed.

(** The log holds the frames of the successful writes, in order. *)
Lemma run_logged qs xs (st st' : store) :
  store_run qs xs st st' -> logging st ->
  logging st' /\ logged st' = logged st ++ frames (tokens_of <$> writes qs xs).
Proof.
  induction 1 as [st | q x st st1 qs xs st2 _ Hrec Hr _ IH]; intros Hl; cbn [writes fmap list_fmap].
  - split; [done |]. cbn. by rewrite app_nil_r.
  - destruct (log_step _ _ _ _ Hr Hl Hrec) as [Hl1 Hd1]. destruct (IH Hl1) as [Hl2 Hd2]. split; [done |].
    rewrite Hd2, Hd1, <- app_assoc. f_equal. rewrite fmap_app. unfold frames. rewrite bind_app. f_equal.
    destruct (is_write q.2 x); cbn; [by rewrite app_nil_r | done].
Qed.

End Log.

(** ** Restarts *)

Notation dfull := (db_full_of (TA := kvs_array_t) (TR := rbtree) (TH := kvs_hash_t) (TL := SkipList)).

(** The state a server is started with: nothing allocated by the modules yet. *)
Definition fresh_modules (sw : switches) (sy : sync_state) : modules R :=
  Modulesof sw (LogState (-1) None 0 0) (SaveState SAVE_STATUS_IDLE 0 0 [] []) sy.

(** Reading the files back: a snapshot that loads to [d], a log of writes with
    a torn end. *)
Definition loads_to (dump : option (list Z)) (d : engine_id -> kvmap) : Prop :=
  forall (g0 : engines) a0, state_wf eng_inv eng_own g0 [] a0 -> (forall e, db g0 e = ∅) ->
  exists g a, kvs_save_init 1 dump true true g0 a0 = Ok (0, g, a) /\ (forall e, db g e = d e) /\
    state_wf eng_inv eng_own g [] a /\ state_frame eng_own g0 [] a0 g [] a.

Lemma no_dump : loads_to None (fun _ => ∅).
Proof. intros g0 a0 Hwf Hd. by exists g0, a0. Qed.

Lemma eng_store_wf (g : engines) rec sw sy a :
  state_wf eng_inv eng_own g [] a -> store_wf (Store g rec (fresh_modules sw sy)) [] a.
Proof.
  intros (Hi & Ia & [Ha Hs]). split; [done |]. split.
  { split; [split; by intros |]. apply disjoint_empty_l. }
  split; [done |]. split.
  - change (owners _ _ []) with (eng_own g ++ [∅]). rewrite (apart_mid (eng_own g) ∅ []). rewrite app_nil_r in *. split; [apply disjoint_empty_l | done].
  - change (owners _ _ []) with (eng_own g ++ [∅]). rewrite (union_mid (eng_own g) ∅ []), union_empty_l_L. exact Hs.
Qed.

Definition switched (sw : switches) : Prop := enable_log sw = 1 /\ enable_save sw = 1.

(** The start: the engines are created, the snapshot loaded, the log replayed
    up to where its reading stops, and its ring set up at its end. *)
Lemma restart_log junk sw sy dump d fd ws tail a :
  let file := frames (tokens_of <$> ws) ++ tail in
  al_inv a -> switched sw -> loads_to dump d -> 0 <= fd -> Forall request_ok ws -> Forall (fun q => changes q.2) ws ->
  stops tail -> zlen file < INT_MAX ->
  exists st l a', kvs_init XXH SIZE HSIZE random zero_cells zero_heads junk dump true true
      (LogEnv fd true true file) (fresh_modules sw sy) a
      = Ok (Store (eng st) 1 (Modulesof sw l (SaveState SAVE_STATUS_IDLE 0 0 [] []) sy), a') /\
    (forall e, db (eng st) e = db_after dfull ws d e) /\ store_wf st [] a' /\ mods st = fresh_modules sw sy /\
    fd_log l = fd /\ ring_log_inited l = 1 /\ ring_log l = u_init file /\ global_log_offset l = zlen file.
Proof.
  intros file Ia [S1 S2] Hload Hfd Hok Hch Ht Hm. unfold kvs_init.
  change (main_array SIZE) with mf_array. change main_rbtree with mf_rbtree. change (main_hash XXH HSIZE) with mf_hash.
  change (main_skip random) with mf_skip. cbn [fresh_modules conf mod_log]. rewrite S1, S2.
  destruct (init_engines_ok junk [] a Ia) as (g0 & a1 & -> & He & Hwf0 & _); [split; [done |]; cbn; set_solver |]. run.
  destruct (Hload g0 a1 Hwf0 He) as (g1 & a2 & Hsv & Hd & Hwf1 & _).
  rewrite Hsv. run.
  destruct (log_init_run (R := R) fd ws tail [] (LogState (-1) None 0 0) (Store g1 1 (fresh_modules sw sy)) a2)
    as (l & st & a3 & Hli & Hdb & Hrec & Hmods & L1 & L2 & L3 & L4 & Hwf3 & _); [done | done | done | done | done | by apply eng_store_wf | done |].
  assert (Hli' : kvs_log_init 1 (LogEnv fd true true file) kvs_protocol (LogState (-1) None 0 0)
     (Store g1 1 (fresh_modules sw sy)) a2 = Ok (0, l, st, a3)) by exact Hli.
  unfold fresh_modules in Hli' |- *. rewrite Hli'. run. exists st, l, a3. unfold with_mods. rewrite Hrec. split; [done |].
  split; [intros e; rewrite Hdb; apply db_after_ext; exact Hd |]. split; [done |]. split; [done |]. do 3 (split; [done |]).
  destruct L4 as [? | [Hn L4]]; [done |]. fold file in Hn. by rewrite L4, Hn.
Qed.

Lemma restart_run junk sw sy dump d fd ws tail a :
  al_inv a -> switched sw -> loads_to dump d -> 0 <= fd -> Forall request_ok ws -> Forall (fun q => changes q.2) ws ->
  stops tail -> zlen (frames (tokens_of <$> ws) ++ tail) < INT_MAX ->
  exists st a', kvs_init XXH SIZE HSIZE random zero_cells zero_heads junk dump true true
      (LogEnv fd true true (frames (tokens_of <$> ws) ++ tail)) (fresh_modules sw sy) a = Ok (st, a') /\
    (forall e, db (eng st) e = db_after dfull ws d e).
Proof.
  intros Ia Hsw Hload Hfd Hok Hch Ht Hm.
  destruct (restart_log junk sw sy dump d fd ws tail a Ia Hsw Hload Hfd Hok Hch Ht Hm) as (st & l & a' & Hini & Hdb & _). eauto.
Qed.

Lemma run_empty qs xs (st st' : store) :
  store_run qs xs st st' -> (forall e, db (eng st) e = ∅) ->
  forall e, db (eng st') e = db_after dfull (writes qs xs) (fun _ => ∅) e.
Proof.
  intros Hr H0' e. rewrite <- (writes_after _ _ _ _ _ _ db_absent_nonzero (store_run_db _ _ _ _ Hr) e).
  apply db_after_ext. exact H0'.
Qed.

Section Recovery.
Context `{UT : !UringTotal R}.

Lemma frame_bounds qs xs : Forall request_ok qs -> Forall (fun ts => zlen (kvsp_frame ts) <= INT_MAX) (tokens_of <$> writes qs xs).
Proof.
  intros Hok. apply Forall_fmap. eapply Forall_impl; [by apply (writes_forall request_ok) |]. intros q [_ [_ Hm]].
  change (zlen (kvsp_frame (tokens_of q)) <= INT_MAX). lia.
Qed.

(** A start, up to the first connection. *)
Lemma boot_run junk sw sy dump d fd ws tail sk a :
  let file := frames (tokens_of <$> ws) ++ tail in
  al_inv a -> switched sw -> loads_to dump d -> 0 <= fd -> Forall request_ok ws -> Forall (fun q => changes q.2) ws ->
  stops tail -> zlen file < INT_MAX ->
  exists st0 st a1 a2, kvs_init XXH SIZE HSIZE random zero_cells zero_heads junk dump true true
      (LogEnv fd true true file) (fresh_modules sw sy) a = Ok (st0, a1) /\
    main_start XXH SIZE HSIZE random 0 (-1) (-1) sk st0 a1 = Ok (None, [], sk, st, a2) /\
    store_wf st [] a2 /\ (forall e, db (eng st) e = db_after dfull ws d e) /\ logging st /\ logged st = file.
Proof.
  intros file Ia Hsw Hload Hfd Hok Hch Ht Hm.
  destruct (restart_log junk sw sy dump d fd ws tail a Ia Hsw Hload Hfd Hok Hch Ht Hm)
    as (st & l & a' & Hini & Hdb & (E1 & _ & E3 & E4) & Hmods & L1 & L2 & L3 & L4). fold file in Hini, L3, L4.
  destruct (init_total (R := R) file) as [ring Hring]. destruct (init_law _ _ Hring) as (Hfl & _).
  destruct (settled_init _ _ Hring) as [Hdk Ha]. rewrite Hring in L3.
  eexists _, _, a', a'. split; [exact Hini |]. split; [done |]. cbn [eng mods is_recovering]. split; [| split; [done |]].
  - split; [done |]. split; [split |].
    + split; cbn; [| by rewrite L3]. rewrite L3. intros r [= <-]. unfold flight_ok, flight_addrs. rewrite Hfl, Hdk.
      split; [split; constructor | by intros _].
    + cbn. apply disjoint_empty_r.
    + split; [done |]. revert E4. unfold owners. rewrite Hmods. cbn [m_owned system_modules mod_log mods eng].
      unfold log_owned, log_addrs, flight_addrs. cbn [ring_log]. rewrite L3, Hfl. done.
  - unfold logging, logged, log_live, log_disk. cbn. rewrite (proj1 Hsw), L1, L2, L3, Hdk, (proj2 (Z.leb_le 0 fd)) by done. done.
Qed.

(** A start without files. *)
Lemma start_run junk sw sy fd sk a :
  al_inv a -> switched sw -> 0 <= fd ->
  exists st0 st a1 a2, kvs_init XXH SIZE HSIZE random zero_cells zero_heads junk None true true
      (LogEnv fd true true []) (fresh_modules sw sy) a = Ok (st0, a1) /\
    main_start XXH SIZE HSIZE random 0 (-1) (-1) sk st0 a1 = Ok (None, [], sk, st, a2) /\
    store_wf st [] a2 /\ (forall e, db (eng st) e = ∅) /\ logging st /\ logged st = [].
Proof.
  intros Ia Hsw Hfd. apply (boot_run junk sw sy None (fun _ => ∅) fd [] []); [done | done | apply no_dump | done | constructor | constructor | by left | done].
Qed.

(** A server that served [qs] is stopped at any moment, its log having reached
    the disk up to byte [k]: the next start finds the contents the server had
    after some of the requests, and after all of them when the whole log is
    there. *)
Lemma log_recovers qs xs (st st' : store) k junk sw sy fd a :
  store_run qs xs st st' -> Forall request_ok qs -> logging st -> logged st = [] -> (forall e, db (eng st) e = ∅) ->
  zlen (logged st') < INT_MAX -> al_inv a -> switched sw -> 0 <= fd ->
  exists n stn st1 a1, (n <= length qs)%nat /\ store_run (take n qs) (take n xs) st stn /\
    kvs_init XXH SIZE HSIZE random zero_cells zero_heads junk None true true
      (LogEnv fd true true (take k (logged st'))) (fresh_modules sw sy) a = Ok (st1, a1) /\
    (forall e, db (eng st1) e = db (eng stn) e) /\ ((length (logged st') <= k)%nat -> n = length qs).
Proof.
  intros Hr Hok Hlg Hl0 Hd Hm Ia Hsw Hfd. destruct (run_logged _ _ _ _ Hr Hlg) as [_ Hlog]. rewrite Hl0 in Hlog. cbn [app] in Hlog.
  rewrite Hlog in Hm |- *. destruct (cut_frames _ k (frame_bounds qs xs Hok)) as (n & tail & Hcut & Htorn & Hn & Hall).
  rewrite Hcut. pose proof (store_run_length _ _ _ _ Hr) as Hlen.
  destruct (take_writes qs xs n Hlen) as (m & Hw & Hmle & Hmall). rewrite <- fmap_take in *. rewrite Hw in *.
  destruct (store_run_take m _ _ _ _ Hr) as (stn & Hrn & _).
  destruct (restart_run junk sw sy None (fun _ => ∅) fd (writes (take m qs) (take m xs)) tail a)
    as (st1 & a1 & Hini & Hdb); [done | done | apply no_dump | done | | apply writes_changes | by apply torn_stops | |].
  { apply writes_forall. by apply Forall_take. }
  { rewrite <- Hcut. unfold zlen in *. rewrite length_take. lia. }
  exists m, stn, st1, a1. split; [done |]. split; [done |]. split; [done |]. split.
  - intros e. rewrite Hdb. symmetry. by apply (run_empty _ _ _ _ Hrn).
  - intros Hk. apply Hmall. specialize (Hall Hk). rewrite Hall, length_fmap. done.
Qed.

(** A life of the server that starts on a log with a torn record at its end,
    and the next start: as long as the torn record covers what the life
    appended, the next start finds what this one found. *)
Lemma torn_log_run junk sw sy fd ws ts k sk a :
  let file := frames (tokens_of <$> ws) ++ take (Z.to_nat k) (kvsp_frame ts) in
  al_inv a -> switched sw -> 0 <= fd -> Forall request_ok ws -> Forall (fun q => changes q.2) ws ->
  zlen (kvsp_frame ts) <= INT_MAX -> 0 < k < zlen (kvsp_frame ts) -> zlen file < INT_MAX ->
  exists st0 st a1 a2,
    kvs_init XXH SIZE HSIZE random zero_cells zero_heads junk None true true
      (LogEnv fd true true file) (fresh_modules sw sy) a = Ok (st0, a1) /\
    main_start XXH SIZE HSIZE random 0 (-1) (-1) sk st0 a1 = Ok (None, [], sk, st, a2) /\ store_wf st [] a2 /\
    (forall e, db (eng st) e = db_after dfull ws (fun _ => ∅) e) /\
    forall qs xs (st' : store), let later := frames (tokens_of <$> writes qs xs) in
      store_run qs xs st st' -> zlen (file ++ later) < INT_MAX ->
      k < zlen (fmt_head (zlen (kvsp_body ts))) \/ k + zlen later < zlen (kvsp_frame ts) ->
      exists st1 a3, kvs_init XXH SIZE HSIZE random zero_cells zero_heads junk None true true
          (LogEnv fd true true (logged st')) (fresh_modules sw sy) a = Ok (st1, a3) /\
        forall e, db (eng st1) e = db (eng st) e.
Proof.
  intros file Ia Hsw Hfd Hok Hch Hts Hk Hm.
  destruct (boot_run junk sw sy None (fun _ => ∅) fd ws (take (Z.to_nat k) (kvsp_frame ts)) sk a)
    as (st0 & st & a1 & a2 & H1 & H2 & Hwf & Hdb & Hlg & Hl);
    [done | done | apply no_dump | done | done | done | apply torn_stops; right; eauto | done |].
  exists st0, st, a1, a2. split; [exact H1 |]. split; [exact H2 |]. split; [done |]. split; [done |]. intros qs xs st' later Hr Hm' Hwhy.
  destruct (run_logged _ _ _ _ Hr Hlg) as [_ Hlog]. rewrite Hl, <- app_assoc in Hlog. unfold file in Hm'. rewrite <- app_assoc in Hm'.
  rewrite Hlog.
  destruct (restart_run junk sw sy None (fun _ => ∅) fd ws
    (take (Z.to_nat k) (kvsp_frame ts) ++ frames (tokens_of <$> writes qs xs)) a)
    as (st1 & a3 & Hini & Hdb1); [done | done | apply no_dump | done | done | done | | done |].
  - by apply covered_stops.
  - exists st1, a3. split; [done |]. intros e. by rewrite Hdb1, Hdb.
Qed.

(** A snapshot taken after the first [n] requests and the log of all of them. *)
Lemma snapshot_log_recovers qs xs (st stn st' : store) n fds af f junk sw sy fd a :
  store_run qs xs st st' -> store_run (take n qs) (take n xs) st stn -> Forall request_ok qs ->
  logging st -> logged st = [] -> (forall e, db (eng st) e = ∅) -> zlen (logged st') < INT_MAX ->
  2 * zlen qs <= SIZE ->
  kvs_save_start (R := R) fds (eng stn) af = Ok (0, Some f) -> eng_inv (eng stn) ->
  storable XXH SIZE HSIZE random (eng stn) -> 0 <= fds -> zlen f < INT_MAX ->
  al_inv a -> switched sw -> 0 <= fd ->
  exists st1 a1,
    kvs_init XXH SIZE HSIZE random zero_cells zero_heads junk (Some f) true true
      (LogEnv fd true true (logged st')) (fresh_modules sw sy) a = Ok (st1, a1) /\
    (forall e, db (eng st1) e = db (eng st') e).
Proof.
  intros Hr Hrn Hok Hlg Hl0 Hd Hm Hroom Hsave Hinv Hst Hfds Hf Ia Hsw Hfd.
  destruct (run_logged _ _ _ _ Hr Hlg) as [_ Hlog]. rewrite Hl0 in Hlog. cbn [app] in Hlog. rewrite Hlog in Hm |- *.
  destruct (snapshot_run XXH SIZE HSIZE random Hsize Hhsize (R := R) fds (eng stn) af Hinv Hst Hfds) as (f' & Hsave' & Hload).
  rewrite Hsave in Hsave'. injection Hsave' as <-.
  set (ws := writes qs xs) in *. rewrite <- (app_nil_r (frames _)) in Hm |- *.
  destruct (restart_run junk sw sy (Some f) (db (eng stn)) fd ws [] a)
    as (st1 & a1 & Hini & Hdb); [done | done | | done | by apply writes_forall | apply writes_changes | by left | done |].
  { intros g0 a0 Hwf0 He0. exact (Hload g0 a0 Hf Hwf0 He0). }
  exists st1, a1. split; [done |]. intros e. rewrite Hdb, (run_empty _ _ _ _ Hr Hd e). fold ws.
  destruct (writes_prefix qs xs n) as (m & Hpre & Hmle). fold ws in Hpre, Hmle.
  pose proof (writes_length qs xs) as Hwl. fold ws in Hwl.
  assert (Hfull : forall e' (m' : kvmap), (size m' < Z.to_nat SIZE)%nat -> dfull e' m' = false).
  { intros [] m' Hs; try done. cbn. apply Z.eqb_neq. lia. }
  assert (Hsz : forall e', db (eng stn) e' = db_after never_full (take m ws) (fun _ => ∅) e').
  { intros e'. rewrite (run_empty _ _ _ _ Hrn Hd e'), Hpre. apply (db_after_never_full _ (Z.to_nat SIZE)); [exact Hfull |].
    intros ?. rewrite map_size_empty, length_take. unfold zlen in Hroom. lia. }
  rewrite (db_after_never_full _ (Z.to_nat SIZE) ws (db (eng stn)) Hfull).
  2: { intros e'. rewrite Hsz. pose proof (size_after never_full (take m ws) (fun _ => ∅) e') as Hs.
       cbv beta in Hs. rewrite map_size_empty, length_take in Hs. unfold zlen in Hroom. lia. }
  rewrite (db_after_never_full _ (Z.to_nat SIZE) ws (fun _ => ∅) Hfull).
  2: { intros ?. rewrite map_size_empty. unfold zlen in Hroom. lia. }
  apply map_eq. intros k. rewrite !db_after_key, Hsz, db_after_key, lookup_empty. apply key_over_snapshot.
  pose proof (writes_took _ _ _ _ _ _ e k db_absent_nonzero (store_run_db _ _ _ _ Hr)) as Ht. by rewrite Hd, lookup_empty in Ht.
Qed.

End Recovery.
End MainFacts.
