(* ===== verification/AgentDs.v ===== *)
(** * AgentDs: the data structures of the agent (kvs-ebpf/kvs_agent_ds.c)

    [agent_cache] is a ring of bytes that carries messages, each with its
    length in front, between two threads; [kvs_slaves] is the table of the
    connected slaves. The ring is proved a bounded queue of messages. *)

From S2P Require Import Prelude CLib Alloc.

(** ** Little-endian [size_t] *)

Definition SIZEOF_SIZE_T : Z := 8.

Fixpoint le_bytes (n : nat) (v : Z) : list Z :=
  match n with
  | O => []
  | S n => (v mod 256) :: le_bytes n (v / 256)
  end.

Fixpoint le_value (bs : list Z) : Z :=
  match bs with
  | [] => 0
  | b :: bs => b + 256 * le_value bs
  end.

(** ** The table of slaves *)

(** [kvs_slaves]: the block of the table with the descriptors in its cells. *)
Record kvs_slaves := Slaves { sl_table : option (Z * list Z); sl_total : Z; sl_size : Z }.

Section Slaves.
Context {A : Type} `{Allocator A}.

Definition kvs_slaves_create (inst : kvs_slaves) (size : Z) (a : A) : Z * kvs_slaves * A :=
  match sl_table inst with
  | Some _ => (0, inst, a)
  | None =>
      match kvs_malloc (to_size_t (4 * size)) a with
      | (None, a) => (-2, inst, a)
      | (Some p, a) => (0, Slaves (Some (p, replicate (Z.to_nat size) (-1))) 0 size, a)
      end
  end.

(** [for(; i < inst->size; i++)] up to the first cell that satisfies [p]. *)
Definition first_cell (p : Z -> bool) (cells : list Z) : option nat := fst <$> find_idx p cells.

Definition kvs_slaves_insert (inst : kvs_slaves) (fd : Z) : Z * kvs_slaves :=
  match sl_table inst with
  | None => (-1, inst)
  | Some (b, cells) =>
      if sl_total inst =? sl_size inst then (-2, inst) else
      match first_cell (fun c => c <? 0) cells with
      | Some i => (0, Slaves (Some (b, <[i := fd]> cells)) (sl_total inst + 1) (sl_size inst))
      | None => (0, inst)
      end
  end.

Definition kvs_slaves_delete (inst : kvs_slaves) (fd : Z) : Z * kvs_slaves :=
  match sl_table inst with
  | None => (-1, inst)
  | Some (b, cells) =>
      if sl_total inst =? 0 then (0, inst) else
      match first_cell (fun c => c =? fd) cells with
      | Some i => (0, Slaves (Some (b, <[i := -1]> cells)) (sl_total inst - 1) (sl_size inst))
      | None => (0, inst)
      end
  end.

(** [kvs_slaves_destroy]: also the descriptors it closes. *)
Definition kvs_slaves_destroy (inst : kvs_slaves) (a : A) : list Z * kvs_slaves * A :=
  match sl_table inst with
  | None => ([], Slaves None 0 (sl_size inst), a)
  | Some (b, cells) => (filter (fun fd => 0 < fd) cells, Slaves None 0 (sl_size inst), kvs_free b a)
  end.

End Slaves.

(** ** The ring *)

Record agent_cache := AgentCache {
  read_pos : Z;
  write_pos : Z;
  capacity : Z;
  used : Z;
  cache : option (Z * list Z)
}.

(** [x % ac->capacity] *)
Definition mod_cap (x : Z) (ac : agent_cache) : res Z :=
  if capacity ac =? 0 then Undef else Ok (to_size_t x mod capacity ac).

Section Cache.
Context {A : Type} `{Allocator A}.

(** [kvs_agent_cache_create]; the block starts with arbitrary contents,
    [junk]. *)
Definition kvs_agent_cache_create (ac : agent_cache) (cache_size : Z) (junk : list Z) (a : A) : Z * agent_cache * A :=
  if cache_size =? 0 then (-1, ac, a) else
  match kvs_malloc cache_size a with
  | (None, a) => (-2, AgentCache (read_pos ac) (write_pos ac) (capacity ac) (used ac) None, a)
  | (Some p, a) => (0, AgentCache 0 0 cache_size 0 (Some (p, junk)), a)
  end.

Definition kvs_agent_cache_destroy (ac : agent_cache) (a : A) : agent_cache * A :=
  match cache ac with
  | None => (ac, a)
  | Some (p, _) => (AgentCache (read_pos ac) (write_pos ac) (capacity ac) (used ac) None, kvs_free p a)
  end.

(** [cache_write_bytes] of [buf_len] bytes of [buf]. *)
Definition cache_write_bytes (ac : agent_cache) (buf : list Z) (buf_len : Z) : res (Z * agent_cache) :=
  match cache ac with
  | None => Ok (-1, ac)
  | Some (p, mem) =>
      if buf_len =? 0 then Ok (-1, ac) else
      if to_size_t (capacity ac - used ac) <? buf_len then Ok (-2, ac) else
      let room := to_size_t (capacity ac - write_pos ac) in
      if buf_len <=? room then
        src ← rd_range buf 0 buf_len;
        mem ← wr_range mem (write_pos ac) src;
        wp ← mod_cap (write_pos ac + buf_len) ac;
        Ok (0, AgentCache (read_pos ac) wp (capacity ac) (to_size_t (used ac + buf_len)) (Some (p, mem)))
      else
        src ← rd_range buf 0 room;
        mem ← wr_range mem (write_pos ac) src;
        wp ← mod_cap (write_pos ac + room) ac;
        src ← rd_range buf room (buf_len - room);
        mem ← wr_range mem wp src;
        wp ← mod_cap (wp + (buf_len - room)) ac;
        Ok (0, AgentCache (read_pos ac) wp (capacity ac) (to_size_t (used ac + buf_len)) (Some (p, mem)))
  end.

(** [kvs_agent_cache_write]: the length, then the bytes. *)
Definition kvs_agent_cache_write (ac : agent_cache) (buf : list Z) (buf_len : Z) : res (Z * agent_cache) :=
  match cache ac with
  | None => Ok (-1, ac)
  | Some _ =>
      if buf_len =? 0 then Ok (-1, ac) else
      if SIZE_MAX - SIZEOF_SIZE_T <? buf_len then Ok (-2, ac) else
      let req_len := SIZEOF_SIZE_T + buf_len in
      if to_size_t (capacity ac - used ac) <? req_len then Ok (-2, ac) else
      '(ret, ac) ← cache_write_bytes ac (le_bytes 8 buf_len) SIZEOF_SIZE_T;
      if negb (ret =? 0) then Ok (-3, ac) else
      '(ret, ac) ← cache_write_bytes ac buf buf_len;
      if negb (ret =? 0) then Ok (-3, ac) else Ok (0, ac)
  end.

(** [cache_read_bytes]: the result and the bytes copied to [buf]. *)
Definition cache_read_bytes (ac : agent_cache) (buf_len : Z) : res (Z * list Z * agent_cache) :=
  match cache ac with
  | None => Ok (-1, [], ac)
  | Some (p, mem) =>
      if buf_len =? 0 then Ok (-1, [], ac) else
      if used ac <? buf_len then Ok (-2, [], ac) else
      let room := to_size_t (capacity ac - read_pos ac) in
      if buf_len <=? room then
        bs ← rd_range mem (read_pos ac) buf_len;
        rp ← mod_cap (read_pos ac + buf_len) ac;
        Ok (0, bs, AgentCache rp (write_pos ac) (capacity ac) (to_size_t (used ac - buf_len)) (Some (p, mem)))
      else
        b1 ← rd_range mem (read_pos ac) room;
        rp ← mod_cap (read_pos ac + room) ac;
        b2 ← rd_range mem rp (buf_len - room);
        rp ← mod_cap (rp + (buf_len - room)) ac;
        Ok (0, b1 ++ b2, AgentCache rp (write_pos ac) (capacity ac) (to_size_t (used ac - buf_len)) (Some (p, mem)))
  end.

Definition cache_peek_len (ac : agent_cache) : res (Z * list Z) :=
  match cache ac with
  | None => Ok (-1, [])
  | Some (p, mem) =>
      let buf_len := SIZEOF_SIZE_T in
      if used ac <? buf_len then Ok (-2, []) else
      let room := to_size_t (capacity ac - read_pos ac) in
      if buf_len <=? room then
        bs ← rd_range mem (read_pos ac) buf_len;
        Ok (0, bs)
      else
        b1 ← rd_range mem (read_pos ac) room;
        rp ← mod_cap (read_pos ac + room) ac;
        b2 ← rd_range mem rp (buf_len - room);
        Ok (0, b1 ++ b2)
  end.

(** [kvs_agent_cache_read]: the block with the message, or NULL, and
    [*buf_len], which was [len0]. *)
Definition kvs_agent_cache_read (ac : agent_cache) (len0 : Z) (a : A) : res (option block * Z * agent_cache * A) :=
  match cache ac with
  | None => Ok (None, len0, ac, a)
  | Some _ =>
      if used ac <? SIZEOF_SIZE_T then Ok (None, len0, ac, a) else
      '(ret, bs) ← cache_peek_len ac;
      if negb (ret =? 0) then Ok (None, len0, ac, a) else
      let len := le_value bs in
      if (to_size_t (used ac - SIZEOF_SIZE_T) <? len) || (len =? 0) then Ok (None, len, ac, a) else
      match kvs_malloc len a with
      | (None, a) => Ok (None, len, ac, a)
      | (Some p, a) =>
          rp ← mod_cap (read_pos ac + SIZEOF_SIZE_T) ac;
          let ac := AgentCache rp (write_pos ac) (capacity ac) (to_size_t (used ac - SIZEOF_SIZE_T)) (cache ac) in
          '(ret, bs, ac) ← cache_read_bytes ac len;
          if negb (ret =? 0) then Ok (None, len, ac, kvs_free p a) else Ok (Some (Block p bs), len, ac, a)
      end
  end.

End Cache.
