(* ===== verification/AgentDsFacts.v ===== *)
(** * AgentDsFacts: the ring is a bounded queue of messages

    [content] reads the bytes of the ring in order; [cache_inv] is the
    invariant of the structure. Every operation keeps it, no operation leaves
    the block, and writes and reads are the push and pop of a queue. *)

From S2P Require Import Prelude CLib Alloc AgentDs.

(** ** Little-endian lengths *)

Lemma le_bytes_len n v : length (le_bytes n v) = n.
Proof. revert v. induction n as [| n IH]; intros v; cbn; [done | by rewrite IH]. Qed.

Lemma le_value_bytes n v : 0 <= v -> le_value (le_bytes n v) = v mod 256 ^ Z.of_nat n.
Proof.
  revert v. induction n as [| n IH]; intros v Hv; cbn [le_bytes le_value]; [by rewrite Z.mod_1_r |].
  rewrite IH by (apply Z.div_pos; lia). rewrite Nat2Z.inj_succ, Z.pow_succ_r by lia.
  rewrite Z.rem_mul_r by lia. lia.
Qed.

Lemma le_size v : 0 <= v < 2 ^ 64 -> le_value (le_bytes 8 v) = v.
Proof. intros Hv. rewrite le_value_bytes by lia. change (256 ^ Z.of_nat 8) with (2 ^ 64). by apply Z.mod_small. Qed.

Lemma size_t_small x : 0 <= x < 2 ^ 64 -> to_size_t x = x.
Proof. intros. unfold to_size_t. by apply Z.mod_small. Qed.

(** ** Cyclic reads and writes of a block *)

(** [n] bytes from position [r] on, around the end of the block. *)
Definition ring (mem : list Z) (r n : Z) : list Z :=
  (fun i => mem !!! Z.to_nat ((r + Z.of_nat i) mod zlen mem)) <$> seq 0 (Z.to_nat n).

Lemma zlen_ring mem r n : 0 <= n -> zlen (ring mem r n) = n.
Proof. intros. unfold ring, zlen. rewrite length_fmap, length_seq. lia. Qed.

Lemma ring_lookup mem r n i : (i < Z.to_nat n)%nat -> ring mem r n !! i = Some (mem !!! Z.to_nat ((r + Z.of_nat i) mod zlen mem)).
Proof. intros Hi. unfold ring. rewrite list_lookup_fmap, lookup_seq_lt by done. cbn. done. Qed.

Lemma ring_split mem r n m : 0 < zlen mem -> 0 <= n -> 0 <= m ->
  ring mem r (n + m) = ring mem r n ++ ring mem ((r + n) mod zlen mem) m.
Proof.
  intros Hc Hn Hm. unfold ring. rewrite Z2Nat.inj_add, seq_app, fmap_app by lia. f_equal.
  replace (seq (0 + Z.to_nat n) (Z.to_nat m)) with (Nat.add (Z.to_nat n) <$> seq 0 (Z.to_nat m)) by (rewrite fmap_add_seq; f_equal; lia).
  rewrite <- list_fmap_compose. apply list_fmap_ext. intros i x _. cbn.
  rewrite Z.add_mod_idemp_l by lia. do 3 f_equal. lia.
Qed.

Lemma ring_range mem r n : 0 <= r -> 0 <= n -> r + n <= zlen mem -> rd_range mem r n = Ok (ring mem r n).
Proof.
  intros Hr Hn Hb. unfold rd_range. zguard. f_equal. apply list_eq. intros i. unfold zlen in Hb.
  destruct (decide (i < Z.to_nat n)%nat) as [Hi | Hi].
  - rewrite ring_lookup, lookup_take_lt, lookup_drop by lia. rewrite Z.mod_small by (unfold zlen; lia).
    rewrite (list_lookup_lookup_total_lt mem) by lia. do 2 f_equal. lia.
  - rewrite !lookup_ge_None_2; [done | |]; [unfold ring; rewrite length_fmap, length_seq; lia | rewrite length_take; lia].
Qed.

(** Bytes that agree on the positions before [n] make equal rings. *)
Lemma ring_ext mem mem' r r' n :
  (forall i, 0 <= i < n -> mem !!! Z.to_nat ((r + i) mod zlen mem) = mem' !!! Z.to_nat ((r' + i) mod zlen mem')) ->
  ring mem r n = ring mem' r' n.
Proof. intros He. unfold ring. apply list_fmap_ext. intros i x Hx. apply lookup_seq in Hx as [-> Hx]. cbn. apply He. lia. Qed.

(** A write of [src] at [w] without wrap. *)
Definition put (mem : list Z) (w : Z) (src : list Z) : list Z :=
  take (Z.to_nat w) mem ++ src ++ drop (Z.to_nat w + length src) mem.

Lemma wr_range_ok mem w src : 0 <= w -> w + zlen src <= zlen mem -> wr_range mem w src = Ok (put mem w src).
Proof. intros. unfold wr_range. zguard. Qed.

Lemma zlen_put mem w src : 0 <= w -> w + zlen src <= zlen mem -> zlen (put mem w src) = zlen mem.
Proof. intros. unfold put, zlen in *. rewrite !length_app, length_take, length_drop. lia. Qed.

Lemma put_in mem w src j : 0 <= w -> w + zlen src <= zlen mem -> w <= j < w + zlen src ->
  put mem w src !!! Z.to_nat j = src !!! Z.to_nat (j - w).
Proof.
  intros Hw Hb Hj. unfold put, zlen in *. rewrite lookup_total_app_r by (rewrite length_take; lia).
  rewrite length_take, lookup_total_app_l by lia. f_equal. lia.
Qed.

Lemma put_out mem w src j : 0 <= w -> w + zlen src <= zlen mem -> 0 <= j < w \/ w + zlen src <= j ->
  put mem w src !!! Z.to_nat j = mem !!! Z.to_nat j.
Proof.
  intros Hw Hb Hj. unfold put, zlen in *. rewrite !list_lookup_total_alt. f_equal.
  destruct Hj as [Hj | Hj].
  - rewrite lookup_app_l by (rewrite length_take; lia). apply lookup_take_lt. lia.
  - rewrite lookup_app_r by (rewrite length_take; lia). rewrite length_take, lookup_app_r by lia.
    rewrite lookup_drop. f_equal. lia.
Qed.

(** The write appends to the bytes that are in use. *)
Lemma ring_put mem r n src :
  0 <= r -> 0 <= n -> n + zlen src <= zlen mem -> let w := (r + n) mod zlen mem in w + zlen src <= zlen mem ->
  ring (put mem w src) r (n + zlen src) = ring mem r n ++ src.
Proof.
  intros Hr Hn Hb w Hw. pose proof (zlen_nonneg src).
  destruct (decide (zlen mem = 0)) as [Hz | Hz].
  { assert (n = 0) as -> by lia. destruct src; [| rewrite zlen_cons in *; pose proof (zlen_nonneg src); lia]. done. }
  assert (Hwb : 0 <= w < zlen mem) by (apply Z.mod_pos_bound; pose proof (zlen_nonneg mem); lia).
  pose proof (zlen_put mem w src ltac:(lia) Hw) as Hl.
  rewrite ring_split by lia. f_equal.
  - apply ring_ext. intros i Hi. rewrite Hl. apply put_out; [lia | done |].
    assert (Hm : 0 <= (r + i) mod zlen mem < zlen mem) by (apply Z.mod_pos_bound; lia).
    destruct (decide ((r + i) mod zlen mem < w \/ w + zlen src <= (r + i) mod zlen mem)) as [? | Hbad]; [lia | exfalso].
    subst w. pose proof (Z.div_mod (r + n) (zlen mem) Hz). pose proof (Z.div_mod (r + i) (zlen mem) Hz).
    assert (zlen mem * ((r + n) / zlen mem - (r + i) / zlen mem) = n - i + ((r + i) mod zlen mem - (r + n) mod zlen mem)) by lia.
    assert ((r + n) / zlen mem - (r + i) / zlen mem > 0) by nia. nia.
  - rewrite Hl. apply list_eq. intros i. destruct (decide (i < length src)%nat) as [Hi | Hi].
    + rewrite ring_lookup by (unfold zlen; lia). rewrite Hl, Z.mod_small by (unfold zlen in *; lia).
      rewrite put_in by (unfold zlen in *; lia). rewrite list_lookup_lookup_total_lt by done. do 2 f_equal. lia.
    + rewrite !lookup_ge_None_2; [done | lia |]. unfold ring. rewrite length_fmap, length_seq. unfold zlen. lia.
Qed.

(** ** The invariant *)

(** A C object has at most [PTRDIFF_MAX] bytes. *)
Definition PTRDIFF_MAX : Z := 2 ^ 63 - 1.

Record ring_inv (ac : agent_cache) (p : Z) (mem : list Z) : Prop := {
  ri_cache : cache ac = Some (p, mem);
  ri_len : zlen mem = capacity ac;
  ri_cap : 0 < capacity ac <= PTRDIFF_MAX;
  ri_read : 0 <= read_pos ac < capacity ac;
  ri_used : 0 <= used ac <= capacity ac;
  ri_write : write_pos ac = (read_pos ac + used ac) mod capacity ac
}.

Definition cache_inv (ac : agent_cache) : Prop := exists p mem, ring_inv ac p mem.

Definition content (ac : agent_cache) : list Z :=
  match cache ac with Some (_, mem) => ring mem (read_pos ac) (used ac) | None => [] end.

Definition cache_block (ac : agent_cache) : option Z := fst <$> cache ac.

Lemma content_ring ac p mem : ring_inv ac p mem -> content ac = ring mem (read_pos ac) (used ac).
Proof. intros []. unfold content. by rewrite ri_cache0. Qed.

Lemma content_len ac : cache_inv ac -> zlen (content ac) = used ac.
Proof. intros (p & mem & Hi). rewrite (content_ring _ _ _ Hi). destruct Hi. apply zlen_ring. lia. Qed.

Lemma mod_cap_ok ac x : 0 < capacity ac -> 0 <= x < 2 ^ 64 -> mod_cap x ac = Ok (x mod capacity ac).
Proof. intros. unfold mod_cap. rewrite (proj2 (Z.eqb_neq (capacity ac) 0)) by lia. by rewrite size_t_small. Qed.

(** Two words of at most [PTRDIFF_MAX] add up without wrap. *)
Lemma ptrdiff_add x y c : 0 < c <= PTRDIFF_MAX -> 0 <= x <= c -> 0 <= y <= c -> 0 <= x + y < 2 ^ 64.
Proof. unfold PTRDIFF_MAX. lia. Qed.

Lemma mod_zero r n c : 0 < c -> (r + n) mod c + (c - (r + n) mod c) = c /\ (r + (n + (c - (r + n) mod c))) mod c = 0.
Proof.
  intros Hc. split; [lia |]. replace (r + (n + (c - (r + n) mod c))) with (r + n - (r + n) mod c + 1 * c) by lia.
  rewrite Z.mod_add by lia. pose proof (Z.div_mod (r + n) c ltac:(lia)).
  replace (r + n - (r + n) mod c) with ((r + n) / c * c) by lia. by apply Z.mod_mul; lia.
Qed.

(** ** Bytes in, bytes out *)

(** The two copies around the end of the block. *)
Lemma ring_put_wrap mem r n s1 s2 :
  0 < zlen mem -> 0 <= r -> 0 <= n -> n + (zlen s1 + zlen s2) <= zlen mem -> let w := (r + n) mod zlen mem in w + zlen s1 = zlen mem ->
  ring (put (put mem w s1) 0 s2) r (n + (zlen s1 + zlen s2)) = ring mem r n ++ (s1 ++ s2) /\
  zlen (put (put mem w s1) 0 s2) = zlen mem /\ (r + (n + zlen s1)) mod zlen mem = 0.
Proof.
  intros Hc Hr Hn Hb w Hw. pose proof (zlen_nonneg s1). pose proof (zlen_nonneg s2).
  assert (Hwb : 0 <= w < zlen mem) by (apply Z.mod_pos_bound; lia).
  destruct (mod_zero r n (zlen mem) Hc) as [_ Hmz]. fold w in Hmz. replace (zlen mem - w) with (zlen s1) in Hmz by lia.
  pose proof (zlen_put mem w s1 ltac:(lia) ltac:(lia)) as Hl1.
  pose proof (zlen_put (put mem w s1) 0 s2 ltac:(lia) ltac:(lia)) as Hl2.
  split; [| split; [lia | done]].
  pose proof (ring_put mem r n s1 Hr Hn ltac:(lia)) as E1. cbv zeta in E1. fold w in E1. specialize (E1 ltac:(lia)).
  pose proof (ring_put (put mem w s1) r (n + zlen s1) s2 Hr ltac:(lia) ltac:(lia)) as E2. cbv zeta in E2.
  rewrite Hl1, Hmz in E2. rewrite app_assoc, <- E1, <- E2 by lia. f_equal. lia.
Qed.

Lemma write_bytes_ok ac p mem buf extra :
  ring_inv ac p mem -> 0 < zlen buf <= capacity ac - used ac ->
  exists ac' mem', cache_write_bytes ac (buf ++ extra) (zlen buf) = Ok (0, ac') /\ ring_inv ac' p mem' /\
    capacity ac' = capacity ac /\ used ac' = used ac + zlen buf /\ content ac' = content ac ++ buf.
Proof.
  intros Hi Hb. rewrite (content_ring _ _ _ Hi). destruct Hi as [H1 H2 H3 H4 H5 H6].
  assert (Hw : 0 <= write_pos ac < capacity ac) by (rewrite H6; apply Z.mod_pos_bound; lia).
  unfold cache_write_bytes. rewrite H1, (proj2 (Z.eqb_neq (zlen buf) 0)) by lia.
  rewrite !(size_t_small (capacity ac - _)), (proj2 (Z.ltb_ge _ (zlen buf))) by (unfold PTRDIFF_MAX in *; lia).
  assert (Hu : to_size_t (used ac + zlen buf) = used ac + zlen buf) by (apply size_t_small, (ptrdiff_add _ _ (capacity ac)); lia).
  rewrite Hu. destruct (Z.leb_spec (zlen buf) (capacity ac - write_pos ac)) as [Hr | Hr].
  - rewrite (rd_range_app_mid [] buf extra : rd_range (buf ++ extra) 0 (zlen buf) = _). run. rewrite wr_range_ok by lia. run.
    rewrite mod_cap_ok by (try apply (ptrdiff_add _ _ (capacity ac)); lia). run.
    eexists _, (put mem (write_pos ac) buf). split; [done |]. unfold content. cbn [cache capacity used read_pos].
    split; [split; cbn; try done; try lia | split; [done | split; [done |]]].
    + by rewrite zlen_put by lia.
    + rewrite H6, Z.add_mod_idemp_l by lia. f_equal. lia.
    + rewrite H6, <- H2. apply ring_put; try lia. rewrite H2, <- H6. lia.
  - set (room := capacity ac - write_pos ac) in *.
    assert (Hs : exists s1 s2, buf = s1 ++ s2 /\ zlen s1 = room).
    { exists (take (Z.to_nat room) buf), (drop (Z.to_nat room) buf). rewrite take_drop. split; [done |].
      unfold zlen in *. rewrite length_take. lia. }
    destruct Hs as (s1 & s2 & -> & Hs1). rewrite zlen_app in *. pose proof (zlen_nonneg s2).
    pose proof (ring_put_wrap mem (read_pos ac) (used ac) s1 s2) as Hp. cbv zeta in Hp. rewrite H2, <- H6 in Hp.
    destruct Hp as (Hp1 & Hp2 & Hp3); [lia.. |].
    rewrite <- Hs1, <- app_assoc. rewrite (rd_range_app_mid [] s1 (s2 ++ extra) : rd_range (s1 ++ s2 ++ extra) 0 (zlen s1) = _). run.
    rewrite wr_range_ok by lia. run. rewrite mod_cap_ok by (unfold PTRDIFF_MAX in *; lia). run.
    replace ((write_pos ac + zlen s1) mod capacity ac) with 0
      by (replace (write_pos ac + zlen s1) with (1 * capacity ac) by lia; symmetry; apply Z.mod_mul; lia).
    replace (zlen s1 + zlen s2 - zlen s1) with (zlen s2) by lia. rewrite (rd_range_app_mid s1 s2 extra). run. rewrite wr_range_ok by (rewrite ?zlen_put; lia). run.
    rewrite mod_cap_ok by (unfold PTRDIFF_MAX in *; lia). run.
    eexists _, (put (put mem (write_pos ac) s1) 0 s2). split; [done |]. unfold content. cbn [cache capacity used read_pos].
    split; [split; cbn; try done; try lia | split; [done | split; [done | exact Hp1]]].
    replace (read_pos ac + (used ac + (zlen s1 + zlen s2))) with (read_pos ac + (used ac + zlen s1) + zlen s2) by lia.
    rewrite <- (Z.add_mod_idemp_l (read_pos ac + (used ac + zlen s1))), Hp3 by lia. done.
Qed.

(** The bytes the two branches of a read copy. *)
Lemma ring_read mem r n : 0 <= r < zlen mem -> 0 <= n <= zlen mem -> zlen mem - r < n ->
  rd_range mem r (zlen mem - r) = Ok (ring mem r (zlen mem - r)) /\ (r + (zlen mem - r)) mod zlen mem = 0 /\
  rd_range mem 0 (n - (zlen mem - r)) = Ok (ring mem 0 (n - (zlen mem - r))) /\
  ring mem r n = ring mem r (zlen mem - r) ++ ring mem 0 (n - (zlen mem - r)).
Proof.
  intros Hr Hn Hw. assert (Hz : (r + (zlen mem - r)) mod zlen mem = 0)
    by (replace (r + (zlen mem - r)) with (1 * zlen mem) by lia; apply Z.mod_mul; lia).
  split; [apply ring_range; lia |]. split; [done |]. split; [apply ring_range; lia |].
  pose proof (ring_split mem r (zlen mem - r) (n - (zlen mem - r))) as Hs. rewrite Hz in Hs.
  rewrite <- Hs by lia. f_equal. lia.
Qed.

(** The oldest [n] bytes taken out. *)
Definition popped (ac : agent_cache) (n : Z) : agent_cache :=
  AgentCache ((read_pos ac + n) mod capacity ac) (write_pos ac) (capacity ac) (used ac - n) (cache ac).

Lemma ring_pop ac p mem bs rest :
  ring_inv ac p mem -> content ac = bs ++ rest ->
  bs = ring mem (read_pos ac) (zlen bs) /\ zlen bs + zlen rest = used ac /\
  ring_inv (popped ac (zlen bs)) p mem /\ content (popped ac (zlen bs)) = rest.
Proof.
  intros Hi Hc. pose proof (content_len ac ltac:(by exists p, mem)) as Hl. rewrite Hc, zlen_app in Hl.
  rewrite (content_ring _ _ _ Hi) in Hc. destruct Hi as [H1 H2 H3 H4 H5 H6]. pose proof (zlen_nonneg bs). pose proof (zlen_nonneg rest).
  replace (used ac) with (zlen bs + zlen rest) in Hc by done. rewrite ring_split in Hc by lia.
  apply app_inj_1 in Hc as [E1 E2]; [| apply Nat2Z.inj; exact (zlen_ring mem (read_pos ac) (zlen bs) ltac:(lia))].
  split; [done |]. split; [done |]. split.
  - split; cbn; try done; try lia; [apply Z.mod_pos_bound; lia |]. rewrite H6, Z.add_mod_idemp_l by lia. f_equal. lia.
  - unfold content, popped. cbn. rewrite H1, <- H2, <- E2 at 1. f_equal. lia.
Qed.

Lemma read_bytes_ok ac p mem bs rest :
  ring_inv ac p mem -> content ac = bs ++ rest -> 0 < zlen bs ->
  cache_read_bytes ac (zlen bs) = Ok (0, bs, popped ac (zlen bs)).
Proof.
  intros Hi Hc Hb. destruct (ring_pop _ _ _ _ _ Hi Hc) as (E & Hl & _). destruct Hi as [H1 H2 H3 H4 H5 H6].
  pose proof (zlen_nonneg rest). unfold cache_read_bytes, popped. rewrite H1, (proj2 (Z.eqb_neq _ 0)), (proj2 (Z.ltb_ge _ _)) by lia.
  rewrite (size_t_small (capacity ac - _)), (size_t_small (used ac - _)) by (unfold PTRDIFF_MAX in *; lia).
  destruct (Z.leb_spec (zlen bs) (capacity ac - read_pos ac)) as [Hr | Hr].
  - rewrite ring_range, <- E by lia. run. rewrite mod_cap_ok by (unfold PTRDIFF_MAX in *; lia). done.
  - destruct (ring_read mem (read_pos ac) (zlen bs)) as (R1 & R2 & R3 & R4); [lia.. |]. rewrite H2 in *.
    rewrite R1. run. rewrite mod_cap_ok, R2 by (unfold PTRDIFF_MAX in *; lia). run. rewrite R3. run.
    rewrite mod_cap_ok by (unfold PTRDIFF_MAX in *; lia). run. rewrite <- R4, <- E.
    replace ((0 + (zlen bs - (capacity ac - read_pos ac))) mod capacity ac) with ((read_pos ac + zlen bs) mod capacity ac); [done |].
    replace (read_pos ac + zlen bs) with (0 + (zlen bs - (capacity ac - read_pos ac)) + 1 * capacity ac) by lia. by rewrite Z.mod_add by lia.
Qed.

Lemma peek_len_ok ac p mem bs rest :
  ring_inv ac p mem -> content ac = bs ++ rest -> zlen bs = SIZEOF_SIZE_T -> cache_peek_len ac = Ok (0, bs).
Proof.
  intros Hi Hc Hb. destruct (ring_pop _ _ _ _ _ Hi Hc) as (E & Hl & _). destruct Hi as [H1 H2 H3 H4 H5 H6].
  pose proof (zlen_nonneg rest). unfold cache_peek_len. rewrite H1, <- Hb, (proj2 (Z.ltb_ge _ _)) by lia.
  rewrite (size_t_small (capacity ac - _)) by (unfold PTRDIFF_MAX in *; lia).
  destruct (Z.leb_spec (zlen bs) (capacity ac - read_pos ac)) as [Hr | Hr].
  - rewrite ring_range, <- E by (unfold SIZEOF_SIZE_T in *; lia). done.
  - destruct (ring_read mem (read_pos ac) (zlen bs)) as (R1 & R2 & R3 & R4); [unfold SIZEOF_SIZE_T in *; lia.. |]. rewrite H2 in *.
    rewrite R1. run. rewrite mod_cap_ok, R2 by (unfold PTRDIFF_MAX in *; lia). run. rewrite R3. run. by rewrite <- R4, <- E.
Qed.

(** ** The queue of messages *)

Definition encode (m : list Z) : list Z := le_bytes 8 (zlen m) ++ m.

(** The ring holds the messages [q], oldest first. *)
Record queue_repr (ac : agent_cache) (q : list (list Z)) : Prop := {
  qr_inv : cache_inv ac;
  qr_content : content ac = q ≫= encode;
  qr_nonempty : Forall (fun m => 0 < zlen m) q
}.

(** What a queue of [cap] bytes does: a message takes its length and its
    bytes. *)
Definition q_size (q : list (list Z)) : Z := zlen (q ≫= encode).
Definition q_push (cap : Z) (m : list Z) (q : list (list Z)) : Z * list (list Z) :=
  if zlen m =? 0 then (-1, q) else if cap - q_size q <? SIZEOF_SIZE_T + zlen m then (-2, q) else (0, q ++ [m]).
Definition q_pop (q : list (list Z)) : option (list Z) * list (list Z) :=
  match q with [] => (None, []) | m :: q => (Some m, q) end.

Lemma zlen_encode m : zlen (encode m) = SIZEOF_SIZE_T + zlen m.
Proof. unfold encode. rewrite zlen_app. unfold zlen at 1. by rewrite le_bytes_len. Qed.

Lemma repr_used ac q : queue_repr ac q -> used ac = q_size q.
Proof. intros []. unfold q_size. rewrite <- qr_content0. by rewrite content_len. Qed.

(** The block of the ring never moves. *)
Definition same_ring (ac ac' : agent_cache) : Prop := cache_block ac' = cache_block ac /\ capacity ac' = capacity ac.

Lemma same_ring_trans ac1 ac2 ac3 : same_ring ac1 ac2 -> same_ring ac2 ac3 -> same_ring ac1 ac3.
Proof. unfold same_ring. intuition congruence. Qed.

Lemma cache_write_queue ac q m extra : queue_repr ac q ->
  exists ac', kvs_agent_cache_write ac (m ++ extra) (zlen m) = Ok ((q_push (capacity ac) m q).1, ac') /\
    queue_repr ac' (q_push (capacity ac) m q).2 /\ same_ring ac ac'.
Proof.
  intros Hq. pose proof (repr_used _ _ Hq) as Hu. destruct Hq as [(p & mem & Hi) Hc Hne]. pose proof (zlen_nonneg m).
  assert (Hsame : queue_repr ac q /\ same_ring ac ac) by (split; [split; [by exists p, mem | done | done] | done]).
  pose proof Hi as [H1 H2 H3 H4 H5 H6]. unfold kvs_agent_cache_write, q_push. rewrite H1, Hu.
  destruct (Z.eqb_spec (zlen m) 0) as [Hz | Hz]; [by exists ac |].
  rewrite size_t_small by (unfold PTRDIFF_MAX in *; lia). unfold PTRDIFF_MAX, SIZE_MAX, SIZEOF_SIZE_T in *.
  destruct (Z.ltb_spec (2 ^ 64 - 1 - 8) (zlen m)); [rewrite (proj2 (Z.ltb_lt _ _)) by lia; by exists ac |].
  destruct (Z.ltb_spec (capacity ac - q_size q) (8 + zlen m)) as [Hlt | Hge]; [by exists ac |].
  assert (L8 : zlen (le_bytes 8 (zlen m)) = 8) by (unfold zlen at 1; by rewrite le_bytes_len).
  destruct (write_bytes_ok ac p mem (le_bytes 8 (zlen m)) [] Hi ltac:(lia)) as (ac1 & mem1 & E1 & I1 & C1 & U1 & B1). rewrite L8, app_nil_r in *.
  destruct (write_bytes_ok ac1 p mem1 m extra I1 ltac:(lia)) as (ac2 & mem2 & E2 & I2 & C2 & U2 & B2).
  rewrite E1. run. rewrite E2. run. exists ac2. split; [done |]. cbn [fst snd]. split; [split |].
  - by exists p, mem2.
  - rewrite B2, B1, Hc, bind_app. cbn. by rewrite app_nil_r, <- app_assoc.
  - apply Forall_app. split; [done |]. constructor; [lia | constructor].
  - unfold same_ring, cache_block. destruct I2 as [-> ? ? ? ? ?]. by rewrite H1, C2, C1.
Qed.

Section Read.
Context {A : Type} `{AL : AllocatorLaws A}.

Lemma cache_read_queue ac m q len0 (a : A) : queue_repr ac (m :: q) ->
  match kvs_malloc (zlen m) a with
  | (Some b, a') => exists ac', kvs_agent_cache_read ac len0 a = Ok (Some (Block b m), zlen m, ac', a') /\
      queue_repr ac' q /\ same_ring ac ac'
  | (None, a') => kvs_agent_cache_read ac len0 a = Ok (None, zlen m, ac, a')
  end.
Proof.
  intros Hq. pose proof (repr_used _ _ Hq) as Hu. destruct Hq as [(p & mem & Hi) Hc Hne]. inversion Hne as [| ? ? Hm Hne']; subst.
  unfold q_size in Hu. change ((m :: q) ≫= encode) with (encode m ++ (q ≫= encode)) in Hu, Hc.
  rewrite zlen_app, zlen_encode in Hu. unfold encode in Hc at 1. rewrite <- app_assoc in Hc.
  pose proof (zlen_nonneg (q ≫= encode)). assert (L8 : zlen (le_bytes 8 (zlen m)) = SIZEOF_SIZE_T) by (unfold zlen at 1; by rewrite le_bytes_len).
  pose proof Hi as [H1 H2 H3 H4 H5 H6]. unfold kvs_agent_cache_read. rewrite H1, (proj2 (Z.ltb_ge _ _)) by lia.
  rewrite (peek_len_ok _ _ _ _ _ Hi Hc L8). run. change (0 =? 0) with true. run.
  unfold PTRDIFF_MAX, SIZEOF_SIZE_T in *. rewrite le_size by lia. rewrite size_t_small by lia.
  rewrite (proj2 (Z.ltb_ge _ _)), (proj2 (Z.eqb_neq _ 0)) by lia. run.
  destruct (kvs_malloc (zlen m) a) as [[b |] a'] eqn:Ha; [| done].
  destruct (ring_pop _ _ _ _ _ Hi Hc) as (_ & _ & Hi1 & Hc1). rewrite L8 in Hi1, Hc1.
  rewrite mod_cap_ok by lia. run. rewrite <- H1. fold (popped ac 8).
  rewrite (read_bytes_ok _ _ _ _ _ Hi1 Hc1 Hm). run. change (0 =? 0) with true. run.
  destruct (ring_pop _ _ _ _ _ Hi1 Hc1) as (_ & _ & Hi2 & Hc2). exists (popped (popped ac 8) (zlen m)).
  split; [done |]. split; [split; [by eexists _, _ | done | done] | done].
Qed.

Lemma cache_read_empty ac len0 (a : A) : queue_repr ac [] -> kvs_agent_cache_read ac len0 a = Ok (None, len0, ac, a).
Proof.
  intros Hq. pose proof (repr_used _ _ Hq) as Hu. destruct Hq as [(p & mem & [H1 ? ? ? ? ?]) _ _]. unfold kvs_agent_cache_read.
  by rewrite H1, Hu.
Qed.

(** A new ring is an empty queue. *)
Lemma cache_create_queue ac n junk (a : A) : 0 < n <= PTRDIFF_MAX -> zlen junk = n -> al_inv a ->
  match kvs_malloc n a with
  | (Some p, a') => exists ac', kvs_agent_cache_create ac n junk a = (0, ac', a') /\ queue_repr ac' [] /\ capacity ac' = n /\ cache_block ac' = Some p
  | (None, a') => exists ac', kvs_agent_cache_create ac n junk a = (-2, ac', a')
  end.
Proof.
  intros Hn Hj Hi. unfold kvs_agent_cache_create. rewrite (proj2 (Z.eqb_neq n 0)) by lia.
  destruct (kvs_malloc n a) as [[p |] a']; [| by eexists]. eexists. split; [done |]. split; [| done]. split; [| done | done].
  exists p, junk. split; cbn; try done; try lia; try by rewrite Z.mod_0_l by lia.
Qed.

End Read.

(** ** The table of slaves *)

(** The descriptors in the table. *)
Definition connected (sl : kvs_slaves) : list Z :=
  match sl_table sl with Some (_, cells) => filter (fun fd => 0 <= fd) cells | None => [] end.

Definition slaves_inv (sl : kvs_slaves) : Prop :=
  exists b cells, sl_table sl = Some (b, cells) /\ sl_size sl = zlen cells /\ sl_total sl = zlen (connected sl).

Lemma filter_mid (l1 l2 : list Z) c :
  filter (fun fd => 0 <= fd) (l1 ++ c :: l2)
  = filter (fun fd => 0 <= fd) l1 ++ (if decide (0 <= c) then [c] else []) ++ filter (fun fd => 0 <= fd) l2.
Proof. rewrite filter_app, filter_cons. by destruct (decide (0 <= c)). Qed.

Lemma slaves_insert_ok sl fd : slaves_inv sl -> 0 <= fd ->
  exists r sl', kvs_slaves_insert sl fd = (r, sl') /\ slaves_inv sl' /\ sl_size sl' = sl_size sl /\
    ((sl_total sl = sl_size sl /\ r = -2 /\ sl' = sl) \/ (sl_total sl < sl_size sl /\ r = 0 /\ connected sl' ≡ₚ fd :: connected sl)).
Proof.
  intros (b & cells & Ht & Hs & Hn) Hfd. unfold kvs_slaves_insert, connected in *. rewrite Ht in *.
  destruct (Z.eqb_spec (sl_total sl) (sl_size sl)) as [He | He].
  { exists (-2), sl. split; [done |]. split; [exists b, cells; unfold connected; by rewrite Ht |]. split; [done |]. by left. }
  unfold first_cell. destruct (find_idx _ cells) as [[i c] |] eqn:Hf; cbn.
  - apply find_idx_some in Hf as (l1 & l2 & -> & <- & Hc & _). apply Z.ltb_lt in Hc. rewrite insert_mid. eexists _, _. split; [done |].
    rewrite filter_mid in Hn. rewrite decide_False in Hn by lia. cbn [app] in Hn.
    assert (Hconn : filter (fun fd => 0 <= fd) (l1 ++ fd :: l2) ≡ₚ fd :: filter (fun fd => 0 <= fd) (l1 ++ c :: l2)).
    { rewrite !filter_mid, decide_True, decide_False by lia. cbn. by rewrite <- Permutation_middle. }
    split; [exists b, (l1 ++ fd :: l2); unfold connected; cbn; split; [done |]; split; [rewrite Hs; rewrite !zlen_app, !zlen_cons; done |] |].
    + unfold zlen. rewrite Hconn. cbn [length]. rewrite filter_mid, decide_False by lia. cbn [app]. rewrite Hn. unfold zlen. lia.
    + split; [done |]. right. cbn. split; [| done]. rewrite Hs, zlen_app, zlen_cons, Hn. unfold zlen. rewrite length_app.
      pose proof (length_filter (fun fd => 0 <= fd) l1). pose proof (length_filter (fun fd => 0 <= fd) l2). lia.
  - exfalso. apply find_idx_none in Hf. apply He. rewrite Hn, Hs. f_equal. clear - Hf.
    induction Hf as [| c l Hc _ IH]; [done |]. rewrite filter_cons, decide_True by (by apply Z.ltb_ge in Hc). by rewrite IH.
Qed.

Lemma slaves_delete_ok sl fd : slaves_inv sl -> 0 <= fd ->
  exists sl', kvs_slaves_delete sl fd = (0, sl') /\ slaves_inv sl' /\ sl_size sl' = sl_size sl /\
    ((fd ∈ connected sl /\ connected sl ≡ₚ fd :: connected sl') \/ (fd ∉ connected sl /\ sl' = sl)).
Proof.
  intros (b & cells & Ht & Hs & Hn) Hfd. unfold kvs_slaves_delete.
  assert (Hsame : slaves_inv sl) by (by exists b, cells). unfold connected in *. rewrite Ht in *.
  destruct (Z.eqb_spec (sl_total sl) 0) as [He | He].
  { exists sl. split; [done |]. split; [done |]. split; [done |]. right. split; [| done].
    rewrite Hn in He. destruct (filter _ cells); [set_solver |]. rewrite zlen_cons in He. pose proof (zlen_nonneg l). lia. }
  unfold first_cell. destruct (find_idx _ cells) as [[i c] |] eqn:Hf; cbn.
  - apply find_idx_some in Hf as (l1 & l2 & -> & <- & Hc & _). apply Z.eqb_eq in Hc as ->. rewrite insert_mid. eexists. split; [done |].
    assert (Hconn : filter (fun fd => 0 <= fd) (l1 ++ fd :: l2) ≡ₚ fd :: filter (fun fd => 0 <= fd) (l1 ++ -1 :: l2)).
    { rewrite !filter_mid, decide_True, decide_False by lia. cbn. by rewrite <- Permutation_middle. }
    split; [exists b, (l1 ++ -1 :: l2); unfold connected; cbn; split; [done |]; split; [rewrite Hs; rewrite !zlen_app, !zlen_cons; done |] |].
    + rewrite Hn. unfold zlen at 1. rewrite Hconn. cbn [length]. unfold zlen. lia.
    + split; [done |]. left. split; [rewrite Hconn; set_solver | done].
  - exists sl. split; [done |]. split; [done |]. split; [done |]. right. split; [| done]. intros Hin.
    apply list_elem_of_filter in Hin as [_ Hin]. apply find_idx_none in Hf. rewrite Forall_forall in Hf. specialize (Hf fd Hin).
    by rewrite Z.eqb_refl in Hf.
Qed.
