(* ===== verification/Agent.v ===== *)
(** * Agent: the replication agent (kvs-ebpf/kvs_agent.c, kvs_agent.bpf.c)

    A process beside the master. Two probes in the kernel copy what the master
    receives into a ring of events; the agent queues the payloads, cuts the
    stream into commands, and forwards the writes to the slaves, or keeps them
    while a slave is in its full synchronisation. The agent has three threads;
    the mutexes make the steps below atomic. *)

From S2P Require Import Prelude CLib Alloc Protocol Store AgentDs.

(** ** The probes *)

Definition KVS_AGENT_PAYLOAD_SIZE : Z := 4 * 1024.

(** [struct tcp_event]: the first [payload_len] bytes of [payload] are set. *)
Record tcp_event := TcpEvent { payload : list Z; payload_len : Z; ev_ret : Z }.

(** [h_map] from threads to the user buffer of their pending call, and the
    ring of events. *)
Record bpf_state := BpfState { h_map : gmap Z Z; bpf_rb : list tcp_event }.

Definition H_MAP_MAX : nat := 10 * 1024.

Section Probes.
(** [bpf_probe_read_user]: the bytes at an address of the traced process. *)
Context (read_user : Z -> Z -> list Z).

(** [tcp_recvmsg] on entry: [comm] is the name of the task, [ubuf] the
    address the iterator points to when it is of type [ITER_UBUF]. *)
Definition tcp_recvmsg (comm : list Z) (pid : Z) (ubuf : option Z) (s : bpf_state) : bpf_state :=
  if negb (bool_decide (take 7 comm = BS "kvstore")) then s else
  match ubuf with
  | None => s
  | Some ubuf =>
      if ubuf =? 0 then s else
      match h_map s !! pid with
      | Some _ => BpfState (<[pid := ubuf]> (h_map s)) (bpf_rb s)
      | None => if bool_decide (size (h_map s) < H_MAP_MAX)%nat then BpfState (<[pid := ubuf]> (h_map s)) (bpf_rb s) else s
      end
  end.

(** [tcp_recvmsg_exit]: [ret] is the result of the call, [reserved] whether
    the ring of events has room. *)
Definition tcp_recvmsg_exit (pid ret : Z) (reserved : bool) (s : bpf_state) : bpf_state :=
  match h_map s !! pid with
  | None => s
  | Some ubuf =>
      let s := BpfState (delete pid (h_map s)) (bpf_rb s) in
      if ret <=? 0 then s else
      if negb reserved then s else
      let len := if KVS_AGENT_PAYLOAD_SIZE <=? ret then KVS_AGENT_PAYLOAD_SIZE
                 else Z.land ret (KVS_AGENT_PAYLOAD_SIZE - 1) in
      BpfState (h_map s) (bpf_rb s ++ [TcpEvent (read_user ubuf len) len ret])
  end.

End Probes.

(** ** The agent *)

Inductive kvs_slave_state := KVS_SLAVE_UNKNOWN | KVS_SLAVE_FULL_SYNC | KVS_SLAVE_INCR_SYNC.

#[export] Instance kvs_slave_state_eq_dec : EqDecision kvs_slave_state.
Proof. solve_decision. Defined.

(** [agent_info]: [ag_buf] is the contents of the block at [ag_buf_p]. *)
Record agent_info := AgentInfo {
  ag_buf_p : Z;
  ag_buf : list Z;
  buf_cap : Z;
  buf_pos : Z;
  ag_tl : Z;
  ag_hl : Z;
  ag_state : kvs_slave_state;
  fullsync_cache : agent_cache
}.

Definition MAX_AGENT_CACHE_SIZE : Z := 1024 * 1024 * 256.
Definition MAX_FULLSYNC_CACHE_SIZE : Z := 1024 * 1024 * 512.
Definition MAX_SLAVE_COUNT : Z := 4.
Definition AGENT_BUFFER_SIZE : Z := 1024.

Definition ag_with_buf (p : Z) (b : list Z) (cap : Z) (g : agent_info) : agent_info :=
  AgentInfo p b cap (buf_pos g) (ag_tl g) (ag_hl g) (ag_state g) (fullsync_cache g).
Definition ag_with_pos (b : list Z) (pos : Z) (g : agent_info) : agent_info :=
  AgentInfo (ag_buf_p g) b (buf_cap g) pos (ag_tl g) (ag_hl g) (ag_state g) (fullsync_cache g).
Definition ag_with_cmd (tl hl : Z) (g : agent_info) : agent_info :=
  AgentInfo (ag_buf_p g) (ag_buf g) (buf_cap g) (buf_pos g) tl hl (ag_state g) (fullsync_cache g).
Definition ag_with_state (s : kvs_slave_state) (g : agent_info) : agent_info :=
  AgentInfo (ag_buf_p g) (ag_buf g) (buf_cap g) (buf_pos g) (ag_tl g) (ag_hl g) s (fullsync_cache g).
Definition ag_with_cache (c : agent_cache) (g : agent_info) : agent_info :=
  AgentInfo (ag_buf_p g) (ag_buf g) (buf_cap g) (buf_pos g) (ag_tl g) (ag_hl g) (ag_state g) c.

(** [kvs_command], by index; the first [KVS_CMD_FLAG] are the writes. *)
Definition kvs_command : list (list Z) :=
  [BS "SET"; BS "DEL"; BS "MOD"; BS "RSET"; BS "RDEL"; BS "RMOD"; BS "HSET"; BS "HDEL"; BS "HMOD";
   BS "LSET"; BS "LDEL"; BS "LMOD"; BS "SYNC"; BS "FULLSYNC FINISHED"; BS "FULLSYNC ERROR"].
Definition KVS_CMD_FLAG : nat := 12.

(** The [cmd] after the search loop. *)
Inductive agent_cmd := CMD_SYNC | CMD_FULLSYNC_FINISHED | CMD_FULLSYNC_ERROR | CMD_ALLOWED_SEND | CMD_OTHER.

Definition agent_find (command : list Z) : agent_cmd :=
  match find_idx (fun c => strcmp command c =? 0) kvs_command with
  | None => CMD_OTHER
  | Some (cmd, _) =>
      if (cmd <? KVS_CMD_FLAG)%nat then CMD_ALLOWED_SEND
      else if (cmd =? 12)%nat then CMD_SYNC
      else if (cmd =? 13)%nat then CMD_FULLSYNC_FINISHED
      else if (cmd =? 14)%nat then CMD_FULLSYNC_ERROR
      else CMD_OTHER
  end.

(** *** Sending *)

(** What [send] answers: it took bytes (at most what it was given), it would
    block, or it failed. A peer is the bytes it was sent and the answers of the
    next calls, everything sent when none is left. *)
Inductive send_result := SrBytes (n : Z) | SrAgain | SrError.
Record peer := Peer { pe_out : list Z; pe_send : list send_result }.
Notation net := (gmap Z peer).

(** [while(pos < buf_len)] of [send_all]. *)
Fixpoint send_all_loop (fuel : nat) (fd : Z) (buf : list Z) (buf_len pos : Z) (n : net) : res (Z * net) :=
  if negb (pos <? buf_len) then Ok (0, n) else
  match fuel with
  | O => NoFuel
  | S fuel =>
      data ← rd_range buf pos (buf_len - pos);
      match n !! fd with
      | None => Ok (-2, n)
      | Some p =>
          let '(r, rs) := match pe_send p with [] => (SrBytes (buf_len - pos), []) | r :: rs => (r, rs) end in
          match r with
          | SrAgain => send_all_loop fuel fd buf buf_len pos (<[fd := Peer (pe_out p) rs]> n)
          | SrError => Ok (-2, <[fd := Peer (pe_out p) rs]> n)
          | SrBytes k =>
              let sent := take (Z.to_nat k) data in
              let n := <[fd := Peer (pe_out p ++ sent) rs]> n in
              if zlen sent =? 0 then Ok (-2, n) else send_all_loop fuel fd buf buf_len (pos + zlen sent) n
          end
      end
  end.

(** The number of answers [send] has in store for a descriptor. *)
Definition answers (fd : Z) (n : net) : nat := match n !! fd with Some p => length (pe_send p) | None => 0%nat end.

Definition send_all (fd : Z) (buf : list Z) (buf_len : Z) (n : net) : res (Z * net) :=
  if (fd <? 0) || (buf_len =? 0) then Ok (-1, n) else send_all_loop (S (S (answers fd n))) fd buf buf_len 0 n.

(** The loop of [kvs_agent_send] over the cells of the table, which it changes
    when a send fails; [togo] cells are still to come. *)
Fixpoint send_cells (togo : nat) (i : Z) (buf : list Z) (buf_len : Z) (sl : kvs_slaves) (n : net) : res (kvs_slaves * net) :=
  match togo with
  | O => Ok (sl, n)
  | S togo =>
      '(_, cells) ← of_option (sl_table sl);
      fd ← rd cells i;
      '(sl, n) ←
        (if 0 <? fd then
           '(ret, n) ← send_all fd buf buf_len n;
           Ok (if negb (ret =? 0) then (kvs_slaves_delete sl fd).2 else sl, n)
         else Ok (sl, n));
      send_cells togo (i + 1) buf buf_len sl n
  end.

Definition kvs_agent_send (buf : list Z) (buf_len : Z) (sl : kvs_slaves) (n : net) : res (Z * kvs_slaves * net) :=
  if buf_len =? 0 then Ok (-1, sl, n) else
  '(sl, n) ← send_cells (Z.to_nat (sl_size sl)) 0 buf buf_len sl n; Ok (0, sl, n).

Section Agent.
Context {A : Type} `{Allocator A}.

(** [while (ac->used > 0)] of [kvs_agent_send_cache]. *)
Fixpoint kvs_agent_send_cache (fuel : nat) (ac : agent_cache) (sl : kvs_slaves) (n : net) (a : A)
    : res (Z * agent_cache * kvs_slaves * net * A) :=
  if negb (0 <? used ac) then Ok (0, ac, sl, n, a) else
  match fuel with
  | O => NoFuel
  | S fuel =>
      '(buf, buf_len, ac, a) ← kvs_agent_cache_read ac 0 a;
      match buf with
      | None => Ok (-2, ac, sl, n, a)
      | Some b =>
          if buf_len =? 0 then Ok (-2, ac, sl, n, a) else
          '(ret, sl, n) ← kvs_agent_send (b_str b) buf_len sl n;
          let a := kvs_free (b_addr b) a in
          if negb (ret =? 0) then Ok (ret, ac, sl, n, a) else kvs_agent_send_cache fuel ac sl n a
      end
  end.

(** *** Commands *)

(** [kvs_agent_parse_command]: a copy of the first token, or NULL. *)
Definition kvs_agent_parse_command (g : agent_info) (a : A) : res (option block * A) :=
  let base := ag_hl g in
  let body_len := ag_tl g - ag_hl g in
  if body_len <? KVSP_END_STR_LEN then Ok (None, a) else
  let parse_end := body_len - KVSP_END_STR_LEN in
  e ← memeq (ag_buf g) (base + parse_end) KVSP_END_STR;
  if negb e then Ok (None, a) else
  c ← rd (ag_buf g) base;
  if negb (c =? KVSP_TOK_LEN_START_CHAR) then Ok (None, a) else
  d ← digits_loop (Z.to_nat parse_end) (ag_buf g) base 1 parse_end 0 false;
  match d with
  | DigitsOverflow => Ok (None, a)
  | DigitsStop pos tok_len has_digit =>
      if negb has_digit then Ok (None, a) else
      if parse_end <=? pos then Ok (None, a) else
      c ← rd (ag_buf g) (base + pos);
      if negb (c =? KVSP_TOK_START_CHAR) then Ok (None, a) else
      let pos := pos + 1 in
      if parse_end - pos <? tok_len then Ok (None, a) else
      match kvs_malloc (tok_len + 1) a with
      | (None, a) => Ok (None, a)
      | (Some p, a) =>
          s ← rd_range (ag_buf g) (base + pos) tok_len;
          Ok (Some (Block p (s ++ [0])), a)
      end
  end.

(** [kvs_agent_handler] on the command at the start of the buffer. *)
Definition kvs_agent_handler (g : agent_info) (sl : kvs_slaves) (n : net) (a : A)
    : res (Z * agent_info * kvs_slaves * net * A) :=
  '(command, a) ← kvs_agent_parse_command g a;
  match command with
  | None => Ok (-2, g, sl, n, a)
  | Some command =>
      word ← rd_cstr (b_str command) 0;
      '(ret, g, sl, n, a) ←
        match agent_find word with
        | CMD_SYNC => Ok (0, ag_with_state KVS_SLAVE_FULL_SYNC g, sl, n, a)
        | CMD_FULLSYNC_FINISHED | CMD_FULLSYNC_ERROR =>
            if bool_decide (ag_state g = KVS_SLAVE_FULL_SYNC) then
              let g := ag_with_state KVS_SLAVE_INCR_SYNC g in
              '(ret, ac, sl, n, a) ← kvs_agent_send_cache (S (Z.to_nat (used (fullsync_cache g)))) (fullsync_cache g) sl n a;
              Ok (ret, ag_with_cache ac g, sl, n, a)
            else Ok (0, g, sl, n, a)
        | CMD_ALLOWED_SEND =>
            if bool_decide (ag_state g = KVS_SLAVE_FULL_SYNC) then
              '(ret, ac) ← kvs_agent_cache_write (fullsync_cache g) (ag_buf g) (ag_tl g);
              Ok (ret, ag_with_cache ac g, sl, n, a)
            else
              '(ret, sl, n) ← kvs_agent_send (ag_buf g) (ag_tl g) sl n; Ok (ret, g, sl, n, a)
        | CMD_OTHER => Ok (0, g, sl, n, a)
        end;
      Ok (ret, g, sl, n, kvs_free (b_addr command) a)
  end.

(** [kvsp_parse_bulk_size] of the agent: as in kvs_protocol.c with the
    positions in [size_t]. *)
Definition agent_parse_bulk_size (buf : list Z) (buf_size head_len : Z) : res (Z * Z) :=
  if buf_size =? 0 then Ok (-1, head_len) else
  if buf_size <? KVSP_START_STR_LEN then Ok (0, head_len) else
  start ← memeq buf 0 KVSP_START_STR;
  if negb start then Ok (-2, head_len) else
  d ← digits_loop (Z.to_nat buf_size) buf 0 KVSP_START_STR_LEN buf_size 0 false;
  match d with
  | DigitsOverflow => Ok (-2, head_len)
  | DigitsStop pos body_len has_digit =>
      if negb has_digit then
        if buf_size <=? pos then Ok (0, head_len) else Ok (-2, head_len)
      else
      if (buf_size <=? pos) || (to_size_t (buf_size - pos) <? KVSP_HEAD_TAIL_STR_LEN)
      then Ok (0, head_len) else
      tail ← memeq buf pos KVSP_HEAD_TAIL_STR;
      if negb tail then Ok (-2, head_len) else
      let pos := to_size_t (pos + KVSP_HEAD_TAIL_STR_LEN) in
      if to_size_t (INT_MAX - pos) <? body_len then Ok (-2, head_len) else
      let head_len := to_int pos in
      let total_len := to_int (to_size_t (body_len + pos)) in
      Ok (if buf_size <? to_size_t total_len then 0 else total_len, head_len)
  end.

(** [while (agent->buf_pos > 0)] of [kvs_agent_send_to_slave]. *)
Fixpoint agent_commands (fuel : nat) (g : agent_info) (sl : kvs_slaves) (n : net) (a : A)
    : res (Z * agent_info * kvs_slaves * net * A) :=
  if negb (0 <? buf_pos g) then Ok (0, g, sl, n, a) else
  match fuel with
  | O => NoFuel
  | S fuel =>
      '(total_len, head_len) ← agent_parse_bulk_size (ag_buf g) (buf_pos g) 0;
      if total_len =? 0 then Ok (0, g, sl, n, a) else
      if total_len <? 0 then Ok (-2, g, sl, n, a) else
      '(ret, g, sl, n, a) ← kvs_agent_handler (ag_with_cmd total_len head_len g) sl n a;
      if negb (ret =? 0) then Ok (-2, g, sl, n, a) else
      let pos := to_size_t (buf_pos g - total_len) in
      rest ← rd_range (ag_buf g) total_len pos;
      b ← wr_range (ag_buf g) 0 rest;
      agent_commands fuel (ag_with_pos b pos g) sl n a
  end.

(** [kvs_agent_send_to_slave] *)
Definition kvs_agent_send_to_slave (g : agent_info) (buf : list Z) (buf_len : Z) (sl : kvs_slaves) (n : net) (a : A)
    : res (Z * agent_info * kvs_slaves * net * A) :=
  if buf_len =? 0 then Ok (-1, g, sl, n, a) else
  let need := to_size_t (buf_pos g + buf_len) in
  '(room, a) ←
    (if buf_cap g <? need then
       '(temp, a) ← kvs_realloc (ag_buf_p g) need a;
       match temp with
       | None => Ok (None, a)
       | Some p => Ok (Some (ag_with_buf p (resize (ag_buf g) (granted p need a)) need g), a)
       end
     else Ok (Some g, a));
  match room with
  | None => Ok (-2, g, sl, n, a)
  | Some g =>
      data ← rd_range buf 0 buf_len;
      b ← wr_range (ag_buf g) (buf_pos g) data;
      agent_commands (S (Z.to_nat need)) (ag_with_pos b need g) sl n a
  end.

(** *** The threads *)

(** The globals of the agent: [existing] stops the threads. *)
Record agent_state := AgentState {
  existing : bool;
  global_agent_cache : agent_cache;
  global_slaves : kvs_slaves;
  ag_info : agent_info;
  ag_net : net
}.

(** [handle_event], called for every event of the ring. *)
Definition handle_event (e : tcp_event) (s : agent_state) : res agent_state :=
  if ev_ret e <=? 0 then Ok s else
  '(ret, ac) ← kvs_agent_cache_write (global_agent_cache s) (payload e) (to_size_t (payload_len e));
  Ok (AgentState (existing s || negb (ret =? 0)) ac (global_slaves s) (ag_info s) (ag_net s)).

(** One round of [kvs_agent] once the cache is not empty; [false] when the
    thread ends. *)
Definition kvs_agent (s : agent_state) (a : A) : res (bool * agent_state * A) :=
  '(buf, buf_len, ac, a) ← kvs_agent_cache_read (global_agent_cache s) 0 a;
  match buf with
  | None => Ok (false, AgentState true ac (global_slaves s) (ag_info s) (ag_net s), a)
  | Some b =>
      if buf_len =? 0 then
        Ok (false, AgentState true ac (global_slaves s) (ag_info s) (ag_net s), kvs_free (b_addr b) a) else
      '(ret, g, sl, n, a) ← kvs_agent_send_to_slave (ag_info s) (b_str b) buf_len (global_slaves s) (ag_net s) a;
      let a := kvs_free (b_addr b) a in
      if negb (ret =? 0) then Ok (false, AgentState true ac sl g n, a) else Ok (true, AgentState (existing s) ac sl g n, a)
  end.

(** The body of the loop of [server] over a ready descriptor: a new slave, or
    an event of one; [None] for a failed call. Only the event [EPOLLIN] alone
    ([epollin]) is looked at: a slave that closed or failed is forgotten and its
    descriptor closed. *)
Definition server_accept (client_fd : option Z) (s : agent_state) : bool * agent_state :=
  match client_fd with
  | None => (false, s)
  | Some fd => (true, AgentState (existing s) (global_agent_cache s) (kvs_slaves_insert (global_slaves s) fd).2 (ag_info s) (ag_net s))
  end.

Definition server_recv (fd : Z) (epollin : bool) (got : option (list Z)) (s : agent_state) : list Z * agent_state :=
  if negb epollin then ([], s) else
  match got with
  | Some (_ :: _) => ([], s)
  | Some [] | None =>
      ([fd], AgentState (existing s) (global_agent_cache s) (kvs_slaves_delete (global_slaves s) fd).2 (ag_info s) (ag_net s))
  end.

(** *** Start and stop *)

Definition empty_cache : agent_cache := AgentCache 0 0 0 0 None.

(** [kvs_agent_info_init]; [junk] is what the fresh blocks contain. *)
Definition kvs_agent_info_init (buf_size cache_size : Z) (junk : Z -> list Z) (a : A) : Z * agent_info * A :=
  let zero := AgentInfo 0 [] 0 0 0 0 KVS_SLAVE_UNKNOWN empty_cache in
  if (buf_size =? 0) || (cache_size =? 0) then (-1, zero, a) else
  match kvs_malloc buf_size a with
  | (None, a) => (-2, zero, a)
  | (Some p, a) =>
      let '(ret, ac, a) := kvs_agent_cache_create empty_cache cache_size (junk cache_size) a in
      if negb (ret =? 0) then (-2, AgentInfo p [] 0 0 0 0 KVS_SLAVE_UNKNOWN ac, kvs_free p a)
      else (0, AgentInfo p (junk buf_size) buf_size 0 0 0 KVS_SLAVE_UNKNOWN ac, a)
  end.

Definition kvs_agent_info_deinit (g : agent_info) (a : A) : agent_info * A :=
  let a := kvs_free (ag_buf_p g) a in
  let '(ac, a) := kvs_agent_cache_destroy (fullsync_cache g) a in (ag_with_cache ac g, a).

(** [kvs_agent_init] up to the threads: [None] when it returns -2. *)
Definition kvs_agent_init (junk : Z -> list Z) (n : net) (a : A) : option agent_state * A :=
  let '(ret, g, a) := kvs_agent_info_init AGENT_BUFFER_SIZE MAX_FULLSYNC_CACHE_SIZE junk a in
  if negb (ret =? 0) then (None, a) else
  let '(ret, sl, a) := kvs_slaves_create (Slaves None 0 0) MAX_SLAVE_COUNT a in
  if negb (ret =? 0) then (None, a) else
  let '(ret, ac, a) := kvs_agent_cache_create empty_cache MAX_AGENT_CACHE_SIZE (junk MAX_AGENT_CACHE_SIZE) a in
  if negb (ret =? 0) then (None, a) else (Some (AgentState false ac sl g n), a).

(** [kvs_agent_deinit] after the threads were joined: the descriptors it
    closes. *)
Definition kvs_agent_deinit (s : agent_state) (a : A) : list Z * agent_state * A :=
  let '(g, a) := kvs_agent_info_deinit (ag_info s) a in
  let '(closed, sl, a) := kvs_slaves_destroy (global_slaves s) a in
  let '(ac, a) := kvs_agent_cache_destroy (global_agent_cache s) a in
  (closed, AgentState true ac sl g (ag_net s), a).

End Agent.
