(* ===== verification/AgentFacts.v ===== *)
(** * AgentFacts: the agent forwards the stream of writes

    The agent is compared with [fwd_step], which looks at whole commands: in
    the states of the agent a write is sent on or kept, and the end of a full
    synchronisation sends what was kept. *)

From S2P Require Import Prelude CLib Alloc Protocol ProtocolFacts Uring Log LogFacts Store StoreFacts RequestFacts RecoveryFacts AgentDs AgentDsFacts Agent.

(** ** Framing and the command word *)

Lemma agent_parse_eq buf n h : 0 <= n <= INT_MAX -> n <= zlen buf -> agent_parse_bulk_size buf n h = kvsp_parse_bulk_size buf n h.
Proof.
  intros Hn Hl. unfold agent_parse_bulk_size, kvsp_parse_bulk_size, KVSP_START_STR_LEN, KVSP_HEAD_TAIL_STR_LEN, KVSP_HEAD_TAIL_STR.
  destruct (Z.eqb_spec n 0) as [-> | Hz]; [done |]. rewrite (proj2 (Z.leb_gt n 0)), (proj2 (Z.ltb_ge n 1)) by lia.
  destruct (memeq_in_range buf 0 KVSP_START_STR) as [[] ->]; [lia | rewrite START_len; lia | | done]. run.
  destruct (digits_loop_safe (Z.to_nat n) buf 0 1 n 0 false)
    as [-> | (p & b & h' & -> & Hp & Hb & _)]; try (unfold INT_MAX; lia); [done |]. run.
  destruct h'; [| done]. run. destruct (Z.leb_spec n p); [done |]. cbn [orb].
  rewrite (size_t_small (n - p)) by (unfold INT_MAX in *; lia).
  destruct (Z.ltb_spec (n - p) 2); [done |]. destruct (memeq_in_range buf p CRLF) as [[] ->]; [lia | rewrite CRLF_len; lia | | done]. run.
  unfold INT_MAX in *. rewrite (size_t_small (p + 2)) by lia.
  destruct (Z.leb_spec (p + 2) (2 ^ 31 - 1)) as [Hle | Hgt].
  - rewrite size_t_small by lia. destruct (Z.ltb_spec (2 ^ 31 - 1 - (p + 2)) b); [done |].
    rewrite (size_t_small (b + (p + 2))), !to_int_small by (unfold INT_MAX; lia). rewrite size_t_small by lia. done.
  - exfalso. lia.
Qed.

(** The first token of the frame at the start of the buffer. *)
Lemma parse_command_ok {A} `{Allocator A} t ts rest g (a : A) :
  ag_buf g = kvsp_frame (t :: ts) ++ rest -> zlen (kvsp_frame (t :: ts)) <= INT_MAX ->
  ag_tl g = zlen (kvsp_frame (t :: ts)) -> ag_hl g = zlen (fmt_head (zlen (kvsp_body (t :: ts)))) ->
  kvs_agent_parse_command g a =
    match kvs_malloc (zlen t + 1) a with (Some p, a') => Ok (Some (Block p (t ++ [0])), a') | (None, a') => Ok (None, a') end.
Proof.
  intros Hb Hm Htl Hhl. set (hd := fmt_head _) in *. pose proof (kvsp_frame_len (t :: ts)) as Hfl. fold hd in Hfl.
  change ((t :: ts) ≫= fmt_token) with (fmt_token t ++ (ts ≫= fmt_token)) in Hfl. rewrite zlen_app in Hfl.
  pose proof (fmt_token_len t). pose proof (dec_length_pos (zlen t)). pose proof (zlen_nonneg t).
  pose proof (zlen_nonneg (ts ≫= fmt_token)). pose proof (zlen_nonneg hd).
  unfold kvs_agent_parse_command, KVSP_END_STR_LEN. rewrite Htl, Hhl, Hb, (proj2 (Z.ltb_ge _ 2)) by lia.
  set (pe := zlen (kvsp_frame (t :: ts)) - zlen hd - 2).
  assert (Hsplit : kvsp_frame (t :: ts) ++ rest = (hd ++ fmt_token t ++ (ts ≫= fmt_token)) ++ CRLF ++ rest)
    by (unfold kvsp_frame; fold hd; unfold kvsp_body; change ((t :: ts) ≫= fmt_token) with (fmt_token t ++ (ts ≫= fmt_token)); by rewrite <- !app_assoc).
  replace (zlen hd + pe) with (zlen (hd ++ fmt_token t ++ (ts ≫= fmt_token))) by (rewrite !zlen_app; lia).
  rewrite Hsplit, memeq_app. run. set (tl := (ts ≫= fmt_token) ++ CRLF ++ rest).
  assert (Hflat : (hd ++ fmt_token t ++ (ts ≫= fmt_token)) ++ CRLF ++ rest
      = hd ++ KVSP_TOK_LEN_START_CHAR :: dec (zlen t) ++ KVSP_TOK_START_CHAR :: t ++ tl)
    by (unfold tl, fmt_token at 1; rewrite <- !app_assoc; reflexivity).
  rewrite Hflat.
  rewrite rd_at. run. rewrite Z.eqb_refl. run.
  replace 1 with (zlen (hd ++ [KVSP_TOK_LEN_START_CHAR]) - zlen hd) at 1 by (zlen_simpl; lia).
  rewrite (digits_loop_dec _ (zlen t) _ (zlen hd) (hd ++ [KVSP_TOK_LEN_START_CHAR]) KVSP_TOK_START_CHAR (t ++ tl));
    [| by rewrite <- app_assoc | zlen_simpl; lia | done | lia | unfold zlen in *; lia].
  run. zlen_simpl. set (p := zlen hd + (1 + 0) - zlen hd + zlen (dec (zlen t))).
  rewrite (proj2 (Z.leb_gt pe p)) by lia.
  replace (hd ++ KVSP_TOK_LEN_START_CHAR :: dec (zlen t) ++ KVSP_TOK_START_CHAR :: t ++ tl)
    with ((hd ++ KVSP_TOK_LEN_START_CHAR :: dec (zlen t)) ++ KVSP_TOK_START_CHAR :: t ++ tl) by (by rewrite <- app_assoc).
  replace (zlen hd + p) with (zlen (hd ++ KVSP_TOK_LEN_START_CHAR :: dec (zlen t))) by (unfold p; zlen_simpl; lia).
  rewrite rd_at. run. rewrite Z.eqb_refl. run. rewrite (proj2 (Z.ltb_ge _ (zlen t))) by lia.
  destruct (kvs_malloc (zlen t + 1) a) as [[q |] a']; [| done].
  replace ((hd ++ KVSP_TOK_LEN_START_CHAR :: dec (zlen t)) ++ KVSP_TOK_START_CHAR :: t ++ tl)
    with ((hd ++ KVSP_TOK_LEN_START_CHAR :: dec (zlen t) ++ [KVSP_TOK_START_CHAR]) ++ t ++ tl) by (rewrite <- !app_assoc; cbn [app]; rewrite <- ?app_assoc; reflexivity).
  replace (zlen hd + (p + 1)) with (zlen (hd ++ KVSP_TOK_LEN_START_CHAR :: dec (zlen t) ++ [KVSP_TOK_START_CHAR])) by (unfold p; zlen_simpl; lia).
  by rewrite rd_range_app_mid.
Qed.

(** ** Sending *)

(** A peer whose connection works: [send] may block or take a part. *)
Definition sendable (r : send_result) : Prop := match r with SrBytes k => 0 < k | SrAgain => True | SrError => False end.

Definition net_ok (fds : list Z) (n : net) : Prop :=
  Forall (fun fd => exists out rs, n !! fd = Some (Peer out rs) /\ Forall sendable rs) fds.

(** The peers [fds] were sent [d], nobody else anything. *)
Definition delivered (d : list Z) (fds : list Z) (n n' : net) : Prop :=
  Forall (fun fd => exists out rs rs', n !! fd = Some (Peer out rs) /\ n' !! fd = Some (Peer (out ++ d) rs') /\ Forall sendable rs') fds /\
  forall fd, fd ∉ fds -> n' !! fd = n !! fd.

Lemma delivered_nil fds n : net_ok fds n -> delivered [] fds n n.
Proof.
  intros Hn. split; [| done]. eapply Forall_impl; [exact Hn |]. intros fd (out & rs & Hp & Hr). exists out, rs, rs. by rewrite app_nil_r.
Qed.

Lemma delivered_ok d fds n n' : delivered d fds n n' -> net_ok fds n'.
Proof. intros [Hd _]. eapply Forall_impl; [exact Hd |]. intros fd (out & rs & rs' & _ & Hp & Hr). eauto. Qed.

Lemma delivered_trans d1 d2 fds n1 n2 n3 : delivered d1 fds n1 n2 -> delivered d2 fds n2 n3 -> delivered (d1 ++ d2) fds n1 n3.
Proof.
  intros [H1 O1] [H2 O2]. split.
  - rewrite !Forall_forall in *. intros fd Hfd. destruct (H1 fd Hfd) as (out & rs & rs' & E1 & E2 & _).
    destruct (H2 fd Hfd) as (out' & rs2 & rs3 & E3 & E4 & Hr). rewrite E2 in E3. injection E3 as <- <-.
    exists out, rs, rs3. by rewrite app_assoc.
  - intros fd Hfd. rewrite O2, O1 by done. done.
Qed.

Lemma agent_send_loop_ok fuel fd data extra pos out rs n :
  n !! fd = Some (Peer out rs) -> Forall sendable rs -> 0 <= pos <= zlen data -> (length rs < fuel)%nat ->
  exists rs', send_all_loop fuel fd (data ++ extra) (zlen data) pos n = Ok (0, <[fd := Peer (out ++ drop (Z.to_nat pos) data) rs']> n) /\
    Forall sendable rs'.
Proof.
  revert pos out rs n. induction fuel as [| fuel IH]; intros pos out rs n Hn Hr Hp Hf; [lia |]. cbn [send_all_loop].
  destruct (Z.ltb_spec pos (zlen data)) as [Hlt | Hge]; run.
  2: { exists rs. rewrite drop_ge, app_nil_r by (unfold zlen in *; lia). by rewrite insert_id. }
  unfold rd_range. rewrite zlen_app. pose proof (zlen_nonneg extra).
  rewrite (proj2 (Z.leb_le 0 pos)), (proj2 (Z.leb_le 0 _)), (proj2 (Z.leb_le _ _)) by lia. run. rewrite Hn. cbn [pe_send pe_out].
  rewrite drop_app_le, take_app_le by (rewrite ?length_drop; unfold zlen in *; lia).
  rewrite take_ge by (rewrite length_drop; unfold zlen in *; lia). set (left := drop (Z.to_nat pos) data).
  assert (Hl : zlen left = zlen data - pos) by (unfold left, zlen in *; rewrite length_drop; lia).
  destruct rs as [| [k | |] rs]; [| | | by inversion Hr].
  - rewrite take_ge by (unfold zlen in *; lia). rewrite (proj2 (Z.eqb_neq _ 0)) by lia.
    exists []. destruct fuel; cbn [send_all_loop]; rewrite (proj2 (Z.ltb_ge _ _)) by lia; done.
  - inversion Hr as [| ? ? Hk Hr']; subst. cbn in Hk. cbn in Hf.
    assert (Hs : zlen (take (Z.to_nat k) left) = Z.min k (zlen left)) by (unfold zlen in *; rewrite length_take; lia).
    rewrite (proj2 (Z.eqb_neq _ 0)) by lia. rewrite Hs.
    destruct (IH (pos + Z.min k (zlen left)) (out ++ take (Z.to_nat k) left) rs (<[fd := Peer (out ++ take (Z.to_nat k) left) rs]> n))
      as (rs' & -> & Hr2); [by rewrite lookup_insert_eq | done | lia | lia |].
    exists rs'. split; [| done]. rewrite insert_insert_eq, <- app_assoc. do 5 f_equal.
    replace (Z.to_nat (pos + Z.min k (zlen left))) with (Z.to_nat pos + Z.to_nat (Z.min k (zlen left)))%nat by lia.
    rewrite <- drop_drop. fold left. destruct (Z.min_spec k (zlen left)) as [[? ->] | [? ->]]; [by rewrite take_drop |].
    rewrite take_ge, drop_ge, app_nil_r by (unfold zlen in *; lia). done.
  - inversion Hr as [| ? ? _ Hr']; subst. cbn in Hf.
    destruct (IH pos out rs (<[fd := Peer out rs]> n)) as (rs' & -> & Hr2); [by rewrite lookup_insert_eq | done | lia | lia |].
    exists rs'. by rewrite insert_insert_eq.
Qed.

Lemma send_all_ok fd data extra out rs n :
  0 <= fd -> 0 < zlen data -> n !! fd = Some (Peer out rs) -> Forall sendable rs ->
  exists rs', send_all fd (data ++ extra) (zlen data) n = Ok (0, <[fd := Peer (out ++ data) rs']> n) /\ Forall sendable rs'.
Proof.
  intros Hfd Hd Hn Hr. unfold send_all, answers. rewrite (proj2 (Z.ltb_ge fd 0)), (proj2 (Z.eqb_neq _ 0)), Hn by lia. cbn [orb pe_send].
  destruct (agent_send_loop_ok (S (S (length rs))) fd data extra 0 out rs n Hn Hr) as (rs' & -> & Hr'); [lia | lia |]. eauto.
Qed.

(** The table of slaves and the descriptors it sends to. *)
Definition targets (sl : kvs_slaves) : list Z :=
  match sl_table sl with Some (_, cells) => filter (fun fd => 0 < fd) cells | None => [] end.

Definition slaves_ok (sl : kvs_slaves) : Prop :=
  exists b cells, sl_table sl = Some (b, cells) /\ sl_size sl = zlen cells /\ NoDup (targets sl).

Lemma send_cells_ok data extra b cells sl : sl_table sl = Some (b, cells) -> 0 < zlen data -> forall todo done n,
  cells = done ++ todo -> NoDup (filter (fun fd => 0 < fd) todo) -> net_ok (filter (fun fd => 0 < fd) todo) n ->
  exists n', send_cells (length todo) (zlen done) (data ++ extra) (zlen data) sl n = Ok (sl, n') /\
    delivered data (filter (fun fd => 0 < fd) todo) n n'.
Proof.
  intros Ht Hd. induction todo as [| fd todo IH]; intros done n Hc Hnd Hok; cbn [length send_cells].
  { exists n. split; [done |]. cbn. split; [constructor | done]. }
  rewrite Ht. run. rewrite Hc, rd_at. run.
  replace (zlen done + 1) with (zlen (done ++ [fd])) by (rewrite zlen_app; done).
  rewrite filter_cons in Hnd, Hok |- *. destruct (decide (0 < fd)) as [Hp | Hp].
  - rewrite (proj2 (Z.ltb_lt 0 fd) Hp). apply NoDup_cons in Hnd as [Hin Hnd]. inversion Hok as [| ? ? (out & rs & Hn & Hr) Hok']; subst.
    destruct (send_all_ok fd data extra out rs n) as (rs' & -> & Hr'); [lia | done | done | done |]. run. change (0 =? 0) with true. run.
    destruct (IH (done ++ [fd]) (<[fd := Peer (out ++ data) rs']> n)) as (n' & -> & Hdel); [by rewrite <- app_assoc | done | |].
    { eapply Forall_impl; [apply Forall_and; split; [exact Hok' |]; apply Forall_forall; intros x Hx; exact Hx |].
      intros x [(o & r & Hx & Hs) Hxi]. exists o, r. rewrite lookup_insert_ne by (intros ->; done). done. }
    exists n'. split; [done |]. destruct Hdel as [Hdel Hrest]. split.
    + constructor; [exists out, rs, rs'; rewrite Hrest, lookup_insert_eq by done; done |].
      rewrite Forall_forall in *. intros x Hx. destruct (Hdel x Hx) as (o & r & r' & E1 & E2 & E3). exists o, r, r'.
      rewrite lookup_insert_ne in E1 by (intros ->; done). done.
    + intros x Hx. rewrite not_elem_of_cons in Hx. destruct Hx as [Hne Hx]. rewrite Hrest, lookup_insert_ne by done. done.
  - rewrite (proj2 (Z.ltb_ge 0 fd)) by lia. run. apply IH; [by rewrite <- app_assoc | done | done].
Qed.

Lemma agent_send_ok data extra sl n : slaves_ok sl -> 0 < zlen data -> net_ok (targets sl) n ->
  exists n', kvs_agent_send (data ++ extra) (zlen data) sl n = Ok (0, sl, n') /\ delivered data (targets sl) n n'.
Proof.
  intros (b & cells & Ht & Hs & Hnd) Hd Hn. unfold kvs_agent_send, targets in *. rewrite Ht in *. rewrite (proj2 (Z.eqb_neq _ 0)), Hs by lia.
  unfold zlen at 1. rewrite Nat2Z.id.
  destruct (send_cells_ok data extra b cells sl Ht Hd cells [] n) as (n' & E & Hdel); [done | done | done |].
  change (zlen (@nil Z)) with 0 in E. rewrite E. run. eauto.
Qed.

(** ** The specification of the forwarding *)

(** The state of the agent as far as the slaves can see it: where it is in a
    full synchronisation and the commands it keeps. *)
Record fwd := Fwd { f_state : kvs_slave_state; f_kept : list (list Z) }.

(** What a command, with its frame [f], makes the agent send. *)
Definition fwd_step (word f : list Z) (x : fwd) : fwd * list Z :=
  match agent_find word with
  | CMD_SYNC => (Fwd KVS_SLAVE_FULL_SYNC (f_kept x), [])
  | CMD_FULLSYNC_FINISHED | CMD_FULLSYNC_ERROR =>
      if bool_decide (f_state x = KVS_SLAVE_FULL_SYNC) then (Fwd KVS_SLAVE_INCR_SYNC [], mjoin (f_kept x)) else (x, [])
  | CMD_ALLOWED_SEND =>
      if bool_decide (f_state x = KVS_SLAVE_FULL_SYNC) then (Fwd (f_state x) (f_kept x ++ [f]), []) else (x, f)
  | CMD_OTHER => (x, [])
  end.

Definition fwd_cmd (ts : list (list Z)) (x : fwd) : fwd * list Z :=
  match ts with [] => (x, []) | t :: _ => fwd_step t (kvsp_frame ts) x end.

Fixpoint fwd_run (cmds : list (list (list Z))) (x : fwd) : fwd * list Z :=
  match cmds with
  | [] => (x, [])
  | ts :: cmds =>
      let '(x, d1) := fwd_cmd ts x in
      let '(x, d2) := fwd_run cmds x in (x, d1 ++ d2)
  end.

(** The kept commands fit a cache of [cap] bytes all along. *)
Fixpoint fwd_fits (cap : Z) (cmds : list (list (list Z))) (x : fwd) : Prop :=
  q_size (f_kept x) <= cap /\
  match cmds with [] => True | ts :: cmds => fwd_fits cap cmds (fwd_cmd ts x).1 end.

(** A command of the stream: a first token without NUL, a frame whose length
    is an [int]. *)
Definition cmd_ok (ts : list (list Z)) : Prop :=
  (exists t ts', ts = t :: ts' /\ nul_free t) /\ zlen (kvsp_frame ts) <= INT_MAX.

Lemma fwd_run_app c1 c2 x : fwd_run (c1 ++ c2) x = let '(x1, d1) := fwd_run c1 x in let '(x2, d2) := fwd_run c2 x1 in (x2, d1 ++ d2).
Proof.
  revert x. induction c1 as [| ts c1 IH]; intros x; cbn; [by destruct (fwd_run c2 x) |].
  destruct (fwd_cmd ts x) as [x1 d1]. rewrite IH. destruct (fwd_run c1 x1) as [x2 d2]. destruct (fwd_run c2 x2) as [x3 d3].
  by rewrite app_assoc.
Qed.

Lemma fwd_fits_app cap c1 c2 x : fwd_fits cap (c1 ++ c2) x -> fwd_fits cap c1 x /\ fwd_fits cap c2 (fwd_run c1 x).1.
Proof.
  revert x. induction c1 as [| ts c1 IH]; intros x; cbn [app fwd_fits fwd_run].
  - intros Hf. split; [| done]. split; [destruct c2; by destruct Hf | done].
  - intros [Hs Hf]. destruct (IH _ Hf) as [H1 H2]. split; [done |]. destruct (fwd_cmd ts x) as [x1 d1]. cbn in H2.
    destruct (fwd_run c1 x1) as [x2 d2]. done.
Qed.

Section AgentRuns.
Context {A : Type} `{AL : AllocatorLaws A} `{TOT : !AllocatorTotal A}.
Implicit Types (a : A) (n : net) (sl : kvs_slaves) (g : agent_info).

(** Every block taken was given back. *)
Definition same_live a a' : Prop := al_inv a' /\ al_live a' = al_live a.

Lemma take_and_give sz a p a' : al_inv a -> kvs_malloc sz a = (Some p, a') -> same_live a (kvs_free p a').
Proof.
  intros Hi Hm. destruct (malloc_some _ _ _ _ Hi Hm) as (Hf & Hl & Hi'). destruct (free_live p a') as [Hl' Hi2]; [done | rewrite Hl; set_solver |].
  split; [done |]. rewrite Hl', Hl. set_solver.
Qed.

Lemma send_cache_ok fuel ac q sl n a :
  queue_repr ac q -> (length q < fuel)%nat -> slaves_ok sl -> net_ok (targets sl) n -> al_inv a ->
  exists ac' n' a', kvs_agent_send_cache fuel ac sl n a = Ok (0, ac', sl, n', a') /\ queue_repr ac' [] /\ same_ring ac ac' /\
    delivered (mjoin q) (targets sl) n n' /\ same_live a a'.
Proof.
  revert ac q n a. induction fuel as [| fuel IH]; intros ac q n a Hq Hf Hs Hn Hi; [lia |]. cbn [kvs_agent_send_cache].
  pose proof (repr_used _ _ Hq) as Hu. destruct q as [| m q].
  - rewrite Hu. run. exists ac, n, a. split; [done |]. split; [done |]. split; [done |]. split; [by apply delivered_nil | done].
  - assert (Hm : 0 < zlen m) by (destruct Hq as [_ _ Hne]; by inversion Hne).
    unfold q_size in Hu. change ((m :: q) ≫= encode) with (encode m ++ (q ≫= encode)) in Hu. rewrite zlen_app, zlen_encode in Hu.
    pose proof (zlen_nonneg (q ≫= encode)). unfold SIZEOF_SIZE_T in Hu. rewrite (proj2 (Z.ltb_lt 0 (used ac))) by lia. run.
    pose proof (cache_read_queue ac m q 0 a Hq) as Hr. destruct (malloc_total (zlen m) a ltac:(pos_size)) as (p & a1 & Ha). rewrite Ha in Hr.
    destruct Hr as (ac1 & -> & Hq1 & Hc1). run. rewrite (proj2 (Z.eqb_neq (zlen m) 0)) by lia. cbn [b_str b_addr].
    destruct (agent_send_ok m [] sl n Hs Hm Hn) as (n1 & E & Hd). rewrite app_nil_r in E. rewrite E. run. change (0 =? 0) with true. run.
    destruct (take_and_give _ _ _ _ Hi Ha) as [Hi1 Hl1].
    destruct (IH ac1 q n1 (kvs_free p a1)) as (ac2 & n2 & a2 & -> & Hq2 & Hc2 & Hd2 & Hi2 & Hl2);
      [done | cbn in Hf; lia | done | by eapply delivered_ok | done |].
    exists ac2, n2, a2. split; [done |]. split; [done |]. split; [by eapply same_ring_trans |]. split; [by eapply delivered_trans | split; congruence || done].
Qed.

(** ** One command *)

(** What the handler leaves alone. *)
Definition ag_same_buf g g' : Prop :=
  ag_buf_p g' = ag_buf_p g /\ ag_buf g' = ag_buf g /\ buf_cap g' = buf_cap g /\ buf_pos g' = buf_pos g.

Record ag_repr g (x : fwd) : Prop := {
  ar_state : ag_state g = f_state x;
  ar_kept : queue_repr (fullsync_cache g) (f_kept x)
}.

Lemma q_size_length q : Z.of_nat (length q) <= q_size q.
Proof.
  induction q as [| m q IH]; [done |]. unfold q_size in *. change ((m :: q) ≫= encode) with (encode m ++ (q ≫= encode)).
  rewrite zlen_app, zlen_encode. pose proof (zlen_nonneg m). unfold SIZEOF_SIZE_T. cbn [length]. lia.
Qed.

(** The end of a synchronisation: what was kept is sent. *)
Lemma flush_ok g x sl n a p a1 :
  queue_repr (fullsync_cache g) (f_kept x) -> slaves_ok sl -> net_ok (targets sl) n ->
  al_inv a -> p ∉ al_live a -> al_live a1 = {[p]} ∪ al_live a -> al_inv a1 ->
  exists ac' n' a', kvs_agent_send_cache (S (Z.to_nat (used (fullsync_cache g)))) (fullsync_cache g) sl n a1 = Ok (0, ac', sl, n', a') /\
    queue_repr ac' [] /\ same_ring (fullsync_cache g) ac' /\ delivered (mjoin (f_kept x)) (targets sl) n n' /\
    same_live a (kvs_free p a').
Proof.
  intros Hq Hs Hn Hi Hp Hl1 Hi1. pose proof (repr_used _ _ Hq) as Hu. pose proof (q_size_length (f_kept x)).
  destruct (send_cache_ok (S (Z.to_nat (used (fullsync_cache g)))) (fullsync_cache g) (f_kept x) sl n a1 Hq ltac:(lia) Hs Hn Hi1)
    as (ac' & n' & a' & -> & Hq' & Hc' & Hd' & Hi' & Hl'). exists ac', n', a'. do 4 (split; [done |]).
  destruct (free_live p a' Hi') as [Hl3 Hi3]; [rewrite Hl', Hl1; set_solver |]. split; [done |]. rewrite Hl3, Hl', Hl1. set_solver.
Qed.

Lemma handler_ok ts rest g x sl n a :
  cmd_ok ts -> ag_buf g = kvsp_frame ts ++ rest -> ag_tl g = zlen (kvsp_frame ts) -> ag_hl g = zlen (fmt_head (zlen (kvsp_body ts))) ->
  ag_repr g x -> q_size (f_kept (fwd_cmd ts x).1) <= capacity (fullsync_cache g) -> slaves_ok sl -> net_ok (targets sl) n -> al_inv a ->
  exists g' n' a', kvs_agent_handler g sl n a = Ok (0, g', sl, n', a') /\ ag_repr g' (fwd_cmd ts x).1 /\ ag_same_buf g g' /\
    same_ring (fullsync_cache g) (fullsync_cache g') /\ delivered (fwd_cmd ts x).2 (targets sl) n n' /\ same_live a a'.
Proof.
  intros [(t & ts' & -> & Hnf) Hm] Hb Htl Hhl [Hst Hq] Hfit Hs Hn Hi. unfold kvs_agent_handler.
  rewrite (parse_command_ok t ts' rest g a Hb Hm Htl Hhl). destruct (malloc_total (zlen t + 1) a ltac:(pos_size)) as (p & a1 & Ha). rewrite Ha. run.
  cbn [b_str b_addr]. rewrite (rd_cstr_app [] t [] Hnf : rd_cstr (t ++ [0]) 0 = Ok t). run. cbn [fwd_cmd] in *.
  pose proof (malloc_some _ _ _ _ Hi Ha) as (Hfr & Hl1 & Hi1). pose proof (take_and_give _ _ _ _ Hi Ha) as Hret.
  pose proof (delivered_nil _ _ Hn) as Hd0. pose proof (kvsp_frame_pos (t :: ts')) as Hpos. unfold fwd_step in *.
  assert (Hidle : exists g' n' a', Ok (0, g, sl, n, kvs_free p a1) = Ok (0, g', sl, n', a') /\ ag_repr g' x /\ ag_same_buf g g' /\
    same_ring (fullsync_cache g) (fullsync_cache g') /\ delivered [] (targets sl) n n' /\ same_live a a').
  { exists g, n, (kvs_free p a1). do 2 (split; [done |]). done. }
  destruct (agent_find t) eqn:Hw; [| | | | exact Hidle].
  - exists (ag_with_state KVS_SLAVE_FULL_SYNC g), n, (kvs_free p a1). split; [done |]. split; [by split |]. done.
  - rewrite Hst in *. case_bool_decide as Hfs; [| exact Hidle]. cbn [fullsync_cache ag_with_state].
    destruct (flush_ok g x sl n a p a1) as (ac' & n' & a' & -> & Hq' & Hc' & Hd' & Hl'); [done.. |]. run.
    eexists _, n', _. split; [done |]. split; [by split |]. done.
  - rewrite Hst in *. case_bool_decide as Hfs; [| exact Hidle]. cbn [fullsync_cache ag_with_state].
    destruct (flush_ok g x sl n a p a1) as (ac' & n' & a' & -> & Hq' & Hc' & Hd' & Hl'); [done.. |]. run.
    eexists _, n', _. split; [done |]. split; [by split |]. done.
  - rewrite Hst in *. case_bool_decide as Hfs; run; rewrite Hb, Htl.
    + destruct (cache_write_queue (fullsync_cache g) (f_kept x) (kvsp_frame (t :: ts')) rest Hq) as (ac' & -> & Hq' & Hc').
      unfold q_push in Hq' |- *. cbn [fst f_kept] in Hfit. unfold q_size in Hfit. rewrite bind_app, zlen_app in Hfit.
      change ([kvsp_frame (t :: ts')] ≫= encode) with (encode (kvsp_frame (t :: ts')) ++ []) in Hfit. rewrite app_nil_r, zlen_encode in Hfit.
      unfold q_size in *. rewrite (proj2 (Z.eqb_neq _ 0)) in * by lia. rewrite (proj2 (Z.ltb_ge _ _)) in * by lia. run. cbn [snd] in Hq'.
      exists (ag_with_cache ac' g), n, (kvs_free p a1). split; [done |]. split; [by split |]. done.
    + destruct (agent_send_ok (kvsp_frame (t :: ts')) rest sl n Hs Hpos Hn) as (n' & -> & Hd). run.
      exists g, n', (kvs_free p a1). do 2 (split; [done |]). done.
Qed.

(** ** The commands of the buffer *)

(** The buffer holds [s], then arbitrary bytes. *)
Definition ag_holds (s : list Z) g : Prop :=
  (exists stale, ag_buf g = s ++ stale) /\ buf_pos g = zlen s /\ zlen (ag_buf g) = buf_cap g.

Definition ag_same_block g g' : Prop :=
  ag_buf_p g' = ag_buf_p g /\ buf_cap g' = buf_cap g /\ same_ring (fullsync_cache g) (fullsync_cache g').

Lemma shift_buffer (f rest stale : list Z) :
  rd_range (f ++ rest ++ stale) (zlen f) (zlen rest) = Ok rest /\
  exists stale', wr_range (f ++ rest ++ stale) 0 rest = Ok (rest ++ stale') /\ zlen (rest ++ stale') = zlen (f ++ rest ++ stale).
Proof.
  split; [apply rd_range_app_mid |]. unfold wr_range. rewrite !zlen_app. pose proof (zlen_nonneg f). pose proof (zlen_nonneg stale).
  rewrite (proj2 (Z.leb_le 0 0)), (proj2 (Z.leb_le _ _)) by lia. cbn [andb].
  exists (drop (length rest) (f ++ rest ++ stale)). split; [done |]. unfold zlen. rewrite length_app, length_drop, !length_app. lia.
Qed.

Lemma commands_ok fuel cmds tail g x sl n a :
  Forall cmd_ok cmds -> torn tail -> ag_holds (frames cmds ++ tail) g -> zlen (frames cmds ++ tail) <= INT_MAX ->
  fwd_fits (capacity (fullsync_cache g)) cmds x -> ag_repr g x -> slaves_ok sl -> net_ok (targets sl) n -> al_inv a -> (length cmds < fuel)%nat ->
  exists g' n' a', agent_commands fuel g sl n a = Ok (0, g', sl, n', a') /\ ag_repr g' (fwd_run cmds x).1 /\ ag_holds tail g' /\
    ag_same_block g g' /\ delivered (fwd_run cmds x).2 (targets sl) n n' /\ same_live a a'.
Proof.
  revert cmds g x n a. induction fuel as [| fuel IH]; intros cmds g x n a Hc Ht (Hb & Hp & Hz) Hmax Hf Hr Hs Hn Hi Hl; [lia |].
  cbn [agent_commands]. destruct Hb as [stale Hb]. destruct cmds as [| ts cmds].
  - change (frames [] ++ tail) with tail in *. cbn [fwd_run fst snd].
    assert (Hstay : exists g' n' a', Ok (0, g, sl, n, a) = Ok (0, g', sl, n', a') /\ ag_repr g' x /\ ag_holds tail g' /\
      ag_same_block g g' /\ delivered [] (targets sl) n n' /\ same_live a a').
    { exists g, n, a. split; [done |]. split; [done |]. split; [split; [by exists stale | done] |]. split; [done |].
      split; [by apply delivered_nil | done]. }
    destruct Ht as [-> | (ts & k & -> & Hk & Hkb)]; [rewrite Hp; exact Hstay |].
    assert (Hkl : zlen (take (Z.to_nat k) (kvsp_frame ts)) = k) by (unfold zlen in *; rewrite length_take; lia).
    rewrite Hp, Hkl, Hb, (proj2 (Z.ltb_lt 0 k)) by lia. run. rewrite agent_parse_eq by (rewrite ?zlen_app, ?Hkl; pose proof (zlen_nonneg stale); lia).
    destruct (kvsp_parse_partial ts stale k 0 Hk Hkb) as [h' ->]. run. exact Hstay.
  - inversion Hc as [| ? ? Hts Hc']; subst. pose proof Hts as [_ Hfi]. change (frames (ts :: cmds)) with (kvsp_frame ts ++ frames cmds) in *.
    pose proof (kvsp_frame_pos ts) as Hpos. rewrite <- !app_assoc in Hb. rewrite <- app_assoc in Hp, Hmax.
    pose proof (zlen_nonneg (frames cmds ++ tail)). pose proof (zlen_nonneg stale). rewrite zlen_app in Hp, Hmax.
    assert (Hzb : zlen (ag_buf g) = zlen (kvsp_frame ts) + zlen (frames cmds ++ tail) + zlen stale)
      by (rewrite Hb, !zlen_app; lia).
    rewrite (proj2 (Z.ltb_lt 0 (buf_pos g))) by lia. run. rewrite agent_parse_eq by lia. rewrite Hb, kvsp_parse_frame by (rewrite ?zlen_app in *; lia).
    run. rewrite (proj2 (Z.eqb_neq _ 0)), (proj2 (Z.ltb_ge _ 0)) by lia. destruct Hf as [_ Hf].
    set (g0 := ag_with_cmd _ _ g).
    destruct (handler_ok ts (frames cmds ++ tail ++ stale) g0 x sl n a) as (g1 & n1 & a1 & -> & Hr1 & (B1 & B2 & B3 & B4) & Hc1 & Hd1 & Hi1 & Hl1);
      [done | done | done | done | by destruct Hr; split | destruct cmds; apply Hf | done.. |].
    run. change (0 =? 0) with true. run. cbn in B1, B2, B3, B4, Hc1. rewrite B4, Hp, B2, Hb.
    replace (to_size_t (zlen (kvsp_frame ts) + zlen (frames cmds ++ tail) - zlen (kvsp_frame ts))) with (zlen (frames cmds ++ tail))
      by (rewrite size_t_small; unfold INT_MAX in *; lia).
    rewrite (app_assoc (frames cmds) tail stale).
    destruct (shift_buffer (kvsp_frame ts) (frames cmds ++ tail) stale) as (E1 & stale' & E2 & Hzs).
    rewrite E1. run. rewrite E2. run.
    destruct (IH cmds (ag_with_pos ((frames cmds ++ tail) ++ stale') (zlen (frames cmds ++ tail)) g1) (fwd_cmd ts x).1 n1 a1)
      as (g2 & n2 & a2 & -> & Hr2 & Hh2 & (S1 & S2 & S3) & Hd2 & Hi2 & Hl2).
    + done.
    + done.
    + split; [by exists stale' |]. cbn. split; [done |]. rewrite B3, <- Hz, Hzs, Hb. by rewrite <- app_assoc.
    + lia.
    + cbn. rewrite (proj2 Hc1). done.
    + by destruct Hr1; split.
    + done.
    + by eapply delivered_ok.
    + done.
    + cbn in Hl. lia.
    + cbn in S1, S2, S3. exists g2, n2, a2. cbn [fwd_run]. destruct (fwd_cmd ts x) as [x1 d1]. cbn [fst snd] in *.
      destruct (fwd_run cmds x1) as [x2 d2]. cbn [fst snd] in *. split; [done |]. split; [done |]. split; [done |].
      split; [split; [congruence |]; split; [congruence | by eapply same_ring_trans] |]. split; [by eapply delivered_trans |]. split; congruence || done.
Qed.

(** ** One message of the stream *)

Lemma frames_length cmds : Z.of_nat (length cmds) <= zlen (frames cmds).
Proof.
  induction cmds as [| ts cmds IH]; [done |]. change (frames (ts :: cmds)) with (kvsp_frame ts ++ frames cmds).
  rewrite zlen_app. pose proof (kvsp_frame_pos ts). cbn [length]. lia.
Qed.

Lemma rd_range_all (c : list Z) : rd_range c 0 (zlen c) = Ok c.
Proof. pose proof (rd_range_app_mid [] c []) as Hr. by rewrite app_nil_r in Hr. Qed.

(** The blocks of the agent but its buffer stay. *)
Definition ag_frame g a g' a' : Prop :=
  ag_buf_p g' ∈ al_live a' /\ al_live a' ∖ {[ag_buf_p g']} = al_live a ∖ {[ag_buf_p g]}.

(** The buffer with room for [need] bytes. *)
Definition ag_room g (need : Z) a : res (option agent_info * A) :=
  if buf_cap g <? need then
    '(temp, a) ← kvs_realloc (ag_buf_p g) need a;
    match temp with
    | None => Ok (None, a)
    | Some p => Ok (Some (ag_with_buf p (resize (ag_buf g) (granted p need a)) need g), a)
    end
  else Ok (Some g, a).

Lemma ag_room_ok g held need a :
  ag_holds held g -> zlen held <= need -> al_inv a -> ag_buf_p g ∈ al_live a ->
  exists g' a', ag_room g need a = Ok (Some g', a') /\ ag_holds held g' /\ need <= buf_cap g' /\
    ag_state g' = ag_state g /\ fullsync_cache g' = fullsync_cache g /\ al_inv a' /\ ag_frame g a g' a'.
Proof.
  intros ((stale & Hb) & Hp & Hz) Hn Hi Hl. unfold ag_room. pose proof (zlen_nonneg held). pose proof (zlen_nonneg (ag_buf g)) as Hb0.
  destruct (Z.ltb_spec (buf_cap g) need) as [Hlt | Hge].
  - destruct (realloc_total (ag_buf_p g) need a Hi Hl ltac:(lia)) as (p & a' & Hr & Hg). rewrite Hr. run. rewrite Hg.
    destruct (realloc_some _ _ _ _ _ Hi Hl Hr) as (Hf & Hl' & Hi'). eexists _, a'. split; [done |].
    split; [split; [| split] |].
    + cbn. rewrite Hb in *. unfold resize. rewrite zlen_app in Hz. pose proof (zlen_nonneg stale).
      exists (stale ++ replicate (Z.to_nat need - length (held ++ stale)) 0).
      rewrite take_ge by (rewrite length_app; unfold zlen in *; lia). by rewrite <- app_assoc.
    + done.
    + cbn. apply zlen_resize. lia.
    + cbn. do 3 (split; [done |]). split; [done |]. unfold ag_frame. cbn. rewrite Hl'. split; set_solver.
  - exists g, a. split; [done |]. split; [split; [by exists stale | done] |]. do 4 (split; [done |]). done.
Qed.

Lemma message_ok held c cmds tail g x sl n a :
  ag_holds held g -> 0 < zlen c -> held ++ c = frames cmds ++ tail -> torn tail -> Forall cmd_ok cmds -> zlen (held ++ c) <= INT_MAX ->
  fwd_fits (capacity (fullsync_cache g)) cmds x -> ag_repr g x -> slaves_ok sl -> net_ok (targets sl) n -> al_inv a -> ag_buf_p g ∈ al_live a ->
  exists g' n' a', kvs_agent_send_to_slave g c (zlen c) sl n a = Ok (0, g', sl, n', a') /\ ag_repr g' (fwd_run cmds x).1 /\ ag_holds tail g' /\
    same_ring (fullsync_cache g) (fullsync_cache g') /\ delivered (fwd_run cmds x).2 (targets sl) n n' /\ al_inv a' /\ ag_frame g a g' a'.
Proof.
  intros Hh Hc He Ht Hok Hmax Hf Hr Hs Hn Hi Hl. unfold kvs_agent_send_to_slave. rewrite (proj2 (Z.eqb_neq _ 0)) by lia.
  pose proof Hh as (_ & Hp & _). rewrite zlen_app in Hmax. pose proof (zlen_nonneg held).
  rewrite Hp, size_t_small by (unfold INT_MAX in *; lia). fold (ag_room g (zlen held + zlen c) a).
  destruct (ag_room_ok g held (zlen held + zlen c) a Hh ltac:(lia) Hi Hl) as (g1 & a1 & -> & Hh1 & Hc1 & St1 & Fc1 & Hi1 & Hl1 & Hf1). run.
  destruct Hh1 as ((stale & Hb1) & Hp1 & Hz1).
  rewrite rd_range_all. run.
  assert (Hstale : zlen c <= zlen stale) by (rewrite Hb1, zlen_app in Hz1; lia).
  assert (Hw : exists st, wr_range (ag_buf g1) (buf_pos g1) c = Ok ((held ++ c) ++ st) /\ zlen ((held ++ c) ++ st) = zlen (ag_buf g1)).
  { exists (drop (length c) stale). rewrite Hp1, Hb1, wr_range_app by done. split; [by rewrite app_assoc |].
    unfold zlen in *. rewrite !length_app, length_drop. lia. }
  destruct Hw as (st & -> & Hzw). run. rewrite He in Hzw |- *.
  destruct (commands_ok (S (Z.to_nat (zlen held + zlen c))) cmds tail
    (ag_with_pos ((frames cmds ++ tail) ++ st) (zlen held + zlen c) g1) x sl n a1)
    as (g2 & n2 & a2 & -> & Hr2 & Hh2 & (S1 & S2 & S3) & Hd2 & Hi2 & Hl2).
  - done.
  - done.
  - split; [by exists st |]. cbn. rewrite <- He, zlen_app. split; [done |]. rewrite He, Hzw. done.
  - rewrite <- He, zlen_app. lia.
  - cbn. by rewrite Fc1.
  - destruct Hr. split; cbn; congruence.
  - done.
  - done.
  - done.
  - pose proof (frames_length cmds). assert (zlen (held ++ c) = zlen (frames cmds ++ tail)) as Hzz by (by rewrite He).
    rewrite !zlen_app in Hzz. pose proof (zlen_nonneg tail). lia.
  - exists g2, n2, a2. cbn in S1, S3. split; [done |]. split; [done |]. split; [done |]. split; [by rewrite Fc1 in S3 |]. split; [done |]. split; [done |].
    unfold ag_frame. rewrite S1, Hl2. done.
Qed.

(** ** The two threads *)

(** A schedule: the events of the ring ([Some]) and the rounds of the
    consumer ([None], idle when there is nothing to read). *)
Fixpoint agent_sched (sched : list (option tcp_event)) (s : agent_state) (a : A) : res (agent_state * A) :=
  match sched with
  | [] => Ok (s, a)
  | e :: sched =>
      if existing s then Ok (s, a) else
      match e with
      | Some e => s ← handle_event e s; agent_sched sched s a
      | None =>
          if used (global_agent_cache s) =? 0 then agent_sched sched s a
          else '(_, s, a) ← kvs_agent s a; agent_sched sched s a
      end
  end.

(** The bytes of an event; the kernel ring delivers events of this form. *)
Definition ev_data (e : tcp_event) : list Z := take (Z.to_nat (payload_len e)) (payload e).
Definition event_ok (e : tcp_event) : Prop :=
  0 < ev_ret e /\ 0 < payload_len e <= KVS_AGENT_PAYLOAD_SIZE /\ payload_len e <= zlen (payload e).

Definition sched_data (sched : list (option tcp_event)) : list Z := mjoin (ev_data <$> omap id sched).

(** The backlog fits a cache of [cap] bytes. *)
Fixpoint backlog_fits (cap : Z) (sched : list (option tcp_event)) (q : list (list Z)) : Prop :=
  match sched with
  | [] => True
  | Some e :: sched => q_size (q ++ [ev_data e]) <= cap /\ backlog_fits cap sched (q ++ [ev_data e])
  | None :: sched => backlog_fits cap sched (tail q)
  end.

(** The backlog after a schedule. *)
Fixpoint sched_queue (sched : list (option tcp_event)) (q : list (list Z)) : list (list Z) :=
  match sched with
  | [] => q
  | Some e :: sched => sched_queue sched (q ++ [ev_data e])
  | None :: sched => sched_queue sched (tail q)
  end.

(** A running agent: [q] is the backlog, [held] the beginning of a command in
    the buffer, [x] the state of the forwarding. *)
Record agent_inv (x : fwd) (held : list Z) (q : list (list Z)) (s : agent_state) (a : A) : Prop := {
  ai_runs : existing s = false;
  ai_backlog : queue_repr (global_agent_cache s) q;
  ai_held : ag_holds held (ag_info s);
  ai_torn : torn held;
  ai_repr : ag_repr (ag_info s) x;
  ai_small : Forall (fun m => zlen m <= KVS_AGENT_PAYLOAD_SIZE) q;
  ai_slaves : slaves_ok (global_slaves s);
  ai_net : net_ok (targets (global_slaves s)) (ag_net s);
  ai_alloc : al_inv a /\ ag_buf_p (ag_info s) ∈ al_live a
}.

Definition sched_same (s s' : agent_state) : Prop :=
  global_slaves s' = global_slaves s /\ same_ring (global_agent_cache s) (global_agent_cache s') /\
  same_ring (fullsync_cache (ag_info s)) (fullsync_cache (ag_info s')).

Lemma ev_data_len e : event_ok e -> zlen (ev_data e) = payload_len e.
Proof. intros (_ & Hb & Hl). unfold ev_data, zlen in *. rewrite length_take. lia. Qed.

(** An event joins the backlog. *)
Lemma produce_ok e x held q s a :
  agent_inv x held q s a -> event_ok e -> q_size (q ++ [ev_data e]) <= capacity (global_agent_cache s) ->
  exists s', handle_event e s = Ok s' /\ agent_inv x held (q ++ [ev_data e]) s' a /\ sched_same s s' /\ ag_net s' = ag_net s /\ ag_info s' = ag_info s.
Proof.
  intros [I1 I2 I3 I4 I5 I6 I7 I8 I9] He Hq. pose proof (ev_data_len e He) as Hlen. pose proof He as (Hr & Hb & Hl).
  unfold handle_event. rewrite (proj2 (Z.leb_gt (ev_ret e) 0)) by lia. unfold KVS_AGENT_PAYLOAD_SIZE in *. rewrite size_t_small by lia.
  assert (Hpay : exists extra, payload e = ev_data e ++ extra) by (eexists; symmetry; apply take_drop).
  destruct Hpay as [extra Hpay]. rewrite <- Hlen, Hpay.
  destruct (cache_write_queue (global_agent_cache s) q (ev_data e) extra I2) as (ac & -> & Hq' & Hc).
  unfold q_push, q_size in *. rewrite bind_app, zlen_app in Hq.
  change ([ev_data e] ≫= encode) with (encode (ev_data e) ++ []) in Hq. rewrite app_nil_r, zlen_encode in Hq.
  rewrite (proj2 (Z.eqb_neq (zlen (ev_data e)) 0)) in * by lia.
  rewrite (proj2 (Z.ltb_ge (capacity (global_agent_cache s) - _) (SIZEOF_SIZE_T + _))) in * by lia. run. cbn [snd] in Hq'. rewrite I1.
  eexists. split; [done |]. split; [split; try done; apply Forall_app; split; [done |]; constructor; [unfold KVS_AGENT_PAYLOAD_SIZE; lia | constructor] |]. done.
Qed.

(** A round of the consumer. *)
Lemma consume_ok m q x held cmds tail s a :
  agent_inv x held (m :: q) s a -> held ++ m = frames cmds ++ tail -> torn tail -> Forall cmd_ok cmds -> zlen (held ++ m) <= INT_MAX ->
  fwd_fits (capacity (fullsync_cache (ag_info s))) cmds x ->
  exists s' a', kvs_agent s a = Ok (true, s', a') /\ agent_inv (fwd_run cmds x).1 tail q s' a' /\ sched_same s s' /\
    delivered (fwd_run cmds x).2 (targets (global_slaves s)) (ag_net s) (ag_net s') /\ ag_frame (ag_info s) a (ag_info s') a'.
Proof.
  intros [I1 I2 I3 I4 I5 I6 I7 I8 [I9 I10]] He Ht Hok Hmax Hf. inversion I6 as [| ? ? Hm I6']; subst. unfold kvs_agent.
  assert (Hpos : 0 < zlen m) by (destruct I2 as [_ _ Hne]; by inversion Hne).
  pose proof (cache_read_queue (global_agent_cache s) m q 0 a I2) as Hr. destruct (malloc_total (zlen m) a ltac:(pos_size)) as (p & a1 & Ha). rewrite Ha in Hr.
  destruct (malloc_some _ _ _ _ I9 Ha) as (Hfr & Hl1 & Hi1). destruct Hr as (ac & -> & Hq & Hc). run.
  rewrite (proj2 (Z.eqb_neq (zlen m) 0)) by lia. cbn [b_str b_addr].
  destruct (message_ok held m cmds tail (ag_info s) x (global_slaves s) (ag_net s) a1)
    as (g' & n' & a' & -> & Hr' & Hh' & Hcap & Hd & Hi' & Hl' & Hfrm); [done.. | rewrite Hl1; set_solver |]. run.
  change (0 =? 0) with true. run. eexists _, _. split; [done |].
  assert (Hne : p <> ag_buf_p (ag_info s)) by (intros ->; done).
  assert (Hpl : p ∈ al_live a' ∖ {[ag_buf_p g']}) by (rewrite Hfrm, Hl1; set_solver).
  destruct (free_live p a' Hi') as [Hlf Hif]; [set_solver |].
  assert (Hframe : ag_frame (ag_info s) a g' (kvs_free p a')).
  { split; [rewrite Hlf; set_solver |]. rewrite Hlf. transitivity (al_live a' ∖ {[ag_buf_p g']} ∖ {[p]}); [set_solver |].
    rewrite Hfrm, Hl1. set_solver. }
  split; [split; try done; [by eapply delivered_ok | split; [done | apply Hframe]] |]. split; [done |]. done.
Qed.

(** The stream of commands, cut anywhere. *)
Lemma cut_stream s rest cmds : Forall cmd_ok cmds -> s ++ rest = frames cmds ->
  exists c1 c2 tail, cmds = c1 ++ c2 /\ s = frames c1 ++ tail /\ torn tail /\ tail ++ rest = frames c2.
Proof.
  intros Hok Hs. destruct (cut_frames cmds (length s)) as (k & tail & Ht & Htorn & _).
  { eapply Forall_impl; [exact Hok |]. by intros ts [_ ?]. }
  rewrite <- Hs, take_app_length in Ht. exists (take k cmds), (drop k cmds), tail. rewrite take_drop. do 3 (split; [done |]).
  assert (Hsplit : frames cmds = frames (take k cmds) ++ frames (drop k cmds)) by (unfold frames; by rewrite <- bind_app, take_drop).
  rewrite Hsplit, Ht, <- app_assoc in Hs. by apply app_inv_head in Hs.
Qed.

Lemma torn_short held rest cmds : torn held -> Forall cmd_ok cmds -> held ++ rest = frames cmds ->
  held = [] \/ exists ts cmds', cmds = ts :: cmds' /\ zlen held < zlen (kvsp_frame ts).
Proof.
  intros Ht Hok He. destruct cmds as [| ts cmds]; [left; by apply app_eq_nil in He as [-> _] |].
  destruct (decide (zlen held < zlen (kvsp_frame ts))) as [? | Hge]; [right; eauto |].
  change (frames (ts :: cmds)) with (kvsp_frame ts ++ frames cmds) in He. inversion Hok as [| ? ? [_ Hts] _]; subst.
  assert (Hh : held = kvsp_frame ts ++ drop (length (kvsp_frame ts)) held).
  { rewrite <- (take_drop (length (kvsp_frame ts)) held) at 1. f_equal.
    rewrite <- (take_app_le held rest) by (unfold zlen in *; lia). by rewrite He, take_app_length. }
  exfalso. pose proof (kvsp_frame_pos ts). destruct (torn_stops _ Ht) as [? | (r & hl & Hp & Hr)]; [lia |].
  rewrite Hh in Hp at 1. rewrite kvsp_parse_frame in Hp; [| done | lia | rewrite <- Hh; lia]. injection Hp as <- <-. lia.
Qed.

(** Commands of the stream the agent can buffer with the next message. *)
Definition cmds_ok (cmds : list (list (list Z))) : Prop := Forall cmd_ok cmds /\ Forall (fun ts => zlen (kvsp_frame ts) <= 2 ^ 30) cmds.

Lemma held_room held m rest cmds :
  torn held -> cmds_ok cmds -> held ++ m ++ rest = frames cmds -> zlen m <= KVS_AGENT_PAYLOAD_SIZE -> zlen (held ++ m) <= INT_MAX.
Proof.
  intros Ht [Hok Hs] He Hm. rewrite zlen_app. unfold KVS_AGENT_PAYLOAD_SIZE, INT_MAX in *.
  destruct (torn_short held (m ++ rest) cmds Ht Hok He) as [-> | (ts & cmds' & -> & Hl)]; [change (zlen (@nil Z)) with 0; lia |].
  inversion Hs; subst. lia.
Qed.

Lemma sched_data_cons e sched : sched_data (e :: sched) = from_option ev_data [] e ++ sched_data sched.
Proof. unfold sched_data. destruct e; done. Qed.

Lemma sched_same_trans s1 s2 s3 : sched_same s1 s2 -> sched_same s2 s3 -> sched_same s1 s3.
Proof. unfold sched_same. intros (? & ? & ?) (? & ? & ?). split; [congruence |]. split; by eapply same_ring_trans. Qed.

Lemma ag_frame_trans g1 a1 g2 a2 g3 a3 : ag_frame g1 a1 g2 a2 -> ag_frame g2 a2 g3 a3 -> ag_frame g1 a1 g3 a3.
Proof. unfold ag_frame. intros [_ ->] [? ?]. split; congruence || done. Qed.

(** What a schedule reaches from a running state. *)
Definition sched_reaches (cmds : list (list (list Z))) (x : fwd) (bytes : list Z) (q' : list (list Z)) (s : agent_state) (a : A)
    (out : res (agent_state * A)) : Prop :=
  exists s' a' c1 c2 held', out = Ok (s', a') /\ cmds = c1 ++ c2 /\ bytes = frames c1 ++ held' ++ mjoin q' /\
    agent_inv (fwd_run c1 x).1 held' q' s' a' /\ sched_same s s' /\
    delivered (fwd_run c1 x).2 (targets (global_slaves s)) (ag_net s) (ag_net s') /\ ag_frame (ag_info s) a (ag_info s') a'.

Lemma sched_ok sched : forall q held rest cmds x s a,
  agent_inv x held q s a -> cmds_ok cmds -> (held ++ mjoin q ++ sched_data sched) ++ rest = frames cmds ->
  fwd_fits (capacity (fullsync_cache (ag_info s))) cmds x -> backlog_fits (capacity (global_agent_cache s)) sched q ->
  Forall event_ok (omap id sched) ->
  sched_reaches cmds x (held ++ mjoin q ++ sched_data sched) (sched_queue sched q) s a (agent_sched sched s a).
Proof.
  induction sched as [| e sched IH]; intros q held rest cmds x s a Hinv Hok He Hf Hb Hev; cbn [agent_sched].
  - change (sched_data []) with (@nil Z) in *. rewrite app_nil_r in *. exists s, a, [], cmds, held. do 3 (split; [done |]).
    split; [done |]. split; [done |]. split; [apply delivered_nil, Hinv | split; [apply Hinv | done]].
  - rewrite sched_data_cons in *. rewrite (ai_runs _ _ _ _ _ Hinv). destruct e as [e |]; cbn [from_option id] in *.
    + cbn in Hev. inversion Hev as [| ? ? Hev1 Hev2]; subst. destruct Hb as [Hb1 Hb2].
      destruct (produce_ok e x held q s a Hinv Hev1 Hb1) as (s1 & -> & Hinv1 & Hsame & Hnet & Hinfo). run.
      assert (Hm : mjoin q ++ ev_data e ++ sched_data sched = mjoin (q ++ [ev_data e]) ++ sched_data sched)
        by (rewrite join_app; change (mjoin [ev_data e]) with (ev_data e ++ []); by rewrite app_nil_r, app_assoc).
      rewrite Hm in *. pose proof Hsame as (S1 & [_ S2] & [_ S3]). rewrite <- S2 in Hb2. rewrite <- S3 in Hf.
      destruct (IH (q ++ [ev_data e]) held rest cmds x s1 a) as (s2 & a2 & c1 & c2 & h2 & E1 & E2 & E3 & E4 & E5 & E6 & E7); [done.. |].
      exists s2, a2, c1, c2, h2. do 4 (split; [done |]). split; [by eapply sched_same_trans |]. rewrite <- S1, <- Hnet, <- Hinfo. done.
    + change (backlog_fits (capacity (global_agent_cache s)) sched (tail q)) in Hb. cbn [app] in *.
      destruct q as [| m q].
      { rewrite (repr_used _ _ (ai_backlog _ _ _ _ _ Hinv)). by apply IH with rest. }
      change (mjoin (m :: q)) with (m ++ mjoin q) in *. rewrite <- app_assoc in *.
      assert (Hu : used (global_agent_cache s) <> 0).
      { rewrite (repr_used _ _ (ai_backlog _ _ _ _ _ Hinv)). pose proof (q_size_length (m :: q)). cbn [length] in *. lia. }
      rewrite (proj2 (Z.eqb_neq _ 0) Hu).
      assert (Hst : (held ++ m) ++ (mjoin q ++ sched_data sched) ++ rest = frames cmds) by (rewrite <- He, !app_assoc; done).
      destruct (cut_stream _ _ _ (proj1 Hok) Hst) as (c1 & c2 & tl & -> & Hcut & Htorn & Hrest).
      destruct Hok as [Hok1 Hok2]. apply Forall_app in Hok1 as [Ho1 Ho2]. pose proof Hok2 as Hok3. apply Forall_app in Hok3 as [Hs1 Hs2].
      apply fwd_fits_app in Hf as [Hf1 Hf2].
      destruct (consume_ok m q x held c1 tl s a Hinv Hcut Htorn Ho1) as (s1 & a1 & -> & Hinv1 & Hsame & Hdel & Hfrm).
      { eapply (held_room held m ((mjoin q ++ sched_data sched) ++ rest) (c1 ++ c2)); [apply Hinv | split; [by apply Forall_app | done] | |].
        - by rewrite app_assoc.
        - pose proof (ai_small _ _ _ _ _ Hinv) as Hsm. by inversion Hsm. }
      { done. }
      run. pose proof Hsame as (S1 & [_ S2] & [_ S3]). rewrite <- S2 in Hb. rewrite <- S3 in Hf2.
      destruct (IH q tl rest c2 (fwd_run c1 x).1 s1 a1) as (s2 & a2 & d1 & d2 & h2 & E1 & E2 & E3 & E4 & E5 & E6 & E7);
        [done | by split | by rewrite <- app_assoc | done | done | done |].
      exists s2, a2, (c1 ++ d1), d2, h2. split; [done |]. split; [by rewrite <- app_assoc, E2 |].
      split; [rewrite app_assoc, Hcut, <- app_assoc, E3; unfold frames; by rewrite bind_app, <- app_assoc |].
      rewrite fwd_run_app. destruct (fwd_run c1 x) as [x1 o1]. cbn [fst snd] in *. destruct (fwd_run d1 x1) as [x2 o2]. cbn [fst snd] in *.
      split; [done |]. split; [by eapply sched_same_trans |]. split; [rewrite S1 in E6; by eapply delivered_trans | by eapply ag_frame_trans].
Qed.

(** Once everything was read and the backlog is gone, every command was
    forwarded. *)
Lemma torn_nothing held cmds : torn held -> Forall cmd_ok cmds -> held = frames cmds -> cmds = [].
Proof.
  intros Ht Hok He. destruct (torn_short held [] cmds Ht Hok) as [Hn | (ts & cmds' & -> & Hl)]; [by rewrite app_nil_r | |].
  - destruct cmds as [| ts cmds]; [done |]. pose proof (frames_length (ts :: cmds)) as Hl. rewrite <- He, Hn in Hl. change (zlen (@nil Z)) with 0 in Hl. cbn [length] in Hl. lia.
  - rewrite He in Hl. change (frames (ts :: cmds')) with (kvsp_frame ts ++ frames cmds') in Hl. rewrite zlen_app in Hl.
    pose proof (zlen_nonneg (frames cmds')). lia.
Qed.

Lemma sched_complete sched cmds x s a :
  agent_inv x [] [] s a -> cmds_ok cmds -> sched_data sched = frames cmds -> sched_queue sched [] = [] ->
  fwd_fits (capacity (fullsync_cache (ag_info s))) cmds x -> backlog_fits (capacity (global_agent_cache s)) sched [] ->
  Forall event_ok (omap id sched) ->
  exists s' a', agent_sched sched s a = Ok (s', a') /\ agent_inv (fwd_run cmds x).1 [] [] s' a' /\ sched_same s s' /\
    delivered (fwd_run cmds x).2 (targets (global_slaves s)) (ag_net s) (ag_net s') /\ ag_frame (ag_info s) a (ag_info s') a'.
Proof.
  intros Hinv Hok Hd Hq Hf Hb Hev.
  destruct (sched_ok sched [] [] [] cmds x s a) as (s' & a' & c1 & c2 & h & E1 & E2 & E3 & E4 & E5 & E6 & E7);
    [done | done | by rewrite app_nil_r, <- Hd | done | done | done |]. rewrite Hq in *.
  change ([] ++ mjoin [] ++ sched_data sched) with (sched_data sched) in E3. change (mjoin []) with (@nil Z) in E3.
  rewrite app_nil_r, Hd, E2 in E3. unfold frames in E3. rewrite bind_app in E3. apply app_inv_head in E3.
  assert (c2 = []) as ->.
  { apply (torn_nothing h); [apply E4 | destruct Hok as [Ho _]; rewrite E2 in Ho; by apply Forall_app in Ho as [_ ?] | done]. }
  rewrite app_nil_r in E2. subst c1. assert (h = []) as -> by done. exists s', a'. done.
Qed.

Lemma queue_rounds k q : sched_queue (replicate k None) q = drop k q.
Proof.
  revert q. induction k as [| k IH]; intros q; [done |]. cbn [replicate sched_queue]. rewrite IH.
  destruct q; [by destruct k | done].
Qed.

Lemma sched_queue_app s1 s2 q : sched_queue (s1 ++ s2) q = sched_queue s2 (sched_queue s1 q).
Proof. revert q. induction s1 as [| [e |] s1 IH]; intros q; cbn; [done | |]; apply IH. Qed.

Lemma sched_queue_length sched q : (length (sched_queue sched q) <= length q + length (omap id sched))%nat.
Proof.
  revert q. induction sched as [| [e |] sched IH]; intros q; cbn; [lia | |].
  - etransitivity; [apply IH |]. rewrite length_app. cbn. lia.
  - etransitivity; [apply IH |]. destruct q; cbn; lia.
Qed.

Lemma backlog_app cap s1 s2 q : backlog_fits cap (s1 ++ s2) q <-> backlog_fits cap s1 q /\ backlog_fits cap s2 (sched_queue s1 q).
Proof. revert q. induction s1 as [| [e |] s1 IH]; intros q; cbn; [tauto | |]; rewrite IH; tauto. Qed.

Lemma backlog_rounds cap k q : backlog_fits cap (replicate k None) q.
Proof. revert q. induction k as [| k IH]; intros q; cbn; [done | apply IH]. Qed.

Lemma sched_data_app s1 s2 : sched_data (s1 ++ s2) = sched_data s1 ++ sched_data s2.
Proof. unfold sched_data. by rewrite omap_app, fmap_app, join_app. Qed.

Lemma omap_rounds k : omap (M := list) id (replicate k (None : option tcp_event)) = [].
Proof. induction k; done. Qed.

End AgentRuns.
