(* ===== verification/AgentLife.v ===== *)
(** * AgentLife: the agent with its slaves coming and going

    The third thread of [src/kvs-ebpf/kvs_agent.c], [server], beside the two of
    [AgentFacts]: slaves connect and leave between the steps of the schedule.
    The blocks the agent owns, the descriptors it has open, and what a slave is
    sent from the moment it joins to the moment it leaves. *)

From S2P Require Import Prelude CLib Alloc Protocol ProtocolFacts Uring Log LogFacts Store StoreFacts RequestFacts RecoveryFacts AgentDs AgentDsFacts Agent AgentFacts.

(** ** The table of slaves *)

Definition table_block (sl : kvs_slaves) : option Z := fst <$> sl_table sl.

(** The slaves [conn] are in the table. *)
Record holds_slaves (conn : list Z) (sl : kvs_slaves) : Prop := {
  hs_inv : slaves_inv sl;
  hs_conn : connected sl ≡ₚ conn;
  hs_pos : Forall (fun fd => 0 < fd) conn;
  hs_nodup : NoDup conn
}.

Lemma filter_pos (l : list Z) : Forall (fun fd => 0 < fd) (filter (fun fd => 0 <= fd) l) -> filter (fun fd => 0 < fd) l = filter (fun fd => 0 <= fd) l.
Proof.
  induction l as [| c l IH]; [done |]. rewrite !filter_cons. destruct (decide (0 <= c)) as [Hc | Hc].
  - intros Hf. inversion Hf; subst. rewrite decide_True by done. f_equal. by apply IH.
  - rewrite decide_False by lia. apply IH.
Qed.

Lemma holds_targets conn sl : holds_slaves conn sl -> targets sl = connected sl.
Proof.
  intros [_ Hc Hp _]. unfold targets, connected in *. destruct (sl_table sl) as [[b cells] |]; [| done]. apply filter_pos. by rewrite Hc.
Qed.

Lemma holds_ok conn sl : holds_slaves conn sl -> slaves_ok sl /\ targets sl ≡ₚ conn.
Proof.
  intros Hs. pose proof (holds_targets _ _ Hs) as Ht. destruct Hs as [(b & cells & H1 & H2 & _) Hc _ Hn].
  split; [exists b, cells; do 2 (split; [done |]) |]; rewrite Ht; [by rewrite Hc | done].
Qed.

Lemma insert_block sl fd : table_block (kvs_slaves_insert sl fd).2 = table_block sl.
Proof.
  unfold kvs_slaves_insert, table_block. destruct (sl_table sl) as [[b cells] |] eqn:Ht; [| by cbn; rewrite Ht].
  destruct (sl_total sl =? sl_size sl); [by cbn; rewrite Ht |]. destruct (first_cell _ cells); cbn; [done | by rewrite Ht].
Qed.

Lemma delete_block sl fd : table_block (kvs_slaves_delete sl fd).2 = table_block sl.
Proof.
  unfold kvs_slaves_delete, table_block. destruct (sl_table sl) as [[b cells] |] eqn:Ht; [| by cbn; rewrite Ht].
  destruct (sl_total sl =? 0); [by cbn; rewrite Ht |]. destruct (first_cell _ cells); cbn; [done | by rewrite Ht].
Qed.

Lemma holds_insert conn sl fd :
  holds_slaves conn sl -> 0 < fd -> fd ∉ conn -> zlen conn < sl_size sl ->
  holds_slaves (fd :: conn) (kvs_slaves_insert sl fd).2 /\ sl_size (kvs_slaves_insert sl fd).2 = sl_size sl.
Proof.
  intros [Hi Hc Hp Hn] Hfd Hnew Hroom. pose proof Hi as (b & cells & _ & _ & Ht).
  destruct (slaves_insert_ok sl fd Hi ltac:(lia)) as (r & sl' & -> & Hi' & Hs' & [(Hfull & _) | (_ & _ & Hc')]).
  - exfalso. unfold zlen in *. rewrite Hc in Ht. lia.
  - split; [| done]. split; [done | by rewrite Hc', Hc | by constructor | by constructor].
Qed.

Lemma holds_delete conn sl fd :
  holds_slaves (fd :: conn) sl ->
  holds_slaves conn (kvs_slaves_delete sl fd).2 /\ sl_size (kvs_slaves_delete sl fd).2 = sl_size sl.
Proof.
  intros [Hi Hc Hp Hn]. inversion Hp; subst. inversion Hn; subst.
  destruct (slaves_delete_ok sl fd Hi ltac:(lia)) as (sl' & -> & Hi' & Hs' & [(_ & Hc') | (Hno & _)]).
  - split; [| done]. split; [done | | done | done]. rewrite Hc in Hc'. by apply Permutation.Permutation_cons_inv in Hc'.
  - exfalso. apply Hno. rewrite Hc. set_solver.
Qed.

Lemma holds_perm conn conn' sl : conn ≡ₚ conn' -> holds_slaves conn sl -> holds_slaves conn' sl.
Proof. intros Hp [H1 H2 H3 H4]. split; [done | by rewrite H2 | by rewrite <- Hp | by rewrite <- Hp]. Qed.

(** ** The steps of the three threads *)

(** An event or a round of the two threads of [AgentFacts.agent_sched], a slave
    that connects, and one whose connection ended ([recv] gave 0 or failed). *)
Inductive agent_step :=
| AgTraffic (e : option tcp_event)
| AgJoin (fd : Z)
| AgLeave (fd : Z) (failed : bool).

(** With the descriptors that were closed. *)
Fixpoint agent_life {A} `{Allocator A} (steps : list agent_step) (s : agent_state) (a : A) : res (list Z * agent_state * A) :=
  match steps with
  | [] => Ok ([], s, a)
  | AgTraffic e :: steps => '(s, a) ← agent_sched [e] s a; agent_life steps s a
  | AgJoin fd :: steps => agent_life steps (server_accept (Some fd) s).2 a
  | AgLeave fd failed :: steps =>
      let '(c, s) := server_recv fd true (if failed then None else Some []) s in
      '(cs, s, a) ← agent_life steps s a; Ok (c ++ cs, s, a)
  end.

Definition traffic (steps : list agent_step) : list (option tcp_event) :=
  omap (fun st => match st with AgTraffic e => Some e | _ => None end) steps.
Definition joins (steps : list agent_step) : list Z :=
  omap (fun st => match st with AgJoin fd => Some fd | _ => None end) steps.

(** Slaves join with descriptors that are not in use, at most [MAX_SLAVE_COUNT]
    at a time, and only connected slaves leave; [conn] are connected. *)
Fixpoint slaves_come_and_go (steps : list agent_step) (conn : list Z) : Prop :=
  match steps with
  | [] => True
  | AgTraffic _ :: steps => slaves_come_and_go steps conn
  | AgJoin fd :: steps => 0 < fd /\ fd ∉ conn /\ zlen conn < MAX_SLAVE_COUNT /\ slaves_come_and_go steps (fd :: conn)
  | AgLeave fd _ :: steps => fd ∈ conn /\ slaves_come_and_go steps (filter (fun c => c <> fd) conn)
  end.

(** What a slave receives when the steps send [outs]: the output of the steps
    between its joining and its leaving; [on] says it is connected. *)
Fixpoint received (fd : Z) (on : bool) (steps : list agent_step) (outs : list (list Z)) : list Z :=
  match steps, outs with
  | AgTraffic _ :: steps, o :: outs => (if on then o else []) ++ received fd on steps outs
  | AgJoin fd' :: steps, _ :: outs => received fd (on || bool_decide (fd = fd')) steps outs
  | AgLeave fd' _ :: steps, _ :: outs => received fd (on && negb (bool_decide (fd = fd'))) steps outs
  | _, _ => []
  end.

(** ** The peers *)

Lemma delivered_keeps all d fds n n' : delivered d fds n n' -> net_ok all n -> net_ok all n'.
Proof.
  unfold net_ok. intros [Hd Ho] Hn. rewrite Forall_forall in Hd, Hn |- *. intros fd Hin. destruct (decide (fd ∈ fds)) as [Hf | Hf].
  - destruct (Hd fd Hf) as (out & rs & rs' & _ & Hp & Hr). eauto.
  - rewrite (Ho fd Hf). by apply Hn.
Qed.

Lemma net_ok_sub all fds n : fds ⊆ all -> net_ok all n -> net_ok fds n.
Proof. unfold net_ok. rewrite !Forall_forall. auto. Qed.

(** A peer was sent [d] more. *)
Definition grew (fd : Z) (d : list Z) (n n' : net) : Prop :=
  exists out rs rs', n !! fd = Some (Peer out rs) /\ n' !! fd = Some (Peer (out ++ d) rs').

Lemma delivered_grew all d fds n n' fd : delivered d fds n n' -> net_ok all n -> fd ∈ all -> grew fd (if bool_decide (fd ∈ fds) then d else []) n n'.
Proof.
  unfold net_ok, grew. intros [Hd Ho] Hn Hin. rewrite Forall_forall in Hd, Hn. case_bool_decide as Hf.
  - destruct (Hd fd Hf) as (out & rs & rs' & H1 & H2 & _). eauto.
  - destruct (Hn fd Hin) as (out & rs & H1 & _). exists out, rs, rs. rewrite (Ho fd Hf), app_nil_r. done.
Qed.

Lemma grew_nil all n fd : net_ok all n -> fd ∈ all -> grew fd [] n n.
Proof. unfold net_ok, grew. rewrite Forall_forall. intros Hn Hin. destruct (Hn fd Hin) as (out & rs & H & _). exists out, rs, rs. by rewrite app_nil_r. Qed.

Lemma grew_trans fd d1 d2 n1 n2 n3 : grew fd d1 n1 n2 -> grew fd d2 n2 n3 -> grew fd (d1 ++ d2) n1 n3.
Proof.
  intros (o1 & r1 & r1' & A1 & A2) (o2 & r2 & r2' & B1 & B2). rewrite A2 in B1. injection B1 as <- <-.
  exists o1, r1, r2'. split; [done |]. by rewrite app_assoc.
Qed.

(** ** The blocks *)

Section Life.
Context {A : Type} `{AL : AllocatorLaws A} `{TOT : !AllocatorTotal A}.
Implicit Types a : A.

(** Beside the blocks [l] the agent has four of its own: the buffer, the two
    rings and the table. *)
Definition agent_owns (l : gset Z) (s : agent_state) a : Prop :=
  exists p2 p3 p4, cache_block (fullsync_cache (ag_info s)) = Some p2 /\ table_block (global_slaves s) = Some p3 /\
    cache_block (global_agent_cache s) = Some p4 /\ NoDup [ag_buf_p (ag_info s); p2; p3; p4] /\
    Forall (fun p => p ∉ l) [ag_buf_p (ag_info s); p2; p3; p4] /\ al_live a = list_to_set [ag_buf_p (ag_info s); p2; p3; p4] ∪ l.

Lemma owns_sched l s a s' a' : agent_owns l s a -> sched_same s s' -> ag_frame (ag_info s) a (ag_info s') a' -> agent_owns l s' a'.
Proof.
  intros (p2 & p3 & p4 & H2 & H3 & H4 & Hnd & Hfr & Hl) (S1 & [S2 _] & [S3 _]) [Hin Hf].
  exists p2, p3, p4. rewrite S1, S2, S3. do 3 (split; [done |]).
  apply NoDup_cons in Hnd as [Hp1 Hnd]. rewrite Forall_cons in Hfr. destruct Hfr as [Hf1 Hfr].
  assert (He : al_live a' ∖ {[ag_buf_p (ag_info s')]} = list_to_set [p2; p3; p4] ∪ l).
  { rewrite Hf, Hl. clear - Hp1 Hf1. apply set_eq. intros z. set_solver. }
  assert (Hnew : ag_buf_p (ag_info s') ∉ (list_to_set [p2; p3; p4] ∪ l : gset Z)) by (rewrite <- He; set_solver).
  split; [apply NoDup_cons; split; [set_solver | done] |]. split; [apply Forall_cons; split; [set_solver | done] |].
  rewrite (union_difference_singleton_L _ _ Hin), He. cbn. set_solver.
Qed.

(** Freed, they leave the blocks [l]. *)
Lemma deinit_ok l s a : agent_owns l s a -> al_inv a ->
  exists s' a', kvs_agent_deinit s a = (targets (global_slaves s), s', a') /\ al_live a' = l /\ al_inv a'.
Proof.
  intros (p2 & p3 & p4 & H2 & H3 & H4 & Hnd & Hfr & Hl) Hi. unfold kvs_agent_deinit, kvs_agent_info_deinit, kvs_slaves_destroy, kvs_agent_cache_destroy, targets.
  unfold cache_block, table_block in *. set (p1 := ag_buf_p (ag_info s)) in *.
  destruct (cache (fullsync_cache (ag_info s))) as [[q2 m2] |]; [| done]. destruct (sl_table (global_slaves s)) as [[q3 m3] |]; [| done].
  destruct (cache (global_agent_cache s)) as [[q4 m4] |]; [| done]. cbn in H2, H3, H4. injection H2 as ->. injection H3 as ->. injection H4 as ->.
  cbn [ag_with_cache fullsync_cache]. eexists _, _. split; [done |].
  assert (Hd : p1 <> p2 /\ p1 <> p3 /\ p1 <> p4 /\ p2 <> p3 /\ p2 <> p4 /\ p3 <> p4) by (rewrite !NoDup_cons in Hnd; set_solver).
  rewrite !Forall_cons in Hfr. destruct Hd as (D1 & D2 & D3 & D4 & D5 & D6), Hfr as (F1 & F2 & F3 & F4 & _).
  destruct (free_live p1 a Hi) as [G1 J1]; [rewrite Hl; set_solver |].
  destruct (free_live p2 (kvs_free p1 a) J1) as [G2 J2]; [rewrite G1, Hl; set_solver |].
  destruct (free_live p3 (kvs_free p2 (kvs_free p1 a)) J2) as [G3 J3]; [rewrite G2, G1, Hl; set_solver |].
  destruct (free_live p4 (kvs_free p3 (kvs_free p2 (kvs_free p1 a))) J3) as [G4 J4]; [rewrite G3, G2, G1, Hl; set_solver |].
  split; [| done]. rewrite G4, G3, G2, G1, Hl. clear - F1 F2 F3 F4. apply set_eq. intros z. set_solver.
Qed.


(** ** Starting *)

Lemma init_ok junk n a :
  (forall k, 0 <= k -> zlen (junk k) = k) -> al_inv a ->
  exists s a1, kvs_agent_init junk n a = (Some s, a1) /\ agent_inv (Fwd KVS_SLAVE_UNKNOWN []) [] [] s a1 /\ agent_owns (al_live a) s a1 /\
    holds_slaves [] (global_slaves s) /\ sl_size (global_slaves s) = MAX_SLAVE_COUNT /\ ag_net s = n /\
    capacity (fullsync_cache (ag_info s)) = MAX_FULLSYNC_CACHE_SIZE /\ capacity (global_agent_cache s) = MAX_AGENT_CACHE_SIZE.
Proof.
  intros Hj Hi. unfold kvs_agent_init, kvs_agent_info_init.
  destruct (malloc_total AGENT_BUFFER_SIZE a ltac:(pos_size)) as (p1 & a1 & M1). destruct (malloc_some _ _ _ _ Hi M1) as (F1 & L1 & I1).
  destruct (malloc_total MAX_FULLSYNC_CACHE_SIZE a1 ltac:(pos_size)) as (p2 & a2 & M2). destruct (malloc_some _ _ _ _ I1 M2) as (F2 & L2 & I2).
  destruct (malloc_total (to_size_t (4 * MAX_SLAVE_COUNT)) a2 ltac:(pos_size)) as (p3 & a3 & M3). destruct (malloc_some _ _ _ _ I2 M3) as (F3 & L3 & I3).
  destruct (malloc_total MAX_AGENT_CACHE_SIZE a3 ltac:(pos_size)) as (p4 & a4 & M4). destruct (malloc_some _ _ _ _ I3 M4) as (F4 & L4 & I4).
  pose proof (cache_create_queue empty_cache MAX_FULLSYNC_CACHE_SIZE (junk MAX_FULLSYNC_CACHE_SIZE) a1 ltac:(unfold PTRDIFF_MAX, MAX_FULLSYNC_CACHE_SIZE, MAX_AGENT_CACHE_SIZE; lia)
    (Hj MAX_FULLSYNC_CACHE_SIZE ltac:(unfold MAX_FULLSYNC_CACHE_SIZE; lia)) I1) as C1. rewrite M2 in C1. destruct C1 as (ac1 & E1 & Q1 & K1 & B1).
  pose proof (cache_create_queue empty_cache MAX_AGENT_CACHE_SIZE (junk MAX_AGENT_CACHE_SIZE) a3 ltac:(unfold PTRDIFF_MAX, MAX_FULLSYNC_CACHE_SIZE, MAX_AGENT_CACHE_SIZE; lia)
    (Hj MAX_AGENT_CACHE_SIZE ltac:(unfold MAX_AGENT_CACHE_SIZE; lia)) I3) as C2. rewrite M4 in C2. destruct C2 as (ac2 & E2 & Q2 & K2 & B2).
  rewrite M1. change ((AGENT_BUFFER_SIZE =? 0) || (MAX_FULLSYNC_CACHE_SIZE =? 0)) with false. cbn iota. rewrite E1. change (0 =? 0) with true. cbn [negb].
  unfold kvs_slaves_create. cbn [sl_table]. rewrite M3. change (0 =? 0) with true. cbn [negb]. rewrite E2. change (0 =? 0) with true. cbn [negb].
  assert (Hs : holds_slaves [] (Slaves (Some (p3, replicate (Z.to_nat MAX_SLAVE_COUNT) (-1))) 0 MAX_SLAVE_COUNT)).
  { split; [| done | constructor | constructor]. eexists _, _. split; [done |]. done. }
  eexists _, a4. split; [done |]. split.
  { split; cbn [existing global_agent_cache global_slaves ag_info ag_net].
    - done.
    - done.
    - split; [by exists (junk AGENT_BUFFER_SIZE) |]. split; [done |]. cbn. by rewrite Hj.
    - by left.
    - split; [done | exact Q1].
    - constructor.
    - apply (holds_ok _ _ Hs).
    - unfold targets. cbn. constructor.
    - split; [done |]. cbn [ag_buf_p]. rewrite L4, L3, L2, L1. set_solver. }
  split.
  { exists p2, p3, p4. cbn. do 3 (split; [done |]). rewrite L3, L2, L1 in F4. rewrite L2, L1 in F3. rewrite L1 in F2.
    split; [repeat (apply NoDup_cons; split; [set_solver |]); constructor |]. split; [repeat (constructor; [set_solver |]); constructor |].
    rewrite L4, L3, L2, L1. set_solver. }
  do 4 (split; [done |]). done.
Qed.

(** ** Running *)

Definition with_slaves (sl : kvs_slaves) (s : agent_state) : agent_state :=
  AgentState (existing s) (global_agent_cache s) sl (ag_info s) (ag_net s).

Lemma inv_slaves conn all x held q s a sl :
  agent_inv x held q s a -> holds_slaves conn sl -> conn ⊆ all -> net_ok all (ag_net s) -> agent_inv x held q (with_slaves sl s) a.
Proof.
  intros [I1 I2 I3 I4 I5 I6 I7 I8 I9] Hs Hsub Hn. destruct (holds_ok _ _ Hs) as [Hok Ht]. split; try done.
  apply (net_ok_sub all); [| done]. cbn. intros fd. rewrite Ht. apply Hsub.
Qed.

(** What a sequence of steps leads to; [all] are the peers there are. *)
Record lived (all : list Z) (l : gset Z) (steps : list agent_step) (conn : list Z) (q : list (list Z)) (held : list Z)
    (cmds : list (list (list Z))) (x : fwd) (s : agent_state) (closed : list Z) (s' : agent_state) (a' : A)
    (c1 : list (list (list Z))) (conn' held' : list Z) (outs : list (list Z)) : Prop := {
  lv_prefix : exists c2, cmds = c1 ++ c2;
  lv_bytes : held ++ mjoin q ++ sched_data (traffic steps) = frames c1 ++ held' ++ mjoin (sched_queue (traffic steps) q);
  lv_inv : agent_inv (fwd_run c1 x).1 held' (sched_queue (traffic steps) q) s' a';
  lv_slaves : holds_slaves conn' (global_slaves s');
  lv_owns : agent_owns l s' a';
  lv_closed : closed ++ conn' ≡ₚ joins steps ++ conn;
  lv_sent : mjoin outs = (fwd_run c1 x).2;
  lv_got : forall fd, fd ∈ all -> grew fd (received fd (bool_decide (fd ∈ conn)) steps outs) (ag_net s) (ag_net s')
}.

Lemma filter_out fd (conn : list Z) : NoDup conn -> fd ∈ conn -> conn ≡ₚ fd :: filter (fun c => c <> fd) conn.
Proof.
  induction conn as [| c conn IH]; [set_solver |]. intros Hn Hin. apply NoDup_cons in Hn as [Hc Hn]. rewrite filter_cons.
  destruct (decide (c = fd)) as [-> | Hne].
  - rewrite decide_False by tauto. constructor. rewrite filter_all; [done |]. apply Forall_forall. set_solver.
  - rewrite decide_True by done. rewrite IH at 1; [| done | set_solver]. constructor.
Qed.

Lemma life_ok all l steps : forall conn q held rest cmds x s a,
  agent_inv x held q s a -> holds_slaves conn (global_slaves s) -> sl_size (global_slaves s) = MAX_SLAVE_COUNT -> agent_owns l s a ->
  slaves_come_and_go steps conn -> joins steps ++ conn ⊆ all -> net_ok all (ag_net s) ->
  cmds_ok cmds -> (held ++ mjoin q ++ sched_data (traffic steps)) ++ rest = frames cmds ->
  fwd_fits (capacity (fullsync_cache (ag_info s))) cmds x -> backlog_fits (capacity (global_agent_cache s)) (traffic steps) q ->
  Forall event_ok (omap id (traffic steps)) ->
  exists closed s' a' c1 conn' held' outs, agent_life steps s a = Ok (closed, s', a') /\
    lived all l steps conn q held cmds x s closed s' a' c1 conn' held' outs.
Proof.
  induction steps as [| [e | fd | fd failed] steps IH]; intros conn q held rest cmds x s a Hinv Hs Hsz Ho Hcg Hsub Hn Hok He Hf Hb Hev; cbn [agent_life].
  - exists [], s, a, [], conn, held, []. split; [done |]. split; try done; [by exists cmds | | intros fd Hfd; by apply (grew_nil all)].
    change (sched_data (traffic [])) with (@nil Z). by rewrite app_nil_r.
  - change (traffic (AgTraffic e :: steps)) with ([e] ++ traffic steps) in *. rewrite sched_data_app in He.
    apply backlog_app in Hb as [Hb1 Hb2]. rewrite omap_app in Hev. apply Forall_app in Hev as [Hev1 Hev2].
    destruct (sched_ok [e] q held (sched_data (traffic steps) ++ rest) cmds x s a) as (s1 & a1 & c1 & c2 & h1 & -> & -> & Hby & Hi1 & Hsame & Hdel & Hfrm);
      [done | done | by rewrite <- He, !app_assoc | done | done | done |]. run.
    pose proof Hsame as (S1 & [_ S2] & [_ S3]). destruct Hok as [Hk1 Hk2]. apply Forall_app in Hk1 as [Hk1 Hk1']. apply Forall_app in Hk2 as [Hk2 Hk2'].
    apply fwd_fits_app in Hf as [Hf1 Hf2].
    destruct (IH conn (sched_queue [e] q) h1 rest c2 (fwd_run c1 x).1 s1 a1) as (cl & s2 & a2 & d1 & conn2 & h2 & outs & -> & [(d2 & ->) V2 V3 V4 V5 V6 V7 V8]);
      [done | by rewrite S1 | by rewrite S1 | by eapply owns_sched | done | done | by eapply delivered_keeps | by split | | by rewrite S3 | by rewrite S2 | done |].
    { rewrite !app_assoc in Hby, He. rewrite Hby in He. unfold frames in He. rewrite bind_app, <- !app_assoc in He. apply app_inv_head in He.
      by rewrite <- !app_assoc. }
    exists cl, s2, a2, (c1 ++ d1), conn2, h2, ((fwd_run c1 x).2 :: outs). split; [done |]. split.
    + exists d2. by rewrite app_assoc.
    + change (traffic (AgTraffic e :: steps)) with ([e] ++ traffic steps). rewrite sched_data_app, sched_queue_app, !app_assoc. rewrite !app_assoc in Hby. rewrite Hby. unfold frames. rewrite bind_app, <- !app_assoc.
      f_equal. fold (frames d1). by rewrite <- V2.
    + change (traffic (AgTraffic e :: steps)) with ([e] ++ traffic steps). rewrite fwd_run_app, sched_queue_app. destruct (fwd_run c1 x) as [x1 o1]. cbn [fst snd] in *. by destruct (fwd_run d1 x1).
    + done.
    + done.
    + done.
    + rewrite fwd_run_app. change (mjoin ((fwd_run c1 x).2 :: outs)) with ((fwd_run c1 x).2 ++ mjoin outs). rewrite V7. destruct (fwd_run c1 x) as [x1 o1]. cbn [fst snd] in *. by destruct (fwd_run d1 x1).
    + intros fd Hfd. cbn [received]. eapply grew_trans; [| by apply V8].
      pose proof (delivered_grew all _ _ _ _ fd Hdel Hn Hfd) as Hg. destruct (holds_ok _ _ Hs) as [_ Ht].
      by rewrite (bool_decide_ext (fd ∈ conn) (fd ∈ targets (global_slaves s))) by (by rewrite Ht).
  - destruct Hcg as (Hpos & Hnew & Hroom & Hcg). cbn [server_accept snd]. fold (with_slaves (kvs_slaves_insert (global_slaves s) fd).2 s).
    destruct (holds_insert conn (global_slaves s) fd Hs Hpos Hnew ltac:(lia)) as [Hs' Hsz'].
    change (joins (AgJoin fd :: steps)) with (fd :: joins steps) in *. change (traffic (AgJoin fd :: steps)) with (traffic steps) in *.
    destruct (IH (fd :: conn) q held rest cmds x (with_slaves (kvs_slaves_insert (global_slaves s) fd).2 s) a)
      as (cl & s2 & a2 & d1 & conn2 & h2 & outs & -> & [V1 V2 V3 V4 V5 V6 V7 V8]);
      [apply (inv_slaves (fd :: conn) all); [done | done | set_solver | done] | done | cbn; congruence | | done | set_solver | done.. |].
    { destruct Ho as (p2 & p3 & p4 & O1 & O2 & O3). exists p2, p3, p4. cbn [with_slaves ag_info global_slaves global_agent_cache]. by rewrite insert_block. }
    exists cl, s2, a2, d1, conn2, h2, ([] :: outs). split; [done |]. split; try done.
    + rewrite V6. by rewrite <- Permutation_middle.
    + intros fd' Hfd. cbn [received]. rewrite orb_comm, <- (bool_decide_or (fd' = fd)). rewrite (bool_decide_ext _ (fd' ∈ fd :: conn)) by (by rewrite elem_of_cons). by apply V8.
  - destruct Hcg as (Hin & Hcg). set (conn1 := filter (fun c => c <> fd) conn) in *.
    assert (Hperm : conn ≡ₚ fd :: conn1) by (apply filter_out; [apply Hs | done]).
    destruct (holds_delete conn1 (global_slaves s) fd (holds_perm _ _ _ Hperm Hs)) as [Hs' Hsz'].
    replace (server_recv fd true (if failed then None else Some []) s) with ([fd], with_slaves (kvs_slaves_delete (global_slaves s) fd).2 s) by (by destruct failed).
    change (joins (AgLeave fd failed :: steps)) with (joins steps) in *. change (traffic (AgLeave fd failed :: steps)) with (traffic steps) in *.
    assert (Hsub1 : joins steps ++ conn1 ⊆ all) by (rewrite Hperm in Hsub; set_solver).
    destruct (IH conn1 q held rest cmds x (with_slaves (kvs_slaves_delete (global_slaves s) fd).2 s) a)
      as (cl & s2 & a2 & d1 & conn2 & h2 & outs & -> & [V1 V2 V3 V4 V5 V6 V7 V8]);
      [apply (inv_slaves conn1 all); [done | done | set_solver | done] | done | cbn; congruence | | done | done | done.. |].
    { destruct Ho as (p2 & p3 & p4 & O1 & O2 & O3). exists p2, p3, p4. cbn [with_slaves ag_info global_slaves global_agent_cache]. by rewrite delete_block. }
    run. exists (fd :: cl), s2, a2, d1, conn2, h2, ([] :: outs). split; [done |]. split; try done.
    + cbn [app]. rewrite V6, Hperm. by rewrite <- Permutation_middle.
    + intros fd' Hfd. cbn [received]. rewrite <- bool_decide_not, <- bool_decide_and.
      rewrite (bool_decide_ext _ (fd' ∈ conn1)) by (unfold conn1; rewrite list_elem_of_filter; tauto). by apply V8.
Qed.

End Life.
