(* ===== verification/Mempool.v ===== *)
(** * Mempool: the memory pool (kvs-mempool/kvs_mempool.c)

    Requests are rounded up to 35 size classes. A class keeps slabs, each cut
    into blocks of its size. Blocks of at most 128 bytes have no header: the slab
    is found by rounding the address down to the size of a slab. Larger blocks
    start with a header; requests beyond 8 KB go to [malloc]. The lists the
    code threads through the slabs and through the free blocks are lists here,
    first element first. *)

From S2P Require Import Prelude CLib Alloc.

(** ** Constants *)

Definition MAX_EMPTY_SLABS : Z := 1.
Definition ALIGN_SIZE : Z := 8.
Definition BLOCK_MAGIC : Z := 0x20260602.
Definition SLAB_MAGIC : Z := 0x20260629.
Definition LARGE_THRESHOLD : Z := 8192.
Definition BLOCK_FLAG_LARGE : Z := 1.
Definition BLOCK_FLAG : Z := 0.
Definition CLASS_COUNT : Z := 35.
Definition SLAB_SIZE_ALIGNMENT : Z := 128 * 1024.
Definition ALIGNMENT_THRESHOLD : Z := 128.
Definition PAGE_SIZE : Z := 4096.
Definition SIZEOF_SLAB : Z := 48.
Definition SIZEOF_HEADER : Z := 24.

(** [((x) + ALIGN_SIZE - 1) & ~(ALIGN_SIZE - 1)] on [size_t] *)
Definition ALIGN_UP (x : Z) : Z := Z.land (to_size_t (x + ALIGN_SIZE - 1)) (to_size_t (Z.lnot (ALIGN_SIZE - 1))).

Definition size_classes : list Z :=
  [8; 16; 32; 48; 56; 64; 72; 80; 96; 112; 128; 160; 192; 224; 256; 320; 384; 448; 512; 640; 768; 896; 1024;
   1280; 1536; 1792; 2048; 2560; 3072; 3584; 4096; 5120; 6144; 7168; 8192].

Definition slab_counts : list Z :=
  [1024; 1024; 1024; 1024; 1024; 1024; 1024; 1024; 512; 512; 512; 256; 256; 256; 256; 128; 128; 128; 128; 64; 64; 64; 64;
   32; 32; 32; 32; 16; 16; 16; 16; 8; 8; 8; 8].
Definition slab_classes : list Z := zip_with Z.mul size_classes slab_counts.

Definition class_size (i : Z) : Z := size_classes !!! Z.to_nat i.
Definition slab_size (i : Z) : Z := slab_classes !!! Z.to_nat i.

(** ** Data *)

(** [slab_t]; its address is its key in the heap. *)
Record slab_t := Slab {
  sb_mem : Z;
  free_blocks : Z;
  total_blocks : Z;
  free_list : list Z;
  slab_magic : Z;
  sb_classid : Z
}.

Record mem_pool_t := MemPool {
  block_size : Z;
  empty_slab_count : Z;
  partial_slabs : list Z;
  full_slabs : list Z;
  empty_slabs : list Z
}.

Record block_header_t := BlockHeader { hd_magic : Z; hd_class : Z; hd_flag : Z; hd_slab : Z; hd_size : Z }.

(** [classes] of [kvs_mempool_t], the slabs, the headers the pool has written
    into blocks, and what it holds of the operating system: the mapped
    regions and the blocks of [malloc], as address and length; [ticks] counts
    the calls. *)
Record kvs_mempool_t := Mempool {
  classes : list mem_pool_t;
  slab_heap : gmap Z slab_t;
  hdr_heap : gmap Z block_header_t;
  os_maps : list (Z * Z);
  os_blocks : list (Z * Z);
  ticks : nat
}.

Definition with_class (i : Z) (c : mem_pool_t) (s : kvs_mempool_t) : kvs_mempool_t :=
  Mempool (<[Z.to_nat i := c]> (classes s)) (slab_heap s) (hdr_heap s) (os_maps s) (os_blocks s) (ticks s).
Definition with_slab (id : Z) (sb : slab_t) (s : kvs_mempool_t) : kvs_mempool_t :=
  Mempool (classes s) (<[id := sb]> (slab_heap s)) (hdr_heap s) (os_maps s) (os_blocks s) (ticks s).
Definition without_slab (id : Z) (s : kvs_mempool_t) : kvs_mempool_t :=
  Mempool (classes s) (delete id (slab_heap s)) (hdr_heap s) (os_maps s) (os_blocks s) (ticks s).
Definition with_header (p : Z) (h : block_header_t) (s : kvs_mempool_t) : kvs_mempool_t :=
  Mempool (classes s) (slab_heap s) (<[p := h]> (hdr_heap s)) (os_maps s) (os_blocks s) (ticks s).
Definition without_header (p : Z) (s : kvs_mempool_t) : kvs_mempool_t :=
  Mempool (classes s) (slab_heap s) (delete p (hdr_heap s)) (os_maps s) (os_blocks s) (ticks s).
Definition with_os (maps blocks : list (Z * Z)) (s : kvs_mempool_t) : kvs_mempool_t :=
  Mempool (classes s) (slab_heap s) (hdr_heap s) maps blocks (S (ticks s)).

Definition set_free (fl : list Z) (n : Z) (sb : slab_t) : slab_t :=
  Slab (sb_mem sb) n (total_blocks sb) fl (slab_magic sb) (sb_classid sb).

(** [LIST_INSERT] and [LIST_REMOVE] *)
Definition LIST_INSERT (lst : list Z) (item : Z) : list Z := item :: lst.
Definition LIST_REMOVE (lst : list Z) (item : Z) : list Z := filter (fun id => id <> item) lst.

(** ** The operating system *)

(** What is left of a region when [n] bytes at [p] are unmapped. *)
Definition cut_region (p n : Z) (r : Z * Z) : list (Z * Z) :=
  let '(q, k) := r in
  let hi := Z.min (q + k) p in
  let lo := Z.max q (p + n) in
  (if q <? hi then [(q, hi - q)] else []) ++ (if lo <? q + k then [(lo, q + k - lo)] else []).

Section Pool.
(** Where [mmap] and [malloc] place a new object, for a number of bytes, the
    number of the call and the objects that exist; [None] when they fail. *)
Context (mmap_at malloc_at : nat -> Z -> list (Z * Z) -> option Z).
(** What other bytes, the user's or those [malloc] returns, read as when they
    are taken for a header. *)
Context (foreign : Z -> block_header_t).

Definition objects (s : kvs_mempool_t) : list (Z * Z) := os_maps s ++ os_blocks s.

Definition os_mmap (n : Z) (s : kvs_mempool_t) : option Z * kvs_mempool_t :=
  match mmap_at (ticks s) n (objects s) with
  | Some p => (Some p, with_os ((p, n) :: os_maps s) (os_blocks s) s)
  | None => (None, with_os (os_maps s) (os_blocks s) s)
  end.

(** [munmap]: EINVAL, and no change, for an address that is not the start of a
    page. The lengths the pool uses are multiples of the page size. *)
Definition os_munmap (p n : Z) (s : kvs_mempool_t) : kvs_mempool_t :=
  with_os (if p mod PAGE_SIZE =? 0 then os_maps s ≫= cut_region p n else os_maps s) (os_blocks s) s.

Definition os_malloc (n : Z) (s : kvs_mempool_t) : option Z * kvs_mempool_t :=
  match malloc_at (ticks s) n (objects s) with
  | Some p => (Some p, with_os (os_maps s) ((p, n) :: os_blocks s) s)
  | None => (None, with_os (os_maps s) (os_blocks s) s)
  end.

(** [free]: undefined for an address [malloc] did not return. *)
Definition os_free (p : Z) (s : kvs_mempool_t) : res kvs_mempool_t :=
  if bool_decide (p ∈ (os_blocks s).*1)
  then Ok (with_os (os_maps s) (filter (fun b => b.1 <> p) (os_blocks s)) s) else Undef.

(** ** Slabs *)

(** [(uintptr_t)ptr & ~(SLAB_SIZE_ALIGNMENT - 1)] *)
Definition ptr_to_slab (ptr : Z) : Z := Z.land ptr (to_size_t (Z.lnot (SLAB_SIZE_ALIGNMENT - 1))).

(** [alignment_to_slab_size]: an aligned region of [slab_size] bytes. *)
Definition alignment_to_slab_size (slab_size : Z) (s : kvs_mempool_t) : option Z * kvs_mempool_t :=
  if negb (Z.land slab_size (slab_size - 1) =? 0) then (None, s) else
  let alloc_size := slab_size * 2 in
  match os_mmap alloc_size s with
  | (None, s) => (None, s)
  | (Some raw, s) =>
      let aligned := Z.land (to_size_t (raw + (slab_size - 1))) (to_size_t (Z.lnot (slab_size - 1))) in
      let head := aligned - raw in
      let s := if 0 <? head then os_munmap raw head s else s in
      let tail := alloc_size - slab_size - head in
      let s := if 0 <? tail then os_munmap (aligned + slab_size) tail s else s in
      (Some aligned, s)
  end.

Definition mp_create : kvs_mempool_t :=
  Mempool ((fun n => MemPool n 0 [] [] []) <$> size_classes) ∅ ∅ [] [] 0.

(** The loop that links [n] blocks of [size] bytes from [curr] on. *)
Fixpoint carve (n : nat) (curr size : Z) : list Z :=
  match n with
  | O => []
  | S n => curr :: carve n (curr + size) size
  end.

Definition get_class_id (size : Z) : Z :=
  match find_idx (fun c => size <=? c) size_classes with
  | Some (i, _) => Z.of_nat i
  | None => -1
  end.

Definition pool_at (s : kvs_mempool_t) (i : Z) : res mem_pool_t := rd (classes s) i.
Definition slab_at (s : kvs_mempool_t) (id : Z) : res slab_t := of_option (slab_heap s !! id).

Definition add_empty (i id : Z) (s : kvs_mempool_t) : res kvs_mempool_t :=
  pool ← pool_at s i;
  Ok (with_class i (MemPool (block_size pool) (empty_slab_count pool + 1) (partial_slabs pool) (full_slabs pool)
                      (LIST_INSERT (empty_slabs pool) id)) s).

Definition add_pool_with_header (i : Z) (s : kvs_mempool_t) : res (Z * kvs_mempool_t) :=
  match os_malloc SIZEOF_SLAB s with
  | (None, s) => Ok (-2, s)
  | (Some id, s) =>
      match os_mmap (slab_size i) s with
      | (None, s) => s ← os_free id s; Ok (-2, s)
      | (Some mem, s) =>
          pool ← pool_at s i;
          let n := slab_size i / block_size pool in
          let sb := Slab mem n n (carve (Z.to_nat n) mem (block_size pool)) 0 0 in
          s ← add_empty i id (with_slab id sb s); Ok (0, s)
      end
  end.

Definition add_pool_without_header (i : Z) (s : kvs_mempool_t) : res (Z * kvs_mempool_t) :=
  match alignment_to_slab_size SLAB_SIZE_ALIGNMENT s with
  | (None, s) => Ok (-2, s)
  | (Some mem, s) =>
      let actual_size := SLAB_SIZE_ALIGNMENT - ALIGN_UP SIZEOF_SLAB in
      let n := actual_size / class_size i in
      let sb := Slab mem n n (carve (Z.to_nat n) (mem + ALIGN_UP SIZEOF_SLAB) (class_size i)) SLAB_MAGIC i in
      s ← add_empty i mem (with_slab mem sb s); Ok (0, s)
  end.

Definition add_pool (i : Z) (s : kvs_mempool_t) : res (Z * kvs_mempool_t) :=
  '(r, s) ← (if class_size i <=? ALIGNMENT_THRESHOLD then add_pool_without_header i s else add_pool_with_header i s);
  Ok (if negb (r =? 0) then -3 else 0, s).

(** The move of the first empty slab to the partial ones. *)
Definition take_empty (i : Z) (s : kvs_mempool_t) : res (option Z * kvs_mempool_t) :=
  pool ← pool_at s i;
  match empty_slabs pool with
  | [] => Undef
  | id :: _ =>
      Ok (Some id, with_class i (MemPool (block_size pool) (empty_slab_count pool - 1) (LIST_INSERT (partial_slabs pool) id)
                                   (full_slabs pool) (LIST_REMOVE (empty_slabs pool) id)) s)
  end.

Definition slab_malloc (i : Z) (s : kvs_mempool_t) : res (option Z * kvs_mempool_t) :=
  if (i <? 0) || (CLASS_COUNT <=? i) then Ok (None, s) else
  pool ← pool_at s i;
  match partial_slabs pool, empty_slabs pool with
  | id :: _, _ => Ok (Some id, s)
  | [], _ :: _ => take_empty i s
  | [], [] =>
      '(r, s) ← add_pool i s;
      if negb (r =? 0) then Ok (None, s) else take_empty i s
  end.

(** ** Blocks *)

(** A block of the slab is taken; a slab without free blocks is moved to the
    full ones. *)
Definition take_block (i id : Z) (s : kvs_mempool_t) : res (Z * kvs_mempool_t) :=
  sb ← slab_at s id;
  match free_list sb with
  | [] => Undef
  | b :: fl =>
      let sb := set_free fl (free_blocks sb - 1) sb in
      let s := with_slab id sb s in
      if free_blocks sb =? 0 then
        pool ← pool_at s i;
        Ok (b, with_class i (MemPool (block_size pool) (empty_slab_count pool) (LIST_REMOVE (partial_slabs pool) id)
                               (LIST_INSERT (full_slabs pool) id) (empty_slabs pool)) s)
      else Ok (b, s)
  end.

Definition block_with_header (size : Z) (s : kvs_mempool_t) : res (option Z * kvs_mempool_t) :=
  let i := get_class_id size in
  if i <? 0 then Ok (None, s) else
  '(slab, s) ← slab_malloc i s;
  match slab with
  | None => Ok (None, s)
  | Some id =>
      '(b, s) ← take_block i id s;
      Ok (Some (b + SIZEOF_HEADER), with_header b (BlockHeader BLOCK_MAGIC i BLOCK_FLAG id (class_size i)) s)
  end.

Definition block_without_header (size : Z) (s : kvs_mempool_t) : res (option Z * kvs_mempool_t) :=
  let i := get_class_id size in
  if i <? 0 then Ok (None, s) else
  '(slab, s) ← slab_malloc i s;
  match slab with
  | None => Ok (None, s)
  | Some id => '(b, s) ← take_block i id s; Ok (Some b, s)
  end.

Definition mp_malloc (size : Z) (s : kvs_mempool_t) : res (option Z * kvs_mempool_t) :=
  if size =? 0 then Ok (None, s) else
  if ALIGN_UP size <=? ALIGNMENT_THRESHOLD then block_without_header (ALIGN_UP size) s else
  let actual_size := ALIGN_UP (size + SIZEOF_HEADER) in
  if LARGE_THRESHOLD <? actual_size then
    match os_malloc actual_size s with
    | (None, s) => Ok (None, s)
    | (Some p, s) =>
        Ok (Some (p + SIZEOF_HEADER), with_header p (BlockHeader BLOCK_MAGIC (hd_class (foreign p)) BLOCK_FLAG_LARGE 0 size) s)
    end
  else block_with_header actual_size s.

(** [slab_free] of a slab of class [i] after one of its blocks came back;
    [size] is the length of its region. *)
Definition slab_free (i id size : Z) (s : kvs_mempool_t) : res kvs_mempool_t :=
  sb ← slab_at s id;
  pool ← pool_at s i;
  let pool := if free_blocks sb =? 1
              then MemPool (block_size pool) (empty_slab_count pool) (LIST_INSERT (partial_slabs pool) id)
                     (LIST_REMOVE (full_slabs pool) id) (empty_slabs pool)
              else pool in
  let s := with_class i pool s in
  if free_blocks sb =? total_blocks sb then
    if MAX_EMPTY_SLABS <=? empty_slab_count pool then
      let s := with_class i (MemPool (block_size pool) (empty_slab_count pool) (LIST_REMOVE (partial_slabs pool) id)
                               (full_slabs pool) (empty_slabs pool)) s in
      s ← (if slab_magic sb =? SLAB_MAGIC then Ok (os_munmap (sb_mem sb) SLAB_SIZE_ALIGNMENT s)
           else os_free id (os_munmap (sb_mem sb) size s));
      Ok (without_slab id s)
    else
      Ok (with_class i (MemPool (block_size pool) (empty_slab_count pool + 1) (LIST_REMOVE (partial_slabs pool) id)
                          (full_slabs pool) (LIST_INSERT (empty_slabs pool) id)) s)
  else Ok s.

Definition slab_free_with_header (p : Z) (header : block_header_t) (s : kvs_mempool_t) : res kvs_mempool_t :=
  sb ← slab_at s (hd_slab header);
  let s := without_header p s in
  let s := with_slab (hd_slab header) (set_free (p :: free_list sb) (free_blocks sb + 1) sb) s in
  slab_free (hd_class header) (hd_slab header) (slab_size (hd_class header)) s.

Definition slab_free_without_header (ptr id : Z) (s : kvs_mempool_t) : res kvs_mempool_t :=
  sb ← slab_at s id;
  let s := with_slab id (set_free (ptr :: free_list sb) (free_blocks sb + 1) sb) s in
  slab_free (sb_classid sb) id SLAB_SIZE_ALIGNMENT s.

(** The bytes at [p] read as a [block_header_t]. *)
Definition header_at (s : kvs_mempool_t) (p : Z) : block_header_t := default (foreign p) (hdr_heap s !! p).

Definition mp_free (ptr : Z) (s : kvs_mempool_t) : res kvs_mempool_t :=
  if ptr =? 0 then Ok s else
  let p := ptr - SIZEOF_HEADER in
  let header := header_at s p in
  if hd_magic header =? BLOCK_MAGIC then
    if hd_flag header =? BLOCK_FLAG_LARGE then os_free p (without_header p s) else
    if (CLASS_COUNT <=? hd_class header) || (hd_slab header =? 0) then Ok s else
    sb ← slab_at s (hd_slab header);
    if sb_mem sb =? 0 then Ok s else slab_free_with_header p header s
  else
    let slab := ptr_to_slab ptr in
    if slab =? 0 then Ok s else
    sb ← slab_at s slab;
    if slab_magic sb =? SLAB_MAGIC then slab_free_without_header ptr slab s else Ok s.

(** The [old_capacity] of [mp_realloc]; [None] for [return NULL]. *)
Definition old_capacity (ptr : Z) (s : kvs_mempool_t) : res (option Z) :=
  let header := header_at s (ptr - SIZEOF_HEADER) in
  if hd_magic header =? BLOCK_MAGIC then
    if hd_flag header =? BLOCK_FLAG_LARGE then Ok (Some (hd_size header)) else
    if (hd_class header <? 0) || (CLASS_COUNT <=? hd_class header) || (hd_slab header =? 0) then Ok None else
    sb ← slab_at s (hd_slab header);
    if sb_mem sb =? 0 then Ok None else Ok (Some (hd_size header))
  else
    let slab := ptr_to_slab ptr in
    if slab =? 0 then Ok None else
    sb ← slab_at s slab;
    if slab_magic sb =? SLAB_MAGIC then Ok (Some (class_size (sb_classid sb))) else Ok None.

(** The [n] bytes at [p] lie in one region or block of the operating system. *)
Definition mapped (s : kvs_mempool_t) (p n : Z) : bool :=
  existsb (fun r => (r.1 <=? p) && (p + n <=? r.1 + r.2)) (objects s).

(** [mp_realloc]; besides the new address, the [memcpy] it does:
    source, destination and length. A copy that reads past the region of the
    slab is undefined. *)
Definition mp_realloc (ptr size : Z) (s : kvs_mempool_t) : res (option Z * option (Z * Z * Z) * kvs_mempool_t) :=
  if ptr =? 0 then ('(p, s) ← mp_malloc size s; Ok (p, None, s)) else
  if size =? 0 then (s ← mp_free ptr s; Ok (None, None, s)) else
  cap ← old_capacity ptr s;
  match cap with
  | None => Ok (None, None, s)
  | Some cap =>
      if size <=? cap then Ok (Some ptr, None, s) else
      '(p, s) ← mp_malloc size s;
      match p with
      | None => Ok (None, None, s)
      | Some p =>
          if negb (mapped s ptr cap) then Undef else
          s ← mp_free ptr s; Ok (Some p, Some (ptr, p, cap), s)
      end
  end.

(** ** The end *)

(** [mp_free_slab] on a list of slabs. *)
Fixpoint mp_free_slab (ids : list Z) (i : Z) (s : kvs_mempool_t) : res kvs_mempool_t :=
  match ids with
  | [] => Ok s
  | id :: ids =>
      sb ← slab_at s id;
      s ← (if ALIGNMENT_THRESHOLD <? class_size i then os_free id (os_munmap (sb_mem sb) (slab_size i) s)
           else Ok (os_munmap (sb_mem sb) SLAB_SIZE_ALIGNMENT s));
      mp_free_slab ids i (without_slab id s)
  end.

(** [mp_destroy]: the loop over the classes from [i] on. *)
Fixpoint destroy_classes (n : nat) (i : Z) (s : kvs_mempool_t) : res kvs_mempool_t :=
  match n with
  | O => Ok s
  | S n =>
      pool ← pool_at s i;
      s ← mp_free_slab (empty_slabs pool) i s;
      s ← mp_free_slab (full_slabs pool) i s;
      s ← mp_free_slab (partial_slabs pool) i s;
      destroy_classes n (i + 1) (with_class i (MemPool (block_size pool) 0 [] [] []) s)
  end.

Definition mp_destroy (s : kvs_mempool_t) : res kvs_mempool_t := destroy_classes (Z.to_nat CLASS_COUNT) 0 s.

End Pool.
