(* ===== verification/MempoolFacts.v ===== *)
(** * MempoolFacts: the state of the memory pool and its invariant

    [pool_inv] relates the lists of the size classes, the slabs, the headers and
    the memory the pool holds of the operating system, through a table that
    gives for every slab its class, its list and its region. Each step of the
    pool updates the table at one slab. *)

From S2P Require Import Prelude CLib Alloc Mempool.

(** ** Masks *)

Lemma land_mask x k :
  0 <= x < 2 ^ 64 -> 0 <= k -> Z.land x (to_size_t (Z.lnot (2 ^ k - 1))) = x - x mod 2 ^ k.
Proof.
  intros Hx Hk. unfold to_size_t. rewrite <- (Z.land_ones _ 64) by lia.
  rewrite (Z.land_comm (Z.lnot _)), Z.land_assoc, (Z.land_ones x) by lia.
  rewrite (Z.mod_small x) by lia.
  replace (2 ^ k - 1) with (Z.ones k) by (rewrite Z.ones_equiv; lia).
  rewrite <- Z.ldiff_land, Z.ldiff_ones_r by lia. rewrite Z.shiftl_mul_pow2, Z.shiftr_div_pow2 by lia.
  pose proof (Z.div_mod x (2 ^ k) ltac:(lia)). lia.
Qed.

Lemma ptr_to_slab_eq p : 0 <= p < 2 ^ 64 -> ptr_to_slab p = p - p mod SLAB_SIZE_ALIGNMENT.
Proof. intros Hp. unfold ptr_to_slab. change SLAB_SIZE_ALIGNMENT with (2 ^ 17). by apply land_mask. Qed.

Lemma ALIGN_UP_eq x : 0 <= x -> x + 7 < 2 ^ 64 -> ALIGN_UP x = x + 7 - (x + 7) mod 8.
Proof.
  intros Hx Hlt. unfold ALIGN_UP, ALIGN_SIZE. replace (x + 8 - 1) with (x + 7) by lia.
  unfold to_size_t at 1. rewrite (Z.mod_small (x + 7)) by lia.
  change (8 - 1) with (2 ^ 3 - 1). rewrite land_mask by lia. done.
Qed.

Lemma ALIGN_UP_bounds x : 0 <= x -> x + 7 < 2 ^ 64 -> x <= ALIGN_UP x <= x + 7.
Proof.
  intros Hx Hlt. rewrite ALIGN_UP_eq by done. pose proof (Z.mod_pos_bound (x + 7) 8 ltac:(lia)). lia.
Qed.

Lemma ALIGN_UP_range x : 0 <= ALIGN_UP x < 2 ^ 64.
Proof.
  unfold ALIGN_UP, to_size_t. set (a := _ mod _). set (b := _ mod 2 ^ 64).
  assert (0 <= a < 2 ^ 64) by (apply Z.mod_pos_bound; lia).
  assert (0 <= b < 2 ^ 64) by (apply Z.mod_pos_bound; lia).
  split; [apply Z.land_nonneg; lia |].
  destruct (Z.eqb_spec (Z.land a b) 0) as [-> | Hne]; [lia |].
  assert (0 <= Z.land a b) by (apply Z.land_nonneg; lia).
  apply Z.log2_lt_pow2; [lia |].
  pose proof (Z.log2_land a b ltac:(lia) ltac:(lia)).
  destruct (Z.eqb_spec a 0) as [-> | Ha]; [done |].
  pose proof (proj1 (Z.log2_lt_pow2 a 64 ltac:(lia)) ltac:(lia)). lia.
Qed.

(** ** Size classes *)

Lemma class_cases (f : Z -> bool) :
  forallb f (seqZ 0 CLASS_COUNT) = true -> forall i, 0 <= i < CLASS_COUNT -> f i = true.
Proof. rewrite forallb_forall. intros Hf i Hi. apply Hf, list_elem_of_In, elem_of_seqZ. lia. Qed.

Lemma get_class_id_spec size :
  let i := get_class_id size in
  (i = -1 /\ LARGE_THRESHOLD < size) \/
  (0 <= i < CLASS_COUNT /\ size <= class_size i /\ forall j, 0 <= j < i -> class_size j < size).
Proof.
  unfold get_class_id. destruct (find_idx _ size_classes) as [[n c] |] eqn:Hf; cbv zeta.
  - right. apply find_idx_some in Hf as (l1 & l2 & Hl & <- & Hc & Hlt).
    assert (Hn : (length l1 < 35)%nat).
    { apply (f_equal length) in Hl. rewrite length_app in Hl. cbn in Hl. lia. }
    unfold class_size. rewrite Nat2Z.id. split; [unfold CLASS_COUNT; lia |]. split.
    + rewrite Hl, lookup_total_app_r, Nat.sub_diag by lia. cbn. zguard.
    + intros j Hj. rewrite Hl, lookup_total_app_l by lia.
      rewrite Forall_lookup in Hlt.
      destruct (lookup_lt_is_Some_2 l1 (Z.to_nat j)) as [x Hx]; [lia |].
      rewrite (list_lookup_total_correct _ _ _ Hx). specialize (Hlt _ _ Hx). zguard.
  - left. split; [done |]. apply find_idx_none in Hf. rewrite Forall_forall in Hf.
    specialize (Hf 8192 ltac:(by apply (list_elem_of_lookup_2 _ 34))). unfold LARGE_THRESHOLD. zguard.
Qed.

(** ** Geometry *)

Definition small (i : Z) : bool := class_size i <=? ALIGNMENT_THRESHOLD.
Definition region_len (i : Z) : Z := if small i then SLAB_SIZE_ALIGNMENT else slab_size i.
Definition head_len (i : Z) : Z := if small i then SIZEOF_SLAB else 0.
Definition nblocks (i : Z) : Z := (region_len i - head_len i) / class_size i.
(** The blocks of a slab of class [i] whose region starts at [mem]. *)
Definition blocks (i mem : Z) : list Z := carve (Z.to_nat (nblocks i)) (mem + head_len i) (class_size i).

Definition apart (r r' : Z * Z) : Prop := r.1 + r.2 <= r'.1 \/ r'.1 + r'.2 <= r.1.

Lemma apart_sym r r' : apart r r' -> apart r' r.
Proof. unfold apart. lia. Qed.

Lemma class_facts i :
  0 <= i < CLASS_COUNT ->
  8 <= class_size i <= 8192 /\ 8 <= nblocks i /\ nblocks i * class_size i + head_len i <= region_len i /\
  region_len i <= 2 ^ 17 /\ region_len i mod PAGE_SIZE = 0 /\ (small i = false -> 160 <= class_size i).
Proof.
  intros Hi.
  pose proof (class_cases (fun i => (8 <=? class_size i) && (class_size i <=? 8192) && (8 <=? nblocks i) &&
    (nblocks i * class_size i + head_len i <=? region_len i) && (region_len i <=? 2 ^ 17) &&
    (region_len i mod PAGE_SIZE =? 0) && (small i || (160 <=? class_size i))) ltac:(by vm_compute) i Hi) as Hf.
  cbv beta in Hf. rewrite !andb_true_iff, orb_true_iff in Hf.
  destruct Hf as ((((((? & ?) & ?) & ?) & ?) & ?) & [Hs | Hs]); repeat split; try lia; rewrite ?Hs; intros; done || lia.
Qed.

Lemma carve_elem n curr size b :
  0 < size -> b ∈ carve n curr size <-> exists j, 0 <= j < Z.of_nat n /\ b = curr + j * size.
Proof.
  intros Hs. revert curr. induction n as [| n IH]; intros curr; cbn [carve].
  - rewrite elem_of_nil. naive_solver lia.
  - rewrite elem_of_cons, IH. split.
    + intros [-> | (j & Hj & ->)]; [exists 0 | exists (j + 1)]; lia.
    + intros (j & Hj & ->). destruct (decide (j = 0)); [left; lia |].
      right. exists (j - 1). lia.
Qed.

Lemma carve_NoDup n curr size : 0 < size -> NoDup (carve n curr size).
Proof.
  intros Hs. revert curr. induction n as [| n IH]; intros curr; cbn [carve]; constructor; [| done].
  rewrite carve_elem by done. intros (j & Hj & Hb). nia.
Qed.

Lemma carve_length n curr size : length (carve n curr size) = n.
Proof. revert curr. induction n as [| n IH]; intros curr; cbn; [done |]. by rewrite IH. Qed.

Lemma blocks_elem i mem b :
  0 <= i < CLASS_COUNT ->
  b ∈ blocks i mem <-> exists j, 0 <= j < nblocks i /\ b = mem + head_len i + j * class_size i.
Proof.
  intros Hi. destruct (class_facts i Hi) as (Hc & Hn & _). unfold blocks.
  rewrite carve_elem, Z2Nat.id by lia. done.
Qed.

Lemma blocks_NoDup i mem : 0 <= i < CLASS_COUNT -> NoDup (blocks i mem).
Proof. intros Hi. destruct (class_facts i Hi). apply carve_NoDup. lia. Qed.

Lemma blocks_zlen i mem : 0 <= i < CLASS_COUNT -> zlen (blocks i mem) = nblocks i.
Proof. intros Hi. destruct (class_facts i Hi) as (_ & ? & _). unfold zlen, blocks. rewrite carve_length. lia. Qed.

(** A block lies in its region, after the slab where that is in the region. *)
Lemma block_in_region i mem b :
  0 <= i < CLASS_COUNT -> b ∈ blocks i mem ->
  mem + head_len i <= b /\ b + class_size i <= mem + region_len i.
Proof.
  intros Hi Hb. destruct (class_facts i Hi) as (Hc & Hn & Hr & _).
  apply blocks_elem in Hb as (j & Hj & ->); [| done]. nia.
Qed.

Lemma blocks_apart i mem b b' :
  0 <= i < CLASS_COUNT -> b ∈ blocks i mem -> b' ∈ blocks i mem ->
  b = b' \/ apart (b, class_size i) (b', class_size i).
Proof.
  intros Hi Hb Hb'. destruct (class_facts i Hi) as (Hc & _).
  apply blocks_elem in Hb as (j & Hj & ->); [| done]. apply blocks_elem in Hb' as (j' & Hj' & ->); [| done].
  unfold apart; cbn. destruct (Z.lt_trichotomy j j') as [? | [-> | ?]]; [right; nia | by left | right; nia].
Qed.

(** ** The operating system *)

Definition disjoint (rs : list (Z * Z)) : Prop :=
  forall r r', r ∈ rs -> r' ∈ rs -> r = r' \/ apart r r'.
Definition in_space (r : Z * Z) : Prop := 0 < r.1 /\ 0 < r.2 /\ r.1 + r.2 < 2 ^ 63.

Lemma cut_same p n : 0 < n -> cut_region p n (p, n) = [].
Proof. intros Hn. unfold cut_region. cbn. zguard. Qed.

Lemma cut_apart p n r : 0 < r.2 -> 0 < n -> apart (p, n) r -> cut_region p n r = [r].
Proof.
  destruct r as [q k]. unfold apart, cut_region; cbn. intros Hk Hn [Ha | Ha].
  - rewrite (proj2 (Z.ltb_ge q _)) by lia. rewrite (proj2 (Z.ltb_lt _ (q + k))) by lia. cbn. do 2 f_equal; lia.
  - rewrite (proj2 (Z.ltb_lt q _)) by lia. rewrite (proj2 (Z.ltb_ge _ (q + k))) by lia. cbn. do 2 f_equal; lia.
Qed.

Lemma cut_all_apart p n rs :
  0 < n -> Forall (fun r => 0 < r.2 /\ apart (p, n) r) rs -> (rs ≫= cut_region p n) = rs.
Proof.
  intros Hn. induction 1 as [| r rs [Hr Ha] _ IH]; [done |].
  rewrite bind_cons, IH, cut_apart by done. done.
Qed.

(** Unmapping a whole region leaves the other ones. *)
Lemma cut_exact p n rs :
  0 < n -> Forall (fun r => 0 < r.2 /\ (r = (p, n) \/ apart (p, n) r)) rs ->
  (rs ≫= cut_region p n) = filter (fun r => r <> (p, n)) rs.
Proof.
  intros Hn. induction 1 as [| r rs [Hr Ha] _ IH]; [done |].
  rewrite bind_cons, IH. destruct (decide (r = (p, n))) as [-> | Hne].
  - rewrite cut_same, filter_cons_False by naive_solver. done.
  - destruct Ha as [? | Ha]; [done |]. rewrite cut_apart, filter_cons_True by done. done.
Qed.

(** ** The invariant *)

Inductive kind := Partial | Full | Empty.

#[export] Instance kind_eq_dec : EqDecision kind.
Proof. solve_decision. Defined.

Definition slabs_of (k : kind) (c : mem_pool_t) : list Z :=
  match k with Partial => partial_slabs c | Full => full_slabs c | Empty => empty_slabs c end.

(** Where a slab is: its class, the list that holds it and its region. *)
Record home := Home { h_class : Z; h_kind : kind; h_mem : Z }.
Definition place (h : home) : Z * Z := (h_class h, h_mem h).

Definition class_ok (i : Z) (c : mem_pool_t) : Prop :=
  block_size c = class_size i /\ empty_slab_count c = zlen (empty_slabs c) /\
  empty_slab_count c <= MAX_EMPTY_SLABS /\ forall k, NoDup (slabs_of k c).

Record lists_ok (m : gmap Z home) (cs : list mem_pool_t) : Prop := {
  ls_len : zlen cs = CLASS_COUNT;
  ls_class i c : rd cs i = Ok c -> class_ok i c;
  ls_elem i c k id : rd cs i = Ok c -> id ∈ slabs_of k c <-> exists mem, m !! id = Some (Home i k mem)
}.

Definition kind_ok (k : kind) (free total : Z) : Prop :=
  match k with Partial => 0 < free | Full => free = 0 | Empty => free = total end.

Record slab_ok (h : home) (sb : slab_t) : Prop := {
  so_mem : sb_mem sb = h_mem h;
  so_total : total_blocks sb = nblocks (h_class h);
  so_free : free_blocks sb = zlen (free_list sb);
  so_nodup : NoDup (free_list sb);
  so_blocks : free_list sb ⊆ blocks (h_class h) (h_mem h);
  so_kind : kind_ok (h_kind h) (free_blocks sb) (total_blocks sb);
  so_magic : if small (h_class h) then slab_magic sb = SLAB_MAGIC /\ sb_classid sb = h_class h else slab_magic sb = 0
}.

Definition slabs_ok (m : gmap Z home) (heap : gmap Z slab_t) : Prop :=
  forall id, option_Forall2 slab_ok (m !! id) (heap !! id).

(** The regions and the blocks of [malloc] that the slabs occupy. *)
Record layout_ok (g : gmap Z (Z * Z)) (maps blks : list (Z * Z)) : Prop := {
  lo_class id i mem : g !! id = Some (i, mem) -> 0 <= i < CLASS_COUNT;
  lo_region id i mem : g !! id = Some (i, mem) -> (mem, region_len i) ∈ maps /\ mem mod PAGE_SIZE = 0;
  lo_small id i mem : g !! id = Some (i, mem) -> small i = true -> id = mem /\ mem mod SLAB_SIZE_ALIGNMENT = 0;
  lo_struct id i mem : g !! id = Some (i, mem) -> small i = false -> (id, SIZEOF_SLAB) ∈ blks;
  lo_inj id id' i i' mem : g !! id = Some (i, mem) -> g !! id' = Some (i', mem) -> id = id';
  lo_maps r : r ∈ maps -> exists id i, g !! id = Some (i, r.1) /\ r.2 = region_len i;
  lo_apart_maps : disjoint maps;
  lo_apart_blks : disjoint blks;
  lo_apart r r' : r ∈ maps -> r' ∈ blks -> apart r r';
  lo_space r : r ∈ maps ++ blks -> in_space r
}.

Definition large_ok (blks : list (Z * Z)) (q : Z) (h : block_header_t) : Prop :=
  hd_magic h = BLOCK_MAGIC /\ hd_flag h = BLOCK_FLAG_LARGE /\
  exists n, (q, n) ∈ blks /\ LARGE_THRESHOLD < n /\ 0 <= hd_size h /\ hd_size h + SIZEOF_HEADER <= n.

(** [q] is a block in use of the slab [id], of a class with headers. *)
Definition used_block (g : gmap Z (Z * Z)) (heap : gmap Z slab_t) (id i q : Z) : Prop :=
  exists mem sb, g !! id = Some (i, mem) /\ heap !! id = Some sb /\ q ∈ blocks i mem /\ q ∉ free_list sb.

Record headers_ok (g : gmap Z (Z * Z)) (heap : gmap Z slab_t) (hdr : gmap Z block_header_t) (blks : list (Z * Z)) : Prop := {
  ho_header q h : hdr !! q = Some h ->
    large_ok blks q h \/
    exists id i, small i = false /\ used_block g heap id i q /\
      h = BlockHeader BLOCK_MAGIC i BLOCK_FLAG id (class_size i);
  ho_used id i q : small i = false -> used_block g heap id i q -> is_Some (hdr !! q);
  ho_block r : r ∈ blks ->
    (exists i mem, g !! r.1 = Some (i, mem) /\ small i = false /\ r.2 = SIZEOF_SLAB) \/
    (exists h, hdr !! r.1 = Some h /\ large_ok blks r.1 h)
}.

Record inv_at (m : gmap Z home) (s : kvs_mempool_t) : Prop := {
  ia_lists : lists_ok m (classes s);
  ia_slabs : slabs_ok m (slab_heap s);
  ia_layout : layout_ok (place <$> m) (os_maps s) (os_blocks s);
  ia_headers : headers_ok (place <$> m) (slab_heap s) (hdr_heap s) (os_blocks s)
}.

Definition pool_inv (s : kvs_mempool_t) : Prop := exists m, inv_at m s.

(** ** The lists of a class *)

Lemma rd_insert (cs : list mem_pool_t) i j c :
  0 <= i < zlen cs -> 0 <= j -> rd (<[Z.to_nat i := c]> cs) j = if decide (i = j) then Ok c else rd cs j.
Proof.
  intros Hi Hj. unfold rd. rewrite (proj2 (Z.ltb_ge j 0)) by lia. destruct (decide (i = j)) as [-> | Hne].
  - rewrite list_lookup_insert_eq by (unfold zlen in *; lia). done.
  - rewrite list_lookup_insert_ne by lia. done.
Qed.

Lemma rd_range_ok {A} (l : list A) i x : rd l i = Ok x -> 0 <= i < zlen l.
Proof.
  rewrite rd_spec. intros [Hi Hx]. apply lookup_lt_Some in Hx. unfold zlen. lia.
Qed.

(** A class changes at the slab [id] only. *)
Lemma lists_update m cs i c c' id (o : option home) :
  lists_ok m cs -> rd cs i = Ok c -> class_ok i c' ->
  (forall h, m !! id = Some h -> h_class h = i) -> (forall h, o = Some h -> h_class h = i) ->
  (forall k id', id' <> id -> id' ∈ slabs_of k c' <-> id' ∈ slabs_of k c) ->
  (forall k, id ∈ slabs_of k c' <-> exists mem, o = Some (Home i k mem)) ->
  lists_ok (partial_alter (fun _ => o) id m) (<[Z.to_nat i := c']> cs).
Proof.
  intros [Hlen Hc He] Hi Hc' Hold Hnew Hoth Hid. pose proof (rd_range_ok _ _ _ Hi) as Hr.
  assert (Hrd : forall j d, rd (<[Z.to_nat i := c']> cs) j = Ok d -> if decide (i = j) then d = c' else rd cs j = Ok d).
  { intros j d Hj. pose proof (rd_range_ok _ _ _ Hj). rewrite rd_insert in Hj by lia.
    destruct (decide (i = j)); [congruence | done]. }
  split.
  - by rewrite zlen_insert.
  - intros j d Hj%Hrd. destruct (decide (i = j)) as [<- | Hne]; [by subst | by apply Hc].
  - intros j d k id' Hj%Hrd. destruct (decide (id' = id)) as [-> | Hn];
      [rewrite lookup_partial_alter_eq | rewrite lookup_partial_alter_ne by done];
      destruct (decide (i = j)) as [<- | Hne].
    + subst d. apply Hid.
    + rewrite (He _ _ _ _ Hj). split; intros [mem Hm]; [apply Hold in Hm | apply Hnew in Hm]; done.
    + subst d. rewrite Hoth, (He _ _ _ _ Hi) by done. done.
    + by apply He.
Qed.

(** ** The layout *)

Section Layout.
Context (g : gmap Z (Z * Z)) (maps blks : list (Z * Z)).
Hypothesis L : layout_ok g maps blks.

Lemma region_space id i mem :
  g !! id = Some (i, mem) -> 0 < mem /\ mem + region_len i < 2 ^ 63.
Proof.
  intros Hg. destruct (lo_region _ _ _ L _ _ _ Hg) as [Hr _].
  destruct (lo_space _ _ _ L (mem, region_len i)) as (? & ? & ?); [set_solver |]. cbn in *. lia.
Qed.

Lemma slab_addr_space id i mem : g !! id = Some (i, mem) -> 0 < id.
Proof.
  intros Hg. destruct (small i) eqn:Hs.
  - destruct (lo_small _ _ _ L _ _ _ Hg Hs) as [-> _]. by eapply region_space.
  - apply (lo_struct _ _ _ L _ _ _ Hg) in Hs. destruct (lo_space _ _ _ L (id, SIZEOF_SLAB)); [set_solver | done].
Qed.

Lemma regions_apart id id' i i' mem mem' :
  g !! id = Some (i, mem) -> g !! id' = Some (i', mem') -> id <> id' ->
  apart (mem, region_len i) (mem', region_len i').
Proof.
  intros Hg Hg' Hne. destruct (lo_region _ _ _ L _ _ _ Hg) as [Hr _], (lo_region _ _ _ L _ _ _ Hg') as [Hr' _].
  destruct (lo_apart_maps _ _ _ L _ _ Hr Hr') as [He | Ha]; [| done].
  injection He as -> _. destruct Hne. by eapply (lo_inj _ _ _ L).
Qed.

Lemma region_apart_blk id i mem r :
  g !! id = Some (i, mem) -> r ∈ blks -> apart (mem, region_len i) r.
Proof.
  intros Hg Hr. apply (lo_apart _ _ _ L); [| done]. by eapply (lo_region _ _ _ L).
Qed.

Lemma blk_unique p n n' : (p, n) ∈ blks -> (p, n') ∈ blks -> n = n'.
Proof.
  intros Hn Hn'. destruct (lo_apart_blks _ _ _ L _ _ Hn Hn') as [He | Ha]; [congruence |].
  destruct (lo_space _ _ _ L (p, n)) as (_ & ? & _), (lo_space _ _ _ L (p, n')) as (_ & ? & _);
    [set_solver.. |]. unfold apart in Ha. cbn in *. lia.
Qed.

(** The blocks of the slabs of one table do not overlap. *)
Lemma slab_blocks_apart id id' i i' mem mem' b b' :
  g !! id = Some (i, mem) -> g !! id' = Some (i', mem') -> b ∈ blocks i mem -> b' ∈ blocks i' mem' ->
  (id = id' /\ b = b') \/ apart (b, class_size i) (b', class_size i').
Proof.
  intros Hg Hg' Hb Hb'. pose proof (lo_class _ _ _ L _ _ _ Hg) as Hi. pose proof (lo_class _ _ _ L _ _ _ Hg') as Hi'.
  destruct (decide (id = id')) as [<- | Hne].
  - rewrite Hg in Hg'. injection Hg' as <- <-. destruct (blocks_apart i mem b b' Hi Hb Hb') as [-> | Ha]; auto.
  - right. pose proof (regions_apart _ _ _ _ _ _ Hg Hg' Hne) as Ha.
    apply block_in_region in Hb, Hb'; [| done..]. unfold apart, head_len in *. cbn in *.
    destruct (small i), (small i'); unfold SIZEOF_SLAB in *; lia.
Qed.

Lemma block_apart_blk id i mem b r :
  g !! id = Some (i, mem) -> b ∈ blocks i mem -> r ∈ blks -> apart (b, class_size i) r.
Proof.
  intros Hg Hb Hr. pose proof (region_apart_blk _ _ _ _ Hg Hr) as Ha.
  apply block_in_region in Hb; [| by eapply (lo_class _ _ _ L)]. unfold apart, head_len in *. cbn in *.
  destruct (small i); unfold SIZEOF_SLAB in *; lia.
Qed.

(** The slab of a block without header. *)
Lemma ptr_to_slab_block id i mem b :
  g !! id = Some (i, mem) -> small i = true -> b ∈ blocks i mem -> ptr_to_slab b = id.
Proof.
  intros Hg Hs Hb. pose proof (lo_class _ _ _ L _ _ _ Hg) as Hi. destruct (region_space _ _ _ Hg).
  destruct (lo_small _ _ _ L _ _ _ Hg Hs) as [-> Hmod]. apply block_in_region in Hb; [| done].
  unfold head_len, region_len in *. rewrite Hs in *. destruct (class_facts i Hi) as (Hc & _).
  unfold SIZEOF_SLAB in *. rewrite ptr_to_slab_eq by lia.
  apply Z.div_exact in Hmod; [| done]. set (N := SLAB_SIZE_ALIGNMENT) in *.
  assert (HN : N = 131072) by done. assert (b mod N = b - mem) as ->; [| lia].
  symmetry. apply (Z.mod_unique_pos _ _ (mem / N)); lia.
Qed.
End Layout.

(** A new object: inside the address space and apart from the others. *)
Definition fresh (r : Z * Z) (objs : list (Z * Z)) : Prop :=
  in_space r /\ forall r', r' ∈ objs -> apart r r'.

(** Without the blocks that start at [p]. *)
Definition sans (p : Z) (rs : list (Z * Z)) : list (Z * Z) := filter (fun r => r.1 <> p) rs.

Lemma sans_elem p r rs : r ∈ sans p rs <-> r.1 <> p /\ r ∈ rs.
Proof. exact (list_elem_of_filter _ _ _). Qed.

Lemma sans_fresh p n rs : fresh (p, n) rs -> Forall in_space rs -> sans p ((p, n) :: rs) = rs.
Proof.
  intros [[_ [Hn _]] Hf] Hrs. unfold sans. rewrite filter_cons_False by naive_solver.
  apply filter_all. rewrite Forall_forall in Hrs. apply Forall_forall. intros r Hr He.
  specialize (Hf r Hr). destruct (Hrs r Hr) as (_ & ? & _). unfold apart in Hf. cbn in *. lia.
Qed.

Lemma layout_fresh_slab g maps blks p n :
  layout_ok g maps blks -> fresh (p, n) (maps ++ blks) -> g !! p = None.
Proof.
  intros L [[_ [Hn _]] Hf]. destruct (g !! p) as [[i mem] |] eqn:Hg; [| done]. exfalso.
  destruct (small i) eqn:Hs.
  - destruct (lo_small _ _ _ L _ _ _ Hg Hs) as [-> _].
    destruct (lo_region _ _ _ L _ _ _ Hg) as [Hr _]. destruct (lo_space _ _ _ L (mem, region_len i)) as (_ & ? & _);
      [set_solver |]. specialize (Hf (mem, region_len i) ltac:(set_solver)). unfold apart in Hf. cbn in *. lia.
  - apply (lo_struct _ _ _ L _ _ _ Hg) in Hs. specialize (Hf (p, SIZEOF_SLAB) ltac:(set_solver)).
    unfold apart, SIZEOF_SLAB in Hf. cbn in *. lia.
Qed.

Lemma layout_add_blk g maps blks r :
  layout_ok g maps blks -> fresh r (maps ++ blks) -> layout_ok g maps (r :: blks).
Proof.
  intros L [Hs Hf]. split; try apply L.
  - intros id i mem Hg Hsm. right. by eapply (lo_struct _ _ _ L).
  - intros a b [-> | Ha]%elem_of_cons [-> | Hb]%elem_of_cons; [by left | | |].
    + right. apply Hf. set_solver.
    + right. apply apart_sym, Hf. set_solver.
    + by apply (lo_apart_blks _ _ _ L).
  - intros a b Ha [-> | Hb]%elem_of_cons; [apply apart_sym, Hf; set_solver | by apply (lo_apart _ _ _ L)].
  - intros a Ha. destruct (decide (a = r)) as [-> | Hne]; [done |]. apply (lo_space _ _ _ L). set_solver.
Qed.

Lemma layout_drop_blk g maps blks p :
  layout_ok g maps blks -> (forall i mem, g !! p = Some (i, mem) -> small i = true) -> layout_ok g maps (sans p blks).
Proof.
  intros L Hp. split; try apply L.
  - intros id i mem Hg Hs. apply sans_elem. split; [| by eapply (lo_struct _ _ _ L)].
    cbn. intros ->. rewrite (Hp _ _ Hg) in Hs. done.
  - intros a b [_ Ha]%sans_elem [_ Hb]%sans_elem. by apply (lo_apart_blks _ _ _ L).
  - intros a b Ha [_ Hb]%sans_elem. by apply (lo_apart _ _ _ L).
  - intros a Ha. apply (lo_space _ _ _ L). rewrite elem_of_app in *. rewrite sans_elem in Ha. naive_solver.
Qed.

Lemma layout_add_slab g maps blks id i mem :
  layout_ok g maps blks -> g !! id = None -> 0 <= i < CLASS_COUNT ->
  fresh (mem, region_len i) (maps ++ blks) -> mem mod PAGE_SIZE = 0 ->
  (if small i then id = mem /\ mem mod SLAB_SIZE_ALIGNMENT = 0 else (id, SIZEOF_SLAB) ∈ blks) ->
  layout_ok (<[id := (i, mem)]> g) ((mem, region_len i) :: maps) blks.
Proof.
  intros L Hid Hi [Hsp Hf] Hpage Hkind.
  assert (Hmem : forall id' i', g !! id' <> Some (i', mem)).
  { intros id' i' Hg. destruct (lo_region _ _ _ L _ _ _ Hg) as [Hr _].
    destruct (lo_space _ _ _ L (mem, region_len i')) as (_ & ? & _); [set_solver |].
    specialize (Hf (mem, region_len i') ltac:(set_solver)). destruct Hsp as (_ & ? & _). unfold apart in Hf. cbn in *. lia. }
  split.
  - intros id' i' mem'. rewrite lookup_insert_Some. intros [[-> [= -> ->]] | [_ Hg]]; [done | by eapply (lo_class _ _ _ L)].
  - intros id' i' mem'. rewrite lookup_insert_Some. intros [[-> [= -> ->]] | [_ Hg]]; [set_solver |].
    destruct (lo_region _ _ _ L _ _ _ Hg). set_solver.
  - intros id' i' mem'. rewrite lookup_insert_Some.
    intros [[-> [= -> ->]] | [_ Hg]] Hs; [by rewrite Hs in Hkind | by apply (lo_small _ _ _ L _ _ _ Hg)].
  - intros id' i' mem'. rewrite lookup_insert_Some.
    intros [[-> [= -> ->]] | [_ Hg]] Hs; [by rewrite Hs in Hkind | by apply (lo_struct _ _ _ L _ _ _ Hg)].
  - intros id1 id2 i1 i2 mem'. rewrite !lookup_insert_Some.
    intros [[-> [= -> ->]] | [_ Hg]] [[-> [=]] | [_ Hg']]; try done; [by apply Hmem in Hg' | subst; by apply Hmem in Hg |].
    by eapply (lo_inj _ _ _ L).
  - intros r [-> | Hr]%elem_of_cons; [exists id, i; cbn; by rewrite lookup_insert_eq |].
    destruct (lo_maps _ _ _ L _ Hr) as (id' & i' & Hg & He). exists id', i'. split; [| done].
    rewrite lookup_insert_ne; [done | congruence].
  - intros a b [-> | Ha]%elem_of_cons [-> | Hb]%elem_of_cons; [by left | | |].
    + right. apply Hf. set_solver.
    + right. apply apart_sym, Hf. set_solver.
    + by apply (lo_apart_maps _ _ _ L).
  - apply L.
  - intros a b [-> | Ha]%elem_of_cons Hb; [apply Hf; set_solver | by apply (lo_apart _ _ _ L)].
  - intros a Ha. destruct (decide (a = (mem, region_len i))) as [-> | Hne]; [done |]. apply (lo_space _ _ _ L). set_solver.
Qed.

(** The region of a slab is unmapped, and its structure freed. *)
Lemma layout_drop_slab g maps blks id i mem :
  layout_ok g maps blks -> g !! id = Some (i, mem) ->
  layout_ok (delete id g) (filter (fun r => r <> (mem, region_len i)) maps) (if small i then blks else sans id blks).
Proof.
  intros L Hid.
  assert (L' : layout_ok (delete id g) (filter (fun r => r <> (mem, region_len i)) maps) blks).
  { split; try (intros *; rewrite ?lookup_delete_Some; intros [? Hg]; revert Hg; apply L).
    - intros id' i' mem'. rewrite lookup_delete_Some. intros [Hne Hg].
      destruct (lo_region _ _ _ L _ _ _ Hg) as [Hr ?]. split; [| done]. apply list_elem_of_filter. split; [| done].
      intros [= -> _]. by destruct Hne; eapply (lo_inj _ _ _ L).
    - intros id1 id2 i1 i2 mem'. rewrite !lookup_delete_Some. intros [_ Hg] [_ Hg']. by eapply (lo_inj _ _ _ L).
    - intros r [Hne Hr]%list_elem_of_filter. destruct (lo_maps _ _ _ L _ Hr) as (id' & i' & Hg & He).
      exists id', i'. split; [| done]. rewrite lookup_delete_ne; [done |]. intros <-. destruct Hne.
      rewrite Hid in Hg. injection Hg as <- ->. destruct r. cbn in *. by subst.
    - intros a b [_ Ha]%list_elem_of_filter [_ Hb]%list_elem_of_filter. by apply (lo_apart_maps _ _ _ L).
    - apply L.
    - intros a b [_ Ha]%list_elem_of_filter Hb. by apply (lo_apart _ _ _ L).
    - intros a Ha. apply (lo_space _ _ _ L). rewrite elem_of_app, list_elem_of_filter in *. naive_solver. }
  destruct (small i); [done |]. apply layout_drop_blk; [done |]. intros i' mem'. by rewrite lookup_delete_eq.
Qed.

(** ** The headers *)

Lemma large_mono blks blks' q h :
  large_ok blks q h -> (forall n, (q, n) ∈ blks -> (q, n) ∈ blks') -> large_ok blks' q h.
Proof. intros (? & ? & n & Hn & ? & ?) Hsub. repeat split; eauto 10. Qed.

(** The blocks in use, of the classes with headers, stay the same. *)
Lemma headers_same g g' heap heap' hdr blks :
  headers_ok g heap hdr blks ->
  (forall id i q, small i = false -> used_block g' heap' id i q <-> used_block g heap id i q) ->
  (forall id i mem, small i = false -> g !! id = Some (i, mem) -> g' !! id = Some (i, mem)) ->
  headers_ok g' heap' hdr blks.
Proof.
  intros [Hh Hu Hb] Hiff Hg. split.
  - intros q h Hq. destruct (Hh q h Hq) as [? | (id & i & Hs & Hub & ->)]; [by left |].
    right. exists id, i. by rewrite Hiff.
  - intros id i q Hs. rewrite Hiff by done. by apply Hu.
  - intros r Hr. destruct (Hb r Hr) as [(i & mem & ? & ? & ?) | ?]; [left; eauto 10 | by right].
Qed.

Lemma blk_not_block g maps blks id i mem b n :
  layout_ok g maps blks -> g !! id = Some (i, mem) -> b ∈ blocks i mem -> (b, n) ∈ blks -> False.
Proof.
  intros L Hg Hb Hn. pose proof (block_apart_blk _ _ _ L _ _ _ _ _ Hg Hb Hn) as Ha.
  destruct (lo_space _ _ _ L (b, n)) as (_ & ? & _); [set_solver |].
  destruct (class_facts i (lo_class _ _ _ L _ _ _ Hg)). unfold apart in Ha. cbn in *. lia.
Qed.

Lemma block_slab_unique g maps blks id id' i i' mem mem' b :
  layout_ok g maps blks -> g !! id = Some (i, mem) -> g !! id' = Some (i', mem') ->
  b ∈ blocks i mem -> b ∈ blocks i' mem' -> id = id'.
Proof.
  intros L Hg Hg' Hb Hb'. destruct (slab_blocks_apart _ _ _ L _ _ _ _ _ _ _ _ Hg Hg' Hb Hb') as [[-> _] | Ha]; [done |].
  destruct (class_facts i (lo_class _ _ _ L _ _ _ Hg)), (class_facts i' (lo_class _ _ _ L _ _ _ Hg')).
  unfold apart in Ha. cbn in Ha. lia.
Qed.

(** The blocks in use when a slab is added, dropped, and when a block is taken
    or comes back. *)
Lemma used_add g heap id i mem sb :
  g !! id = None -> free_list sb = blocks i mem -> forall id' i' q,
  used_block (<[id := (i, mem)]> g) (<[id := sb]> heap) id' i' q <-> used_block g heap id' i' q.
Proof.
  intros Hg Hfree id' i' q. unfold used_block. destruct (decide (id' = id)) as [-> | Hne];
    [| by rewrite !lookup_insert_ne by done].
  rewrite !lookup_insert_eq, Hg. split; [| naive_solver].
  intros (mem' & sb' & [= -> ->] & [= ->] & Hq & Hn). by rewrite Hfree in Hn.
Qed.

Lemma used_drop g heap id i mem sb :
  g !! id = Some (i, mem) -> heap !! id = Some sb -> blocks i mem ⊆ free_list sb -> forall id' i' q,
  used_block (delete id g) (delete id heap) id' i' q <-> used_block g heap id' i' q.
Proof.
  intros Hg Hsb Hfree id' i' q. unfold used_block. destruct (decide (id' = id)) as [-> | Hne];
    [| by rewrite !lookup_delete_ne by done].
  rewrite !lookup_delete_eq, Hg, Hsb. split; [naive_solver |].
  intros (mem' & sb' & [= <- <-] & [= <-] & Hq & Hn). by apply Hfree in Hq.
Qed.

Lemma used_take g heap id i mem sb sb' b :
  g !! id = Some (i, mem) -> heap !! id = Some sb -> b ∈ blocks i mem ->
  (forall q, q ∈ free_list sb <-> q = b \/ q ∈ free_list sb') -> b ∉ free_list sb' -> forall id' i' q,
  used_block g (<[id := sb']> heap) id' i' q <-> used_block g heap id' i' q \/ (id' = id /\ i' = i /\ q = b).
Proof.
  intros Hg Hsb Hin Hfree Hnew id' i' q. unfold used_block. destruct (decide (id' = id)) as [-> | Hne].
  - rewrite lookup_insert_eq, Hg, Hsb. split.
    + intros (mem' & sb'' & [= <- <-] & [= <-] & Hq & Hn). destruct (decide (q = b)); [by right |].
      left. exists mem, sb. repeat split; [done.. |]. rewrite Hfree. naive_solver.
    + intros [(mem' & sb'' & [= <- <-] & [= <-] & Hq & Hn) | (_ & -> & ->)]; [| by eauto 10].
      exists mem, sb'. rewrite Hfree in Hn. naive_solver.
  - rewrite lookup_insert_ne by done. naive_solver.
Qed.

Lemma used_release g heap maps blks id i mem sb sb' b :
  layout_ok g maps blks -> g !! id = Some (i, mem) -> heap !! id = Some sb -> b ∈ blocks i mem ->
  (forall q, q ∈ free_list sb' <-> q = b \/ q ∈ free_list sb) -> forall id' i' q,
  used_block g (<[id := sb']> heap) id' i' q <-> used_block g heap id' i' q /\ q <> b.
Proof.
  intros L Hg Hsb Hin Hfree id' i' q. unfold used_block. destruct (decide (id' = id)) as [-> | Hne].
  - rewrite lookup_insert_eq, Hg, Hsb. split.
    + intros (mem' & sb'' & [= <- <-] & [= <-] & Hq & Hn). rewrite Hfree in Hn. naive_solver.
    + intros [(mem' & sb'' & [= <- <-] & [= <-] & Hq & Hn) Hne]. exists mem, sb'. rewrite Hfree. naive_solver.
  - rewrite lookup_insert_ne by done. split; [| tauto]. intros (mem' & sb'' & Hg' & Hsb' & Hq & Hn).
    split; [eauto 10 |]. intros ->. destruct Hne. symmetry. by eapply (block_slab_unique g).
Qed.

(** No block of a slab is in use when all of them are free. *)
Lemma headers_add_slab g heap hdr blks id i mem sb :
  headers_ok g heap hdr blks -> g !! id = None -> free_list sb = blocks i mem ->
  headers_ok (<[id := (i, mem)]> g) (<[id := sb]> heap) hdr (if small i then blks else (id, SIZEOF_SLAB) :: blks).
Proof.
  intros H Hg Hfree. pose proof (used_add g heap id i mem sb Hg Hfree) as Hiff.
  assert (Hsame : headers_ok (<[id := (i, mem)]> g) (<[id := sb]> heap) hdr blks).
  { eapply headers_same; [done | by intros; apply Hiff |]. intros id' i' mem' _ Hg'.
    rewrite lookup_insert_ne; [done | congruence]. }
  destruct (small i) eqn:Hs; [done |]. destruct Hsame as [Hh Hu Hb]. split.
  - intros q h Hq. destruct (Hh q h Hq) as [Hl | ?]; [left | by right].
    eapply large_mono; [done |]. set_solver.
  - done.
  - intros r [-> | Hr]%elem_of_cons; [left; exists i, mem; by rewrite lookup_insert_eq |].
    destruct (Hb r Hr) as [? | (h & ? & Hl)]; [by left | right]. exists h. split; [done |].
    eapply large_mono; [done |]. set_solver.
Qed.

Lemma headers_drop_slab g heap hdr maps blks id i mem sb :
  headers_ok g heap hdr blks -> layout_ok g maps blks -> g !! id = Some (i, mem) -> heap !! id = Some sb ->
  blocks i mem ⊆ free_list sb ->
  headers_ok (delete id g) (delete id heap) hdr (if small i then blks else sans id blks).
Proof.
  intros H L Hg Hsb Hfree. pose proof (used_drop g heap id i mem sb Hg Hsb Hfree) as Hiff.
  assert (Hkeep : forall q h, large_ok blks q h -> large_ok (if small i then blks else sans id blks) q h).
  { intros q h Hl. eapply large_mono; [done |]. intros n Hn. destruct (small i) eqn:Hs; [done |].
    apply sans_elem. split; [| done]. cbn. intros ->. destruct Hl as (_ & _ & n' & Hn' & Hlt & _).
    pose proof (blk_unique _ _ _ L _ _ _ Hn' (lo_struct _ _ _ L _ _ _ Hg Hs)) as ->. done. }
  destruct H as [Hh Hu Hb]. split.
  - intros q h Hq. destruct (Hh q h Hq) as [Hl | (id' & i' & ? & ? & ?)]; [left; by apply Hkeep |].
    right. exists id', i'. by rewrite Hiff.
  - intros id' i' q Hs. rewrite Hiff. by apply Hu.
  - intros r Hr. assert (Hr' : r ∈ blks) by (destruct (small i); [done | apply sans_elem in Hr; tauto]).
    destruct (Hb r Hr') as [(i' & mem' & Hg' & Hs' & He) | (h & Hh' & Hl)]; [left | right; exists h; auto].
    exists i', mem'. rewrite lookup_delete_ne; [done |]. intros Hid. rewrite <- Hid, Hg in Hg'.
    injection Hg' as <- <-. rewrite Hs' in Hr. apply sans_elem in Hr. by destruct Hr.
Qed.

(** A free block has no header. *)
Lemma free_no_header g heap hdr maps blks id i mem sb b :
  headers_ok g heap hdr blks -> layout_ok g maps blks -> g !! id = Some (i, mem) -> heap !! id = Some sb ->
  b ∈ blocks i mem -> b ∈ free_list sb -> hdr !! b = None.
Proof.
  intros H L Hg Hsb Hin Hf. destruct (hdr !! b) as [h |] eqn:Hbh; [exfalso | done].
  destruct (ho_header _ _ _ _ H _ _ Hbh) as [(_ & _ & n & Hn & ? & _) | (id' & i' & Hs' & (mem' & sb'' & Hg' & Hsb' & Hq & Hnf) & _)].
  - by eapply (blk_not_block g).
  - rewrite (block_slab_unique g _ _ _ _ _ _ _ _ _ L Hg Hg' Hin Hq), Hsb' in Hsb. by injection Hsb as ->.
Qed.

(** A block of a slab with headers is handed out. *)
Lemma headers_take g heap hdr maps blks id i mem sb sb' b :
  headers_ok g heap hdr blks -> layout_ok g maps blks -> small i = false ->
  g !! id = Some (i, mem) -> heap !! id = Some sb -> b ∈ blocks i mem ->
  (forall q, q ∈ free_list sb <-> q = b \/ q ∈ free_list sb') -> b ∉ free_list sb' ->
  headers_ok g (<[id := sb']> heap) (<[b := BlockHeader BLOCK_MAGIC i BLOCK_FLAG id (class_size i)]> hdr) blks.
Proof.
  intros H L Hs Hg Hsb Hin Hfree Hnew. pose proof (used_take g heap id i mem sb sb' b Hg Hsb Hin Hfree Hnew) as Hiff.
  assert (Hbn : hdr !! b = None) by (eapply (free_no_header g); try done; apply Hfree; by left). destruct H as [Hh Hu Hb].
  split.
  - intros q h. rewrite lookup_insert_Some. intros [[-> <-] | [Hne Hq]].
    + right. exists id, i. rewrite Hiff. auto 10.
    + destruct (Hh q h Hq) as [? | (id' & i' & ? & ? & ?)]; [by left | right].
      exists id', i'. rewrite Hiff. auto.
  - intros id' i' q Hs'. rewrite Hiff, lookup_insert_is_Some'. intros [? | (_ & _ & ->)]; [right; eauto | by left].
  - intros r Hr. destruct (Hb r Hr) as [? | (h & Hr' & ?)]; [by left | right]. exists h.
    rewrite lookup_insert_ne; [done |]. intros ->. congruence.
Qed.

(** A block of a slab with headers comes back. *)
Lemma headers_release g heap hdr maps blks id i mem sb sb' b :
  headers_ok g heap hdr blks -> layout_ok g maps blks -> small i = false ->
  g !! id = Some (i, mem) -> heap !! id = Some sb -> b ∈ blocks i mem ->
  (forall q, q ∈ free_list sb' <-> q = b \/ q ∈ free_list sb) ->
  headers_ok g (<[id := sb']> heap) (delete b hdr) blks.
Proof.
  intros [Hh Hu Hb] L Hs Hg Hsb Hin Hfree. pose proof (used_release g heap maps blks id i mem sb sb' b L Hg Hsb Hin Hfree) as Hiff.
  split.
  - intros q h. rewrite lookup_delete_Some. intros [Hne Hq].
    destruct (Hh q h Hq) as [? | (id' & i' & ? & ? & ?)]; [by left | right]. exists id', i'. rewrite Hiff. auto.
  - intros id' i' q Hs'. rewrite Hiff. intros [Huse Hne]. rewrite lookup_delete_ne by done. by eapply Hu.
  - intros [p n] Hr. destruct (Hb _ Hr) as [? | (h & Hr' & ?)]; [by left | right]. exists h.
    rewrite lookup_delete_ne; [done |]. cbn. intros <-. by eapply (blk_not_block g).
Qed.

Lemma headers_add_large g heap hdr maps blks q n h :
  headers_ok g heap hdr blks -> layout_ok g maps blks -> fresh (q, n) (maps ++ blks) ->
  large_ok ((q, n) :: blks) q h ->
  headers_ok g heap (<[q := h]> hdr) ((q, n) :: blks).
Proof.
  intros [Hh Hu Hb] L [Hsp Hf] Hl. split.
  - intros q' h'. rewrite lookup_insert_Some. intros [[-> <-] | [Hne Hq]]; [by left |].
    destruct (Hh q' h' Hq) as [Hl' | ?]; [left | by right]. eapply large_mono; [done |]. set_solver.
  - intros id i q' Hs Huse. rewrite lookup_insert_is_Some'. right. by eapply Hu.
  - intros [p k] [[= -> ->] | Hr]%elem_of_cons; [right; exists h; cbn; by rewrite lookup_insert_eq |].
    destruct (Hb _ Hr) as [? | (h' & Hr' & Hl')]; [by left | right]. exists h'.
    rewrite lookup_insert_ne; [split; [done | eapply large_mono; [done | set_solver]] |].
    cbn. intros <-. specialize (Hf (q, k) ltac:(set_solver)). destruct (lo_space _ _ _ L (q, k)) as (_ & ? & _); [set_solver |].
    destruct Hsp as (_ & ? & _). unfold apart in Hf. cbn in *. lia.
Qed.

Lemma headers_drop_large g heap hdr maps blks q h :
  headers_ok g heap hdr blks -> layout_ok g maps blks -> large_ok blks q h ->
  headers_ok g heap (delete q hdr) (sans q blks).
Proof.
  intros [Hh Hu Hb] L Hl.
  assert (Hkeep : forall p h', p <> q -> large_ok blks p h' -> large_ok (sans q blks) p h').
  { intros p h' Hne Hl'. eapply large_mono; [done |]. intros n Hn. apply sans_elem. done. }
  split.
  - intros q' h'. rewrite lookup_delete_Some. intros [Hne Hq].
    destruct (Hh q' h' Hq) as [Hl' | ?]; [left; by apply Hkeep | by right].
  - intros id i q' Hs Huse. rewrite lookup_delete_ne; [by eapply Hu |]. intros <-.
    destruct Huse as (mem & sb & Hg & _ & Hq & _), Hl as (_ & _ & n & Hn & _). by eapply (blk_not_block g).
  - intros r [Hne Hr]%sans_elem. destruct (Hb _ Hr) as [? | (h' & Hr' & Hl')]; [by left | right]. exists h'.
    rewrite lookup_delete_ne by done. auto.
Qed.
