(* ===== verification/MempoolOps.v ===== *)
(** * MempoolOps: the operations of the memory pool keep its invariant

    Against any placement of the operating system's objects that does not
    overlap the existing ones, each operation ends without an undefined action,
    keeps [pool_inv] and changes the capacities of the live blocks, [live_cap],
    at the block it hands out or takes back and nowhere else. *)

From S2P Require Import Prelude CLib Alloc Mempool MempoolFacts.

(** What the pool relies on: [mmap] and [malloc] return memory that is not in
    use, [mmap] whole pages. *)
Class PlacementLaws (mmap_at malloc_at : nat -> Z -> list (Z * Z) -> option Z) : Prop := {
  mmap_fresh t n objs p : 0 < n -> mmap_at t n objs = Some p -> fresh (p, n) objs /\ p mod PAGE_SIZE = 0;
  malloc_fresh t n objs p : 0 < n -> malloc_at t n objs = Some p -> fresh (p, n) objs
}.

(** No bytes in front of a block without header carry the mark of a header.
    These bytes belong to other blocks, so this is a condition on what the
    clients store: [forged_header_free] of MempoolClaims.v shows what happens
    without it. *)
Class Unmarked (foreign : Z -> block_header_t) : Prop :=
  foreign_unmarked p : hd_magic (foreign p) <> BLOCK_MAGIC.

(** ** The live blocks *)

Definition header_cap (h : block_header_t) : Z :=
  if hd_flag h =? BLOCK_FLAG_LARGE then hd_size h else hd_size h - SIZEOF_HEADER.

(** The usable bytes of the block at [p]; [None] when no block is live there. *)
Definition live_cap (s : kvs_mempool_t) (p : Z) : option Z :=
  match hdr_heap s !! (p - SIZEOF_HEADER) with
  | Some h => Some (header_cap h)
  | None =>
      match slab_heap s !! ptr_to_slab p with
      | Some sb =>
          if (slab_magic sb =? SLAB_MAGIC) && bool_decide (p ∈ blocks (sb_classid sb) (sb_mem sb) /\ p ∉ free_list sb)
          then Some (class_size (sb_classid sb)) else None
      | None => None
      end
  end.

(** The same as a relation on the table of the slabs. *)
Definition live_at (m : gmap Z home) (s : kvs_mempool_t) (p c : Z) : Prop :=
  (exists id i, small i = true /\ used_block (place <$> m) (slab_heap s) id i p /\ c = class_size i) \/
  (exists h, hdr_heap s !! (p - SIZEOF_HEADER) = Some h /\ c = header_cap h).

Lemma place_lookup (m : gmap Z home) id i k mem : m !! id = Some (Home i k mem) -> (place <$> m) !! id = Some (i, mem).
Proof. intros Hm. by rewrite lookup_fmap, Hm. Qed.

Lemma place_none (m : gmap Z home) id : (place <$> m) !! id = None <-> m !! id = None.
Proof. by rewrite lookup_fmap, fmap_None. Qed.

Lemma place_home (m : gmap Z home) id i mem : (place <$> m) !! id = Some (i, mem) -> exists k, m !! id = Some (Home i k mem).
Proof.
  rewrite lookup_fmap_Some. intros ([i' k mem'] & [= <- <-] & Hm). eauto.
Qed.

Lemma place_same (m : gmap Z home) id i k k' mem :
  m !! id = Some (Home i k mem) -> place <$> <[id := Home i k' mem]> m = place <$> m.
Proof. intros Hm. rewrite fmap_insert. apply insert_id. by apply (place_lookup _ _ _ k). Qed.

Lemma slab_of m heap id h : slabs_ok m heap -> m !! id = Some h -> exists sb, heap !! id = Some sb /\ slab_ok h sb.
Proof. intros Hs Hm. specialize (Hs id). rewrite Hm in Hs. inversion Hs; eauto. Qed.

Lemma home_of m heap id sb : slabs_ok m heap -> heap !! id = Some sb -> exists h, m !! id = Some h /\ slab_ok h sb.
Proof. intros Hs Hm. specialize (Hs id). rewrite Hm in Hs. inversion Hs; eauto. Qed.

Lemma slabs_update m heap id h sb : slabs_ok m heap -> slab_ok h sb -> slabs_ok (<[id := h]> m) (<[id := sb]> heap).
Proof.
  intros Hs Hok id'. destruct (decide (id' = id)) as [-> | Hne];
    [rewrite !lookup_insert_eq; by constructor | rewrite !lookup_insert_ne by done; apply Hs].
Qed.

Lemma slabs_delete m heap id : slabs_ok m heap -> slabs_ok (delete id m) (delete id heap).
Proof.
  intros Hs id'. destruct (decide (id' = id)) as [-> | Hne];
    [rewrite !lookup_delete_eq; by constructor | rewrite !lookup_delete_ne by done; apply Hs].
Qed.

(** No header is read in front of a block without header. *)
Lemma small_no_header m s id i p :
  inv_at m s -> small i = true -> used_block (place <$> m) (slab_heap s) id i p -> hdr_heap s !! (p - SIZEOF_HEADER) = None.
Proof.
  intros [_ _ L H] Hs (mem & sb & Hg & _ & Hb & _).
  destruct (hdr_heap s !! (p - SIZEOF_HEADER)) as [h |] eqn:Hh; [exfalso | done].
  pose proof (lo_class _ _ _ L _ _ _ Hg) as Hi. pose proof (block_in_region _ _ _ Hi Hb) as Hr.
  unfold head_len in Hr. rewrite Hs in Hr. destruct (class_facts i Hi) as (Hc & _).
  destruct (ho_header _ _ _ _ H _ _ Hh) as [(_ & _ & n & Hn & Hlt & _) | (id' & i' & Hs' & (mem' & sb' & Hg' & _ & Hb' & _) & _)].
  - pose proof (region_apart_blk _ _ _ L _ _ _ _ Hg Hn) as Ha.
    unfold apart, SIZEOF_HEADER, SIZEOF_SLAB, LARGE_THRESHOLD in *. cbn in Ha. lia.
  - pose proof (lo_class _ _ _ L _ _ _ Hg') as Hi'. pose proof (block_in_region _ _ _ Hi' Hb') as Hr'.
    destruct (class_facts i' Hi') as (_ & _ & _ & _ & _ & Hc'). specialize (Hc' Hs').
    unfold head_len in Hr'. rewrite Hs' in Hr'.
    assert (Ha : apart (mem, region_len i) (mem', region_len i')).
    { eapply (regions_apart _ _ _ L); [done.. |]. intros <-. rewrite Hg in Hg'. injection Hg' as <- <-. congruence. }
    unfold apart, SIZEOF_HEADER, SIZEOF_SLAB in *. cbn in Ha. lia.
Qed.

Lemma live_cap_iff m s p c : inv_at m s -> live_cap s p = Some c <-> live_at m s p c.
Proof.
  intros I. pose proof I as [_ Hs L H]. unfold live_cap, live_at. split.
  - destruct (hdr_heap s !! (p - SIZEOF_HEADER)) as [h |] eqn:Hh; [intros [= <-]; right; eauto |].
    destruct (slab_heap s !! ptr_to_slab p) as [sb |] eqn:Hsb; [| done].
    destruct (Z.eqb_spec (slab_magic sb) SLAB_MAGIC) as [Hm |]; [cbn | done].
    case_bool_decide as Hp; [| done]. intros [= <-]. left.
    destruct (home_of _ _ _ _ Hs Hsb) as ([i k mem] & Hhome & Hok). pose proof (so_magic _ _ Hok) as Hmag. cbn in Hmag.
    destruct (small i) eqn:Hsm; [| rewrite Hm in Hmag; done]. destruct Hmag as [_ Hc].
    pose proof (so_mem _ _ Hok) as Hmem. cbn in Hmem. rewrite Hc, Hmem in *.
    exists (ptr_to_slab p), i. repeat split; [done |]. exists mem, sb. by rewrite (place_lookup _ _ _ _ _ Hhome).
  - intros [(id & i & Hsm & Hu & ->) | (h & -> & ->)]; [| done].
    rewrite (small_no_header _ _ _ _ _ I Hsm Hu). destruct Hu as (mem & sb & Hg & Hsb & Hb & Hnf).
    rewrite (ptr_to_slab_block _ _ _ L _ _ _ _ Hg Hsm Hb), Hsb.
    destruct (place_home _ _ _ _ Hg) as [k Hk]. destruct (slab_of _ _ _ _ Hs Hk) as (sb' & Hsb' & Hok).
    rewrite Hsb in Hsb'. injection Hsb' as <-. pose proof (so_magic _ _ Hok) as Hmag. cbn in Hmag. rewrite Hsm in Hmag.
    destruct Hmag as [-> ->]. rewrite (so_mem _ _ Hok), bool_decide_true by done. done.
Qed.

(** ** Moves between the lists of a class *)

Lemma remove_elem id id' l : id' ∈ LIST_REMOVE l id <-> id' <> id /\ id' ∈ l.
Proof. exact (list_elem_of_filter _ _ _). Qed.

Lemma remove_absent id l : id ∉ l -> LIST_REMOVE l id = l.
Proof. intros Hn. apply filter_all, Forall_forall. intros x Hx ->. done. Qed.

Lemma remove_head id l : id ∉ l -> LIST_REMOVE (id :: l) id = l.
Proof. intros Hn. unfold LIST_REMOVE. rewrite filter_cons_False by naive_solver. by apply remove_absent. Qed.

(** Which list of its class holds a slab. *)
Lemma listed_iff m cs i c id k mem :
  lists_ok m cs -> rd cs i = Ok c -> m !! id = Some (Home i k mem) -> forall k', id ∈ slabs_of k' c <-> k' = k.
Proof. intros Hl Hc Hm k'. rewrite (ls_elem _ _ Hl _ _ _ _ Hc), Hm. naive_solver. Qed.

Lemma unlisted m cs i c id :
  lists_ok m cs -> rd cs i = Ok c -> m !! id = None -> forall k, id ∉ slabs_of k c.
Proof. intros Hl Hc Hm k. rewrite (ls_elem _ _ Hl _ _ _ _ Hc), Hm. naive_solver. Qed.

(** The class [c] with the slab [id] in the list [k], or in none. *)
Definition put (id : Z) (k : option kind) (k' : kind) (l : list Z) : list Z :=
  match k, k' with
  | Some Partial, Partial | Some Full, Full | Some Empty, Empty => LIST_INSERT (LIST_REMOVE l id) id
  | _, _ => LIST_REMOVE l id
  end.

Definition relist (id : Z) (k : option kind) (c : mem_pool_t) : mem_pool_t :=
  MemPool (block_size c) (zlen (put id k Empty (empty_slabs c)))
    (put id k Partial (partial_slabs c)) (put id k Full (full_slabs c)) (put id k Empty (empty_slabs c)).

Lemma relist_elem id k c k' id' :
  id' ∈ slabs_of k' (relist id k c) <-> (id' = id /\ k = Some k') \/ (id' <> id /\ id' ∈ slabs_of k' c).
Proof.
  destruct k as [[] |], k'; cbn [slabs_of relist put partial_slabs full_slabs empty_slabs]; unfold LIST_INSERT;
    rewrite ?elem_of_cons, remove_elem; destruct (decide (id' = id)); naive_solver.
Qed.

Lemma relist_class_ok i id k c :
  class_ok i c -> zlen (empty_slabs (relist id k c)) <= MAX_EMPTY_SLABS -> class_ok i (relist id k c).
Proof.
  intros (Hb & _ & _ & Hn) Hlen. repeat split; [done.. |].
  assert (Hr : forall l, NoDup l -> NoDup (LIST_REMOVE l id)) by (intros; by apply NoDup_filter).
  intros k'. clear Hlen. specialize (Hn k'). destruct k as [[] |], k'; cbn [slabs_of relist put partial_slabs full_slabs empty_slabs] in *; auto;
    constructor; auto; rewrite remove_elem; tauto.
Qed.

Lemma lists_relist m cs i c id k mem :
  lists_ok m cs -> rd cs i = Ok c -> (forall h, m !! id = Some h -> h_class h = i) ->
  zlen (empty_slabs (relist id k c)) <= MAX_EMPTY_SLABS ->
  lists_ok (partial_alter (fun _ => (fun k => Home i k mem) <$> k) id m) (<[Z.to_nat i := relist id k c]> cs).
Proof.
  intros Hl Hc Hold Hlen. eapply lists_update; [done.. | | done | | |].
  - apply relist_class_ok; [by apply (ls_class _ _ Hl) | done].
  - by destruct k; intros h [= <-].
  - intros k' id' Hne. rewrite relist_elem. naive_solver.
  - intros k'. rewrite relist_elem. destruct k; naive_solver.
Qed.

(** The updates the code writes are [relist]s. *)
Section Moves.
Context (m : gmap Z home) (cs : list mem_pool_t) (i : Z) (c : mem_pool_t) (id mem : Z).
Hypothesis Hl : lists_ok m cs.
Hypothesis Hc : rd cs i = Ok c.

Lemma move_new :
  m !! id = None ->
  MemPool (block_size c) (empty_slab_count c + 1) (partial_slabs c) (full_slabs c) (LIST_INSERT (empty_slabs c) id)
  = relist id (Some Empty) c.
Proof.
  intros Hm. pose proof (unlisted _ _ _ _ _ Hl Hc Hm) as Hu. destruct (ls_class _ _ Hl _ _ Hc) as (_ & Hn & _).
  unfold relist. cbn [put]. rewrite (remove_absent id (partial_slabs c) (Hu Partial)),
    (remove_absent id (full_slabs c) (Hu Full)), (remove_absent id (empty_slabs c) (Hu Empty)), Hn.
  f_equal. unfold LIST_INSERT. rewrite zlen_cons. lia.
Qed.

Lemma move_take k k' :
  m !! id = Some (Home i k mem) ->
  match k, k' with
  | Empty, Partial => MemPool (block_size c) (empty_slab_count c - 1) (LIST_INSERT (partial_slabs c) id) (full_slabs c) (LIST_REMOVE (empty_slabs c) id)
  | Partial, Full => MemPool (block_size c) (empty_slab_count c) (LIST_REMOVE (partial_slabs c) id) (LIST_INSERT (full_slabs c) id) (empty_slabs c)
  | Full, Partial => MemPool (block_size c) (empty_slab_count c) (LIST_INSERT (partial_slabs c) id) (LIST_REMOVE (full_slabs c) id) (empty_slabs c)
  | Partial, Empty => MemPool (block_size c) (empty_slab_count c + 1) (LIST_REMOVE (partial_slabs c) id) (full_slabs c) (LIST_INSERT (empty_slabs c) id)
  | _, _ => relist id (Some k') c
  end = relist id (Some k') c.
Proof.
  intros Hm. pose proof (listed_iff _ _ _ _ _ _ _ Hl Hc Hm) as Hk. destruct (ls_class _ _ Hl _ _ Hc) as (_ & Hn & Hmax & _).
  assert (Hsame : forall k', k' <> k -> LIST_REMOVE (slabs_of k' c) id = slabs_of k' c).
  { intros k1 Hne. apply remove_absent. by rewrite Hk. }
  pose proof (Hsame Partial) as Hp. pose proof (Hsame Full) as Hf. pose proof (Hsame Empty) as He. cbn [slabs_of] in Hp, Hf, He.
  unfold relist, MAX_EMPTY_SLABS, LIST_INSERT in *.
  destruct k, k'; try done; cbn [put] in *; unfold LIST_INSERT; rewrite ?Hp, ?Hf, ?He, ?zlen_cons by done; f_equal; try lia.
  pose proof (proj2 (Hk Empty) eq_refl) as Hin. cbn in Hin. rewrite Hn in *.
  destruct (empty_slabs c) as [| x [| y l]]; [by apply elem_of_nil in Hin | | rewrite !zlen_cons in Hmax; pose proof (zlen_nonneg l); lia].
  apply list_elem_of_singleton in Hin as ->. by rewrite remove_head by set_solver.
Qed.

Lemma move_drop :
  m !! id = Some (Home i Partial mem) ->
  MemPool (block_size c) (empty_slab_count c) (LIST_REMOVE (partial_slabs c) id) (full_slabs c) (empty_slabs c)
  = relist id None c.
Proof.
  intros Hm. pose proof (listed_iff _ _ _ _ _ _ _ Hl Hc Hm) as Hk. destruct (ls_class _ _ Hl _ _ Hc) as (_ & Hn & _).
  unfold relist. cbn [put]. rewrite (remove_absent _ (full_slabs c)), (remove_absent _ (empty_slabs c)), Hn; [done | |].
  - by apply (not_iff_compat (Hk Empty)).
  - by apply (not_iff_compat (Hk Full)).
Qed.
End Moves.

(** ** One slab changes *)

Lemma inv_step m s cs' id i k k' mem sb' hdr' t :
  inv_at m s -> m !! id = Some (Home i k mem) -> slab_ok (Home i k' mem) sb' ->
  lists_ok (<[id := Home i k' mem]> m) cs' ->
  headers_ok (place <$> m) (<[id := sb']> (slab_heap s)) hdr' (os_blocks s) ->
  inv_at (<[id := Home i k' mem]> m) (Mempool cs' (<[id := sb']> (slab_heap s)) hdr' (os_maps s) (os_blocks s) t).
Proof.
  intros [Hl Hs L H] Hm Hok Hl' H'. split; cbn; [done | by apply slabs_update | |];
    rewrite (place_same _ _ _ _ _ _ Hm); done.
Qed.

(** The live blocks do not change when the headers and the blocks in use do
    not. *)
Lemma live_same m m' s s' :
  inv_at m s -> inv_at m' s' -> hdr_heap s' = hdr_heap s ->
  (forall id i q, used_block (place <$> m') (slab_heap s') id i q <-> used_block (place <$> m) (slab_heap s) id i q) ->
  forall p, live_cap s' p = live_cap s p.
Proof.
  intros I I' Hh Hu p. apply option_eq. intros c. rewrite (live_cap_iff _ _ _ _ I), (live_cap_iff _ _ _ _ I').
  unfold live_at. rewrite Hh. by setoid_rewrite Hu.
Qed.

(** ** The operating system *)

Lemma layout_space g maps blks : layout_ok g maps blks -> Forall in_space maps /\ Forall in_space blks.
Proof. intros L. split; apply Forall_forall; intros r Hr; apply (lo_space _ _ _ L); set_solver. Qed.

Lemma munmap_region g s id i mem :
  layout_ok g (os_maps s) (os_blocks s) -> g !! id = Some (i, mem) ->
  os_munmap mem (region_len i) s
  = with_os (filter (fun r => r <> (mem, region_len i)) (os_maps s)) (os_blocks s) s.
Proof.
  intros L Hg. destruct (lo_region _ _ _ L _ _ _ Hg) as [Hr Hp]. unfold os_munmap. rewrite Hp. cbn [Z.eqb].
  rewrite cut_exact; [done | |].
  - by destruct (lo_space _ _ _ L (mem, region_len i)) as (_ & ? & _); [set_solver |].
  - apply Forall_forall. intros r Hin. destruct (lo_space _ _ _ L r) as (_ & ? & _); [set_solver |].
    split; [done |]. destruct (lo_apart_maps _ _ _ L _ _ Hr Hin) as [-> | ?]; auto.
Qed.

Lemma os_free_blk p n s : (p, n) ∈ os_blocks s -> os_free p s = Ok (with_os (os_maps s) (sans p (os_blocks s)) s).
Proof.
  intros Hp. unfold os_free. rewrite bool_decide_true; [done |]. apply list_elem_of_fmap. by exists (p, n).
Qed.

Section Ops.
Context (mmap_at malloc_at : nat -> Z -> list (Z * Z) -> option Z) (foreign : Z -> block_header_t).
Context `{!PlacementLaws mmap_at malloc_at}.

(** The state with other regions and blocks, at some later call. *)
Definition os_state (s s' : kvs_mempool_t) (maps blks : list (Z * Z)) : Prop :=
  exists t, s' = Mempool (classes s) (slab_heap s) (hdr_heap s) maps blks t.

Lemma align_arith raw :
  0 < raw -> raw + 2 ^ 18 < 2 ^ 63 -> let N := SLAB_SIZE_ALIGNMENT in
  let aligned := Z.land (to_size_t (raw + (N - 1))) (to_size_t (Z.lnot (N - 1))) in
  raw <= aligned < raw + N /\ aligned mod N = 0 /\ aligned mod PAGE_SIZE = 0.
Proof.
  intros H0 Hlt N aligned. assert (HN : N = 2 ^ 17) by done.
  assert (Ha : aligned = raw + (N - 1) - (raw + (N - 1)) mod N).
  { unfold aligned. rewrite HN. unfold to_size_t at 1. rewrite (Z.mod_small (raw + _)) by lia. apply land_mask; lia. }
  pose proof (Z.mod_pos_bound (raw + (N - 1)) N ltac:(lia)). pose proof (Z.div_mod (raw + (N - 1)) N ltac:(lia)).
  assert (Hm : aligned = (raw + (N - 1)) / N * N) by lia. split; [lia |]. split.
  - rewrite Hm. by apply Z.mod_mul.
  - rewrite Hm. replace N with (32 * PAGE_SIZE) by done. rewrite Z.mul_assoc. by apply Z.mod_mul.
Qed.

Lemma align_spec g s :
  layout_ok g (os_maps s) (os_blocks s) ->
  match alignment_to_slab_size mmap_at SLAB_SIZE_ALIGNMENT s with
  | (Some mem, s') =>
      fresh (mem, SLAB_SIZE_ALIGNMENT) (objects s) /\ mem mod PAGE_SIZE = 0 /\ mem mod SLAB_SIZE_ALIGNMENT = 0 /\
      os_state s s' ((mem, SLAB_SIZE_ALIGNMENT) :: os_maps s) (os_blocks s)
  | (None, s') => os_state s s' (os_maps s) (os_blocks s)
  end.
Proof.
  intros L. unfold alignment_to_slab_size. change (negb (Z.land _ _ =? 0)) with false. cbn iota zeta.
  unfold os_mmap. destruct (mmap_at _ _ _) as [raw |] eqn:Hm; [| by eexists].
  apply mmap_fresh in Hm as [[Hsp Hf] Hpage]; [| done]. destruct Hsp as (Hr & _ & Hlt). cbn in Hr, Hlt.
  destruct (align_arith raw Hr Hlt) as (Hal & Hmod & Hmodp). cbv zeta in *.
  set (N := SLAB_SIZE_ALIGNMENT) in *. set (aligned := Z.land _ _) in *. assert (HN : N = 131072) by done. clearbody aligned N.
  assert (Hap : forall p n, raw <= p -> p + n <= raw + N * 2 -> 0 < n ->
                  Forall (fun r => 0 < r.2 /\ apart (p, n) r) (os_maps s)).
  { intros p n Hp Hn Hpos. apply Forall_forall. intros r Hin. specialize (Hf r ltac:(unfold objects; set_solver)).
    destruct (lo_space _ _ _ L r) as (_ & ? & _); [set_solver |]. unfold apart in *. cbn in *. lia. }
  split_and!; [| done | done |].
  - split; [unfold in_space; cbn; lia |]. intros r Hin. specialize (Hf r Hin). unfold apart in *. cbn in *. lia.
  - set (s1 := with_os ((raw, N * 2) :: os_maps s) (os_blocks s) s).
    assert (Hs2 : os_state s (if 0 <? aligned - raw then os_munmap raw (aligned - raw) s1 else s1)
                    ((aligned, raw + N * 2 - aligned) :: os_maps s) (os_blocks s)).
    { destruct (Z.ltb_spec 0 (aligned - raw)).
      - unfold os_munmap. rewrite Hpage. cbn [Z.eqb s1 os_maps with_os]. rewrite bind_cons, cut_all_apart by (try apply Hap; lia).
        eexists. unfold cut_region, with_os. cbn. rewrite (proj2 (Z.ltb_ge raw _)), (proj2 (Z.ltb_lt _ (raw + _))) by lia.
        replace (Z.max raw _) with aligned by lia. done.
      - replace aligned with raw by lia. replace (raw + N * 2 - raw) with (N * 2) by lia. by eexists. }
    destruct Hs2 as [t ->]. destruct (Z.ltb_spec 0 (N * 2 - N - (aligned - raw))).
    + unfold os_munmap. assert (Hp2 : (aligned + N) mod PAGE_SIZE = 0).
      { rewrite HN. change 131072 with (32 * PAGE_SIZE). by rewrite Z.mod_add. }
      rewrite Hp2. cbn [Z.eqb os_maps]. rewrite bind_cons, cut_all_apart by (try apply Hap; lia).
      eexists. unfold cut_region, with_os. cbn. rewrite (proj2 (Z.ltb_lt aligned _)), (proj2 (Z.ltb_ge _ (aligned + _))) by lia.
      replace (Z.min _ _ - aligned) with N by lia. done.
    + replace (raw + N * 2 - aligned) with N by lia. by eexists.
Qed.

Lemma os_state_inv m s s' : inv_at m s -> os_state s s' (os_maps s) (os_blocks s) -> inv_at m s'.
Proof. intros [] [t ->]. by split. Qed.

Lemma os_state_live s s' maps blks p : os_state s s' maps blks -> live_cap s' p = live_cap s p.
Proof. by intros [t ->]. Qed.

(** *** A new slab *)

Definition new_slab (i mem : Z) : slab_t :=
  Slab mem (nblocks i) (nblocks i) (blocks i mem) (if small i then SLAB_MAGIC else 0) (if small i then i else 0).

Lemma new_slab_ok i mem : 0 <= i < CLASS_COUNT -> slab_ok (Home i Empty mem) (new_slab i mem).
Proof.
  intros Hi. split; cbn; [done.. | | by apply blocks_NoDup | done | done |].
  - by rewrite blocks_zlen.
  - by destruct (small i).
Qed.

(** What [add_pool] establishes of the state when it has a new slab. *)
Definition grown (m : gmap Z home) (s s' : kvs_mempool_t) (i : Z) (c : mem_pool_t) (id mem : Z) : Prop :=
  m !! id = None /\ inv_at (<[id := Home i Empty mem]> m) s' /\
  classes s' = <[Z.to_nat i := relist id (Some Empty) c]> (classes s) /\ forall p, live_cap s' p = live_cap s p.

Lemma grow m s i c id mem maps blks t :
  inv_at m s -> rd (classes s) i = Ok c -> empty_slabs c = [] -> m !! id = None ->
  layout_ok (<[id := (i, mem)]> (place <$> m)) maps blks ->
  blks = (if small i then os_blocks s else (id, SIZEOF_SLAB) :: os_blocks s) ->
  let s1 := Mempool (classes s) (slab_heap s) (hdr_heap s) maps blks t in
  exists s', add_empty i id (with_slab id (new_slab i mem) s1) = Ok s' /\ grown m s s' i c id mem.
Proof.
  intros I Hc He Hm L' -> s1. pose proof I as [Hl Hs L H]. unfold add_empty, pool_at. cbn [s1 with_slab classes]. rewrite Hc. run.
  pose proof (rd_range_ok _ _ _ Hc) as Hi. rewrite (ls_len _ _ Hl) in Hi.
  assert (Hg : (place <$> m) !! id = None) by (by rewrite lookup_fmap, Hm).
  eexists. split; [done |]. rewrite (move_new _ _ _ _ _ Hl Hc Hm).
  assert (I' : inv_at (<[id := Home i Empty mem]> m)
    (with_class i (relist id (Some Empty) c) (with_slab id (new_slab i mem) s1))).
  { split; cbn.
    - eapply (lists_relist m _ i c id (Some Empty) mem); [done.. | by rewrite Hm |].
      cbn [relist empty_slabs put]. rewrite He. done.
    - by apply slabs_update, new_slab_ok.
    - by rewrite fmap_insert.
    - rewrite fmap_insert. by apply headers_add_slab. }
  unfold grown. split_and!; [done.. |]. eapply live_same; [done | done | done |]. cbn. rewrite fmap_insert. by apply used_add.
Qed.

Lemma ALIGN_UP_SLAB : ALIGN_UP SIZEOF_SLAB = SIZEOF_SLAB.
Proof. done. Qed.

Lemma add_pool_spec m s i c :
  inv_at m s -> rd (classes s) i = Ok c -> empty_slabs c = [] ->
  exists r s', add_pool mmap_at malloc_at i s = Ok (r, s') /\
    ((r = -3 /\ os_state s s' (os_maps s) (os_blocks s)) \/ (r = 0 /\ exists id mem, grown m s s' i c id mem)).
Proof.
  intros I Hc He. pose proof I as [Hl Hs L H]. pose proof (rd_range_ok _ _ _ Hc) as Hi. rewrite (ls_len _ _ Hl) in Hi.
  destruct (ls_class _ _ Hl _ _ Hc) as (Hbs & _). unfold add_pool. fold (small i).
  destruct (small i) eqn:Hsm.
  - unfold add_pool_without_header. pose proof (align_spec _ s L) as Ha.
    destruct (alignment_to_slab_size mmap_at SLAB_SIZE_ALIGNMENT s) as [[mem |] s1]; [| run; eauto 10].
    destruct Ha as (Hf & Hp & Hmod & t & ->).
    pose proof (layout_fresh_slab _ _ _ _ _ L Hf) as Hg. apply place_none in Hg as Hm.
    assert (Hr : region_len i = SLAB_SIZE_ALIGNMENT) by (unfold region_len; by rewrite Hsm).
    rewrite ALIGN_UP_SLAB.
    replace (Slab _ _ _ _ _ _) with (new_slab i mem) by (unfold new_slab, nblocks, blocks, nblocks, head_len, region_len; by rewrite Hsm).
    destruct (grow m s i c mem mem ((mem, SLAB_SIZE_ALIGNMENT) :: os_maps s) (os_blocks s) t) as (s' & -> & Hgr); try done.
    + rewrite <- Hr. apply layout_add_slab; try done; [by rewrite Hr | by rewrite Hsm].
    + by rewrite Hsm.
    + run. exists 0, s'. eauto 10.
  - unfold add_pool_with_header, os_malloc. destruct (malloc_at _ _ _) as [id |] eqn:Hid; [| run; eexists _, _; split; [done |]; left; split; [done |]; by eexists].
    apply malloc_fresh in Hid; [| done]. pose proof (layout_add_blk _ _ _ _ L Hid) as L1.
    pose proof (layout_fresh_slab _ _ _ _ _ L Hid) as Hg. apply place_none in Hg as Hm.
    unfold os_mmap. destruct (mmap_at _ _ _) as [mem |] eqn:Hmem; cbn [with_os os_maps os_blocks].
    + assert (Hr : region_len i = slab_size i) by (unfold region_len; by rewrite Hsm).
      apply mmap_fresh in Hmem as [Hf Hp]; [| rewrite <- Hr; destruct (class_facts i Hi) as (? & ? & ? & _); unfold head_len in *; destruct (small i); unfold SIZEOF_SLAB in *; nia].
      unfold pool_at. cbn [classes with_os]. rewrite Hc. run. rewrite Hbs.
      replace (Slab _ _ _ _ _ _) with (new_slab i mem)
        by (unfold new_slab, blocks, nblocks, head_len, region_len; rewrite Hsm, Z.sub_0_r, Z.add_0_r; done).
      destruct (grow m s i c id mem ((mem, slab_size i) :: os_maps s) ((id, SIZEOF_SLAB) :: os_blocks s) (S (S (ticks s)))) as (s' & Hs' & Hgr); try done.
      * rewrite <- Hr in *. apply layout_add_slab; try done. rewrite Hsm. set_solver.
      * by rewrite Hsm.
      * unfold with_os. cbn [classes slab_heap hdr_heap ticks]. rewrite Hs'. run. exists 0, s'. eauto 10.
    + rewrite (os_free_blk id SIZEOF_SLAB) by (cbn; set_solver). run. eexists _, _. split; [done |]. left. split; [done |].
      cbn [with_os os_blocks os_maps]. rewrite sans_fresh; [by eexists | | by apply (layout_space _ _ _ L)].
      destruct Hid as [? Hf]. split; [done |]. intros r Hr. apply Hf. unfold objects. set_solver.
Qed.

(** *** A slab with a free block *)

Lemma rd_class m cs i : lists_ok m cs -> 0 <= i < CLASS_COUNT -> exists c, rd cs i = Ok c.
Proof. intros Hl Hi. apply rd_in_range. by rewrite (ls_len _ _ Hl). Qed.

Lemma listed_home m s i c k id :
  inv_at m s -> rd (classes s) i = Ok c -> id ∈ slabs_of k c ->
  exists mem sb, m !! id = Some (Home i k mem) /\ slab_heap s !! id = Some sb /\ slab_ok (Home i k mem) sb.
Proof.
  intros [Hl Hs _ _] Hc Hin. apply (ls_elem _ _ Hl _ _ _ _ Hc) in Hin as [mem Hm].
  destruct (slab_of _ _ _ _ Hs Hm) as (sb & ? & ?). eauto.
Qed.

Lemma take_empty_spec m s i c id l :
  inv_at m s -> rd (classes s) i = Ok c -> empty_slabs c = id :: l ->
  exists s' mem, take_empty i s = Ok (Some id, s') /\ inv_at (<[id := Home i Partial mem]> m) s' /\
    forall p, live_cap s' p = live_cap s p.
Proof.
  intros I Hc He. pose proof I as [Hl Hs L H]. destruct (listed_home m s i c Empty id I Hc) as (mem & sb & Hm & Hsb & Hok); [cbn; rewrite He; set_solver |].
  unfold take_empty, pool_at. rewrite Hc. run. rewrite He. eexists _, mem. split; [done |]. rewrite <- He.
  pose proof (move_take _ _ _ _ _ _ Hl Hc Empty Partial Hm) as Hmv. cbn iota in Hmv. rewrite Hmv.
  split; [| done]. rewrite <- (insert_id _ _ _ Hsb) in H. unfold with_class. rewrite <- (insert_id _ _ _ Hsb) at 1.
  apply (inv_step m s _ id i Empty); [done | done | | | done].
  - destruct Hok. split; try done. cbn in *. destruct (class_facts i) as (_ & ? & _); [| lia].
    pose proof (rd_range_ok _ _ _ Hc) as Hi. by rewrite (ls_len _ _ Hl) in Hi.
  - apply (lists_relist m _ i c id (Some Partial) mem); [done | done | by intros h; rewrite Hm; intros [= <-] |].
    destruct (ls_class _ _ Hl _ _ Hc) as (_ & Hn & Hmax & _). rewrite Hn, He, zlen_cons in Hmax.
    unfold relist. cbn [put empty_slabs]. unfold LIST_REMOVE, MAX_EMPTY_SLABS in *.
    rewrite He, filter_cons_False by naive_solver. pose proof (zlen_nonneg l).
    assert (l = []) as -> by (destruct l; [done |]; rewrite zlen_cons in *; pose proof (zlen_nonneg l); lia). done.
Qed.

Lemma relist_rd m cs i c id k : lists_ok m cs -> rd cs i = Ok c -> rd (<[Z.to_nat i := relist id k c]> cs) i = Ok (relist id k c).
Proof.
  intros Hl Hc. pose proof (rd_range_ok _ _ _ Hc). rewrite rd_insert by lia. by rewrite decide_True.
Qed.

Lemma slab_malloc_spec m s i :
  inv_at m s -> 0 <= i < CLASS_COUNT ->
  exists r s', slab_malloc mmap_at malloc_at i s = Ok (r, s') /\ (forall p, live_cap s' p = live_cap s p) /\
    match r with
    | Some id => exists m' mem, inv_at m' s' /\ m' !! id = Some (Home i Partial mem)
    | None => inv_at m s'
    end.
Proof.
  intros I Hi. pose proof I as [Hl _ _ _]. destruct (rd_class _ _ _ Hl Hi) as [c Hc]. unfold slab_malloc.
  rewrite (proj2 (Z.ltb_ge i 0)), (proj2 (Z.leb_gt CLASS_COUNT i)) by lia. unfold pool_at. rewrite Hc. run.
  destruct (partial_slabs c) as [| id l] eqn:Hp.
  - destruct (empty_slabs c) as [| id l] eqn:He.
    + destruct (add_pool_spec m s i c I Hc He) as (r & s1 & -> & [[-> Hos] | (-> & id & mem & Hm & I1 & Hcs & Hlive)]); run.
      * eexists _, _. split; [done |]. split; [by intros; eapply os_state_live | by eapply os_state_inv].
      * destruct (take_empty_spec _ s1 i (relist id (Some Empty) c) id [] I1) as (s2 & mem' & -> & I2 & Hlive2);
          [rewrite Hcs; by eapply relist_rd | cbn [relist put empty_slabs]; by rewrite He |].
        eexists _, _. split; [done |]. split; [congruence |]. eexists _, _. split; [done |]. apply lookup_insert_eq.
    + destruct (take_empty_spec m s i c id l I Hc He) as (s2 & mem' & -> & I2 & Hlive2).
      eexists _, _. split; [done |]. split; [done |]. eexists _, _. split; [done |]. apply lookup_insert_eq.
  - eexists _, _. split; [done |]. split; [done |].
    destruct (listed_home m s i c Partial id I Hc) as (mem & sb & Hm & _); [cbn; rewrite Hp; set_solver |]. eauto.
Qed.

(** *** A block is taken *)

Lemma slab_ok_take i k k' mem sb b fl :
  slab_ok (Home i k mem) sb -> free_list sb = b :: fl -> kind_ok k' (free_blocks sb - 1) (total_blocks sb) ->
  slab_ok (Home i k' mem) (set_free fl (free_blocks sb - 1) sb).
Proof.
  intros [] Hf Hk. rewrite Hf in *. apply NoDup_cons in so_nodup as [? ?]. split; cbn in *; try done.
  - rewrite so_free, zlen_cons. lia.
  - set_solver.
Qed.

Lemma take_block_spec m s i id mem :
  inv_at m s -> m !! id = Some (Home i Partial mem) ->
  exists b fl sb k' cs', slab_heap s !! id = Some sb /\ free_list sb = b :: fl /\
    let sb' := set_free fl (free_blocks sb - 1) sb in
    take_block i id s = Ok (b, Mempool cs' (<[id := sb']> (slab_heap s)) (hdr_heap s) (os_maps s) (os_blocks s) (ticks s)) /\
    slab_ok (Home i k' mem) sb' /\ lists_ok (<[id := Home i k' mem]> m) cs'.
Proof.
  intros I Hm. pose proof I as [Hl Hs L H]. destruct (slab_of _ _ _ _ Hs Hm) as (sb & Hsb & Hok).
  pose proof (lo_class _ _ _ L _ _ _ (place_lookup _ _ _ _ _ Hm)) as Hi. destruct (rd_class _ _ _ Hl Hi) as [c Hc].
  pose proof (so_kind _ _ Hok) as Hk. pose proof (so_free _ _ Hok) as Hfr. cbn in Hk.
  destruct (free_list sb) as [| b fl] eqn:Hfl; [rewrite zlen_nil in Hfr; lia |].
  exists b, fl, sb. unfold take_block, slab_at. rewrite Hsb. run. rewrite Hfl.
  cbn [set_free free_blocks]. destruct (Z.eqb_spec (free_blocks sb - 1) 0) as [H0 | Hn0].
  - unfold pool_at. cbn [with_slab classes]. rewrite Hc. run.
    pose proof (move_take _ _ _ _ _ _ Hl Hc Partial Full Hm) as Hmv. cbn iota in Hmv. rewrite Hmv.
    eexists Full, _. split_and!; [done.. | by eapply slab_ok_take |].
    apply (lists_relist m _ i c id (Some Full) mem); [done | done | by intros h; rewrite Hm; intros [= <-] |].
    destruct (ls_class _ _ Hl _ _ Hc) as (_ & Hn & Hmax & _). unfold relist. cbn [put empty_slabs].
    rewrite remove_absent; [lia |]. by rewrite (listed_iff _ _ _ _ _ _ _ Hl Hc Hm Empty).
  - eexists Partial, (classes s). split_and!; [done.. | |].
    + eapply slab_ok_take; [done.. |]. cbn. lia.
    + by rewrite insert_id.
Qed.

(** The block [p] of [cap] bytes is handed out. *)
Definition handed (s s' : kvs_mempool_t) (p cap : Z) : Prop :=
  live_cap s p = None /\ live_cap s' p = Some cap /\ forall q, q <> p -> live_cap s' q = live_cap s q.

Lemma live_insert m m' s s' p cap :
  inv_at m s -> inv_at m' s' -> live_cap s p = None ->
  (forall q c, live_at m' s' q c <-> (q = p /\ c = cap) \/ live_at m s q c) -> handed s s' p cap.
Proof.
  intros I I' Hn Hiff. split_and!; [done | |].
  - apply (live_cap_iff _ _ _ _ I'), Hiff. by left.
  - intros q Hne. apply option_eq. intros c. rewrite (live_cap_iff _ _ _ _ I), (live_cap_iff _ _ _ _ I'), Hiff. naive_solver.
Qed.

Lemma small_iff i : 0 <= i < CLASS_COUNT -> small i = (i <=? 10).
Proof.
  intros Hi. pose proof (class_cases (fun i => Bool.eqb (small i) (i <=? 10)) ltac:(by vm_compute) i Hi) as Hf.
  by apply Bool.eqb_prop in Hf.
Qed.

Lemma class_of_small size : size <= ALIGNMENT_THRESHOLD ->
  let i := get_class_id size in 0 <= i < CLASS_COUNT /\ small i = true /\ size <= class_size i.
Proof.
  intros Hle i. destruct (get_class_id_spec size) as [[_ ?] | (Hi & Hs & Hmin)]; [unfold LARGE_THRESHOLD, ALIGNMENT_THRESHOLD in *; lia |].
  fold i in Hi, Hs, Hmin. split_and!; [lia.. | | done]. rewrite small_iff by done.
  apply Z.leb_le. destruct (Z.leb_spec i 10); [done |]. specialize (Hmin 10 ltac:(lia)).
  change (class_size 10) with 128 in Hmin. unfold ALIGNMENT_THRESHOLD in *. lia.
Qed.

Lemma class_of_headed size : ALIGNMENT_THRESHOLD < size <= LARGE_THRESHOLD ->
  let i := get_class_id size in 0 <= i < CLASS_COUNT /\ small i = false /\ size <= class_size i.
Proof.
  intros Hle i. destruct (get_class_id_spec size) as [[_ ?] | (Hi & Hs & _)]; [lia |].
  fold i in Hi, Hs. split_and!; [lia.. | | done]. unfold small. apply Z.leb_gt. lia.
Qed.

(** A result of an allocation: NULL and the same live blocks, or a block of at
    least [size] bytes. *)
Definition alloc_result (s : kvs_mempool_t) (size : Z) (r : option Z) (s' : kvs_mempool_t) : Prop :=
  pool_inv s' /\
  match r with
  | Some p => exists cap, size <= cap /\ handed s s' p cap
  | None => forall p, live_cap s' p = live_cap s p
  end.

Lemma alloc_result_from s s1 size r s' :
  (forall p, live_cap s1 p = live_cap s p) -> alloc_result s1 size r s' -> alloc_result s size r s'.
Proof.
  intros Hl [I Hr]. split; [done |]. destruct r as [p |]; [| congruence].
  destruct Hr as (cap & Hc & Hn & Hp & Ho). exists cap. split; [done |]. split_and!; [congruence | done |].
  intros q Hne. rewrite Ho by done. done.
Qed.

Lemma take_used m s i k id mem sb b fl sb' :
  inv_at m s -> m !! id = Some (Home i k mem) -> slab_heap s !! id = Some sb -> free_list sb = b :: fl -> free_list sb' = fl ->
  b ∈ blocks i mem /\ b ∉ fl /\ forall id' i' q,
    used_block (place <$> m) (<[id := sb']> (slab_heap s)) id' i' q <->
    used_block (place <$> m) (slab_heap s) id' i' q \/ (id' = id /\ i' = i /\ q = b).
Proof.
  intros [Hl Hs L H] Hm Hsb Hfl Hfl'. pose proof (place_lookup _ _ _ _ _ Hm) as Hg.
  destruct (slab_of _ _ _ _ Hs Hm) as (sb0 & Hsb0 & Hok). rewrite Hsb in Hsb0. injection Hsb0 as <-.
  pose proof (so_nodup _ _ Hok) as Hnd. rewrite Hfl in Hnd. apply NoDup_cons in Hnd as [Hnb _].
  assert (Hin : b ∈ blocks i mem) by (apply (so_blocks _ _ Hok); rewrite Hfl; set_solver).
  split_and!; [done.. |]. eapply (used_take _ _ _ _ _ sb); rewrite ?Hfl'; try done.
  intros q. by rewrite Hfl, elem_of_cons.
Qed.

Lemma take_small m s i id mem :
  inv_at m s -> m !! id = Some (Home i Partial mem) -> small i = true ->
  exists p s', take_block i id s = Ok (p, s') /\ pool_inv s' /\ handed s s' p (class_size i).
Proof.
  intros I Hm Hsm. destruct (take_block_spec m s i id mem I Hm) as (b & fl & sb & k' & cs' & Hsb & Hfl & -> & Hok & Hl').
  pose proof I as [Hl Hs L H]. pose proof (place_lookup _ _ _ _ _ Hm) as Hg.
  set (sb' := set_free fl (free_blocks sb - 1) sb) in *.
  destruct (take_used m s i _ id mem sb b fl sb' I Hm Hsb Hfl eq_refl) as (Hin & Hnb & Hu).
  eexists b, _. split; [done |].
  assert (I' : inv_at (<[id := Home i k' mem]> m) (Mempool cs' (<[id := sb']> (slab_heap s)) (hdr_heap s) (os_maps s) (os_blocks s) (ticks s))).
  { eapply inv_step; try done. eapply headers_same; [done | | done]. intros id' i' q Hs'. rewrite Hu. split; [intros [? | (_ & -> & _)]; [done | congruence] | by left]. }
  split; [by eexists |]. eapply live_insert; [done | done | |].
  - destruct (live_cap s b) as [c |] eqn:Hlive; [exfalso | done].
    apply (live_cap_iff _ _ _ _ I) in Hlive as [(id' & i' & _ & (mem' & sb'' & Hg' & Hsb' & Hq & Hn) & _) | (h & Hh & _)].
    + rewrite (block_slab_unique _ _ _ _ _ _ _ _ _ _ L Hg Hg' Hin Hq), Hsb' in Hsb. injection Hsb as ->. apply Hn. rewrite Hfl. by left.
    + pose proof (small_no_header _ _ id i b I' Hsm) as Hnone. cbn in Hnone. rewrite Hnone in Hh; [done |].
      rewrite (place_same _ _ _ _ _ _ Hm), Hu. by right.
  - intros q c. unfold live_at. rewrite (place_same _ _ _ _ _ _ Hm). cbn [slab_heap hdr_heap]. setoid_rewrite Hu. split.
    + intros [(id' & i' & Hs' & [Hu' | (-> & -> & ->)] & ->) | ?]; [right; left | left | right; right]; eauto.
    + intros [[-> ->] | [(id' & i' & Hs' & Hu' & ->) | ?]]; [left | left | right]; eauto 10.
Qed.

Lemma take_headed m s i id mem :
  inv_at m s -> m !! id = Some (Home i Partial mem) -> small i = false ->
  exists b s', take_block i id s = Ok (b, s') /\
    let s' := with_header b (BlockHeader BLOCK_MAGIC i BLOCK_FLAG id (class_size i)) s' in
    pool_inv s' /\ handed s s' (b + SIZEOF_HEADER) (class_size i - SIZEOF_HEADER).
Proof.
  intros I Hm Hsm. destruct (take_block_spec m s i id mem I Hm) as (b & fl & sb & k' & cs' & Hsb & Hfl & -> & Hok & Hl').
  pose proof I as [Hl Hs L H]. pose proof (place_lookup _ _ _ _ _ Hm) as Hg.
  set (sb' := set_free fl (free_blocks sb - 1) sb) in *.
  destruct (take_used m s i _ id mem sb b fl sb' I Hm Hsb Hfl eq_refl) as (Hin & Hnb & Hu).
  eexists b, _. split; [done |]. unfold with_header. cbn. set (h := BlockHeader _ _ _ _ _).
  assert (Hnone : hdr_heap s !! b = None) by (eapply free_no_header; try done; rewrite Hfl; by left).
  assert (I' : inv_at (<[id := Home i k' mem]> m) (Mempool cs' (<[id := sb']> (slab_heap s)) (<[b := h]> (hdr_heap s)) (os_maps s) (os_blocks s) (ticks s))).
  { eapply inv_step; try done. eapply (headers_take _ _ _ _ _ _ _ _ sb); try done. intros q. by rewrite Hfl, elem_of_cons. }
  split; [by eexists |]. eapply live_insert; [done | done | |].
  - destruct (live_cap s (b + SIZEOF_HEADER)) as [c |] eqn:Hlive; [exfalso | done].
    apply (live_cap_iff _ _ _ _ I) in Hlive as [(id' & i' & Hs' & Hu' & _) | (h' & Hh & _)].
    + pose proof (small_no_header _ _ id' i' (b + SIZEOF_HEADER) I' Hs') as Hno. cbn in Hno.
      replace (b + SIZEOF_HEADER - SIZEOF_HEADER) with b in Hno by lia. rewrite lookup_insert_eq in Hno.
      rewrite (place_same _ _ _ _ _ _ Hm), Hu in Hno. discriminate Hno. by left.
    + replace (b + SIZEOF_HEADER - SIZEOF_HEADER) with b in Hh by lia. congruence.
  - intros q c. unfold live_at. rewrite (place_same _ _ _ _ _ _ Hm). cbn [slab_heap hdr_heap]. setoid_rewrite Hu.
    setoid_rewrite lookup_insert_Some. split.
    + intros [(id' & i' & Hs' & [Hu' | (-> & -> & ->)] & ->) | (h' & [[Hq <-] | [Hne Hh]] & ->)];
        [right; left; eauto | congruence | left | right; right; eauto]. split; [lia | done].
    + intros [[-> ->] | [(id' & i' & Hs' & Hu' & ->) | (h' & Hh & ->)]]; [right | left; eauto 10 | right].
      * exists h. split; [left; split; [lia | done] | done].
      * exists h'. split; [right; split; [congruence | done] | done].
Qed.

(** *** [mp_malloc] *)

Lemma block_without_header_spec m s size :
  inv_at m s -> size <= ALIGNMENT_THRESHOLD ->
  exists r s', block_without_header mmap_at malloc_at size s = Ok (r, s') /\ alloc_result s size r s'.
Proof.
  intros I Hle. destruct (class_of_small size Hle) as (Hi & Hsm & Hcap). unfold block_without_header. cbv zeta in *.
  rewrite (proj2 (Z.ltb_ge _ 0)) by lia.
  destruct (slab_malloc_spec m s _ I Hi) as ([id |] & s1 & -> & Hlive & Hr); run; [| eexists _, _; split; [done |]; split; [by eexists | done]].
  destruct Hr as (m' & mem & I1 & Hm). destruct (take_small _ _ _ _ _ I1 Hm Hsm) as (p & s2 & -> & I2 & Hh). run.
  eexists _, _. split; [done |]. eapply alloc_result_from; [done |]. split; [done |]. eauto.
Qed.

Lemma block_with_header_spec m s size :
  inv_at m s -> ALIGNMENT_THRESHOLD < size <= LARGE_THRESHOLD ->
  exists r s', block_with_header mmap_at malloc_at size s = Ok (r, s') /\ alloc_result s (size - SIZEOF_HEADER) r s'.
Proof.
  intros I Hle. destruct (class_of_headed size Hle) as (Hi & Hsm & Hcap). unfold block_with_header. cbv zeta in *.
  rewrite (proj2 (Z.ltb_ge _ 0)) by lia.
  destruct (slab_malloc_spec m s _ I Hi) as ([id |] & s1 & -> & Hlive & Hr); run; [| eexists _, _; split; [done |]; split; [by eexists | done]].
  destruct Hr as (m' & mem & I1 & Hm). destruct (take_headed _ _ _ _ _ I1 Hm Hsm) as (b & s2 & -> & I2 & Hh). run.
  eexists _, _. split; [done |]. eapply alloc_result_from; [done |]. split; [done |].
  exists (class_size (get_class_id size) - SIZEOF_HEADER). split; [lia | done].
Qed.

Lemma fresh_no_header m s q n : inv_at m s -> fresh (q, n) (objects s) -> hdr_heap s !! q = None.
Proof.
  intros [_ _ L H] [[_ [Hn _]] Hf]. destruct (hdr_heap s !! q) as [h |] eqn:Hh; [exfalso | done].
  destruct (ho_header _ _ _ _ H _ _ Hh) as [(_ & _ & n' & Hn' & Hlt & _) | (id & i & Hs & (mem & sb & Hg & _ & Hb & _) & _)].
  - specialize (Hf (q, n') ltac:(unfold objects; set_solver)). unfold apart, LARGE_THRESHOLD in *. cbn in *. lia.
  - pose proof (lo_class _ _ _ L _ _ _ Hg) as Hi. pose proof (block_in_region _ _ _ Hi Hb). destruct (class_facts i Hi).
    destruct (lo_region _ _ _ L _ _ _ Hg) as [Hr _]. specialize (Hf (mem, region_len i) ltac:(unfold objects; set_solver)).
    unfold head_len, apart in *. rewrite Hs in *. cbn in *. lia.
Qed.

Lemma os_malloc_large m s size n p :
  inv_at m s -> 0 <= size <= SIZE_MAX - 31 -> size + SIZEOF_HEADER <= n -> LARGE_THRESHOLD < n ->
  malloc_at (ticks s) n (objects s) = Some p ->
  let s1 := with_os (os_maps s) ((p, n) :: os_blocks s) s in
  let s' := with_header p (BlockHeader BLOCK_MAGIC (hd_class (foreign p)) BLOCK_FLAG_LARGE 0 size) s1 in
  pool_inv s' /\ handed s s' (p + SIZEOF_HEADER) size.
Proof.
  intros I Hsize Hn Hlarge Hp s1 s'. pose proof I as [Hl Hs L H]. apply malloc_fresh in Hp; [| unfold LARGE_THRESHOLD in *; lia].
  pose proof (fresh_no_header _ _ _ _ I Hp) as Hno. unfold objects in Hp.
  assert (I' : inv_at m s').
  { split; cbn; [done | done | by apply layout_add_blk |]. eapply headers_add_large; [done.. |].
    repeat split. exists n. split_and!; [set_solver | done | cbn; lia | done]. }
  split; [by eexists |]. eapply live_insert; [done | done | |].
  - destruct (live_cap s (p + SIZEOF_HEADER)) as [c |] eqn:Hlive; [exfalso | done].
    apply (live_cap_iff _ _ _ _ I) in Hlive as [(id' & i' & Hs' & Hu' & _) | (h' & Hh & _)].
    + pose proof (small_no_header _ _ id' i' (p + SIZEOF_HEADER) I' Hs' Hu') as Hnh. cbn in Hnh.
      replace (p + SIZEOF_HEADER - SIZEOF_HEADER) with p in Hnh by lia. by rewrite lookup_insert_eq in Hnh.
    + replace (p + SIZEOF_HEADER - SIZEOF_HEADER) with p in Hh by lia. congruence.
  - intros q c. unfold live_at. cbn [s' s1 with_header with_os slab_heap hdr_heap]. setoid_rewrite lookup_insert_Some. split.
    + intros [? | (h' & [[Hq <-] | [Hne Hh]] & ->)]; [right; by left | left; split; [lia | done] | right; right; eauto].
    + intros [[-> ->] | [? | (h' & Hh & ->)]]; [right | by left | right].
      * eexists. split; [left; split; [lia | done] | done].
      * exists h'. split; [right; split; [congruence | done] | done].
Qed.

Lemma alloc_result_weaken s size size' r s' : size' <= size -> alloc_result s size r s' -> alloc_result s size' r s'.
Proof.
  intros Hle [I Hr]. split; [done |]. destruct r; [| done]. destruct Hr as (cap & Hc & Hh). exists cap. split; [lia | done].
Qed.

Lemma mp_malloc_spec s size :
  pool_inv s -> 0 <= size <= SIZE_MAX - 31 ->
  exists r s', mp_malloc mmap_at malloc_at foreign size s = Ok (r, s') /\ alloc_result s size r s'.
Proof.
  intros [m I] Hsize. unfold mp_malloc.
  destruct (Z.eqb_spec size 0) as [-> | Hne]; [eexists _, _; split; [done |]; split; [by eexists | done] |].
  unfold SIZE_MAX in Hsize. destruct (ALIGN_UP_bounds size) as [Hlo Hhi]; [lia.. |].
  destruct (ALIGN_UP_bounds (size + SIZEOF_HEADER)) as [Hlo' Hhi']; [unfold SIZEOF_HEADER; lia.. |].
  destruct (Z.leb_spec (ALIGN_UP size) ALIGNMENT_THRESHOLD) as [Hsm | Hbig].
  - destruct (block_without_header_spec m s (ALIGN_UP size) I Hsm) as (r & s' & -> & Hr).
    eexists _, _. split; [done |]. by eapply alloc_result_weaken.
  - cbv zeta. destruct (Z.ltb_spec LARGE_THRESHOLD (ALIGN_UP (size + SIZEOF_HEADER))) as [Hl | Hs].
    + unfold os_malloc. destruct (malloc_at _ _ _) as [p |] eqn:Hp.
      * eexists _, _. split; [done |]. destruct (os_malloc_large m s size _ p I ltac:(unfold SIZE_MAX; lia) Hlo' Hl Hp) as [I' Hh].
        split; [done |]. by exists size.
      * eexists _, _. split; [done |]. split; [exists m; by destruct I | done].
    + destruct (block_with_header_spec m s (ALIGN_UP (size + SIZEOF_HEADER)) I) as (r & s' & -> & Hr);
        [unfold ALIGNMENT_THRESHOLD, SIZEOF_HEADER in *; lia |].
      eexists _, _. split; [done |]. eapply alloc_result_weaken; [| done]. lia.
Qed.

(** *** A block comes back *)

Lemma slab_ok_room i k mem sb b :
  0 <= i < CLASS_COUNT -> slab_ok (Home i k mem) sb -> b ∈ blocks i mem -> b ∉ free_list sb ->
  let sb' := set_free (b :: free_list sb) (free_blocks sb + 1) sb in
  free_blocks sb < nblocks i /\ (free_blocks sb' = total_blocks sb' -> blocks i mem ⊆ free_list sb') /\
  forall k', kind_ok k' (free_blocks sb') (total_blocks sb') -> slab_ok (Home i k' mem) sb'.
Proof.
  intros Hi [] Hin Hn sb'. cbn in *.
  assert (Hnd : NoDup (b :: free_list sb)) by (by constructor).
  assert (Hsub : b :: free_list sb ⊆+ blocks i mem) by (apply NoDup_submseteq; [done | set_solver]).
  pose proof (submseteq_length _ _ Hsub) as Hlen. rewrite <- (blocks_zlen i mem Hi) in *.
  split_and!.
  - unfold zlen in *. cbn in Hlen. lia.
  - intros Hfull x Hx. rewrite so_total, so_free in Hfull.
    assert (Hperm : b :: free_list sb ≡ₚ blocks i mem) by (apply submseteq_length_Permutation; [done |]; unfold zlen in *; cbn; lia).
    by rewrite Hperm.
  - intros k' Hk. split; try done.
    + cbn. by rewrite <- (blocks_zlen i mem).
    + change (free_blocks sb + 1 = zlen (b :: free_list sb)). rewrite zlen_cons. lia.
    + cbn. set_solver.
Qed.

Lemma relist_empty_len i id c k :
  class_ok i c -> k <> Some Empty -> zlen (empty_slabs (relist id k c)) <= MAX_EMPTY_SLABS.
Proof.
  intros (_ & Hn & Hmax & _) Hk. rewrite Hn in Hmax.
  assert (Hr : zlen (LIST_REMOVE (empty_slabs c) id) <= zlen (empty_slabs c)).
  { unfold zlen, LIST_REMOVE. pose proof (length_filter (fun id' => id' <> id) (empty_slabs c)). lia. }
  destruct k as [[] |]; cbn [relist put empty_slabs]; done || lia.
Qed.

Lemma with_class_id i c s : rd (classes s) i = Ok c -> with_class i c s = s.
Proof. intros [_ Hc]%rd_spec. unfold with_class. rewrite list_insert_id by done. by destruct s. Qed.

(** An empty slab goes back to the operating system. *)
Lemma drop_slab_spec m s i id mem sb c :
  inv_at m s -> rd (classes s) i = Ok c -> m !! id = Some (Home i Partial mem) ->
  slab_heap s !! id = Some sb -> blocks i mem ⊆ free_list sb ->
  exists s1, (if slab_magic sb =? SLAB_MAGIC
              then Ok (os_munmap (sb_mem sb) SLAB_SIZE_ALIGNMENT (with_class i (relist id None c) s))
              else os_free id (os_munmap (sb_mem sb) (region_len i) (with_class i (relist id None c) s))) = Ok s1 /\
    inv_at (delete id m) (without_slab id s1) /\ hdr_heap s1 = hdr_heap s /\ slab_heap s1 = slab_heap s.
Proof.
  intros [Hl Hs L H] Hc Hm Hsb Hall. pose proof (place_lookup _ _ _ _ _ Hm) as Hg.
  destruct (slab_of _ _ _ _ Hs Hm) as (sb0 & Hsb0 & Hok). rewrite Hsb in Hsb0. injection Hsb0 as <-.
  assert (Hlists : lists_ok (delete id m) (<[Z.to_nat i := relist id None c]> (classes s))).
  { apply (lists_relist m _ i c id None mem); [done | done | by intros h; rewrite Hm; intros [= <-] |].
    apply (relist_empty_len i); [by apply (ls_class _ _ Hl) | done]. }
  pose proof (layout_drop_slab _ _ _ _ _ _ L Hg) as L'. pose proof (headers_drop_slab _ _ _ _ _ _ _ _ _ H L Hg Hsb Hall) as H'.
  rewrite <- fmap_delete in L', H'. pose proof (so_magic _ _ Hok) as Hmag. cbn in Hmag. rewrite (so_mem _ _ Hok). cbn [h_mem].
  set (s0 := with_class i (relist id None c) s).
  assert (Hun : os_munmap mem (region_len i) s0 = with_os (filter (fun r => r <> (mem, region_len i)) (os_maps s)) (os_blocks s) s0)
    by (by apply (munmap_region (place <$> m) s0 id)).
  destruct (small i) eqn:Hsm.
  - destruct Hmag as [-> _]. cbn [Z.eqb]. rewrite Z.eqb_refl.
    replace SLAB_SIZE_ALIGNMENT with (region_len i) by (unfold region_len; by rewrite Hsm). rewrite Hun.
    eexists. split; [done |]. split; [| done]. split; cbn; [done | by apply slabs_delete | done | done].
  - rewrite Hmag. cbn [Z.eqb]. change (0 =? SLAB_MAGIC) with false. cbn iota. rewrite Hun.
    rewrite (os_free_blk id SIZEOF_SLAB) by (by apply (lo_struct _ _ _ L _ _ _ Hg)).
    eexists. split; [done |]. split; [| done]. split; cbn; [done | by apply slabs_delete | done | done].
Qed.

Lemma slab_free_spec m s i k id mem sb b hdr' t :
  inv_at m s -> m !! id = Some (Home i k mem) -> slab_heap s !! id = Some sb -> b ∈ blocks i mem -> b ∉ free_list sb ->
  let heap1 := <[id := set_free (b :: free_list sb) (free_blocks sb + 1) sb]> (slab_heap s) in
  headers_ok (place <$> m) heap1 hdr' (os_blocks s) ->
  exists m' s', slab_free i id (region_len i) (Mempool (classes s) heap1 hdr' (os_maps s) (os_blocks s) t) = Ok s' /\
    inv_at m' s' /\ hdr_heap s' = hdr' /\
    forall id' i' q, used_block (place <$> m') (slab_heap s') id' i' q <-> used_block (place <$> m) heap1 id' i' q.
Proof.
  intros I Hm Hsb Hin Hnf heap1 H1. pose proof I as [Hl Hs L _]. pose proof (place_lookup _ _ _ _ _ Hm) as Hg.
  pose proof (lo_class _ _ _ L _ _ _ Hg) as Hi. destruct (rd_class _ _ _ Hl Hi) as [c Hc].
  destruct (slab_of _ _ _ _ Hs Hm) as (sb0 & Hsb0 & Hok). rewrite Hsb in Hsb0. injection Hsb0 as <-.
  destruct (slab_ok_room _ _ _ _ _ Hi Hok Hin Hnf) as (Hroom & Hall & Hok'). set (sb1 := set_free _ _ _) in *. cbv zeta in *.
  destruct (class_facts i Hi) as (_ & Hn8 & _). pose proof (so_total _ _ Hok) as Htot. pose proof (so_kind _ _ Hok) as Hk. cbn in Htot, Hk.
  unfold slab_free, slab_at, pool_at. cbn [slab_heap classes].
  assert (Hh1 : heap1 !! id = Some sb1) by apply lookup_insert_eq. rewrite Hh1, Hc. run.
  cbn [sb1 set_free free_blocks total_blocks].
  destruct (Z.eqb_spec (free_blocks sb + 1) 1) as [H1' | Hn1].
  - (* the slab was full *)
    assert (k = Full) as -> by (destruct k; cbn in Hk; [lia | done | lia]).
    destruct (Z.eqb_spec (free_blocks sb + 1) (total_blocks sb)); [lia |].
    pose proof (move_take _ _ _ _ _ _ Hl Hc Full Partial Hm) as Hmv. cbn iota in Hmv. rewrite Hmv.
    exists (<[id := Home i Partial mem]> m). eexists. split; [done |]. split_and!; [| done |].
    + apply (inv_step m s _ id i Full); [done | done | apply Hok'; cbn; lia | | done].
      apply (lists_relist m _ i c id (Some Partial) mem); [done | done | by intros h; rewrite Hm; intros [= <-] |].
      apply (relist_empty_len i); [by apply (ls_class _ _ Hl) | done].
    + intros. by rewrite (place_same _ _ _ _ _ _ Hm).
  - assert (k = Partial) as -> by (destruct k; cbn in Hk; [done | lia | lia]).
    rewrite (with_class_id i c) by done.
    destruct (Z.eqb_spec (free_blocks sb + 1) (total_blocks sb)) as [Hfull | Hnf'].
    + unfold MAX_EMPTY_SLABS at 1. destruct (Z.leb_spec 1 (empty_slab_count c)) as [Hmany | Hnone].
      * (* the slab is given back *)
        rewrite (move_drop _ _ _ _ _ _ Hl Hc Hm).
        assert (I1 : inv_at m (Mempool (classes s) heap1 hdr' (os_maps s) (os_blocks s) t)).
        { rewrite <- (insert_id m id _ Hm). apply (inv_step m s _ id i Partial); [done | done | apply Hok'; cbn; lia | by rewrite insert_id | done]. }
        destruct (drop_slab_spec m _ i id mem sb1 c I1 Hc Hm Hh1 (Hall Hfull)) as (s1 & Hrun & I2 & Hhdr & Hheap).
        rewrite Hrun. run. exists (delete id m). eexists. split; [done |]. split_and!; [done | done |].
        intros id' i' q. cbn. rewrite Hheap, fmap_delete. by apply (used_drop _ _ _ i mem sb1); [| | apply Hall].
      * pose proof (move_take _ _ _ _ _ _ Hl Hc Partial Empty Hm) as Hmv. cbn iota in Hmv. rewrite Hmv.
        exists (<[id := Home i Empty mem]> m). eexists. split; [done |]. split_and!; [| done |].
        -- apply (inv_step m s _ id i Partial); [done | done | apply Hok'; cbn; lia | | done].
           apply (lists_relist m _ i c id (Some Empty) mem); [done | done | by intros h; rewrite Hm; intros [= <-] |].
           rewrite <- Hmv. destruct (ls_class _ _ Hl _ _ Hc) as (_ & Hn & _). cbn [empty_slabs]. unfold LIST_INSERT, MAX_EMPTY_SLABS.
           rewrite zlen_cons. lia.
        -- intros. by rewrite (place_same _ _ _ _ _ _ Hm).
    + exists (<[id := Home i Partial mem]> m). eexists. split; [done |]. split_and!; [| done |].
      * apply (inv_step m s _ id i Partial); [done | done | apply Hok'; cbn in *; lia | by rewrite insert_id | done].
      * intros. by rewrite (place_same _ _ _ _ _ _ Hm).
Qed.

(** *** [mp_free] *)

Context `{!Unmarked foreign}.

(** The block [p] is taken back. *)
Definition released (s s' : kvs_mempool_t) (p : Z) : Prop :=
  live_cap s' p = None /\ forall q, q <> p -> live_cap s' q = live_cap s q.

Lemma live_remove m m' s s' p :
  inv_at m s -> inv_at m' s' -> (forall q c, live_at m' s' q c <-> live_at m s q c /\ q <> p) -> released s s' p.
Proof.
  intros I I' Hiff. split.
  - destruct (live_cap s' p) as [c |] eqn:Hc; [| done]. apply (live_cap_iff _ _ _ _ I'), Hiff in Hc. tauto.
  - intros q Hne. apply option_eq. intros c. rewrite (live_cap_iff _ _ _ _ I), (live_cap_iff _ _ _ _ I'), Hiff. tauto.
Qed.

Lemma used_positive m s id i p : inv_at m s -> used_block (place <$> m) (slab_heap s) id i p -> 0 < p.
Proof.
  intros [_ _ L _] (mem & sb & Hg & _ & Hb & _). pose proof (lo_class _ _ _ L _ _ _ Hg) as Hi.
  pose proof (block_in_region _ _ _ Hi Hb). destruct (region_space _ _ _ L _ _ _ Hg).
  unfold head_len in *. destruct (small i); unfold SIZEOF_SLAB in *; lia.
Qed.

Lemma free_small m s id i p :
  inv_at m s -> small i = true -> used_block (place <$> m) (slab_heap s) id i p ->
  exists s', mp_free foreign p s = Ok s' /\ pool_inv s' /\ released s s' p.
Proof.
  intros I Hsm Hu. pose proof (small_no_header _ _ _ _ _ I Hsm Hu) as Hno. pose proof (used_positive _ _ _ _ _ I Hu) as Hpos.
  destruct Hu as (mem & sb & Hg & Hsb & Hb & Hnf). pose proof I as [Hl Hs L H].
  destruct (place_home _ _ _ _ Hg) as [k Hm]. destruct (slab_of _ _ _ _ Hs Hm) as (sb0 & Hsb0 & Hok). rewrite Hsb in Hsb0. injection Hsb0 as <-.
  pose proof (so_magic _ _ Hok) as Hmag. cbn in Hmag. rewrite Hsm in Hmag. destruct Hmag as [Hmag Hcid].
  pose proof (slab_addr_space _ _ _ L _ _ _ Hg) as Hid.
  unfold mp_free, header_at. rewrite Hno. cbn [default]. rewrite (proj2 (Z.eqb_neq p 0)) by lia.
  rewrite (proj2 (Z.eqb_neq _ BLOCK_MAGIC)) by apply foreign_unmarked.
  rewrite (ptr_to_slab_block _ _ _ L _ _ _ _ Hg Hsm Hb), (proj2 (Z.eqb_neq id 0)) by lia.
  unfold slab_at. rewrite Hsb. run. rewrite Hmag, Z.eqb_refl. unfold slab_free_without_header, slab_at. rewrite Hsb. run. rewrite Hcid.
  replace SLAB_SIZE_ALIGNMENT with (region_len i) by (unfold region_len; by rewrite Hsm).
  pose proof (used_release _ (slab_heap s) _ _ id i mem sb (set_free (p :: free_list sb) (free_blocks sb + 1) sb) p L Hg Hsb Hb
    ltac:(intros q; cbn; by rewrite elem_of_cons)) as Hrel.
  destruct (slab_free_spec m s i k id mem sb p (hdr_heap s) (ticks s) I Hm Hsb Hb Hnf) as (m' & s' & Hrun & I' & Hhdr & Hu').
  { eapply headers_same; [done | | done]. intros id' i' q Hs'. rewrite Hrel. split; [tauto |]. intros Huse. split; [done |]. intros ->.
    destruct Huse as (mem' & sb' & Hg' & _ & Hb' & _). rewrite (block_slab_unique _ _ _ _ _ _ _ _ _ _ L Hg Hg' Hb Hb'), Hg' in Hg. congruence. }
  unfold with_slab. rewrite Hrun. exists s'. split; [done |]. split; [by eexists |].
  eapply live_remove; [done | done |]. intros q c. unfold live_at. rewrite Hhdr. setoid_rewrite Hu'. setoid_rewrite Hrel. split.
  - intros [(id' & i' & ? & [? ?] & ->) | (h & Hh & ->)]; [split; [left; eauto | done] | split; [right; eauto |]]. intros ->. congruence.
  - intros [[(id' & i' & ? & ? & ->) | ?] Hne]; [left; eauto 10 | by right].
Qed.

Lemma free_headed m s id i q :
  inv_at m s -> small i = false -> used_block (place <$> m) (slab_heap s) id i q ->
  hdr_heap s !! q = Some (BlockHeader BLOCK_MAGIC i BLOCK_FLAG id (class_size i)) ->
  exists s', mp_free foreign (q + SIZEOF_HEADER) s = Ok s' /\ pool_inv s' /\ released s s' (q + SIZEOF_HEADER).
Proof.
  intros I Hsm Hu Hh. pose proof (used_positive _ _ _ _ _ I Hu) as Hpos. pose proof Hu as (mem & sb & Hg & Hsb & Hb & Hnf).
  pose proof I as [Hl Hs L H]. pose proof (lo_class _ _ _ L _ _ _ Hg) as Hi.
  destruct (place_home _ _ _ _ Hg) as [k Hm]. destruct (slab_of _ _ _ _ Hs Hm) as (sb0 & Hsb0 & Hok). rewrite Hsb in Hsb0. injection Hsb0 as <-.
  pose proof (slab_addr_space _ _ _ L _ _ _ Hg) as Hid. destruct (region_space _ _ _ L _ _ _ Hg) as [Hmem _].
  unfold mp_free, header_at. rewrite (proj2 (Z.eqb_neq (q + _) 0)) by (unfold SIZEOF_HEADER; lia).
  replace (q + SIZEOF_HEADER - SIZEOF_HEADER) with q by lia. rewrite Hh. cbn [default from_option hd_magic hd_flag hd_class hd_slab Datatypes.id].
  rewrite Z.eqb_refl. change (BLOCK_FLAG =? BLOCK_FLAG_LARGE) with false. cbn iota.
  rewrite (proj2 (Z.leb_gt CLASS_COUNT i)), (proj2 (Z.eqb_neq id 0)) by lia. run. unfold slab_at. rewrite Hsb. run.
  rewrite (so_mem _ _ Hok). cbn [h_mem]. rewrite (proj2 (Z.eqb_neq mem 0)) by lia.
  unfold slab_free_with_header, slab_at. cbn [hd_class hd_slab]. rewrite Hsb. run.
  replace (slab_size i) with (region_len i) by (unfold region_len; by rewrite Hsm).
  assert (Hfree : forall x, x ∈ free_list (set_free (q :: free_list sb) (free_blocks sb + 1) sb) <-> x = q \/ x ∈ free_list sb)
    by (intros x; cbn; by rewrite elem_of_cons).
  pose proof (used_release _ (slab_heap s) _ _ id i mem sb _ q L Hg Hsb Hb Hfree) as Hrel.
  destruct (slab_free_spec m s i k id mem sb q (delete q (hdr_heap s)) (ticks s) I Hm Hsb Hb Hnf) as (m' & s' & Hrun & I' & Hhdr & Hu').
  { by eapply headers_release. }
  unfold with_slab, without_header. cbn [classes slab_heap hdr_heap os_maps os_blocks ticks]. rewrite Hrun.
  exists s'. split; [done |]. split; [by eexists |].
  eapply live_remove; [done | done |]. intros p c. unfold live_at. rewrite Hhdr. setoid_rewrite Hu'. setoid_rewrite Hrel.
  setoid_rewrite lookup_delete_Some. split.
  - intros [(id' & i' & Hs' & [Hu1 Hne] & ->) | (h & [Hne Hh'] & ->)]; [split; [left; eauto |] | split; [right; eauto | lia]].
    intros ->. pose proof (small_no_header _ _ _ _ _ I Hs' Hu1) as Hno. by replace (q + SIZEOF_HEADER - SIZEOF_HEADER) with q in Hno by lia; rewrite Hh in Hno.
  - intros [[(id' & i' & Hs' & Hu1 & ->) | (h & Hh' & ->)] Hne]; [left; exists id', i'; split; [done |]; split; [| done] | right].
    + split; [done |]. intros ->. destruct Hu1 as (mem' & sb' & Hg' & _ & Hb' & _).
      rewrite (block_slab_unique _ _ _ _ _ _ _ _ _ _ L Hg Hg' Hb Hb'), Hg' in Hg. congruence.
    + exists h. split; [split; [| done] | done]. intros Heq. apply Hne. lia.
Qed.

Lemma free_large m s q h :
  inv_at m s -> hdr_heap s !! q = Some h -> large_ok (os_blocks s) q h ->
  exists s', mp_free foreign (q + SIZEOF_HEADER) s = Ok s' /\ pool_inv s' /\ released s s' (q + SIZEOF_HEADER).
Proof.
  intros I Hh Hlg. pose proof I as [Hl Hs L H]. pose proof Hlg as (Hmag & Hflag & n & Hn & Hlt & _).
  destruct (lo_space _ _ _ L (q, n)) as (Hq & _); [set_solver |]. cbn in Hq.
  unfold mp_free, header_at. rewrite (proj2 (Z.eqb_neq (q + _) 0)) by (unfold SIZEOF_HEADER; lia).
  replace (q + SIZEOF_HEADER - SIZEOF_HEADER) with q by lia. rewrite Hh. cbn [default from_option id]. rewrite Hmag, Hflag, !Z.eqb_refl.
  rewrite (os_free_blk q n) by done. eexists. split; [done |].
  assert (I' : inv_at m (with_os (os_maps s) (sans q (os_blocks s)) (without_header q s))).
  { split; cbn; [done | done | |].
    - apply layout_drop_blk; [done |]. intros i mem Hg. destruct (small i) eqn:Hsm; [done |].
      pose proof (blk_unique _ _ _ L _ _ _ Hn (lo_struct _ _ _ L _ _ _ Hg Hsm)) as ->. done.
    - by eapply headers_drop_large. }
  split; [by eexists |]. eapply live_remove; [done | done |]. intros p c. unfold live_at. cbn [without_header with_os slab_heap hdr_heap].
  setoid_rewrite lookup_delete_Some. split.
  - intros [(id' & i' & Hs' & Hu1 & ->) | (h' & [Hne Hh'] & ->)]; [split; [left; eauto |] | split; [right; eauto | lia]].
    intros ->. pose proof (small_no_header _ _ _ _ _ I Hs' Hu1) as Hno. by replace (q + SIZEOF_HEADER - SIZEOF_HEADER) with q in Hno by lia; rewrite Hh in Hno.
  - intros [[? | (h' & Hh' & ->)] Hne]; [by left | right]. exists h'. split; [split; [| done] | done]. intros Heq. apply Hne. lia.
Qed.

Lemma mp_free_spec s p cap :
  pool_inv s -> live_cap s p = Some cap ->
  exists s', mp_free foreign p s = Ok s' /\ pool_inv s' /\ released s s' p.
Proof.
  intros [m I] Hlive. pose proof I as [_ _ _ H].
  apply (live_cap_iff _ _ _ _ I) in Hlive as [(id & i & Hsm & Hu & _) | (h & Hh & _)]; [by eapply free_small |].
  replace p with (p - SIZEOF_HEADER + SIZEOF_HEADER) by lia.
  destruct (ho_header _ _ _ _ H _ _ Hh) as [Hlg | (id & i & Hsm & Hu & ->)]; [by eapply free_large | by eapply free_headed].
Qed.

(** *** [mp_realloc] *)

(** The capacity [mp_realloc] assumes is that of the block, or, for a block of a
    slab with headers, the size of its class with the header. *)
Lemma old_capacity_spec s p cap :
  pool_inv s -> live_cap s p = Some cap ->
  exists oc, old_capacity foreign p s = Ok (Some oc) /\ p <> 0 /\ cap <= oc <= cap + SIZEOF_HEADER.
Proof.
  intros [m I] Hlive. pose proof I as [_ Hs L H].
  apply (live_cap_iff _ _ _ _ I) in Hlive as [(id & i & Hsm & Hu & ->) | (h & Hh & ->)].
  - pose proof (small_no_header _ _ _ _ _ I Hsm Hu) as Hno. pose proof (used_positive _ _ _ _ _ I Hu) as Hpos.
    destruct Hu as (mem & sb & Hg & Hsb & Hb & _). destruct (place_home _ _ _ _ Hg) as [k Hm].
    destruct (slab_of _ _ _ _ Hs Hm) as (sb0 & Hsb0 & Hok). rewrite Hsb in Hsb0. injection Hsb0 as <-.
    pose proof (so_magic _ _ Hok) as Hmag. cbn in Hmag. rewrite Hsm in Hmag. destruct Hmag as [Hmag Hcid].
    unfold old_capacity, header_at. rewrite Hno. cbn [from_option].
    rewrite (proj2 (Z.eqb_neq _ BLOCK_MAGIC)) by apply foreign_unmarked.
    pose proof (slab_addr_space _ _ _ L _ _ _ Hg).
    rewrite (ptr_to_slab_block _ _ _ L _ _ _ _ Hg Hsm Hb), (proj2 (Z.eqb_neq id 0)) by lia.
    unfold slab_at. rewrite Hsb. run. rewrite Hmag, Z.eqb_refl, Hcid. eexists. split; [done |]. unfold SIZEOF_HEADER. lia.
  - unfold old_capacity, header_at. rewrite Hh. cbn [from_option Datatypes.id]. unfold header_cap.
    destruct (ho_header _ _ _ _ H _ _ Hh) as [(Hmag & Hflag & n & Hn & _) | (id & i & Hsm & Hu & ->)].
    + rewrite Hmag, Hflag, !Z.eqb_refl. destruct (lo_space _ _ _ L (p - SIZEOF_HEADER, n)) as (Hq & _); [set_solver |].
      cbn in Hq. eexists. split; [done |]. unfold SIZEOF_HEADER in *. lia.
    + pose proof (used_positive _ _ _ _ _ I Hu) as Hpos. destruct Hu as (mem & sb & Hg & Hsb & _). destruct (place_home _ _ _ _ Hg) as [k Hm].
      destruct (slab_of _ _ _ _ Hs Hm) as (sb0 & Hsb0 & Hok). rewrite Hsb in Hsb0. injection Hsb0 as <-.
      pose proof (slab_addr_space _ _ _ L _ _ _ Hg). destruct (region_space _ _ _ L _ _ _ Hg).
      pose proof (lo_class _ _ _ L _ _ _ Hg) as Hi. cbn [hd_magic hd_flag hd_class hd_slab hd_size].
      rewrite Z.eqb_refl. change (BLOCK_FLAG =? BLOCK_FLAG_LARGE) with false. cbn iota.
      rewrite (proj2 (Z.ltb_ge i 0)), (proj2 (Z.leb_gt CLASS_COUNT i)), (proj2 (Z.eqb_neq id 0)) by lia. run.
      unfold slab_at. rewrite Hsb. run. rewrite (so_mem _ _ Hok). cbn [h_mem]. rewrite (proj2 (Z.eqb_neq mem 0)) by lia.
      eexists. split; [done |]. unfold SIZEOF_HEADER in *. lia.
Qed.

(** The operating system's objects: [mp_malloc] only adds to them. *)
Definition keeps_objects (s s' : kvs_mempool_t) : Prop := forall r, r ∈ objects s -> r ∈ objects s'.

Lemma add_empty_objects i id s s' : add_empty i id s = Ok s' -> objects s' = objects s.
Proof. unfold add_empty. destruct (pool_at s i); [| done..]. by intros [= <-]. Qed.

Lemma add_pool_objects m s i r s' :
  inv_at m s -> 0 <= i < CLASS_COUNT -> add_pool mmap_at malloc_at i s = Ok (r, s') -> keeps_objects s s'.
Proof.
  intros [_ _ L _] Hi. unfold add_pool. destruct (class_size i <=? ALIGNMENT_THRESHOLD).
  - unfold add_pool_without_header. pose proof (align_spec _ s L) as Ha.
    destruct (alignment_to_slab_size _ _ s) as [[mem |] s1]; [destruct Ha as (_ & _ & _ & t & ->) | destruct Ha as [t ->]].
    + destruct (add_empty _ _ _) as [s2 | |] eqn:He; [| done..]. intros [= _ <-] x Hx. rewrite (add_empty_objects _ _ _ _ He).
      unfold objects in *. cbn. set_solver.
    + intros [= _ <-] x Hx. done.
  - unfold add_pool_with_header, os_malloc. destruct (malloc_at _ _ _) as [id |] eqn:Hid; [| intros [= _ <-] x Hx; done].
    apply malloc_fresh in Hid; [| done]. unfold os_mmap. destruct (mmap_at _ _ _) as [mem |].
    + destruct (pool_at _ _) as [c | |]; [| done..]. cbn [mbind res_bind].
      destruct (add_empty _ _ _) as [s2 | |] eqn:He; [| done..]. intros [= _ <-] x Hx. rewrite (add_empty_objects _ _ _ _ He).
      unfold objects in *. cbn. set_solver.
    + rewrite (os_free_blk id SIZEOF_SLAB) by (cbn; set_solver). intros [= _ <-] x Hx. cbn [with_os os_blocks os_maps objects].
      rewrite sans_fresh; [done | | by apply (layout_space _ _ _ L)].
      destruct Hid as [? Hf]. split; [done |]. intros r0 Hr0. apply Hf. unfold objects. set_solver.
Qed.

Lemma take_empty_objects i s r s' : take_empty i s = Ok (r, s') -> objects s' = objects s.
Proof.
  unfold take_empty. destruct (pool_at s i) as [c | |]; [| done..]. cbn [mbind res_bind].
  destruct (empty_slabs c); [done |]. by intros [= _ <-].
Qed.

Lemma slab_malloc_objects m s i r s' :
  inv_at m s -> 0 <= i < CLASS_COUNT -> slab_malloc mmap_at malloc_at i s = Ok (r, s') -> keeps_objects s s'.
Proof.
  intros I Hi. unfold slab_malloc. destruct (_ || _); [intros [= _ <-] x Hx; done |].
  destruct (pool_at s i) as [c | |]; [| done..]. cbn [mbind res_bind].
  destruct (partial_slabs c) as [| id l]; [| intros [= _ <-] x Hx; done].
  destruct (empty_slabs c) as [| id l].
  - destruct (add_pool _ _ i s) as [[r1 s1] | |] eqn:Hadd; [| done..]. cbn [mbind res_bind].
    pose proof (add_pool_objects m s i r1 s1 I Hi Hadd) as Hk.
    destruct (negb (r1 =? 0)); [by intros [= _ <-] |]. intros Ht x Hx. rewrite (take_empty_objects _ _ _ _ Ht). by apply Hk.
  - intros Ht x Hx. by rewrite (take_empty_objects _ _ _ _ Ht).
Qed.

Lemma take_block_objects i id s b s' : take_block i id s = Ok (b, s') -> objects s' = objects s.
Proof.
  unfold take_block. destruct (slab_at s id) as [sb | |]; [| done..]. cbn [mbind res_bind].
  destruct (free_list sb) as [| b0 fl]; [done |]. destruct (_ =? 0).
  - destruct (pool_at _ i) as [c | |]; [| done..]. by intros [= _ <-].
  - by intros [= _ <-].
Qed.

Lemma mp_malloc_objects s size r s' :
  pool_inv s -> mp_malloc mmap_at malloc_at foreign size s = Ok (r, s') -> keeps_objects s s'.
Proof.
  intros [m I]. unfold mp_malloc. destruct (size =? 0); [intros [= _ <-] x Hx; done |].
  assert (Hblk : forall (sz : Z) (k : Z -> kvs_mempool_t -> res (option Z * kvs_mempool_t)),
    (forall id s1 r1 s2, k id s1 = Ok (r1, s2) -> objects s2 = objects s1) ->
    (let i := get_class_id sz in if i <? 0 then Ok (None, s) else
     '(slab, s) ← slab_malloc mmap_at malloc_at i s; match slab with None => Ok (None, s) | Some id => k id s end) = Ok (r, s') ->
    keeps_objects s s').
  { intros sz k Hk. cbv zeta. destruct (Z.ltb_spec (get_class_id sz) 0); [intros [= _ <-] x Hx; done |].
    assert (Hi : 0 <= get_class_id sz < CLASS_COUNT) by (pose proof (get_class_id_spec sz) as Hg; cbv zeta in Hg; lia).
    destruct (slab_malloc _ _ _ s) as [[[id |] s1] | |] eqn:Hsm; [| | done..]; cbn [mbind res_bind].
    - intros Hr x Hx. rewrite (Hk _ _ _ _ Hr). by apply (slab_malloc_objects m s _ _ _ I Hi Hsm).
    - intros [= _ <-]. by apply (slab_malloc_objects m s _ _ _ I Hi Hsm). }
  destruct (_ <=? _); [| cbv zeta; destruct (_ <? _)].
  - apply (Hblk _ (fun id s => '(b, s) ← take_block (get_class_id (ALIGN_UP size)) id s; Ok (Some b, s))).
    intros id s1 r1 s2. destruct (take_block _ id s1) as [[b s3] | |] eqn:Ht; [| done..]. intros [= _ <-]. by eapply take_block_objects.
  - unfold os_malloc. destruct (malloc_at _ _ _); intros [= _ <-] x Hx; [| done]. unfold objects in *. cbn. set_solver.
  - apply (Hblk _ (fun id s => '(b, s) ← take_block (get_class_id (ALIGN_UP (size + SIZEOF_HEADER))) id s; Ok (_, _))).
    intros id s1 r1 s2. destruct (take_block _ id s1) as [[b s3] | |] eqn:Ht; [| done..]. intros [= _ <-].
    rewrite <- (take_block_objects _ _ _ _ _ Ht). done.
Qed.

Lemma mapped_spec s p n : mapped s p n = true <-> exists r, r ∈ objects s /\ r.1 <= p /\ p + n <= r.1 + r.2.
Proof.
  unfold mapped. rewrite existsb_exists. split.
  - intros (r & Hr%list_elem_of_In & Hb). exists r. split; [done | lia].
  - intros (r & Hr & Hb). exists r. split; [by apply list_elem_of_In | lia].
Qed.

Lemma objects_apart m s r r' : inv_at m s -> r ∈ objects s -> r' ∈ objects s -> r = r' \/ apart r r'.
Proof.
  intros [_ _ L _]. unfold objects. rewrite !elem_of_app. intros [Hr | Hr] [Hr' | Hr'].
  - by apply (lo_apart_maps _ _ _ L).
  - right. by apply (lo_apart _ _ _ L).
  - right. apply apart_sym. by apply (lo_apart _ _ _ L).
  - by apply (lo_apart_blks _ _ _ L).
Qed.

(** The object a live block lies in. *)
Lemma live_object s p cap :
  pool_inv s -> live_cap s p = Some cap ->
  exists r, r ∈ objects s /\ r.1 <= p < r.1 + r.2 /\ p + cap <= r.1 + r.2.
Proof.
  intros [m I] Hlive. pose proof I as [_ _ L H].
  apply (live_cap_iff _ _ _ _ I) in Hlive as [(id & i & Hsm & (mem & sb & Hg & _ & Hb & _) & ->) | (h & Hh & ->)].
  - pose proof (lo_class _ _ _ L _ _ _ Hg) as Hi. pose proof (block_in_region _ _ _ Hi Hb) as Hr. destruct (class_facts i Hi).
    destruct (lo_region _ _ _ L _ _ _ Hg) as [Hin _]. exists (mem, region_len i). split; [unfold objects; set_solver |].
    unfold head_len in Hr. destruct (small i); unfold SIZEOF_SLAB in *; cbn; lia.
  - unfold header_cap. destruct (ho_header _ _ _ _ H _ _ Hh) as [(_ & -> & n & Hn & Hlt & H0 & Hle) | (id & i & Hsm & (mem & sb & Hg & _ & Hb & _) & ->)].
    + exists (p - SIZEOF_HEADER, n). split; [unfold objects; set_solver |]. cbn. unfold SIZEOF_HEADER, LARGE_THRESHOLD in *. lia.
    + pose proof (lo_class _ _ _ L _ _ _ Hg) as Hi. pose proof (block_in_region _ _ _ Hi Hb) as Hr.
      destruct (class_facts i Hi) as (_ & _ & _ & _ & _ & Hc). specialize (Hc Hsm).
      destruct (lo_region _ _ _ L _ _ _ Hg) as [Hin _]. exists (mem, region_len i). split; [unfold objects; set_solver |].
      cbn. unfold head_len in Hr. rewrite Hsm in Hr. unfold SIZEOF_HEADER in *. lia.
Qed.

Lemma live_mapped s p cap : pool_inv s -> live_cap s p = Some cap -> mapped s p cap = true.
Proof. intros I Hlive. apply mapped_spec. destruct (live_object s p cap I Hlive) as (r & ? & ? & ?). exists r. split; [done | lia]. Qed.

(** Whether a copy from a live block stays in its object does not depend on the
    objects that are added. *)
Lemma mapped_kept s s' p cap n :
  pool_inv s -> pool_inv s' -> keeps_objects s s' -> live_cap s p = Some cap -> mapped s' p n = mapped s p n.
Proof.
  intros I [m' I'] Hk Hlive. destruct (live_object s p cap I Hlive) as (r & Hr & Hin & _).
  apply eq_true_iff_eq. rewrite !mapped_spec. split.
  - intros (r' & Hr' & Hlo' & Hhi'). exists r. split; [done |].
    destruct (objects_apart m' s' r r' I') as [<- | Ha]; [by apply Hk | done | done |]. unfold apart in Ha. lia.
  - intros (r' & Hr' & Hb). exists r'. split; [by apply Hk | done].
Qed.

(** The live blocks after a move of [mp_realloc]: those without [p] and with
    a new block of at least [size] bytes. *)
Definition moved (s s' : kvs_mempool_t) (p p' size : Z) : Prop :=
  p' <> p /\ live_cap s p' = None /\ live_cap s' p = None /\
  (exists cap', live_cap s' p' = Some cap' /\ size <= cap') /\
  forall q, q <> p -> q <> p' -> live_cap s' q = live_cap s q.

(** [mp_realloc] on a live block: the same block, when the capacity it assumes
    is enough; NULL, when there is no memory; a move; or, when the copy would
    leave the region of the slab, an undefined action. *)
Lemma mp_realloc_spec s p cap size :
  pool_inv s -> live_cap s p = Some cap -> 0 < size <= SIZE_MAX - 31 ->
  exists oc, old_capacity foreign p s = Ok (Some oc) /\ cap <= oc <= cap + SIZEOF_HEADER /\
    ((size <= oc /\ mp_realloc mmap_at malloc_at foreign p size s = Ok (Some p, None, s)) \/
     (oc < size /\ exists s', mp_realloc mmap_at malloc_at foreign p size s = Ok (None, None, s') /\ pool_inv s' /\
        forall q, live_cap s' q = live_cap s q) \/
     (oc < size /\ mapped s p oc = true /\ exists p' s', mp_realloc mmap_at malloc_at foreign p size s = Ok (Some p', Some (p, p', oc), s') /\
        pool_inv s' /\ moved s s' p p' size) \/
     (oc < size /\ mapped s p oc = false /\ mp_realloc mmap_at malloc_at foreign p size s = Undef)).
Proof.
  intros I Hlive Hsize. destruct (old_capacity_spec s p cap I Hlive) as (oc & Hoc & Hp0 & Hcap). exists oc.
  split; [done |]. split; [done |].
  unfold mp_realloc. rewrite (proj2 (Z.eqb_neq p 0)), (proj2 (Z.eqb_neq size 0)), Hoc by lia. run.
  destruct (Z.leb_spec size oc); [by left |]. right.
  destruct (mp_malloc_spec s size I ltac:(lia)) as ([p' |] & s1 & Hm & I1 & Hr); rewrite Hm; run; [| left; eauto]. right.
  rewrite (mapped_kept s s1 p cap oc I I1 (mp_malloc_objects _ _ _ _ I Hm) Hlive).
  destruct (mapped s p oc) eqn:Hmap; cbn [negb]; [left | by right].
  destruct Hr as (cap' & Hc' & Hnone & Hnew & Hoth). assert (Hne : p' <> p) by congruence.
  destruct (mp_free_spec s1 p cap I1) as (s2 & -> & I2 & Hgone & Hrest); [by rewrite Hoth |]. run.
  split; [done |]. split; [done |]. exists p', s2. split; [done |]. split; [done |].
  split_and!; [done | done | done | |].
  - exists cap'. by rewrite Hrest.
  - intros q Hq Hq'. by rewrite Hrest, Hoth.
Qed.
End Ops.
