(* ===== verification/MempoolEnd.v ===== *)
(** * MempoolEnd: the live blocks, the end of the pool, the pool as an allocator

    Live blocks do not overlap; [mp_destroy] gives every region back; and the
    pool is an instance of the allocation interface the other components are
    proved against. *)

From S2P Require Import Prelude CLib Alloc Mempool MempoolFacts MempoolOps.

(** ** Live blocks do not overlap *)

(** The block of [n] bytes at [b] holds the [c] bytes the user got at
    [b + off]. *)
Definition slot (m : gmap Z home) (s : kvs_mempool_t) (b n off : Z) : Prop :=
  (exists id i mem, (place <$> m) !! id = Some (i, mem) /\ b ∈ blocks i mem /\ n = class_size i /\
     off = if small i then 0 else SIZEOF_HEADER) \/
  ((b, n) ∈ os_blocks s /\ off = SIZEOF_HEADER).

Lemma live_slot m s p c :
  inv_at m s -> live_at m s p c -> exists b n off, slot m s b n off /\ p = b + off /\ 0 <= off /\ off + c <= n.
Proof.
  intros [_ _ L H] [(id & i & Hs & (mem & sb & Hg & _ & Hb & _) & ->) | (h & Hh & ->)].
  - exists p, (class_size i), 0. split_and!; [| lia..]. left. exists id, i, mem. by rewrite Hs.
  - exists (p - SIZEOF_HEADER). unfold header_cap.
    destruct (ho_header _ _ _ _ H _ _ Hh) as [(_ & -> & n & Hn & _ & _ & Hle) | (id & i & Hs & (mem & sb & Hg & _ & Hb & _) & ->)].
    + exists n, SIZEOF_HEADER. rewrite Z.eqb_refl. split; [by right |]. unfold SIZEOF_HEADER in *. lia.
    + exists (class_size i), SIZEOF_HEADER. cbn. split; [left; exists id, i, mem; by rewrite Hs |]. unfold SIZEOF_HEADER. lia.
Qed.

Lemma slots_apart m s b n off b' n' off' :
  inv_at m s -> slot m s b n off -> slot m s b' n' off' ->
  (b = b' /\ off = off') \/ apart (b, n) (b', n').
Proof.
  intros [_ _ L _] [(id & i & mem & Hg & Hb & -> & ->) | [Hb ->]] [(id' & i' & mem' & Hg' & Hb' & -> & ->) | [Hb' ->]].
  - destruct (slab_blocks_apart _ _ _ L _ _ _ _ _ _ _ _ Hg Hg' Hb Hb') as [[<- <-] | ?]; [left | by right].
    rewrite Hg in Hg'. by injection Hg' as <- <-.
  - right. by eapply (block_apart_blk _ _ _ L).
  - right. apply apart_sym. by eapply (block_apart_blk _ _ _ L).
  - destruct (lo_apart_blks _ _ _ L _ _ Hb Hb') as [[= -> ->] | ?]; [by left | by right].
Qed.

Lemma live_apart s p c q d :
  pool_inv s -> live_cap s p = Some c -> live_cap s q = Some d -> p <> q -> apart (p, c) (q, d).
Proof.
  intros [m I] Hp Hq Hne. apply (live_cap_iff _ _ _ _ I) in Hp, Hq.
  destruct (live_slot _ _ _ _ I Hp) as (b & n & off & Hs & -> & Ho & Hc).
  destruct (live_slot _ _ _ _ I Hq) as (b' & n' & off' & Hs' & -> & Ho' & Hc').
  destruct (slots_apart _ _ _ _ _ _ _ _ I Hs Hs') as [[-> ->] | Ha]; [done |].
  unfold apart in *. cbn in *. lia.
Qed.

(** ** [mp_create] *)

Lemma create_class i c : rd (classes mp_create) i = Ok c -> c = MemPool (class_size i) 0 [] [] [].
Proof.
  intros [Hi Hc]%rd_spec. unfold mp_create, classes in Hc. apply list_lookup_fmap_Some in Hc as (n & -> & Hn).
  unfold class_size. by rewrite (list_lookup_total_correct _ _ _ Hn).
Qed.

Lemma mp_create_inv : pool_inv mp_create.
Proof.
  exists ∅. split.
  - split.
    + done.
    + intros i c ->%create_class. split_and!; [done.. |]. by intros []; constructor.
    + intros i c k id ->%create_class. rewrite lookup_empty. destruct k; cbn; rewrite elem_of_nil; naive_solver.
  - intros id. cbn [mp_create slab_heap]. rewrite !lookup_empty. constructor.
  - rewrite fmap_empty. split; cbn [mp_create os_maps os_blocks]; try (intros *; rewrite lookup_empty; done); intros r; try set_solver.
  - rewrite fmap_empty. split; [done | | cbn; set_solver]. intros id i q _ (mem & sb & Hg & _). done.
Qed.

Lemma mp_create_dead p : live_cap mp_create p = None.
Proof. done. Qed.

(** ** [mp_destroy] *)

(** What stays true of the slabs that are left, the table [m]; [blks] are the
    blocks of [malloc] at the start. *)
Record remains (m : gmap Z home) (blks : list (Z * Z)) (s : kvs_mempool_t) : Prop := {
  rm_slabs id h : m !! id = Some h -> exists sb, slab_heap s !! id = Some sb /\ sb_mem sb = h_mem h;
  rm_layout : layout_ok (place <$> m) (os_maps s) (os_blocks s);
  rm_blks r : r ∈ os_blocks s <->
    r ∈ blks /\ (LARGE_THRESHOLD < r.2 \/ exists h, m !! r.1 = Some h /\ small (h_class h) = false)
}.

Lemma drop_one m blks s id i k mem :
  remains m blks s -> m !! id = Some (Home i k mem) ->
  exists sb s1, slab_heap s !! id = Some sb /\
    (if ALIGNMENT_THRESHOLD <? class_size i then os_free id (os_munmap (sb_mem sb) (slab_size i) s)
     else Ok (os_munmap (sb_mem sb) SLAB_SIZE_ALIGNMENT s)) = Ok s1 /\
    remains (delete id m) blks (without_slab id s1) /\ classes s1 = classes s.
Proof.
  intros [Hs L Hb] Hm. pose proof (place_lookup _ _ _ _ _ Hm) as Hg. destruct (Hs _ _ Hm) as (sb & Hsb & Hmem). cbn in Hmem.
  pose proof (layout_drop_slab _ _ _ _ _ _ L Hg) as L'. rewrite <- fmap_delete in L'.
  pose proof (munmap_region _ s _ _ _ L Hg) as Hun. exists sb. rewrite Hmem.
  assert (Hs' : forall id' h, delete id m !! id' = Some h -> exists sb, delete id (slab_heap s) !! id' = Some sb /\ sb_mem sb = h_mem h).
  { intros id' h [Hne Hm']%lookup_delete_Some. rewrite lookup_delete_ne by done. by apply Hs. }
  destruct (small i) eqn:Hsm; unfold small in Hsm; unfold region_len, small in Hun, L'; rewrite Hsm in Hun, L'.
  - apply Z.leb_le in Hsm as Hle. rewrite (proj2 (Z.ltb_ge _ _)) by done. rewrite Hun. eexists. split_and!; [done.. | | done].
    split; cbn; [done | done |]. intros r. rewrite Hb. f_equiv. f_equiv. split; intros (h & Hh & Hsh); exists h; (split; [| done]).
    + rewrite lookup_delete_ne; [done |]. intros Heq. rewrite <- Heq, Hm in Hh. injection Hh as <-. unfold small in Hsh. cbn in Hsh. congruence.
    + by apply lookup_delete_Some in Hh as [_ ?].
  - apply Z.leb_gt in Hsm as Hlt. rewrite (proj2 (Z.ltb_lt _ _)) by done. rewrite Hun.
    assert (Hst : (id, SIZEOF_SLAB) ∈ os_blocks s) by (by apply (lo_struct _ _ _ L _ _ _ Hg)).
    rewrite (os_free_blk id SIZEOF_SLAB) by done. eexists. split_and!; [done.. | | done].
    split; cbn [without_slab with_os os_maps os_blocks slab_heap]; [done | done |]. intros r. rewrite sans_elem, Hb. split.
    + intros (Hne & Hin & [? | (h & ? & ?)]); (split; [done |]); [by left | right]. exists h. by rewrite lookup_delete_ne.
    + intros (Hin & Hor). assert (Hr : r ∈ os_blocks s).
      { apply Hb. split; [done |]. destruct Hor as [? | (h & [_ ?]%lookup_delete_Some & ?)]; [by left | right; eauto]. }
      split; [| by apply Hb]. intros Heq. destruct r as [p n]. cbn in *. subst p.
      destruct Hor as [Hlarge | (h & Hh & _)]; [| by rewrite lookup_delete_eq in Hh].
      rewrite (blk_unique _ _ _ L _ _ _ Hr Hst) in Hlarge. done.
Qed.

Lemma free_slab_list i ids m blks s :
  remains m blks s -> NoDup ids -> (forall id, id ∈ ids -> exists k mem, m !! id = Some (Home i k mem)) ->
  exists m' s', mp_free_slab ids i s = Ok s' /\ remains m' blks s' /\ classes s' = classes s /\
    forall id, m' !! id = if decide (id ∈ ids) then None else m !! id.
Proof.
  revert m s. induction ids as [| id ids IH]; intros m s R Hnd Hin; cbn [mp_free_slab].
  - exists m, s. split_and!; [done.. |]. intros id. rewrite decide_False; [done | apply not_elem_of_nil].
  - apply NoDup_cons in Hnd as [Hni Hnd]. destruct (Hin id) as (k & mem & Hm); [set_solver |].
    destruct (drop_one _ _ _ _ _ _ _ R Hm) as (sb & s1 & Hsb & Hrun & R1 & Hc1).
    unfold slab_at. rewrite Hsb. run. rewrite Hrun. run.
    destruct (IH (delete id m) (without_slab id s1) R1 Hnd) as (m' & s' & Hrun' & R' & Hc' & Hm').
    { intros id' Hid'. destruct (Hin id') as (k' & mem' & Hm'); [set_solver |]. exists k', mem'.
      rewrite lookup_delete_ne; [done |]. by intros <-. }
    exists m', s'. split_and!; [done | done | by rewrite Hc' |]. intros id'. rewrite Hm'.
    destruct (decide (id' = id)) as [-> | Hne].
    + rewrite lookup_delete_eq. by case_decide; rewrite decide_True by set_solver.
    + rewrite lookup_delete_ne by done. destruct (decide (id' ∈ ids)); [rewrite decide_True by set_solver | rewrite decide_False by set_solver]; done.
Qed.

(** The classes from [i] on still have their slabs. *)
Record dying (i : Z) (m : gmap Z home) (cs : list mem_pool_t) : Prop := {
  dy_len : zlen cs = CLASS_COUNT;
  dy_lists j c k : i <= j -> rd cs j = Ok c ->
    NoDup (slabs_of k c) /\ forall id, id ∈ slabs_of k c <-> exists mem, m !! id = Some (Home j k mem);
  dy_class id h : m !! id = Some h -> i <= h_class h
}.

Lemma destroy_class i m blks s :
  remains m blks s -> dying i m (classes s) -> 0 <= i < CLASS_COUNT ->
  exists c m' s1 s2 s3, rd (classes s) i = Ok c /\ mp_free_slab (empty_slabs c) i s = Ok s1 /\
    mp_free_slab (full_slabs c) i s1 = Ok s2 /\ mp_free_slab (partial_slabs c) i s2 = Ok s3 /\
    let s' := with_class i (MemPool (block_size c) 0 [] [] []) s3 in remains m' blks s' /\ dying (i + 1) m' (classes s').
Proof.
  intros R [Hlen Hls Hcl] Hi. destruct (rd_in_range (classes s) i) as [c Hc]; [lia |].
  assert (Hk : forall k, NoDup (slabs_of k c) /\ forall id, id ∈ slabs_of k c <-> exists mem, m !! id = Some (Home i k mem))
    by (intros k; apply Hls; [lia | done]).
  assert (Hdisj : forall k k' id, k <> k' -> id ∈ slabs_of k c -> id ∉ slabs_of k' c).
  { intros k k' id Hne [mem Hm]%Hk [mem' Hm']%Hk. congruence. }
  destruct (free_slab_list i (empty_slabs c) m blks s R) as (m1 & s1 & H1 & R1 & Hc1 & Hm1);
    [apply (Hk Empty) | intros id Hid; destruct (proj1 (proj2 (Hk Empty) id) Hid); eauto |].
  destruct (free_slab_list i (full_slabs c) m1 blks s1 R1) as (m2 & s2 & H2 & R2 & Hc2 & Hm2); [apply (Hk Full) | |].
  { intros id Hid. rewrite Hm1, decide_False by (by apply (Hdisj Full Empty)). destruct (proj1 (proj2 (Hk Full) id) Hid). eauto. }
  destruct (free_slab_list i (partial_slabs c) m2 blks s2 R2) as (m3 & s3 & H3 & R3 & Hc3 & Hm3); [apply (Hk Partial) | |].
  { intros id Hid. rewrite Hm2, Hm1, !decide_False by (by apply (Hdisj Partial Full) || by apply (Hdisj Partial Empty)).
    destruct (proj1 (proj2 (Hk Partial) id) Hid). eauto. }
  exists c, m3, s1, s2, s3. do 4 (split; [done |]). cbv zeta. split.
  { destruct R3. by split. }
  assert (Hm : forall id h, m3 !! id = Some h <-> m !! id = Some h /\ h_class h <> i).
  { intros id h. rewrite Hm3, Hm2, Hm1.
    assert (Hany : forall h', m !! id = Some h' -> h_class h' = i -> id ∈ partial_slabs c \/ id ∈ full_slabs c \/ id ∈ empty_slabs c).
    { intros [j k mem] Hmid Hj. cbn in Hj. subst j. pose proof (proj2 (proj2 (Hk k) id) ltac:(eauto)). destruct k; auto. }
    assert (Hcls : forall k, id ∈ slabs_of k c -> m !! id = Some h -> h_class h = i).
    { intros k [mem Hmid]%Hk Hh. rewrite Hmid in Hh. by injection Hh as <-. }
    destruct (decide (id ∈ partial_slabs c)) as [Hp |]; [split; [done |]; intros [Hh Hne]; by destruct Hne; apply (Hcls Partial) |].
    destruct (decide (id ∈ full_slabs c)) as [Hf |]; [split; [done |]; intros [Hh Hne]; by destruct Hne; apply (Hcls Full) |].
    destruct (decide (id ∈ empty_slabs c)) as [He |]; [split; [done |]; intros [Hh Hne]; by destruct Hne; apply (Hcls Empty) |].
    split; [| tauto]. intros Hh. split; [done |]. intros Heq. destruct (Hany h Hh Heq) as [? | [? | ?]]; done. }
  cbn [with_class classes]. rewrite Hc3, Hc2, Hc1. split.
  - by rewrite zlen_insert.
  - intros j d k Hj Hd. rewrite rd_insert, decide_False in Hd by lia. destruct (Hls j d k) as [Hnd Hin]; [lia | done |].
    split; [done |]. intros id. rewrite Hin. f_equiv. intros mem. rewrite Hm. cbn. naive_solver lia.
  - intros id h [Hmid Hne]%Hm. apply Hcl in Hmid. lia.
Qed.

Lemma destroy_classes_spec n i m blks s :
  remains m blks s -> dying i m (classes s) -> 0 <= i -> i + Z.of_nat n = CLASS_COUNT ->
  exists m' s', destroy_classes n i s = Ok s' /\ remains m' blks s' /\ dying CLASS_COUNT m' (classes s').
Proof.
  revert i m s. induction n as [| n IH]; intros i m s R D Hi Hn; cbn [destroy_classes].
  - exists m, s. replace CLASS_COUNT with i by lia. done.
  - destruct (destroy_class i m blks s R D ltac:(lia)) as (c & m' & s1 & s2 & s3 & Hc & H1 & H2 & H3 & R' & D').
    unfold pool_at. rewrite Hc. run. rewrite H1. run. rewrite H2. run. rewrite H3. run.
    apply (IH (i + 1) m'); [done | done | lia | lia].
Qed.

Lemma mp_destroy_spec s :
  pool_inv s -> exists s', mp_destroy s = Ok s' /\ os_maps s' = [] /\
    forall r, r ∈ os_blocks s' <-> r ∈ os_blocks s /\ LARGE_THRESHOLD < r.2.
Proof.
  intros [m [Hl Hs L H]].
  destruct (destroy_classes_spec (Z.to_nat CLASS_COUNT) 0 m (os_blocks s) s) as (m' & s' & Hrun & [Hs' L' Hb'] & D); [| | done | done |].
  - split; [| done |].
    + intros id h Hm. destruct (slab_of _ _ _ _ Hs Hm) as (sb & ? & Hok). exists sb. split; [done |]. by apply so_mem.
    + intros r. split; [| tauto]. intros Hr. split; [done |].
      destruct (ho_block _ _ _ _ H _ Hr) as [(i & mem & Hg & Hsm & _) | (h & _ & (_ & _ & n & Hn & Hlt & _))].
      * right. destruct (place_home _ _ _ _ Hg) as [k Hm]. eauto.
      * left. destruct r as [p k]. cbn in *. by rewrite (blk_unique _ _ _ L _ _ _ Hr Hn).
  - split.
    + apply Hl.
    + intros j c k _ Hc. destruct (ls_class _ _ Hl _ _ Hc) as (_ & _ & _ & Hnd). split; [done |]. intros id. by apply (ls_elem _ _ Hl).
    + intros id [i k mem] Hm. cbn. apply place_lookup, (lo_class _ _ _ L) in Hm. lia.
  - assert (Hnone : forall id, m' !! id = None).
    { intros id. destruct (m' !! id) as [[i k mem] |] eqn:Hm; [| done]. pose proof (dy_class _ _ _ D _ _ Hm) as Hge.
      apply place_lookup, (lo_class _ _ _ L') in Hm. cbn in Hge. lia. }
    exists s'. split_and!; [done | |].
    + apply elem_of_nil_inv. intros r Hr. destruct (lo_maps _ _ _ L' _ Hr) as (id & i & Hg & _).
      rewrite lookup_fmap, Hnone in Hg. done.
    + intros r. rewrite Hb'. f_equiv. split; [| by left]. intros [? | (h & Hh & _)]; [done | by rewrite Hnone in Hh].
Qed.

(** When no block is live, nothing is left. *)
Lemma destroy_dead s s' :
  pool_inv s -> (forall r, r ∈ os_blocks s' <-> r ∈ os_blocks s /\ LARGE_THRESHOLD < r.2) ->
  (forall p, live_cap s p = None) -> os_blocks s' = [].
Proof.
  intros [m [_ _ L H]] Hb Hdead. apply elem_of_nil_inv. intros r [Hr Hlt]%Hb.
  destruct (ho_block _ _ _ _ H _ Hr) as [(i & mem & _ & _ & He) | (h & Hh & _)].
  - unfold LARGE_THRESHOLD, SIZEOF_SLAB in *. lia.
  - specialize (Hdead (r.1 + SIZEOF_HEADER)). unfold live_cap in Hdead.
    replace (r.1 + SIZEOF_HEADER - SIZEOF_HEADER) with r.1 in Hdead by lia. by rewrite Hh in Hdead.
Qed.

(** ** The allocation interface *)

(** The addresses at which a block can be live, and the live ones. *)
Definition candidates (s : kvs_mempool_t) : gset Z :=
  list_to_set (map_to_list (slab_heap s) ≫= fun e => blocks (sb_classid e.2) (sb_mem e.2)) ∪
  set_map (fun q => q + SIZEOF_HEADER) (dom (hdr_heap s)).

Definition mp_live (s : kvs_mempool_t) : gset Z := filter (fun p => is_Some (live_cap s p)) (candidates s).

Lemma mp_live_spec s p : p ∈ mp_live s <-> is_Some (live_cap s p).
Proof.
  unfold mp_live. rewrite elem_of_filter. split; [tauto |]. intros Hp. split; [done |].
  unfold candidates. rewrite elem_of_union, elem_of_list_to_set, elem_of_map. unfold live_cap in Hp.
  destruct (hdr_heap s !! (p - SIZEOF_HEADER)) as [h |] eqn:Hh.
  - right. exists (p - SIZEOF_HEADER). split; [lia |]. by apply elem_of_dom_2 in Hh.
  - left. destruct (slab_heap s !! ptr_to_slab p) as [sb |] eqn:Hsb; [| by destruct Hp].
    destruct ((slab_magic sb =? SLAB_MAGIC) && _) eqn:Hb; [| by destruct Hp].
    apply andb_true_iff in Hb as [_ Hb%bool_decide_eq_true]. apply list_elem_of_bind.
    exists (ptr_to_slab p, sb). split; [tauto |]. by apply elem_of_map_to_list.
Qed.

Section Interface.
Context (mmap_at malloc_at : nat -> Z -> list (Z * Z) -> option Z) (foreign : Z -> block_header_t).

(** [kvs_malloc], [kvs_free] and [kvs_realloc] of kvstore.c; an undefined
    action of the first two, which the theorems exclude, is the identity here. *)
Definition pool_malloc (n : Z) (s : kvs_mempool_t) : option Z * kvs_mempool_t :=
  match mp_malloc mmap_at malloc_at foreign n s with Ok r => r | _ => (None, s) end.

Definition pool_free (p : Z) (s : kvs_mempool_t) : kvs_mempool_t :=
  match mp_free foreign p s with Ok s' => s' | _ => s end.

Definition pool_realloc (p n : Z) (s : kvs_mempool_t) : res (option Z * kvs_mempool_t) :=
  '(r, _, s) ← mp_realloc mmap_at malloc_at foreign p n s; Ok (r, s).

(** The interface is for the requests the program makes: sizes for which
    [ALIGN_UP] does not wrap around, and no [realloc] to 0 bytes. *)
Definition sized (lo n : Z) : bool := (lo <=? n) && (n <=? SIZE_MAX - 31).

Definition pool_allocator : Allocator kvs_mempool_t := {|
  kvs_malloc := fun n s => if sized 0 n then pool_malloc n s else (None, s); kvs_free := pool_free;
  kvs_realloc := fun p n s => if sized 1 n then pool_realloc p n s else Ok (None, s);
  al_live := mp_live; al_size := fun s p => default 0 (live_cap s p); al_inv := pool_inv |}.

(** ** The calls of a user

    A user asks for memory, and gives back or resizes blocks it holds. *)
Inductive pool_step (s : kvs_mempool_t) : kvs_mempool_t -> Prop :=
| step_malloc size r s' :
    0 <= size <= SIZE_MAX - 31 -> mp_malloc mmap_at malloc_at foreign size s = Ok (r, s') -> pool_step s s'
| step_free p cap s' :
    live_cap s p = Some cap -> mp_free foreign p s = Ok s' -> pool_step s s'
| step_realloc p cap size r mv s' :
    live_cap s p = Some cap -> 0 <= size <= SIZE_MAX - 31 ->
    mp_realloc mmap_at malloc_at foreign p size s = Ok (r, mv, s') -> pool_step s s'.

Context `{!PlacementLaws mmap_at malloc_at} `{!Unmarked foreign}.

Lemma mp_realloc_zero s p cap :
  pool_inv s -> live_cap s p = Some cap ->
  exists s', mp_realloc mmap_at malloc_at foreign p 0 s = Ok (None, None, s') /\ pool_inv s' /\ released s s' p.
Proof.
  intros I Hp. destruct (old_capacity_spec mmap_at malloc_at foreign s p cap I Hp) as (_ & _ & Hne & _).
  destruct (mp_free_spec mmap_at malloc_at foreign s p cap I Hp) as (s' & Hf & I' & Hr). unfold mp_realloc.
  rewrite (proj2 (Z.eqb_neq p 0)) by done. change (0 =? 0) with true. run. rewrite Hf. run. eauto.
Qed.

(** What a successful [mp_realloc] did: nothing, or a move. *)
Lemma mp_realloc_some s p cap size r mv s' :
  pool_inv s -> live_cap s p = Some cap -> 0 < size <= SIZE_MAX - 31 ->
  mp_realloc mmap_at malloc_at foreign p size s = Ok (r, mv, s') ->
  pool_inv s' /\
  match r with
  | Some p' => (p' = p /\ s' = s /\ size <= cap + SIZEOF_HEADER) \/ moved s s' p p' size
  | None => forall q, live_cap s' q = live_cap s q
  end.
Proof.
  intros I Hp Hs Hr.
  destruct (mp_realloc_spec mmap_at malloc_at foreign s p cap size I Hp Hs)
    as (oc & _ & Hoc & [[Hle Hq] | [(_ & s1 & Hq & I1 & Hsame) | [(_ & _ & p' & s1 & Hq & I1 & Hm) | (_ & _ & Hq)]]]);
    rewrite Hr in Hq; try discriminate Hq; injection Hq as -> -> ->; split; auto. left. split_and!; [done | done | lia].
Qed.

(** [mp_realloc] ends when it need not copy or the copy stays in the object. *)
Lemma realloc_defined s p cap :
  pool_inv s -> live_cap s p = Some cap ->
  exists oc, old_capacity foreign p s = Ok (Some oc) /\ cap <= oc <= cap + SIZEOF_HEADER /\
  forall size, 0 <= size <= SIZE_MAX - 31 -> size <= oc \/ oc = cap \/ mapped s p oc = true ->
    exists r, mp_realloc mmap_at malloc_at foreign p size s = Ok r.
Proof.
  intros I Hp. destruct (old_capacity_spec mmap_at malloc_at foreign s p cap I Hp) as (oc & Hoc & _ & Hle). exists oc.
  split_and!; [done | lia | lia |]. intros size Hs Hwhy. destruct (decide (size = 0)) as [-> | Hne].
  { destruct (mp_realloc_zero s p cap I Hp) as (? & -> & _). eauto. }
  destruct (mp_realloc_spec mmap_at malloc_at foreign s p cap size I Hp ltac:(lia))
    as (oc' & Hoc' & _ & [[_ ->] | [(_ & ? & -> & _) | [(_ & _ & ? & ? & -> & _) | (Hlt & Hmap & _)]]]); eauto.
  assert (oc' = oc) as -> by congruence. destruct Hwhy as [? | [-> | ?]]; [lia | | congruence].
  by rewrite (live_mapped mmap_at malloc_at foreign s p cap I Hp) in Hmap.
Qed.

Lemma pool_step_inv s s' : pool_inv s -> pool_step s s' -> pool_inv s'.
Proof.
  intros I [size r s1 Hs Hm | p cap s1 Hp Hf | p cap size r mv s1 Hp Hs Hr].
  - destruct (mp_malloc_spec mmap_at malloc_at foreign s size I Hs) as (r' & s2 & Hm' & [I' _]). rewrite Hm in Hm'. by injection Hm' as _ <-.
  - destruct (mp_free_spec mmap_at malloc_at foreign s p cap I Hp) as (s2 & Hf' & I' & _). rewrite Hf in Hf'. by injection Hf' as <-.
  - destruct (decide (size = 0)) as [-> | Hne].
    + destruct (mp_realloc_zero s p cap I Hp) as (s2 & Hr' & I' & _). rewrite Hr in Hr'. by injection Hr' as _ _ <-.
    + by destruct (mp_realloc_some s p cap size r mv s1 I Hp ltac:(lia) Hr).
Qed.

Lemma pool_reach_inv s : rtc pool_step mp_create s -> pool_inv s.
Proof.
  intros Hr. remember mp_create as s0 eqn:He. assert (I : pool_inv s0) by (subst; apply mp_create_inv). clear He.
  induction Hr as [| s0 s1 s2 Hst _ IH]; [done |]. apply IH. by eapply pool_step_inv.
Qed.

(** The operations as the interface has them. *)
Lemma pool_malloc_ok n s r s' :
  pool_inv s -> kvs_malloc (Allocator := pool_allocator) n s = (r, s') -> alloc_result s n r s'.
Proof.
  cbn. unfold sized, pool_malloc. intros I Hm. destruct ((0 <=? n) && (n <=? SIZE_MAX - 31)) eqn:Hn;
    [| by injection Hm as <- <-; split].
  destruct (mp_malloc_spec mmap_at malloc_at foreign s n I ltac:(lia)) as (r1 & s1 & Hrun & Hr). rewrite Hrun in Hm. by injection Hm as -> ->.
Qed.

Lemma pool_free_ok p s cap : pool_inv s -> live_cap s p = Some cap -> pool_inv (pool_free p s) /\ released s (pool_free p s) p.
Proof.
  intros I Hp. unfold pool_free. by destruct (mp_free_spec mmap_at malloc_at foreign s p cap I Hp) as (s' & -> & I' & Hr).
Qed.

Lemma pool_realloc_ok p n s cap r s' :
  pool_inv s -> live_cap s p = Some cap -> kvs_realloc (Allocator := pool_allocator) p n s = Ok (r, s') ->
  pool_inv s' /\
  match r with
  | Some p' => (p' = p /\ s' = s /\ n <= cap + SIZEOF_HEADER) \/ moved s s' p p' n
  | None => forall q, live_cap s' q = live_cap s q
  end.
Proof.
  cbn. unfold sized, pool_realloc. intros I Hp Hr. destruct ((1 <=? n) && (n <=? SIZE_MAX - 31)) eqn:Hn;
    [| by injection Hr as <- <-].
  destruct (mp_realloc _ _ _ p n s) as [[[r1 mv] s1] | |] eqn:Hq; [| done..]. cbn in Hr. injection Hr as <- <-.
  by apply (mp_realloc_some s p cap n r1 mv s1 I Hp ltac:(lia)).
Qed.

Lemma live_set_same s s' : (forall q, live_cap s' q = live_cap s q) -> mp_live s' = mp_live s.
Proof. intros Hs. apply set_eq. intros q. by rewrite !mp_live_spec, Hs. Qed.

Lemma live_set_moved s s' p p' n : moved s s' p p' n -> p' ∉ mp_live s /\ mp_live s' = {[p']} ∪ (mp_live s ∖ {[p]}).
Proof.
  intros (Hne & Hnone & Hgone & (cap' & Hsome & _) & Hoth). split; [rewrite mp_live_spec, Hnone; by intros [] |].
  apply set_eq. intros q. rewrite elem_of_union, elem_of_difference, !elem_of_singleton, !mp_live_spec.
  destruct (decide (q = p)) as [-> | Hq]; [rewrite Hgone; split; [by intros [] | intros [-> | [_ ?]]; done] |].
  destruct (decide (q = p')) as [-> | Hq']; [rewrite Hsome; naive_solver | rewrite Hoth by done; tauto].
Qed.

Lemma pool_laws : @AllocatorLaws kvs_mempool_t pool_allocator.
Proof.
  split.
  - intros n s p s' I Hm. destruct (pool_malloc_ok _ _ _ _ I Hm) as [I' (cap & _ & Hnone & Hsome & Hoth)]. cbn.
    rewrite mp_live_spec. split; [rewrite Hnone; by intros [] |].
    split; [| done]. apply set_eq. intros q. rewrite elem_of_union, elem_of_singleton, !mp_live_spec.
    destruct (decide (q = p)) as [-> | Hne]; [rewrite Hsome; naive_solver | rewrite Hoth by done; naive_solver].
  - intros n s s' I Hm. destruct (pool_malloc_ok _ _ _ _ I Hm) as [I' Hr]. cbn. split; [by apply live_set_same | done].
  - intros p s I [cap Hp]%mp_live_spec. cbn. destruct (pool_free_ok p s cap I Hp) as (I' & Hgone & Hoth).
    split; [| done]. apply set_eq. intros q. rewrite elem_of_difference, elem_of_singleton, !mp_live_spec.
    destruct (decide (q = p)) as [-> | Hne]; [rewrite Hgone | rewrite Hoth by done; tauto]. split; [by intros [] | tauto].
  - intros p n s p' s' I [cap Hp]%mp_live_spec Hr. destruct (pool_realloc_ok _ _ _ _ _ _ I Hp Hr) as [I' [(-> & -> & _) | Hm]]; cbn.
    + split; [set_solver |]. split; [| done]. assert (p ∈ mp_live s) by (by apply mp_live_spec).
      apply set_eq. intros q. destruct (decide (q = p)); set_solver.
    + destruct (live_set_moved _ _ _ _ _ Hm) as [Hn Hl]. split; [set_solver | done].
  - intros p n s s' I [cap Hp]%mp_live_spec Hr. destruct (pool_realloc_ok _ _ _ _ _ _ I Hp Hr) as [I' Hs]. cbn.
    split; [by apply live_set_same | done].
  - intros n s p s' I Hm. destruct (pool_malloc_ok _ _ _ _ I Hm) as [I' (cap & Hcap & Hnone & Hsome & Hoth)]. cbn.
    rewrite Hsome. split; [done |]. intros q [c Hq]%mp_live_spec. rewrite Hoth; [done |]. congruence.
  - intros p s q I [cap Hp]%mp_live_spec _ Hne. cbn. destruct (pool_free_ok p s cap I Hp) as (_ & _ & Hoth). by rewrite Hoth.
  - intros p n s p' s' q I [cap Hp]%mp_live_spec Hr [c Hq]%mp_live_spec Hne. cbn.
    destruct (pool_realloc_ok _ _ _ _ _ _ I Hp Hr) as [_ [(_ & -> & _) | (_ & Hnone & _ & _ & Hoth)]]; [done |].
    rewrite Hoth; [done | done |]. congruence.
Qed.
End Interface.

(** ** A placement

    New objects on the first page after all others. *)
Definition after (t : nat) (n : Z) (objs : list (Z * Z)) : option Z :=
  let last := foldr (fun r e => Z.max (r.1 + r.2) e) PAGE_SIZE objs in
  let p := (last / PAGE_SIZE + 1) * PAGE_SIZE in
  if p + n <? 2 ^ 63 then Some p else None.

(** Memory that is not a header reads as zeros. *)
Definition zeros (p : Z) : block_header_t := BlockHeader 0 0 0 0 0.

Lemma after_last (objs : list (Z * Z)) :
  let last := foldr (fun r e => Z.max (r.1 + r.2) e) PAGE_SIZE objs in
  PAGE_SIZE <= last /\ forall r, r ∈ objs -> r.1 + r.2 <= last.
Proof.
  induction objs as [| r objs [IH1 IH2]]; cbn; [split; [done | intros r; by rewrite elem_of_nil] |].
  split; [lia |]. intros r' [-> | Hr]%elem_of_cons; [lia |]. specialize (IH2 r' Hr). lia.
Qed.

Lemma after_fresh t n objs p : 0 < n -> after t n objs = Some p -> fresh (p, n) objs /\ p mod PAGE_SIZE = 0.
Proof.
  intros Hn. unfold after. destruct (after_last objs) as [Hlast Hall]. set (last := foldr _ _ _) in *.
  destruct (Z.ltb_spec ((last / PAGE_SIZE + 1) * PAGE_SIZE + n) (2 ^ 63)); [| done]. intros [= <-].
  pose proof (Z.div_mod last PAGE_SIZE ltac:(done)). pose proof (Z.mod_pos_bound last PAGE_SIZE ltac:(done)).
  assert (last < (last / PAGE_SIZE + 1) * PAGE_SIZE) by lia. unfold PAGE_SIZE in Hlast.
  split; [| by apply Z.mod_mul]. split; [unfold in_space; cbn; lia |]. intros r Hr. specialize (Hall r Hr).
  unfold apart. cbn. lia.
Qed.

#[export] Instance after_laws : PlacementLaws after after.
Proof.
  split; [apply after_fresh |]. intros t n objs p Hn Hp. by apply (after_fresh t n objs p Hn).
Qed.

#[export] Instance zeros_unmarked : Unmarked zeros.
Proof. done. Qed.
