(* ===== verification/MempoolClaims.v ===== *)
(** * MempoolClaims: what the memory pool promises

    For every placement of the operating system's objects: the pool implements
    the allocation interface of the store, serves any sequence of calls, ends
    with nothing mapped, and carries an engine through its life. The faults at
    the end show where it does not do what its callers need. *)

From S2P Require Import Prelude CLib Alloc Engine Bag Skiplist SkiplistFacts Protocol Store Mempool MempoolFacts MempoolOps MempoolEnd.



(** C14: [mp_malloc] of at most [SIZE_MAX - 31] bytes (beyond that the rounding
    of the size wraps around) ends, and the block it answers with has at least
    the bytes asked for, overlaps no other live block, and changes no other
    block. Of [mmap] and [malloc] it is assumed that they place objects outside
    the live ones. *)
Theorem malloc_enough mmap_at malloc_at foreign s size :
  PlacementLaws mmap_at malloc_at -> pool_inv s -> 0 <= size <= SIZE_MAX - 31 ->
  exists r s', mp_malloc mmap_at malloc_at foreign size s = Ok (r, s') /\ pool_inv s' /\
    match r with
    | Some p => exists cap, size <= cap /\ live_cap s p = None /\ live_cap s' p = Some cap /\
        (forall q, q <> p -> live_cap s' q = live_cap s q) /\ forall q c, live_cap s q = Some c -> apart (p, cap) (q, c)
    | None => forall q, live_cap s' q = live_cap s q
    end.
Proof.
  intros HP I Hsize. destruct (mp_malloc_spec mmap_at malloc_at foreign s size I Hsize) as ([p |] & s' & -> & I' & Hr); eexists _, _; (split; [done |]; split; [done |]); [| done].
  destruct Hr as (cap & Hcap & Hnone & Hp & Hoth). exists cap. split_and!; [done.. |].
  intros q c Hq. assert (Hne : q <> p) by congruence. apply (live_apart s'); [done | done | by rewrite Hoth | done].
Qed.

Lemma malloc_enough_witness :
  exists r s', mp_malloc after after zeros 100 mp_create = Ok (r, s') /\ pool_inv s' /\
    match r with
    | Some p => exists cap, 100 <= cap /\ live_cap mp_create p = None /\ live_cap s' p = Some cap /\
        (forall q, q <> p -> live_cap s' q = live_cap mp_create q) /\ forall q c, live_cap mp_create q = Some c -> apart (p, cap) (q, c)
    | None => forall q, live_cap s' q = live_cap mp_create q
    end.
Proof. apply (malloc_enough after after zeros mp_create 100); [exact after_laws | exact mp_create_inv | done]. Defined.

(** C13: from the start of the pool on, whatever blocks its user asks for, resizes
    and gives back: the pool is well formed, live blocks do not overlap, and the
    next [mp_malloc] or [mp_free] of a live block ends without an undefined
    action. So does the next [mp_realloc] of a live block, unless it has to
    grow past the capacity the code assumes and the copy of that many bytes leaves
    the slab. The bytes in front of blocks without header never carry the mark
    of a header. *)
Theorem pool_run_safe mmap_at malloc_at foreign s :
  PlacementLaws mmap_at malloc_at -> Unmarked foreign -> rtc (pool_step mmap_at malloc_at foreign) mp_create s ->
  pool_inv s /\
  (forall p c q d, live_cap s p = Some c -> live_cap s q = Some d -> p <> q -> apart (p, c) (q, d)) /\
  (forall size, 0 <= size <= SIZE_MAX - 31 -> exists r, mp_malloc mmap_at malloc_at foreign size s = Ok r) /\
  (forall p c, live_cap s p = Some c -> exists s', mp_free foreign p s = Ok s' /\ live_cap s' p = None) /\
  (forall p c, live_cap s p = Some c ->
     exists oc, old_capacity foreign p s = Ok (Some oc) /\ c <= oc <= c + SIZEOF_HEADER /\
     forall size, 0 <= size <= SIZE_MAX - 31 -> size <= oc \/ oc = c \/ mapped s p oc = true ->
       exists r, mp_realloc mmap_at malloc_at foreign p size s = Ok r).
Proof.
  intros HP HU Hr. pose proof (pool_reach_inv mmap_at malloc_at foreign s Hr) as I. split_and!; [done | | | |].
  - intros p c q d. by apply live_apart.
  - intros size Hs. destruct (mp_malloc_spec mmap_at malloc_at foreign s size I Hs) as (? & ? & -> & _). eauto.
  - intros p c Hp. destruct (mp_free_spec mmap_at malloc_at foreign s p c I Hp) as (s' & -> & _ & Hgone & _). eauto.
  - intros p c Hp. by apply (realloc_defined mmap_at malloc_at foreign).
Qed.

(** A state after two calls: a block of 5000 bytes and one of 8000. *)
Definition two_blocks : kvs_mempool_t :=
  match ('(_, s) ← mp_malloc after after zeros 5000 mp_create; mp_malloc after after zeros 8000 s) with
  | Ok (_, s) => s
  | _ => mp_create
  end.

Lemma two_blocks_run : rtc (pool_step after after zeros) mp_create two_blocks.
Proof.
  destruct (mp_malloc after after zeros 5000 mp_create) as [[r1 s1] | |] eqn:H1; [| by vm_compute in H1..].
  apply rtc_l with s1; [by apply (step_malloc _ _ _ _ 5000 r1) |].
  vm_compute in H1. injection H1 as <- <-. eapply rtc_once, (step_malloc _ _ _ _ 8000); [done | vm_compute; reflexivity].
Qed.

Lemma two_blocks_inv : pool_inv two_blocks.
Proof. exact (pool_reach_inv after after zeros two_blocks two_blocks_run). Qed.

Lemma pool_run_safe_witness :
  rtc (pool_step after after zeros) mp_create two_blocks /\ pool_inv two_blocks.
Proof.
  pose proof two_blocks_run as Hrun. split; [exact Hrun |]. apply (pool_run_safe after after zeros two_blocks); [exact after_laws | exact zeros_unmarked | exact Hrun].
Defined.

(** C15: [mp_destroy] ends with no region mapped; of the blocks of [malloc] it
    leaves those of the requests beyond [LARGE_THRESHOLD] that are still live,
    none when no block is live. *)
Theorem destroy_unmaps_all s :
  pool_inv s ->
  exists s', mp_destroy s = Ok s' /\ os_maps s' = [] /\
    (forall r, r ∈ os_blocks s' <-> r ∈ os_blocks s /\ LARGE_THRESHOLD < r.2) /\
    ((forall p, live_cap s p = None) -> os_blocks s' = []).
Proof.
  intros I. destruct (mp_destroy_spec s I) as (s' & Hrun & Hm & Hb). exists s'. split_and!; [done.. |].
  intros Hdead. by apply (destroy_dead s s').
Qed.

Lemma destroy_unmaps_all_witness :
  exists s', mp_destroy two_blocks = Ok s' /\ os_maps s' = [] /\
    (forall r, r ∈ os_blocks s' <-> r ∈ os_blocks two_blocks /\ LARGE_THRESHOLD < r.2) /\
    ((forall p, live_cap two_blocks p = None) -> os_blocks s' = []).
Proof. apply (destroy_unmaps_all two_blocks). exact two_blocks_inv. Defined.

(** C16: a storage engine on the pool, from [mp_create] to [mp_destroy]: the skip
    list answers any list of requests as a finite map does, also when memory runs
    out, and when engine and pool are destroyed nothing of the operating system's
    memory is left. The condition [Unmarked] is on the keys and values: those stored
    in front of a block without header do not end in the mark of a header. *)
Theorem engine_on_pool mmap_at malloc_at foreign random ops s a1 :
  PlacementLaws mmap_at malloc_at -> Unmarked foreign ->
  let ALLOC := pool_allocator mmap_at malloc_at foreign in
  kvs_skiplist_create (MkSkipList None 0 ∅ 0) mp_create = (0, s, a1) ->
  exists outs s' a2 s'' a3 a4,
    e_run (ENG := skip_engine random) ops s a1 = Ok (outs, s', a2) /\
    abs_run (al_can_fail kvs_mempool_t) (fun _ => false) 1 ∅ ops outs (bag_map (sk_entries s')) /\
    kvs_skiplist_destroy s' a2 = Ok (s'', a3) /\
    mp_destroy a3 = Ok a4 /\ os_maps a4 = [] /\ os_blocks a4 = [].
Proof.
  intros HP HU ALLOC Hc. pose proof (pool_laws mmap_at malloc_at foreign) as LAWS. fold ALLOC in LAWS.
  assert (I0 : al_inv mp_create) by exact mp_create_inv.
  destruct (skip_create_spec random 0 0 mp_create s a1 I0 Hc) as (Hwf & He & Hl).
  pose proof (skip_laws random) as EL.
  destruct (run_correct ops s a1 Hwf) as (outs & s' & a2 & Hr & Hwf' & Hf & Habs).
  destruct (skip_destroy_spec random s' a2 Hwf') as (s'' & a3 & Hd & Hl3 & I3).
  destruct (mp_destroy_spec a3 I3) as (a4 & Hrun & Hm & Hb).
  exists outs, s', a2, s'', a3, a4. split_and!; [done | by rewrite <- He | done | done | done |].
  apply (destroy_dead a3); [exact I3 | done |]. intros p.
  assert (Hlive : al_live a3 = al_live mp_create) by (rewrite Hl3, <- Hl; apply Hf).
  apply eq_None_not_Some. rewrite <- mp_live_spec. change (mp_live a3 = mp_live mp_create) in Hlive.
  rewrite Hlive, mp_live_spec. by intros [].
Qed.

Lemma engine_on_pool_witness :
  let ALLOC := pool_allocator after after zeros in
  let a := mp_create in let c := kvs_skiplist_create (MkSkipList None 0 ∅ 0) a in
  let ops := [OpSet (BS "k") (BS "1"); OpSet (BS "k") (BS "2"); OpMod (BS "k") (BS "3"); OpGet (BS "k"); OpDel (BS "x")] in
  exists outs s' a2 s'' a3 a4,
    e_run (ENG := skip_engine (fun n => Z.of_nat n)) ops c.1.2 c.2 = Ok (outs, s', a2) /\
    abs_run (al_can_fail kvs_mempool_t) (fun _ => false) 1 ∅ ops outs (bag_map (sk_entries s')) /\
    kvs_skiplist_destroy s' a2 = Ok (s'', a3) /\
    mp_destroy a3 = Ok a4 /\ os_maps a4 = [] /\ os_blocks a4 = [].
Proof.
  intros ALLOC a c ops. apply (engine_on_pool after after zeros (fun n => Z.of_nat n) ops c.1.2 c.2); [exact after_laws | exact zeros_unmarked |].
  assert (Hr : c.1.1 = 0) by (by vm_compute). fold a c. by rewrite <- Hr, <- !surjective_pairing.
Defined.

(** ** Faults *)

(** [mp_realloc] takes the class size of a block with a header for its
    capacity: the record buffer of [kvs_file_read], 1025 bytes, resized to 1271, stays
    where it is with 1256 usable bytes. *)
Theorem realloc_short_block :
  ('(p, s) ← mp_malloc after after zeros (1024 + 1) mp_create;
   '(q, mv, s) ← mp_realloc after after zeros (default 0 p) (1270 + 1) s;
   Ok (bool_decide (q = p), mv, q ≫= live_cap s)) = Ok (true, None, Some 1256).
Proof. vm_compute. reflexivity. Qed.

(** The copy of [mp_realloc] takes the bytes of the header for bytes of the block as well:
    when the block is the last of its slab, the copy leaves the slab. *)
Theorem realloc_past_slab mmap_at malloc_at foreign s p cap oc size q s1 :
  PlacementLaws mmap_at malloc_at -> Unmarked foreign -> pool_inv s ->
  live_cap s p = Some cap -> old_capacity foreign p s = Ok (Some oc) -> mapped s p oc = false ->
  oc < size -> 0 < size <= SIZE_MAX - 31 -> mp_malloc mmap_at malloc_at foreign size s = Ok (Some q, s1) ->
  mp_realloc mmap_at malloc_at foreign p size s = Undef.
Proof.
  intros HP HU I Hp Hoc Hmap Hlt Hs Hm.
  destruct (old_capacity_spec mmap_at malloc_at foreign s p cap I Hp) as (oc' & Hoc' & Hp0 & Hle).
  assert (oc' = oc) as -> by congruence.
  pose proof (mapped_kept mmap_at malloc_at foreign s s1 p cap oc I) as Hk. unfold mp_realloc.
  rewrite (proj2 (Z.eqb_neq p 0)), (proj2 (Z.eqb_neq size 0)), Hoc by lia. run.
  rewrite (proj2 (Z.leb_gt size oc)), Hm by lia. run. rewrite Hk, Hmap; [done | | | done].
  - destruct (mp_malloc_spec mmap_at malloc_at foreign s size I ltac:(lia)) as (? & s2 & Hm' & [I' _]). rewrite Hm in Hm'. by injection Hm' as _ <-.
  - by apply (mp_malloc_objects mmap_at malloc_at foreign s size (Some q) s1).
Qed.

(** [n] buffers of a connection, 4097 bytes each: the last one and the pool. *)
Fixpoint buffers (n : nat) (s : kvs_mempool_t) : res (option Z * kvs_mempool_t) :=
  match n with
  | O => Ok (None, s)
  | S O => mp_malloc after after zeros (4096 + 1) s
  | S n => '(_, s) ← mp_malloc after after zeros (4096 + 1) s; buffers n s
  end.

(** Eight connection buffers fill a slab; the growth of the last one reads past it. *)
Theorem eighth_buffer_past_slab :
  ('(p, s) ← buffers 7 mp_create; '(q, mv, s) ← mp_realloc after after zeros (default 0 p) (8192 + 1) s; Ok (bool_decide (q = p))) = Ok false /\
  ('(p, s) ← buffers 8 mp_create; mp_realloc after after zeros (default 0 p) (8192 + 1) s) = Undef.
Proof. split; vm_compute; reflexivity. Qed.

(** A connection on the pool, with [pos] bytes of replies waiting in its write buffer of 4097 bytes. *)
Definition pool_client (pos : Z) : res (client_info * kvs_mempool_t) :=
  '(p, s) ← mp_malloc after after zeros (4096 + 1) mp_create;
  Ok (ClientInfo 0 0 [] 0 0 0 0 (default 0 p) (replicate 4097 0) 4096 pos 0 PROTO_UNKNOWN None, s).

(** The value [v] as the next reply. *)
Definition next_value (v : list Z) (cli : client_info) (s : kvs_mempool_t) : res (client_info * kvs_mempool_t) :=
  '(r, _, s) ← reply_value (H := pool_allocator after after zeros) v cli s;
  '(len, cli) ← of_option r; Ok (set_w_pos (w_pos cli + len) cli, s).

(** The write buffer of a connection has 5096 usable bytes, and [mp_realloc] to
    5097 .. 5120 bytes returns it as it is: with 4064 bytes of replies waiting, the
    reply to a GET of a value of 1008 bytes still fits, and that to the next GET, of
    20 bytes, is written past its end. *)
Theorem reply_past_block :
  ('(cli, s) ← pool_client 4064; '(cli, s) ← next_value (replicate 1008 65) cli s; Ok (w_cap cli, w_pos cli, zlen (wbuf cli)))
    = Ok (5119, 5081, 5096) /\
  ('(cli, s) ← pool_client 4064; '(cli, s) ← next_value (replicate 1008 65) cli s; next_value (replicate 20 65) cli s) = Undef.
Proof. split; vm_compute; reflexivity. Qed.

(** The bytes in front of the block at [a] are those of a header with the mark
    and the flag of a large block: a string of the user, without a NUL. *)
Definition forged (a q : Z) : block_header_t :=
  if q =? a - SIZEOF_HEADER then BlockHeader BLOCK_MAGIC 0x41 BLOCK_FLAG_LARGE 0 0 else zeros q.

(** [mp_free] trusts the bytes in front of a block without header: when the
    block before it holds the mark of a header, freeing a live block of the pool
    passes an address inside a slab to [free]. *)
Theorem forged_header_free :
  ('(p, s) ← mp_malloc after after zeros 100 mp_create;
   '(q, s) ← mp_malloc after after zeros 100 s;
   let q := default 0 q in
   Ok (live_cap s q, mp_free (forged q) q s ≫= fun _ => Ok tt)) = Ok (Some 112, Undef).
Proof. vm_compute. reflexivity. Qed.
