(* ===== verification/SystemClaims.v ===== *)
(** * SystemClaims: what the server as a whole guarantees

    A request is answered as the abstract store answers it; a connection is
    served whatever the segmentation of its stream; the log holds the successful
    writes; restarts find the contents again, and lose what was logged behind a
    torn record; a full synchronisation copies them. Each with an instance: a server with small tables, an allocator
    without limit and a ring that completes in order. *)

From S2P Require Import Prelude CLib Alloc Protocol ProtocolFacts Engine Owner Bag Uring Log LogFacts Store StoreFacts RequestFacts Save SaveFacts LoadFacts.
From S2P Require Import Array Hash Skiplist SkiplistFacts Rbtree RbTheory RbHeap RbLoops RbFacts RbEngine.
From S2P Require Import Net Server ServerFacts Sync SyncFacts System RecoveryFacts Main MainFacts.

(** ** Requests and connections, for any engines and modules that keep their
    contracts *)

Section Requests.
Context {A TA TR TH TL X : Type} `{AL : AllocatorLaws A} `{TOT : !AllocatorTotal A}.
Context `{EA : !Engine A TA} `{ER : !Engine A TR} `{EH : !Engine A TH} `{EL : !Engine A TL}.
Context `{LA : !EngineLaws A TA} `{LR : !EngineLaws A TR} `{LH : !EngineLaws A TH} `{LL : !EngineLaws A TL}.
Context `{MX : !Modules A (engines TA TR TH TL) X} `{ML : !ModulesLaws A (engines TA TR TH TL) X}.
Implicit Types (st : store TA TR TH TL X) (a : A).

(** C1: [kvs_protocol] on a receive buffer that starts with the frame of an
    engine request (any of the twenty commands) never leaves defined behaviour,
    answers as the finite map of that engine does with the reply text of the
    code ([reply_of]; for [HDEL] of an absent key that is [-ERR message], not
    the [$-1] of the README, see [del_absent_reply]), leaves the other engines
    alone, hands exactly the successful writes outside recovery to the log and
    the replication, and neither leaks nor releases a block of another
    component. [AllocatorTotal] is assumed: no allocation fails and a
    reallocated block has the size asked for, as with the C library while memory
    is left and unlike the pool (see [reply_past_block]). [request_fits] bounds
    the lengths so that the sizes of the write buffer stay in an [int]. *)
Theorem request_refines q extra st others cli a :
  request_ok q -> store_wf st ({[wbuf_p cli]} :: others) a -> cli_wf cli ->
  request_fits q.2 (db (eng st) q.1) (w_cap cli) ->
  rbuf cli = kvsp_frame (tokens_of q) ++ 0 :: extra -> protocol cli = PROTO_KVSP ->
  cmd_tl cli = zlen (kvsp_frame (tokens_of q)) -> cmd_hl cli = zlen (fmt_head (zlen (kvsp_body (tokens_of q)))) ->
  exists x b cli' st' a',
    kvs_protocol cli st a = Ok (zlen (reply_of q x), cli', st', a') /\
    db_step (db_full_of (TA := TA) (TR := TR) (TH := TH) (TL := TL)) (db_absent_of (TA := TA) (TR := TR) (TH := TH) (TL := TL))
      q x (db (eng st)) (db (eng st')) /\
    is_recovering st' = is_recovering st /\ recorded q x st st' /\
    same_outside (cmd_hl cli) (cmd_tl cli) (rbuf cli) b /\ replied (reply_of q x) (set_rbuf b cli) cli' /\
    store_wf st' ({[wbuf_p cli']} :: others) a' /\
    store_frame st ({[wbuf_p cli]} :: others) a st' ({[wbuf_p cli']} :: others) a'.
Proof. apply protocol_run. Qed.

(** C2: an accepted connection: however the bytes of a list of requests are cut
    into segments and however much each [send] takes, the coroutine answers
    every request, in order, as the abstract store does, never writes outside
    its buffers, ends when the peer closes, and returns the three blocks of the
    connection. [V] bounds the values (below 10^9 bytes), [W] all replies
    together and [L] the stream (both at most 2^28 bytes), so that the [int]
    sizes do not overflow. [AllocatorTotal] is assumed: no allocation fails and
    a reallocated block has the size asked for, which the pool does not
    guarantee ([reply_past_block]). *)
Theorem session_answers V W L fd reqs chunks sends st a others :
  0 <= V < 10 ^ 9 -> 2 * W + 4096 <= 2 ^ 29 -> V + 64 <= W -> L <= 2 ^ 28 ->
  store_wf st others a -> Z.of_nat (length reqs) * (V + 32) <= W ->
  Forall (fun c => 0 < zlen c <= SERVER_BUFFER_SIZE) chunks -> mjoin chunks = frames (tokens_of <$> reqs) ->
  zlen (mjoin chunks) <= L -> Forall request_ok reqs -> Forall (fun r => op_below V r.2) reqs ->
  values_below V (db (eng st)) -> Forall (fun r => 0 < r) sends ->
  exists xs rs st' a',
    server kvs_protocol fd (Datatypes.S (length chunks)) (Sock (Some <$> chunks) [] sends) st a
      = Ok (Continue, Sock [] (replies reqs xs) rs, st', a') /\
    store_run reqs xs st st' /\ store_wf st' others a' /\ store_frame st others a st' others a'.
Proof.
  intros HV HW HVW HL Hwf Hn Hc Hj Hl Hok Hb Hv Hs.
  destruct (session_run V W HV HW HVW L HL fd reqs chunks sends st a others Hwf Hn Hc Hj Hl Hok Hb Hv Hs) as (xs & rs & st' & a' & Hrun & _ & Hst).
  exists xs, rs, st', a'. done.
Qed.

End Requests.

(** ** The whole server *)

Section Server.
Context {A R : Type} `{AL : AllocatorLaws A} `{TOT : !AllocatorTotal A} `{UL : UringLaws R} `{UT : !UringTotal R}.
Context (XXH : list Z -> Z) (SIZE HSIZE : Z) (random : nat -> Z).
Context (Hsize : 0 < SIZE) (Hhsize : 0 < HSIZE <= INT_MAX).
Notation engines := (engines kvs_array_t rbtree kvs_hash_t SkipList).
Notation store := (store kvs_array_t rbtree kvs_hash_t SkipList (modules R)).

#[local] Existing Instance system_modules.
#[local] Instance sc_array : Engine A kvs_array_t := mf_array SIZE.
#[local] Instance sc_rbtree : Engine A rbtree := mf_rbtree.
#[local] Instance sc_hash : Engine A kvs_hash_t := mf_hash XXH HSIZE.
#[local] Instance sc_skip : Engine A SkipList := mf_skip random.
#[local] Instance sc_array_laws : EngineLaws A kvs_array_t := array_laws SIZE Hsize.
#[local] Instance sc_hash_laws : EngineLaws A kvs_hash_t := hash_laws XXH HSIZE Hhsize.

(** C26: a connection whose requests the server answers with [replies reqs xs]
    while the log is on leaves in the log file, once the writes in flight are
    carried out, what was there and then exactly the frames of its successful
    writes, in the order they were answered. No allocation fails and no disk
    write fails or is short: the server does not look at the results of
    [kvs_log_write] and of the completions. [V], [W] and [L] bound values,
    replies and stream as in the session. *)
Theorem log_holds_writes V W L fd reqs chunks sends (st : store) (a : A) others :
  0 <= V < 10 ^ 9 -> 2 * W + 4096 <= 2 ^ 29 -> V + 64 <= W -> L <= 2 ^ 28 ->
  store_wf st others a -> Z.of_nat (length reqs) * (V + 32) <= W ->
  Forall (fun c => 0 < zlen c <= SERVER_BUFFER_SIZE) chunks -> mjoin chunks = frames (tokens_of <$> reqs) ->
  zlen (mjoin chunks) <= L -> Forall request_ok reqs -> Forall (fun r => op_below V r.2) reqs ->
  values_below V (db (eng st)) -> Forall (fun r => 0 < r) sends -> logging st ->
  exists xs rs st' a',
    server kvs_protocol fd (Datatypes.S (length chunks)) (Sock (Some <$> chunks) [] sends) st a
      = Ok (Continue, Sock [] (replies reqs xs) rs, st', a') /\
    logging st' /\ logged st' = logged st ++ frames (tokens_of <$> writes reqs xs).
Proof.
  intros HV HW HVW HL Hwf Hn Hc Hj Hl Hok Hb Hv Hs Hlg.
  destruct (session_run V W HV HW HVW L HL fd reqs chunks sends st a others Hwf Hn Hc Hj Hl Hok Hb Hv Hs) as (xs & rs & st' & a' & Hrun & _ & Hst & _).
  exists xs, rs, st', a'. split; [exact Hrun |]. by eapply run_logged.
Qed.

(** C3: durability. A server started empty served the requests [qs]; its log,
    below 2 GB, reached the disk up to byte [k], in the middle of a frame or
    not. The next start reads the log without leaving defined behaviour and
    finds the contents the server had after a prefix of the requests, after all
    of them when the whole log is there. Assumed are the tables of the array and
    the hash engine zero filled by the allocator ([zero_cells], [zero_heads];
    the code does not fill them), no failing allocation and blocks of
    [kvs_realloc] of the size asked for ([AllocatorTotal]: the pool gives less
    for records of 1256 to 1279 bytes, [realloc_short_block]), and no failed or
    short disk write ([UringTotal]). *)
Theorem log_recovery qs xs (st st' : store) k junk sw sy fd a :
  store_run qs xs st st' -> Forall request_ok qs -> logging st -> logged st = [] -> (forall e, db (eng st) e = ∅) ->
  zlen (logged st') < INT_MAX -> al_inv a -> switched sw -> 0 <= fd ->
  exists n stn st1 a1, (n <= length qs)%nat /\ store_run (take n qs) (take n xs) st stn /\
    kvs_init XXH SIZE HSIZE random (zero_cells SIZE) (zero_heads HSIZE) junk None true true
      (LogEnv fd true true (take k (logged st'))) (fresh_modules sw sy) a = Ok (st1, a1) /\
    (forall e, db (eng st1) e = db (eng stn) e) /\ ((length (logged st') <= k)%nat -> n = length qs).
Proof. apply (log_recovers XXH SIZE HSIZE random Hsize Hhsize). Qed.

(** C4: a start that reads a snapshot taken after the first [n] requests and
    then replays the whole log from its beginning finds the final contents: the
    writes the snapshot already contains do not disturb it, provided the array
    engine has room for twice the requests ([2 * zlen qs <= SIZE]; without room
    it is false, [array_capacity_replay]). Snapshot and log are below 2 GB, and
    the conditions on memory, tables and disk are those of the recovery from the
    log. *)
Theorem snapshot_then_log qs xs (st stn st' : store) n fds af f junk sw sy fd a :
  store_run qs xs st st' -> store_run (take n qs) (take n xs) st stn -> Forall request_ok qs ->
  logging st -> logged st = [] -> (forall e, db (eng st) e = ∅) -> zlen (logged st') < INT_MAX ->
  2 * zlen qs <= SIZE ->
  kvs_save_start (R := R) fds (eng stn) af = Ok (0, Some f) -> eng_inv (eng stn) ->
  storable XXH SIZE HSIZE random (eng stn) -> 0 <= fds -> zlen f < INT_MAX ->
  al_inv a -> switched sw -> 0 <= fd ->
  exists st1 a1,
    kvs_init XXH SIZE HSIZE random (zero_cells SIZE) (zero_heads HSIZE) junk (Some f) true true
      (LogEnv fd true true (logged st')) (fresh_modules sw sy) a = Ok (st1, a1) /\
    (forall e, db (eng st1) e = db (eng st') e).
Proof. apply (snapshot_log_recovers XXH SIZE HSIZE random Hsize Hhsize). Qed.

(** C39: a start that finds a torn record at the end of the log, cut at byte [k],
    recovers the writes before it but keeps appending behind it: whatever
    requests this life serves, the next start finds the contents this one found,
    every write of this life is lost. This holds without bound when the record
    was cut in its header, and otherwise as long as the writes of this life are
    together shorter than the bytes the record misses. *)
Theorem torn_log_loses_writes junk sw sy fd ws ts k sk a :
  let file := frames (tokens_of <$> ws) ++ take (Z.to_nat k) (kvsp_frame ts) in
  al_inv a -> switched sw -> 0 <= fd -> Forall request_ok ws -> Forall (fun q => changes q.2) ws ->
  zlen (kvsp_frame ts) <= INT_MAX -> 0 < k < zlen (kvsp_frame ts) -> zlen file < INT_MAX ->
  exists st0 st a1 a2,
    kvs_init XXH SIZE HSIZE random (zero_cells SIZE) (zero_heads HSIZE) junk None true true
      (LogEnv fd true true file) (fresh_modules sw sy) a = Ok (st0, a1) /\
    main_start XXH SIZE HSIZE random 0 (-1) (-1) sk st0 a1 = Ok (None, [], sk, st, a2) /\ store_wf st [] a2 /\
    (forall e, db (eng st) e = db_after (db_full_of (TA := kvs_array_t) (TR := rbtree) (TH := kvs_hash_t) (TL := SkipList)) ws (fun _ => ∅) e) /\
    forall qs xs (st' : store), let later := frames (tokens_of <$> writes qs xs) in
      store_run qs xs st st' -> zlen (file ++ later) < INT_MAX ->
      k < zlen (fmt_head (zlen (kvsp_body ts))) \/ k + zlen later < zlen (kvsp_frame ts) ->
      exists st1 a3, kvs_init XXH SIZE HSIZE random (zero_cells SIZE) (zero_heads HSIZE) junk None true true
          (LogEnv fd true true (logged st')) (fresh_modules sw sy) a = Ok (st1, a3) /\
        forall e, db (eng st1) e = db (eng st) e.
Proof. apply (torn_log_run XXH SIZE HSIZE random Hsize Hhsize). Qed.

(** C11: what the save child writes, a start with empty engines restores, when
    the file is below 2 GB (a greater one is not read, [big_file_ignored]): the
    four maps come back, from a file of one frame per pair, with every block
    accounted for. No allocation and no disk write fails, and a reallocated
    block has the size asked for ([AllocatorTotal], [UringTotal]). Keys and
    values are NUL-free and together at most [INT_MAX - 64] bytes ([storable]).
    *)
Theorem snapshot_roundtrip fd (g : engines) a :
  eng_inv g -> storable XXH SIZE HSIZE random g -> 0 <= fd ->
  exists f, kvs_save_start (R := R) fd g a = Ok (0, Some f) /\
    forall (g0 : engines) a0, zlen f < INT_MAX -> state_wf eng_inv eng_own g0 [] a0 -> (forall e, db g0 e = ∅) ->
    exists g' a', kvs_save_init 1 (Some f) true true g0 a0 = Ok (0, g', a') /\ (forall e, db g' e = db g e) /\
      state_wf eng_inv eng_own g' [] a' /\ state_frame eng_own g0 [] a0 g' [] a'.
Proof. apply (snapshot_run XXH SIZE HSIZE random Hsize Hhsize). Qed.

(** C9: a full synchronisation between a master with contents [g], which are not
    empty, and a slave that starts empty, when the snapshot [f] the child writes
    is below 2 GB: the master answers 0 and sends its size message and the
    snapshot, however [sendfile] splits the work; fed with the size message in
    one piece and with the snapshot in any segmentation, the slave answers 0 and
    holds the master's contents, and neither side leaks a block. The two control
    messages, the size and [FULLSYNC READY], each arrive in one [recv] (the code
    fails otherwise); no allocation and no disk write fails, and a reallocated
    block has the size asked for ([AllocatorTotal], [UringTotal]). *)
Theorem full_sync_copies cli sockfd (g g0 : engines) env envs rest am a e0 k0 v0 :
  eng_inv g -> storable XXH SIZE HSIZE random g -> env_ok env -> 0 <= fd cli -> 0 <= sockfd -> al_inv am ->
  state_wf eng_inv eng_own g0 rest a -> (forall e, db g0 e = ∅) -> db g e0 !! k0 = Some v0 ->
  exists f, kvs_master_write_snapshot (R := R) env g am = Ok (se_open env, f) /\ (zlen f < INT_MAX ->
    (exists am', kvs_master_full_sync (R := R) 1 cli g
        (SyncState 0 (Sock [Some (kvsp_frame [KVS_SLAVE_FULLSYNC_READY])] [] []) (env :: envs)) am
      = Ok (0, SyncState 0 (Sock [] (kvsp_frame [fullsync_ok (zlen f)] ++ f) []) envs, am') /\ al_live am' = al_live am) /\
    forall chunks, mjoin chunks = f -> Forall (fun c => 0 < zlen c) chunks ->
    exists g' a', kvs_slave_full_sync sockfd (Sock (Some (kvsp_frame [fullsync_ok (zlen f)]) :: (Some <$> chunks)) [] []) g0 a
      = Ok (0, Sock [] (kvsp_frame [KVS_SYNC_COMMAND] ++ kvsp_frame [KVS_SLAVE_FULLSYNC_READY]) [], g', a') /\
      (forall e, db g' e = db g e) /\ state_wf eng_inv eng_own g' rest a' /\ state_frame eng_own g0 rest a g' rest a').
Proof.
  intros (I1 & (nl & t & I2) & I3 & I4) Hst Henv Hfd Hsock Hi Hwf Hempty Hk0.
  assert (Hinv : snap_inv XXH SIZE HSIZE nl t g) by done. exists (snapshot_file t g).
  split; [exact (write_snapshot_ok XXH SIZE HSIZE random g nl t env am Hinv Hst Henv) |]. intros Hmax.
  assert (Hne : snapshot_file t g <> []) by exact (snapshot_nonempty XXH SIZE HSIZE random nl t g e0 k0 v0 Hinv Hk0).
  destruct (master_run XXH SIZE HSIZE random (R := R) cli g nl t env envs [] [] am Hinv Hst Henv Hfd Hi Hmax Hne)
    as (am' & Hm & _ & Hl).
  split; [exists am'; by split |]. intros chunks Hj Hc.
  exact (slave_run XXH SIZE HSIZE random Hsize Hhsize sockfd g g0 nl t chunks [] rest a Hinv Hst Hsock Hwf Hempty Hmax Hne Hj Hc).
Qed.

End Server.

(** ** The instance *)

Definition demo_xxh (k : list Z) : Z := fold_left Z.add k 0.
Definition demo_random (n : nat) : Z := Z.of_nat n.

#[local] Instance demo_array : Engine Unlimited.t kvs_array_t := mf_array 64.
#[local] Instance demo_rbtree : Engine Unlimited.t rbtree := mf_rbtree.
#[local] Instance demo_hash : Engine Unlimited.t kvs_hash_t := mf_hash demo_xxh 8.
#[local] Instance demo_skip : Engine Unlimited.t SkipList := mf_skip demo_random.
#[local] Instance demo_array_laws : EngineLaws Unlimited.t kvs_array_t := array_laws 64 eq_refl.
#[local] Instance demo_hash_laws : EngineLaws Unlimited.t kvs_hash_t := hash_laws demo_xxh 8 ltac:(unfold INT_MAX; lia).
#[local] Existing Instance system_modules.

Definition demo_junk : rbtree_node := RBNode BLACK 0 0 0 None None.
Definition demo_switches : switches := Switches 1 1 1.
Definition demo_sync : sync_state := SyncState 0 (Sock [] [] []) [].

Definition demo_reqs : list request :=
  [(EArray, OpSet (BS "k") (BS "1")); (ERbtree, OpSet (BS "k") (BS "2")); (EHash, OpSet (BS "k") (BS "3"));
   (ESkiplist, OpSet (BS "k") (BS "4")); (ERbtree, OpMod (BS "k") (BS "5")); (ERbtree, OpGet (BS "k"));
   (EHash, OpDel (BS "k")); (EHash, OpDel (BS "k")); (EArray, OpExist (BS "x"))].

Definition demo_chunks : list (list Z) :=
  let f := frames (tokens_of <$> demo_reqs) in [take 7 f; drop 7 f].

Notation demo_store := (store kvs_array_t rbtree kvs_hash_t SkipList (modules Roomy.t)).

Lemma demo_reqs_ok : Forall request_ok demo_reqs /\ Forall (fun r => op_below 1000 r.2) demo_reqs.
Proof.
  split; [| repeat constructor; vm_compute; congruence].
  repeat constructor; try (repeat constructor; vm_compute; congruence); vm_compute; congruence.
Qed.

(** The start, the session, and the snapshot and log it leaves. *)
Definition demo_boot : res (demo_store * Unlimited.t) :=
  '(st, a) ← kvs_init demo_xxh 64 8 demo_random (zero_cells 64) (zero_heads 8) demo_junk None true true
    (LogEnv 3 true true []) (fresh_modules demo_switches demo_sync) Unlimited.start;
  '(_, _, _, st, a) ← main_start demo_xxh 64 8 demo_random 0 (-1) (-1) (Sock [] [] []) st a;
  Ok (st, a).

Definition demo_session : res (flow * sock * demo_store * Unlimited.t) :=
  '(st, a) ← demo_boot; server kvs_protocol 5 (S (length demo_chunks)) (Sock (Some <$> demo_chunks) [] []) st a.

(** The snapshot and the log of a state. *)
Definition files_of {S A} (save : S -> A -> res (Z * option (list Z))) (log : S -> list Z) (m : res (flow * sock * S * A))
    : res (Z * option (list Z) * list Z) :=
  '(_, _, st, a) ← m; '(r, f) ← save st a; Ok (r, f, log st).

Lemma files_of_run {S A} (save : S -> A -> res (Z * option (list Z))) log m fl sk (st : S) (a : A) r f l :
  m = Ok (fl, sk, st, a) -> files_of save log m = Ok (r, f, l) -> save st a = Ok (r, f) /\ log st = l.
Proof.
  intros ->. unfold files_of. cbn [mbind res_bind]. destruct (save st a) as [[r' f'] | |]; [| discriminate..].
  cbn [mbind res_bind]. by intros [= -> -> ->].
Qed.

Lemma bind_ok_eq {X Y} (m : res X) (f : X -> res Y) x y : m = Ok x -> f x = y -> m ≫= f = y.
Proof. by intros -> <-. Qed.

Definition demo_save (st : demo_store) (a : Unlimited.t) : res (Z * option (list Z)) := kvs_save_start (R := Roomy.t) 3 (eng st) a.

Definition demo_dump : list Z :=
  Eval vm_compute in match files_of demo_save logged demo_session with Ok (_, Some f, _) => f | _ => [] end.
Definition demo_log : list Z :=
  Eval vm_compute in match files_of demo_save logged demo_session with Ok (_, _, l) => l | _ => [] end.

Definition demo_value (st : demo_store) : list Z := from_option id [] (db (eng st) ERbtree !! BS "k").

Lemma demo_value_eq : files_of demo_save demo_value demo_session = Ok (0, Some demo_dump, BS "5").
Proof. vm_compute. reflexivity. Qed.

Lemma demo_files_eq : files_of demo_save logged demo_session = Ok (0, Some demo_dump, demo_log).
Proof. vm_compute. reflexivity. Qed.

Lemma demo_start : exists (st : demo_store) a, demo_boot = Ok (st, a) /\
  store_wf st [] a /\ (forall e, db (eng st) e = ∅) /\ logging st /\ logged st = [].
Proof.
  destruct (start_run (R := Roomy.t) demo_xxh 64 8 demo_random ltac:(lia) ltac:(unfold INT_MAX; lia) demo_junk demo_switches demo_sync 3
    (Sock [] [] []) Unlimited.start) as (st0 & st & a0 & a & E0 & E1 & H1 & H2 & H3 & H4); [apply Bump.start_inv | done | done |].
  exists st, a. split; [| done]. unfold demo_boot. rewrite E0. cbn [mbind res_bind]. rewrite E1. done.
Qed.

Lemma request_refines_witness :
  let q := (ERbtree, OpSet (BS "key") (BS "value")) in
  exists (st : demo_store) cli a x cli' st' a',
    kvs_protocol cli st a = Ok (zlen (reply_of q x), cli', st', a') /\ recorded q x st st'.
Proof.
  intros q. destruct demo_start as (st & a0 & _ & Hwf & Hd & _ & _).
  destruct (client_init_ok 0 100 0 3 1 st a0 [] Hwf ltac:(lia)) as (p & cli0 & a & _ & Hc & _ & Hwf1 & _).
  pose (cli := set_protocol PROTO_KVSP kvsp_parse_bulk_size (set_rbuf (kvsp_frame (tokens_of q) ++ [0])
    (set_cmd (zlen (kvsp_frame (tokens_of q))) (zlen (fmt_head (zlen (kvsp_body (tokens_of q))))) cli0))).
  destruct (request_refines q [] st ({[rbuf_p cli]} :: {[p]} :: []) cli a)
    as (x & b & cli' & st' & a' & Hrun & _ & _ & Hrec & _); [| done | | | done | done | done | done |].
  - split; [repeat constructor; vm_compute; congruence |]. split; vm_compute; congruence.
  - destruct Hc as [[[] ? ? ? ?] ? ? ? ?]. by split.
  - destruct Hc as [_ _ _ [_ Hcap] _]. split; [| done]. change (w_cap cli) with (w_cap cli0).
    unfold SERVER_BUFFER_SIZE, INT_MAX in *. lia.
  - exists st, cli, a, x, cli', st', a'. split; [exact Hrun | exact Hrec].
Defined.

(** The first sends take three bytes and one. *)
Lemma session_answers_witness : exists (st : demo_store) a xs rs st' a',
  server kvs_protocol 5 (S (length demo_chunks)) (Sock (Some <$> demo_chunks) [] [3; 1]) st a
    = Ok (Continue, Sock [] (replies demo_reqs xs) rs, st', a') /\ store_run demo_reqs xs st st'.
Proof.
  destruct demo_start as (st & a & _ & Hwf & Hd & _ & _). destruct demo_reqs_ok as [Hok Hlow].
  destruct (session_answers 1000 10000 1000 5 demo_reqs demo_chunks [3; 1] st a [])
    as (xs & rs & st' & a' & Hrun & Hst & _); [lia | lia | lia | lia | done | cbn; lia | | done | | done | done | | |].
  - repeat constructor; vm_compute; congruence.
  - vm_compute. congruence.
  - intros e k v. by rewrite Hd, lookup_empty.
  - repeat constructor.
  - exists st, a, xs, rs, st', a'. split; [exact Hrun | exact Hst].
Defined.

(** A server that served the requests, its snapshot and its log. *)
Lemma demo_chunks_ok :
  Forall (fun c => 0 < zlen c <= SERVER_BUFFER_SIZE) demo_chunks /\ mjoin demo_chunks = frames (tokens_of <$> demo_reqs) /\
  zlen (mjoin demo_chunks) <= 1000.
Proof. split; [repeat constructor; vm_compute; congruence |]. split; [by vm_compute | vm_compute; congruence]. Qed.

Lemma demo_run : exists (st : demo_store) xs st' a',
  (forall e, db (eng st) e = ∅) /\ logging st /\ logged st = [] /\
  demo_session = Ok (Continue, Sock [] (replies demo_reqs xs) [], st', a') /\
  store_run demo_reqs xs st st' /\ store_wf st' [] a'.
Proof.
  destruct demo_start as (st & a & Hboot & Hwf & Hd & Hlg & Hl). destruct demo_reqs_ok as [Hok Hlow].
  destruct demo_chunks_ok as (C1 & C2 & C3).
  destruct (session_run 1000 10000 ltac:(lia) ltac:(lia) ltac:(lia) 1000 ltac:(lia) 5 demo_reqs demo_chunks [] st a [] Hwf)
    as (xs & rs & st' & a' & Hrun & ->%suffix_nil_inv & Hst & Hwf' & _);
    [cbn; lia | exact C1 | exact C2 | exact C3 | exact Hok | exact Hlow | | constructor |].
  - intros e k v. by rewrite Hd, lookup_empty.
  - exists st, xs, st', a'. split; [exact Hd |]. split; [exact Hlg |]. split; [exact Hl |].
    split; [exact (bind_ok_eq _ _ _ _ Hboot Hrun) |]. split; [exact Hst | exact Hwf'].
Qed.

Lemma demo_served : exists (st : demo_store) xs st' a f,
  store_run demo_reqs xs st st' /\ store_wf st' [] a /\ (forall e, db (eng st) e = ∅) /\ logging st /\ logged st = [] /\
  demo_save st' a = Ok (0, Some f) /\ zlen f < INT_MAX /\ zlen (logged st') < INT_MAX /\
  db (eng st') ERbtree !! BS "k" = Some (BS "5").
Proof.
  destruct demo_run as (st & xs & st' & a' & Hd & Hlg & Hl & Hrun & Hst & Hwf').
  destruct (files_of_run demo_save logged _ _ _ _ _ _ _ _ Hrun demo_files_eq) as [Hsave Hlog].
  exists st, xs, st', a', demo_dump. split; [exact Hst |]. split; [exact Hwf' |]. split; [exact Hd |]. split; [exact Hlg |].
  split; [exact Hl |]. split; [exact Hsave |]. rewrite Hlog. split; [vm_compute; reflexivity |]. split; [vm_compute; reflexivity |].
  destruct (files_of_run demo_save demo_value _ _ _ _ _ _ _ _ Hrun demo_value_eq) as [_ Hv]. unfold demo_value in Hv.
  destruct (db (eng st') ERbtree !! BS "k") as [v |]; [| discriminate Hv]. cbn in Hv. by rewrite Hv.
Qed.

(** Pairs of short strings can be stored. *)
Lemma demo_storable (st : demo_store) xs st' :
  store_run demo_reqs xs st st' -> (forall e, db (eng st) e = ∅) -> storable demo_xxh 64 8 demo_random (eng st').
Proof.
  intros Hr Hd e k v Hk.
  pose proof (run_empty demo_xxh 64 8 demo_random ltac:(lia) ltac:(unfold INT_MAX; lia) _ _ _ _ Hr Hd e) as He.
  change (db (eng st') e !! k = Some v) in Hk.
  change (db (eng st') e = db_after (db_full_of (TA := kvs_array_t) (TR := rbtree) (TH := kvs_hash_t) (TL := SkipList))
    (writes demo_reqs xs) (fun _ => ∅) e) in He.
  rewrite He in Hk. clear He. revert e k v Hk.
  apply (db_after_pairs _ (fun k v => nul_free k /\ nul_free v /\ zlen k + zlen v + 64 <= INT_MAX)).
  - apply writes_forall. repeat constructor; vm_compute; congruence.
  - intros e' k' v'. by rewrite lookup_empty.
Qed.

Lemma log_holds_writes_witness : exists (st : demo_store) a xs rs st' a',
  server kvs_protocol 5 (S (length demo_chunks)) (Sock (Some <$> demo_chunks) [] [3; 1]) st a
    = Ok (Continue, Sock [] (replies demo_reqs xs) rs, st', a') /\
  logged st' = frames (tokens_of <$> writes demo_reqs xs).
Proof.
  destruct demo_start as (st & a & _ & Hwf & Hd & Hlg & Hl). destruct demo_reqs_ok as [Hok Hlow]. destruct demo_chunks_ok as (C1 & C2 & C3).
  destruct (log_holds_writes demo_xxh 64 8 demo_random ltac:(lia) ltac:(unfold INT_MAX; lia) 1000 10000 1000 5 demo_reqs demo_chunks [3; 1] st a [])
    as (xs & rs & st' & a' & Hrun & _ & Hlog); [lia | lia | lia | lia | exact Hwf | cbn; lia | exact C1 | exact C2 | exact C3 | exact Hok | exact Hlow | | | exact Hlg |].
  - intros e k v. by rewrite Hd, lookup_empty.
  - repeat constructor.
  - exists st, a, xs, rs, st', a'. split; [exact Hrun |]. by rewrite Hlog, Hl.
Defined.

Lemma log_recovery_witness : exists (st st' : demo_store) xs n stn st1 a1,
  store_run demo_reqs xs st st' /\ store_run (take n demo_reqs) (take n xs) st stn /\
  kvs_init demo_xxh 64 8 demo_random (zero_cells 64) (zero_heads 8) demo_junk None true true
    (LogEnv 3 true true (take 30 (logged st'))) (fresh_modules demo_switches demo_sync) Unlimited.start = Ok (st1, a1) /\
  forall e, db (eng st1) e = db (eng stn) e.
Proof.
  destruct demo_served as (st & xs & st' & a & f & Hr & _ & Hd & Hlg & Hl & _ & _ & Hm & _). destruct demo_reqs_ok as [Hok _].
  destruct (log_recovery demo_xxh 64 8 demo_random ltac:(lia) ltac:(unfold INT_MAX; lia) demo_reqs xs st st' 30 demo_junk demo_switches
    demo_sync 3 Unlimited.start Hr Hok Hlg Hl Hd Hm) as (n & stn & st1 & a1 & _ & Hrn & Hini & Hdb & _);
    [apply Bump.start_inv | done | done |].
  exists st, st', xs, n, stn, st1, a1. split; [exact Hr |]. split; [exact Hrn |]. split; [exact Hini | exact Hdb].
Defined.

(** A log of one write and the first two bytes of another; the demo requests
    are served on it and gone at the next start. *)
Lemma torn_log_loses_writes_witness :
  let w := (ERbtree, OpSet (BS "a") (BS "1")) in let file := kvsp_frame (tokens_of w) ++ take 2 (kvsp_frame (tokens_of w)) in
  exists st0 (st st' : demo_store) a1 a2 xs st1 a3,
    kvs_init demo_xxh 64 8 demo_random (zero_cells 64) (zero_heads 8) demo_junk None true true
      (LogEnv 3 true true file) (fresh_modules demo_switches demo_sync) Unlimited.start = Ok (st0, a1) /\
    main_start demo_xxh 64 8 demo_random 0 (-1) (-1) (Sock [] [] []) st0 a1 = Ok (None, [], Sock [] [] [], st, a2) /\
    store_run demo_reqs xs st st' /\
    kvs_init demo_xxh 64 8 demo_random (zero_cells 64) (zero_heads 8) demo_junk None true true
      (LogEnv 3 true true (logged st')) (fresh_modules demo_switches demo_sync) Unlimited.start = Ok (st1, a3) /\
    forall e, db (eng st1) e = db (eng st) e.
Proof.
  intros w file. destruct demo_reqs_ok as [Hok Hlow]. destruct demo_chunks_ok as (C1 & C2 & C3).
  destruct (torn_log_loses_writes (R := Roomy.t) demo_xxh 64 8 demo_random ltac:(lia) ltac:(unfold INT_MAX; lia) demo_junk demo_switches
    demo_sync 3 [w] (tokens_of w) 2 (Sock [] [] []) Unlimited.start) as (st0 & st & a1 & a2 & H1 & H2 & Hwf & Hdb & Hnext);
    [apply Bump.start_inv | done | done | | by repeat constructor | by vm_compute | by vm_compute | by vm_compute |].
  { repeat constructor; try (repeat constructor; vm_compute; congruence); vm_compute; congruence. }
  destruct (session_run 1000 10000 ltac:(lia) ltac:(lia) ltac:(lia) 1000 ltac:(lia) 5 demo_reqs demo_chunks [] st a2 [] Hwf)
    as (xs & rs & st' & a' & _ & _ & Hst & _); [cbn; lia | exact C1 | exact C2 | exact C3 | exact Hok | exact Hlow | | constructor |].
  { intros e k v Hk. rewrite Hdb in Hk. revert e k v Hk. apply (db_after_pairs _ (fun k v => zlen v <= 1000)).
    - repeat constructor. vm_compute. congruence.
    - intros e' k' v'. by rewrite lookup_empty. }
  destruct (Hnext demo_reqs xs st' Hst) as (st1 & a3 & H3 & Hd3); [| by left; vm_compute |].
  - pose proof (writes_frames demo_reqs xs) as Hw. rewrite zlen_app.
    assert (Hs : zlen (frames (tokens_of <$> demo_reqs)) <= 1000) by (vm_compute; congruence).
    assert (Hf : zlen (frames (tokens_of <$> [w]) ++ take (Z.to_nat 2) (kvsp_frame (tokens_of w))) <= 1000) by (vm_compute; congruence).
    unfold INT_MAX. lia.
  - exists st0, st, st', a1, a2, xs, st1, a3. split; [exact H1 |]. split; [exact H2 |]. split; [exact Hst |]. split; [exact H3 | exact Hd3].
Defined.

Lemma snapshot_then_log_witness : exists (st st' : demo_store) xs f st1 a1,
  store_run demo_reqs xs st st' /\
  kvs_init demo_xxh 64 8 demo_random (zero_cells 64) (zero_heads 8) demo_junk (Some f) true true
    (LogEnv 3 true true (logged st')) (fresh_modules demo_switches demo_sync) Unlimited.start = Ok (st1, a1) /\
  forall e, db (eng st1) e = db (eng st') e.
Proof.
  destruct demo_served as (st & xs & st' & a & f & Hr & Hwf & Hd & Hlg & Hl & Hsave & Hf & Hm & _). destruct demo_reqs_ok as [Hok _].
  destruct (snapshot_then_log demo_xxh 64 8 demo_random ltac:(lia) ltac:(unfold INT_MAX; lia) demo_reqs xs st st' st' (length demo_reqs) 3 a f
    demo_junk demo_switches demo_sync 3 Unlimited.start Hr) as (st1 & a1 & Hini & Hdb);
    [| exact Hok | exact Hlg | exact Hl | exact Hd | exact Hm | vm_compute; congruence | exact Hsave | apply Hwf |
     exact (demo_storable _ _ _ Hr Hd) | lia | exact Hf | apply Bump.start_inv | done | lia |].
  - rewrite (store_run_length _ _ _ _ Hr) at 2. by rewrite !firstn_all.
  - exists st, st', xs, f, st1, a1. split; [exact Hr |]. split; [exact Hini | exact Hdb].
Defined.

Lemma snapshot_roundtrip_witness : exists (st' : demo_store) a f,
  kvs_save_start (R := Roomy.t) 3 (eng st') a = Ok (0, Some f).
Proof.
  destruct demo_served as (st & xs & st' & a & f & Hr & Hwf & Hd & _).
  destruct (snapshot_roundtrip (R := Roomy.t) demo_xxh 64 8 demo_random ltac:(lia) ltac:(unfold INT_MAX; lia) 3 (eng st') a)
    as (f' & Hs & _); [apply Hwf | exact (demo_storable _ _ _ Hr Hd) | lia |].
  exists st', a, f'. exact Hs.
Defined.

Definition demo_env : sync_env := SyncEnv 4 true 77 1 77 true true [SfBytes 10; SfAgain; SfBytes 1].
Definition demo_client : client_info := ClientInfo 6 0 [] 0 0 0 0 0 [] 0 0 0 PROTO_KVSP None.

Lemma demo_env_ok : env_ok demo_env.
Proof. split; cbn; try done; repeat constructor; lia. Qed.

(** What a synchronisation of the demo server sends is its dump. *)
Lemma demo_snapshot (st : demo_store) a a' f f' :
  eng_inv (eng st) -> storable demo_xxh 64 8 demo_random (eng st) -> demo_save st a = Ok (0, Some f) ->
  kvs_master_write_snapshot (R := Roomy.t) demo_env (eng st) a' = Ok (4, f') -> f' = f.
Proof.
  intros (I1 & (nl & t & I2) & I3 & I4) Hst Hs Hw. assert (Hinv : snap_inv demo_xxh 64 8 nl t (eng st)) by done.
  pose proof (save_start_ok (R := Roomy.t) demo_xxh 64 8 demo_random 3 nl t (eng st) a Hinv Hst ltac:(lia)) as Hs'.
  pose proof (write_snapshot_ok (R := Roomy.t) demo_xxh 64 8 demo_random (eng st) nl t demo_env a' Hinv Hst demo_env_ok) as Hw'.
  unfold demo_save in Hs. rewrite Hs in Hs'. rewrite Hw in Hw'. injection Hs' as ->. injection Hw' as ->. done.
Qed.

Lemma full_sync_copies_witness : exists (st : demo_store) f am',
  zlen f < INT_MAX /\
  kvs_master_full_sync (R := Roomy.t) 1 demo_client (eng st)
    (SyncState 0 (Sock [Some (kvsp_frame [KVS_SLAVE_FULLSYNC_READY])] [] []) [demo_env]) Unlimited.start
  = Ok (0, SyncState 0 (Sock [] (kvsp_frame [fullsync_ok (zlen f)] ++ f) []) [], am').
Proof.
  destruct demo_served as (st & xs & st' & a & f0 & Hr & Hwf & Hd & _ & _ & Hsave & Hmax & _ & Hk).
  destruct (init_engines_ok demo_xxh 64 8 demo_random ltac:(lia) ltac:(unfold INT_MAX; lia) demo_junk [] Unlimited.start)
    as (g0 & a0 & _ & He & Hwf0 & _); [apply Bump.start_inv | split; [done | cbn; set_solver] |].
  destruct (full_sync_copies (R := Roomy.t) demo_xxh 64 8 demo_random ltac:(lia) ltac:(unfold INT_MAX; lia) demo_client 6 (eng st') g0
    demo_env [] [] Unlimited.start a0 ERbtree (BS "k") (BS "5")) as (f & Hw & Hf);
    [apply Hwf | exact (demo_storable _ _ _ Hr Hd) | exact demo_env_ok | cbn; lia | lia | apply Bump.start_inv | exact Hwf0 | exact He | exact Hk |].
  rewrite (demo_snapshot _ _ _ _ _ (proj1 Hwf) (demo_storable _ _ _ Hr Hd) Hsave Hw) in Hf.
  destruct (Hf Hmax) as [(am' & Hm & _) _]. exists st', f0, am'. split; [exact Hmax | exact Hm].
Defined.
