(* ===== verification/AgentClaims.v ===== *)
(** * AgentClaims: what the replication agent guarantees

    The ring of messages is a bounded queue; the agent cuts the captured stream
    into commands as the server does, forwards the writes in order, and keeps
    them during a full synchronisation; over a whole life, with slaves that come
    and go, it loses neither memory nor descriptors. Two inputs that stop it. *)

From S2P Require Import Prelude CLib Alloc Protocol ProtocolFacts Uring Log LogFacts Store StoreFacts RequestFacts RecoveryFacts AgentDs AgentDsFacts Agent AgentFacts AgentLife.

(** ** The ring of messages *)

Inductive cache_op := CacheWrite (m : list Z) | CacheRead.
Inductive cache_out := OutWritten (r : Z) | OutRead (m : option (list Z)).

(** A sequence of calls; a message that was read is freed by the reader. *)
Fixpoint cache_run {A} `{Allocator A} (ops : list cache_op) (ac : agent_cache) (a : A) : res (list cache_out * agent_cache * A) :=
  match ops with
  | [] => Ok ([], ac, a)
  | CacheWrite m :: ops =>
      '(r, ac) ← kvs_agent_cache_write ac m (zlen m);
      '(xs, ac, a) ← cache_run ops ac a; Ok (OutWritten r :: xs, ac, a)
  | CacheRead :: ops =>
      '(b, _, ac, a) ← kvs_agent_cache_read ac 0 a;
      let a := match b with Some b => kvs_free (b_addr b) a | None => a end in
      '(xs, ac, a) ← cache_run ops ac a; Ok (OutRead (b_str <$> b) :: xs, ac, a)
  end.

(** The same calls on a queue of [cap] bytes. *)
Fixpoint queue_run (cap : Z) (ops : list cache_op) (q : list (list Z)) : list cache_out * list (list Z) :=
  match ops with
  | [] => ([], q)
  | CacheWrite m :: ops =>
      let '(r, q) := q_push cap m q in let '(xs, q) := queue_run cap ops q in (OutWritten r :: xs, q)
  | CacheRead :: ops =>
      let '(m, q) := q_pop q in let '(xs, q) := queue_run cap ops q in (OutRead m :: xs, q)
  end.

Section Ring.
Context {A : Type} `{AL : AllocatorLaws A} `{TOT : !AllocatorTotal A}.

Lemma cache_run_queue ops : forall ac q (a : A), queue_repr ac q -> al_inv a ->
  exists ac' a', cache_run ops ac a = Ok ((queue_run (capacity ac) ops q).1, ac', a') /\
    queue_repr ac' (queue_run (capacity ac) ops q).2 /\ al_live a' = al_live a.
Proof.
  induction ops as [| [m |] ops IH]; intros ac q a Hq Hi; cbn [cache_run queue_run].
  - exists ac, a. done.
  - destruct (cache_write_queue ac q m [] Hq) as (ac1 & E & Hq1 & [_ Hc1]). rewrite app_nil_r in E. rewrite E. run.
    destruct (q_push (capacity ac) m q) as [r q1] eqn:Hp. cbn [fst snd] in *. destruct (IH ac1 q1 a Hq1 Hi) as (ac2 & a2 & -> & Hq2 & Hl).
    rewrite Hc1 in *. destruct (queue_run (capacity ac) ops q1) as [xs q2]. exists ac2, a2. done.
  - destruct q as [| m q]; cbn [q_pop].
    + rewrite (cache_read_empty ac 0 a Hq). run. destruct (IH ac [] a Hq Hi) as (ac2 & a2 & -> & Hq2 & Hl).
      destruct (queue_run (capacity ac) ops []) as [xs q2]. exists ac2, a2. done.
    + assert (Hm0 : 0 < zlen m) by (destruct Hq as [_ _ Hne]; by inversion Hne).
      pose proof (cache_read_queue ac m q 0 a Hq) as Hr. destruct (malloc_total (zlen m) a ltac:(pos_size)) as (p & a2 & Hm). rewrite Hm in Hr.
      destruct Hr as (ac1 & -> & Hq1 & [_ Hc1]). run. destruct (take_and_give _ _ _ _ Hi Hm) as [Hi2 Hl2]. cbn [b_addr].
      destruct (IH ac1 q (kvs_free p a2) Hq1 Hi2) as (ac2 & a3 & -> & Hq2 & Hl). rewrite Hc1 in *.
      destruct (queue_run (capacity ac) ops q) as [xs q2]. exists ac2, a3. do 2 (split; [done |]). congruence.
Qed.

(** C22: a ring made by [kvs_agent_cache_create] behaves, under any sequence of
    writes and reads, as a first-in first-out queue of messages bounded by its
    size: same results, same messages, no access outside the block, and every
    block a read takes is accounted for. [malloc] succeeds. *)
Theorem cache_fifo n junk ops (a : A) :
  0 < n <= PTRDIFF_MAX -> zlen junk = n -> al_inv a ->
  exists ac a1 ac' a2,
    kvs_agent_cache_create empty_cache n junk a = (0, ac, a1) /\
    cache_run ops ac a1 = Ok ((queue_run n ops []).1, ac', a2) /\
    queue_repr ac' (queue_run n ops []).2 /\ al_live a2 = al_live a1.
Proof.
  intros Hn Hj Hi. pose proof (cache_create_queue empty_cache n junk a Hn Hj Hi) as Hc. destruct (malloc_total n a ltac:(pos_size)) as (p & a1 & Hm).
  rewrite Hm in Hc. destruct Hc as (ac & Hc & Hq & Hcap & _). destruct (malloc_some _ _ _ _ Hi Hm) as (_ & _ & Hi1).
  destruct (cache_run_queue ops ac [] a1 Hq Hi1) as (ac' & a2 & Hr & Hq' & Hl). rewrite Hcap in *. exists ac, a1, ac', a2. done.
Qed.

End Ring.

Lemma cache_fifo_witness :
  let ops := [CacheWrite (BS "abc"); CacheWrite (BS "0123456789"); CacheRead; CacheWrite (BS "0123456789"); CacheRead; CacheRead; CacheRead] in
  exists ac a1 ac' a2, kvs_agent_cache_create empty_cache 24 (replicate 24 7) Unlimited.start = (0, ac, a1) /\
    cache_run ops ac a1 = Ok ([OutWritten 0; OutWritten (-2); OutRead (Some (BS "abc")); OutWritten 0; OutRead (Some (BS "0123456789"));
                               OutRead None; OutRead None], ac', a2).
Proof.
  intros ops. destruct (cache_fifo 24 (replicate 24 7) ops Unlimited.start) as (ac & a1 & ac' & a2 & H1 & H2 & _);
    [unfold PTRDIFF_MAX; lia | done | apply Bump.start_inv |].
  exists ac, a1, ac', a2. split; [exact H1 | exact H2].
Defined.

(** ** Framing *)

(** C33: the agent's copy of the framing function, whose positions are
    [size_t], agrees with the server's on every buffer whose size is an [int],
    so the agent cuts the stream where the server does. *)
Theorem agent_framing_agrees buf n h :
  0 <= n <= INT_MAX -> n <= zlen buf -> agent_parse_bulk_size buf n h = kvsp_parse_bulk_size buf n h.
Proof. apply agent_parse_eq. Qed.

Lemma agent_framing_agrees_witness : agent_parse_bulk_size (BS "#5") 2 0 = kvsp_parse_bulk_size (BS "#5") 2 0.
Proof. apply (agent_framing_agrees (BS "#5") 2 0); [unfold INT_MAX; lia | vm_compute; congruence]. Defined.

(** ** The probes *)

(** Every event the probes put into the ring carries at most
    [KVS_AGENT_PAYLOAD_SIZE] bytes, exactly those the call received when they
    are no more than that, and at most one event per call. *)
Theorem probe_events_bounded read_user pid ret reserved s :
  (forall p n, 0 <= n -> zlen (read_user p n) = n) ->
  bpf_rb (tcp_recvmsg_exit read_user pid ret reserved s) = bpf_rb s \/
  exists ubuf e, h_map s !! pid = Some ubuf /\ bpf_rb (tcp_recvmsg_exit read_user pid ret reserved s) = bpf_rb s ++ [e] /\
    event_ok e /\ ev_data e = read_user ubuf (Z.min ret KVS_AGENT_PAYLOAD_SIZE).
Proof.
  intros Hread. unfold tcp_recvmsg_exit. destruct (h_map s !! pid) as [ubuf |]; [| by left].
  destruct (Z.leb_spec ret 0) as [Hr | Hr]; [by left |]. destruct reserved; [| by left]. cbn [negb bpf_rb h_map]. right.
  set (len := if KVS_AGENT_PAYLOAD_SIZE <=? ret then _ else _).
  assert (Hlen : len = Z.min ret KVS_AGENT_PAYLOAD_SIZE).
  { unfold len, KVS_AGENT_PAYLOAD_SIZE. destruct (Z.leb_spec (4 * 1024) ret); [lia |].
    change (4 * 1024 - 1) with (Z.ones 12). rewrite Z.land_ones, Z.mod_small by lia. lia. }
  eexists ubuf, _. split; [done |]. split; [done |]. unfold event_ok, ev_data. cbn. rewrite Hread by (unfold KVS_AGENT_PAYLOAD_SIZE in *; lia).
  split; [unfold KVS_AGENT_PAYLOAD_SIZE in *; lia |]. rewrite <- Hlen.
  rewrite take_ge; [done |]. pose proof (Hread ubuf len) as Hz. unfold zlen, KVS_AGENT_PAYLOAD_SIZE in *. lia.
Qed.

Lemma probe_events_bounded_witness :
  let s := BpfState {[7 := 4096]} [] in let read_user := fun (_ : Z) n => replicate (Z.to_nat n) 35 in
  exists e, bpf_rb (tcp_recvmsg_exit read_user 7 5000 true s) = [e] /\ event_ok e.
Proof.
  intros s read_user. destruct (probe_events_bounded read_user 7 5000 true s) as [Hn | (u & e & _ & Hb & He & _)].
  - intros p n Hn. unfold read_user, zlen. rewrite length_replicate. lia.
  - exfalso. assert (H : length (bpf_rb (tcp_recvmsg_exit read_user 7 5000 true s)) = 1%nat) by (vm_compute; reflexivity). by rewrite Hn in H.
  - exists e. split; [exact Hb | exact He].
Defined.

(** ** Forwarding *)

Section Forward.
Context {A : Type} `{AL : AllocatorLaws A} `{TOT : !AllocatorTotal A}.

(** C18: at every moment, whatever the interleaving of the producer and the
    consumer and however the kernel cut the stream, what the slaves were sent is
    what [fwd_run] sends for the complete commands among the messages consumed
    so far; the rest is held in the buffer and the backlog, no byte is lost or
    reordered, and the agent keeps its invariant. The stream is one of KVSP
    commands, the rings do not fill, the sends do not fail, the allocations
    succeed, and the slaves are those of the table at the beginning (slaves that
    come and go are in [agent_lifecycle]). *)
Theorem agent_forwards_prefix sched rest cmds x s (a : A) :
  agent_inv x [] [] s a -> cmds_ok cmds -> sched_data sched ++ rest = frames cmds ->
  fwd_fits (capacity (fullsync_cache (ag_info s))) cmds x -> backlog_fits (capacity (global_agent_cache s)) sched [] ->
  Forall event_ok (omap id sched) ->
  sched_reaches cmds x (sched_data sched) (sched_queue sched []) s a (agent_sched sched s a).
Proof. intros. by apply (sched_ok sched [] [] rest). Qed.

(** C17: the writes of one captured stream reach every slave: after the events
    of a whole stream of KVSP commands, one more round of the consumer per event
    is enough for all of them to be forwarded, in order, those captured during a
    full synchronisation when it ends; the buffers are empty again. The
    conditions are those of the code: the events carry one well-formed stream (a
    RESP request or two clients mixed stop the agent, [resp_stops_agent],
    [mixed_clients_stop_agent]), neither ring fills, the sends may block or take
    a part but do not fail, the allocations succeed, and the table of slaves
    does not change meanwhile. *)
Theorem agent_delivers sched cmds x s (a : A) :
  agent_inv x [] [] s a -> cmds_ok cmds -> sched_data sched = frames cmds ->
  fwd_fits (capacity (fullsync_cache (ag_info s))) cmds x -> backlog_fits (capacity (global_agent_cache s)) sched [] ->
  Forall event_ok (omap id sched) ->
  exists s' a', agent_sched (sched ++ replicate (length (omap id sched)) None) s a = Ok (s', a') /\
    agent_inv (fwd_run cmds x).1 [] [] s' a' /\ global_slaves s' = global_slaves s /\
    delivered (fwd_run cmds x).2 (targets (global_slaves s)) (ag_net s) (ag_net s') /\ ag_frame (ag_info s) a (ag_info s') a'.
Proof.
  intros Hinv Hok Hd Hf Hb Hev. set (k := length (omap id sched)).
  destruct (sched_complete (sched ++ replicate k None) cmds x s a) as (s' & a' & H1 & H2 & (H3 & _) & H4 & H5); try done.
  - rewrite sched_data_app, Hd. unfold sched_data at 1. by rewrite omap_rounds, app_nil_r.
  - rewrite sched_queue_app, queue_rounds. apply drop_ge. pose proof (sched_queue_length sched []) as Hl. cbn in Hl. unfold k. lia.
  - apply backlog_app. split; [done | apply backlog_rounds].
  - rewrite omap_app, omap_rounds, app_nil_r. done.
  - exists s', a'. done.
Qed.

(** C35: a whole life of the agent: [kvs_agent_init], then any interleaving of
    slaves that connect and leave with the events and the rounds of the other
    two threads, then [kvs_agent_deinit]. Every block it took is given back,
    every descriptor it accepted is closed exactly once, and each slave was
    sent what [fwd_run] forwards for the commands handled between its joining
    and its leaving. The allocations succeed, at most [MAX_SLAVE_COUNT] slaves
    are connected at a time, their sends do not fail, the captured stream is one
    stream of commands and the rings do not fill. *)
Theorem agent_lifecycle junk n steps rest cmds (a : A) :
  (forall k, 0 <= k -> zlen (junk k) = k) -> al_inv a -> slaves_come_and_go steps [] -> net_ok (joins steps) n ->
  cmds_ok cmds -> sched_data (traffic steps) ++ rest = frames cmds ->
  fwd_fits MAX_FULLSYNC_CACHE_SIZE cmds (Fwd KVS_SLAVE_UNKNOWN []) -> backlog_fits MAX_AGENT_CACHE_SIZE (traffic steps) [] ->
  Forall event_ok (omap id (traffic steps)) ->
  exists s0 a0 closed s1 a1 closed' s2 a2 c1 c2 held outs,
    kvs_agent_init junk n a = (Some s0, a0) /\ agent_life steps s0 a0 = Ok (closed, s1, a1) /\ kvs_agent_deinit s1 a1 = (closed', s2, a2) /\
    al_live a2 = al_live a /\ closed ++ closed' ≡ₚ joins steps /\
    cmds = c1 ++ c2 /\ sched_data (traffic steps) = frames c1 ++ held ++ mjoin (sched_queue (traffic steps) []) /\ torn held /\
    mjoin outs = (fwd_run c1 (Fwd KVS_SLAVE_UNKNOWN [])).2 /\
    forall fd, fd ∈ joins steps -> grew fd (received fd false steps outs) n (ag_net s1).
Proof.
  intros Hj Hi Hcg Hn Hok He Hf Hb Hev.
  destruct (init_ok junk n a Hj Hi) as (s0 & a0 & E0 & Hinv & Ho & Hs & Hsz & <- & K1 & K2). rewrite <- K1 in Hf. rewrite <- K2 in Hb.
  destruct (life_ok (joins steps) (al_live a) steps [] [] [] rest cmds (Fwd KVS_SLAVE_UNKNOWN []) s0 a0)
    as (closed & s1 & a1 & c1 & conn & held & outs & E1 & [(c2 & V1) V2 V3 V4 V5 V6 V7 V8]); [done | done | done | done | done | by rewrite app_nil_r | done.. |].
  destruct (deinit_ok _ _ _ V5 (proj1 (ai_alloc _ _ _ _ _ V3))) as (s2 & a2 & E2 & Hl & _).
  exists s0, a0, closed, s1, a1, (targets (global_slaves s1)), s2, a2, c1, c2, held, outs. do 4 (split; [done |]).
  split; [by rewrite (proj2 (holds_ok _ _ V4)), V6, app_nil_r |]. do 2 (split; [done |]). split; [apply V3 |]. split; [done | exact V8].
Qed.

End Forward.

(** ** The table of slaves *)

(** The table counts its slaves: an insertion is refused exactly when the
    table is full and adds the descriptor otherwise, a deletion removes one
    occurrence of it, and both keep [total] equal to the number of connected
    slaves, which never exceeds the size. *)
Theorem slaves_table sl fd : slaves_inv sl -> 0 <= fd ->
  (exists r sl', kvs_slaves_insert sl fd = (r, sl') /\ slaves_inv sl' /\ sl_size sl' = sl_size sl /\
    ((sl_total sl = sl_size sl /\ r = -2 /\ sl' = sl) \/ (sl_total sl < sl_size sl /\ r = 0 /\ connected sl' ≡ₚ fd :: connected sl))) /\
  (exists sl', kvs_slaves_delete sl fd = (0, sl') /\ slaves_inv sl' /\ sl_size sl' = sl_size sl /\
    ((fd ∈ connected sl /\ connected sl ≡ₚ fd :: connected sl') \/ (fd ∉ connected sl /\ sl' = sl))).
Proof. intros Hs Hfd. split; [by apply slaves_insert_ok | by apply slaves_delete_ok]. Qed.

Lemma slaves_table_witness :
  let sl := Slaves (Some (16, [5; -1; 7; -1])) 2 4 in
  exists r sl', kvs_slaves_insert sl 9 = (r, sl') /\ slaves_inv sl'.
Proof.
  intros sl. destruct (slaves_table sl 9) as [(r & sl' & H1 & H2 & _) _]; [exists 16, [5; -1; 7; -1]; repeat split; reflexivity | lia |].
  exists r, sl'. split; [exact H1 | exact H2].
Defined.

(** ** An instance *)

Definition demo_cache (p n : Z) : agent_cache := AgentCache 0 0 n 0 (Some (p, replicate (Z.to_nat n) 0)).
Definition demo_agent : agent_state :=
  AgentState false (demo_cache 32 200) (Slaves (Some (64, [5; -1; 7; -1])) 2 4)
    (AgentInfo 16 (replicate 8 0) 8 0 0 0 KVS_SLAVE_INCR_SYNC (demo_cache 48 100))
    {[5 := Peer [] [SrAgain; SrBytes 3]; 7 := Peer [] [] ]}.
Definition demo_alloc : Unlimited.t := Unlimited.mk (Bump.mk 128 {[16; 32; 48; 64]} ∅ None).

Definition demo_cmds : list (list (list Z)) :=
  [[BS "SET"; BS "k"; BS "1"]; [BS "GET"; BS "k"]; [BS "SYNC"]; [BS "MOD"; BS "k"; BS "2"]; [BS "FULLSYNC FINISHED"]; [BS "DEL"; BS "k"]].

Definition demo_event (c : list Z) : tcp_event := TcpEvent c (zlen c) (zlen c).
Definition demo_sched : list (option tcp_event) :=
  let f := frames demo_cmds in
  [Some (demo_event (take 30 f)); None; Some (demo_event (take 40 (drop 30 f))); Some (demo_event (drop 70 f)); None].

Lemma demo_cache_empty p n : 0 < n <= PTRDIFF_MAX -> queue_repr (demo_cache p n) [].
Proof.
  intros Hn. split; [| done | done]. exists p, (replicate (Z.to_nat n) 0).
  split; cbn [demo_cache cache capacity read_pos write_pos used]; [done | | lia | lia | lia | by rewrite Z.mod_0_l by lia].
  unfold zlen. rewrite length_replicate. lia.
Qed.

Lemma demo_agent_inv : agent_inv (Fwd KVS_SLAVE_INCR_SYNC []) [] [] demo_agent demo_alloc.
Proof.
  split.
  - done.
  - apply demo_cache_empty. unfold PTRDIFF_MAX. lia.
  - split; [by exists (replicate 8 0) | done].
  - by left.
  - split; [done |]. apply demo_cache_empty. unfold PTRDIFF_MAX. lia.
  - constructor.
  - exists 64, [5; -1; 7; -1]. split; [done |]. split; [done |]. change (NoDup [5; 7]). repeat constructor; set_solver.
  - change (net_ok [5; 7] (ag_net demo_agent)). repeat constructor; eexists _, _; (split; [vm_compute; reflexivity |]); repeat constructor; done.
  - split; [intros p Hp; cbn in *; set_solver by lia | cbn; set_solver].
Qed.

Lemma demo_cmds_ok : cmds_ok demo_cmds.
Proof.
  split; [| repeat constructor; vm_compute; congruence].
  repeat (constructor; [split; [eexists _, _; split; [done |]; repeat constructor; vm_compute; congruence | vm_compute; congruence] |]). constructor.
Qed.

Lemma demo_sched_ok :
  sched_data demo_sched = frames demo_cmds /\ Forall event_ok (omap id demo_sched) /\ backlog_fits 200 demo_sched [] /\
  fwd_fits 100 demo_cmds (Fwd KVS_SLAVE_INCR_SYNC []).
Proof.
  split; [vm_compute; reflexivity |]. split; [repeat constructor; vm_compute; congruence |].
  split; cbn [backlog_fits demo_sched fwd_fits demo_cmds]; repeat (split; [vm_compute; congruence |]); done.
Qed.

Lemma agent_forwards_prefix_witness :
  sched_reaches demo_cmds (Fwd KVS_SLAVE_INCR_SYNC []) (sched_data demo_sched) (sched_queue demo_sched []) demo_agent demo_alloc
    (agent_sched demo_sched demo_agent demo_alloc).
Proof.
  destruct demo_sched_ok as (D1 & D2 & D3 & D4).
  apply (agent_forwards_prefix demo_sched [] demo_cmds (Fwd KVS_SLAVE_INCR_SYNC []) demo_agent demo_alloc);
    [exact demo_agent_inv | exact demo_cmds_ok | rewrite app_nil_r; exact D1 | exact D4 | exact D3 | exact D2].
Defined.

Lemma agent_delivers_witness : exists s' a',
  agent_sched (demo_sched ++ replicate 3 None) demo_agent demo_alloc = Ok (s', a') /\
  delivered (frames [[BS "SET"; BS "k"; BS "1"]; [BS "MOD"; BS "k"; BS "2"]; [BS "DEL"; BS "k"]]) [5; 7] (ag_net demo_agent) (ag_net s').
Proof.
  destruct demo_sched_ok as (D1 & D2 & D3 & D4).
  destruct (agent_delivers demo_sched demo_cmds (Fwd KVS_SLAVE_INCR_SYNC []) demo_agent demo_alloc demo_agent_inv demo_cmds_ok D1 D4 D3 D2)
    as (s' & a' & H1 & _ & _ & H2 & _).
  exists s', a'. split; [exact H1 | exact H2].
Defined.

(** A slave joins, the stream comes in three parts, a second slave joins after
    the first, and the first one leaves before the last. *)
Definition demo_life : list agent_step :=
  let f := frames demo_cmds in
  [AgJoin 5; AgTraffic (Some (demo_event (take 30 f))); AgTraffic None; AgJoin 7; AgTraffic (Some (demo_event (take 40 (drop 30 f))));
   AgTraffic None; AgLeave 5 false; AgTraffic (Some (demo_event (drop 70 f))); AgTraffic None].
Definition demo_peers : net := {[5 := Peer [] [SrAgain; SrBytes 3]; 7 := Peer [] [] ]}.

Lemma demo_life_ok :
  slaves_come_and_go demo_life [] /\ net_ok (joins demo_life) demo_peers /\ sched_data (traffic demo_life) ++ [] = frames demo_cmds /\
  fwd_fits MAX_FULLSYNC_CACHE_SIZE demo_cmds (Fwd KVS_SLAVE_UNKNOWN []) /\ backlog_fits MAX_AGENT_CACHE_SIZE (traffic demo_life) [] /\
  Forall event_ok (omap id (traffic demo_life)).
Proof.
  split; [cbn [slaves_come_and_go demo_life]; unfold zlen, MAX_SLAVE_COUNT; cbn [length]; set_solver by lia |].
  split; [repeat constructor; eexists _, _; (split; [vm_compute; reflexivity |]); repeat constructor |].
  split; [vm_compute; reflexivity |].
  split; [cbn [fwd_fits demo_cmds]; repeat (split; [vm_compute; congruence |]); done |].
  split; [| repeat constructor; vm_compute; congruence].
  change (traffic demo_life) with [Some (demo_event (take 30 (frames demo_cmds))); None; Some (demo_event (take 40 (drop 30 (frames demo_cmds)))); None;
                                   Some (demo_event (drop 70 (frames demo_cmds))); None].
  cbn [backlog_fits]. repeat (split; [vm_compute; congruence |]). done.
Qed.

Lemma agent_lifecycle_witness : exists s0 a0 closed s1 a1 closed' s2 a2,
  kvs_agent_init (fun k => replicate (Z.to_nat k) 0) demo_peers Unlimited.start = (Some s0, a0) /\
  agent_life demo_life s0 a0 = Ok (closed, s1, a1) /\ kvs_agent_deinit s1 a1 = (closed', s2, a2) /\
  al_live a2 = ∅ /\ closed ++ closed' ≡ₚ [5; 7].
Proof.
  destruct demo_life_ok as (D1 & D2 & D3 & D4 & D5 & D6).
  destruct (agent_lifecycle (fun k => replicate (Z.to_nat k) 0) demo_peers demo_life [] demo_cmds Unlimited.start)
    as (s0 & a0 & closed & s1 & a1 & closed' & s2 & a2 & c1 & c2 & held & outs & H1 & H2 & H3 & H4 & H5 & _);
    [intros k Hk; unfold zlen; rewrite length_replicate; lia | apply Bump.start_inv | exact D1 | exact D2 | exact demo_cmds_ok | exact D3 | exact D4 | exact D5 | exact D6 |].
  exists s0, a0, closed, s1, a1, closed', s2, a2. repeat (split; [assumption |]). exact H5.
Defined.

(** ** What stops it *)

(** The agent knows one protocol: the first request a client of the master
    sends in RESP, which the master serves, makes the agent stop, and no later
    write is forwarded. *)
Theorem resp_stops_agent :
  (s ← res_map fst (agent_sched [Some (demo_event (BS "*1" ++ CRLF ++ BS "$4" ++ CRLF ++ BS "PING" ++ CRLF)); None;
                                 Some (demo_event (kvsp_frame [BS "DEL"; BS "k"])); None] demo_agent demo_alloc);
   Ok (existing s, pe_out <$> ag_net s !! 5)) = Ok (true, Some []).
Proof. vm_compute. reflexivity. Qed.

(** Events do not say which connection they come from: when a request of
    one client arrives in two parts and another client's request comes in
    between, the agent takes the parts for one stream and stops. *)
Theorem mixed_clients_stop_agent :
  let f := kvsp_frame [BS "SET"; BS "key"; BS "value"] in
  (s ← res_map fst (agent_sched [Some (demo_event (take 10 f)); Some (demo_event (kvsp_frame [BS "GET"; BS "x"])); Some (demo_event (drop 10 f));
                                 None; None; None] demo_agent demo_alloc);
   Ok (existing s, pe_out <$> ag_net s !! 5)) = Ok (true, Some []).
Proof. vm_compute. reflexivity. Qed.
