(* ===== verification/FaultClaims.v ===== *)
(** * FaultClaims: paths on which the server leaves its contract

    Each theorem states a behaviour of the code that its documentation or its
    callers do not expect: overflows, lost writes, crashes. *)

From S2P Require Import Prelude CLib Alloc Protocol ProtocolFacts Engine Owner Bag Uring Log LogFacts Store StoreFacts RequestFacts Save SaveFacts LoadFacts.
From S2P Require Import Array Hash Skiplist SkiplistFacts Rbtree RbEngine.
From S2P Require Import Net Server ServerFacts Sync SyncFacts System RecoveryFacts Main MainFacts.

(** ** The reply to an unknown command *)

Section Unknown.
Context {A TA TR TH TL X : Type} `{Allocator A}.
Context `{EA : !Engine A TA} `{ER : !Engine A TR} `{EH : !Engine A TH} `{EL : !Engine A TL}.
Context `{MX : !Modules A (engines TA TR TH TL) X}.

(** C38: the reply to an unknown command echoes the command word with
    [sprintf] after the code has made sure of 32 bytes only: a long word makes
    it write past the end of the write buffer. *)
Theorem unknown_command_overflow tok rest count cli (st : store TA TR TH TL X) (a : A) :
  find_command (zip kvs_cmds command) tok = KVS_CMD_COUNT -> 0 < count -> 32 <= w_cap cli - w_pos cli ->
  zlen (wbuf cli) < w_pos cli + zlen tok + 26 ->
  kvs_filter_protocol (Some tok :: rest) count cli st a = Undef.
Proof.
  intros Hf Hc Hroom Hlong. unfold kvs_filter_protocol. change (token (Some tok :: rest) 0) with (Some tok). cbv beta iota.
  rewrite (proj2 (Z.leb_gt count 0)) by done. unfold ensure_room. rewrite (proj2 (Z.ltb_ge _ 32)) by done. run. rewrite Hf. run.
  cbn [run_command]. run. unfold write_reply, put_reply. cbn [c_reply answered].
  assert (Hw : wr_range (wbuf cli) (w_pos cli) ((BS "-ERR no such command '" ++ tok ++ BS "'" ++ CRLF) ++ [0]) = Undef).
  { unfold wr_range. destruct (_ && _) eqn:Hb; [| done]. apply andb_true_iff in Hb as [_ Hb]. apply Z.leb_le in Hb.
    rewrite !zlen_app in Hb. change (zlen (BS "-ERR no such command '")) with 22 in Hb. change (zlen (BS "'")) with 1 in Hb.
    change (zlen CRLF) with 2 in Hb. change (zlen [0]) with 1 in Hb. lia. }
  rewrite Hw. done.
Qed.

(** A DEL of an absent key is answered with [$-1] by three engines, as the
    command table documents, and with [-ERR message] by the hash engine, whose
    [kvs_hash_del] returns -1 for it. *)
Theorem del_absent_reply absent full e k x d d' :
  db_step full absent (e, OpDel k) x d d' -> d e !! k = None -> absent EHash = -1 -> (forall e', e' <> EHash -> 0 < absent e') ->
  d' e = d e /\ reply_of (e, OpDel k) x = if decide (e = EHash) then BS "-ERR message" ++ CRLF else BS "$-1" ++ CRLF.
Proof.
  intros [Hs _] Hk Hh Ho. cbn [fst snd] in Hs. inversion Hs as [| | ? r m' Hd | | | ? ? ? ? []]; subst.
  inversion Hd; [congruence |]; subst. split; [done |]. unfold reply_of, reply_text. cbn [snd result_of changed c_reply reply_change].
  unfold reply_change. destruct (decide (e = EHash)) as [-> | Hne].
  - by rewrite Hh.
  - specialize (Ho e Hne). rewrite (proj2 (Z.ltb_ge _ 0)), (proj2 (Z.eqb_neq _ 0)) by lia. done.
Qed.

End Unknown.

(** ** The log *)

Section Log.
Context {A S : Type} `{AL : AllocatorLaws A} `{TOT : !AllocatorTotal A}.

(** [kvs_file_read] passes the length of the file as an [int]: a log or a
    snapshot of 2 to 4 gigabytes is taken for a negative length, nothing of it
    is read, and the result is success. *)
Theorem big_file_ignored (h : msg_handler A S) ptr s (a : A) :
  2 ^ 31 <= zlen ptr < 2 ^ 32 -> exists a', kvs_file_read ptr h s a = Ok (0, s, a').
Proof.
  intros Hlen. unfold kvs_file_read. rewrite (proj2 (Z.eqb_neq (zlen ptr) 0)) by lia.
  destruct (malloc_total (BUFFER_SIZE + 1) a ltac:(pos_size)) as (p1 & a1 & ->). destruct (malloc_total (BUFFER_SIZE + 1) a1 ltac:(pos_size)) as (p2 & a2 & ->).
  cbn [file_loop]. rewrite (proj2 (Z.leb_gt (zlen ptr) 0)) by lia.
  assert (Hneg : to_int (zlen ptr) < 0).
  { unfold to_int. replace (zlen ptr + 2 ^ 31) with (zlen ptr - 2 ^ 31 + 1 * 2 ^ 32) by lia. rewrite Z.mod_add by lia.
    rewrite Z.mod_small by lia. lia. }
  unfold kvsp_parse_bulk_size. rewrite (proj2 (Z.leb_le (to_int (zlen ptr)) 0)) by lia. run. eauto.
Qed.

End Log.

Lemma big_file_ignored_witness :
  exists a', kvs_file_read (replicate (Z.to_nat (2 ^ 31)) 35) (fun cli (s : unit) a => Ok (0, cli, s, a)) tt Unlimited.start = Ok (0, tt, a').
Proof.
  apply (big_file_ignored (fun cli (s : unit) a => Ok (0, cli, s, a)) (replicate (Z.to_nat (2 ^ 31)) 35) tt Unlimited.start).
  unfold zlen. rewrite length_replicate. lia.
Defined.

(** ** A small server for the closed runs *)

Definition fault_xxh (k : list Z) : Z := fold_left Z.add k 0.
Definition fault_random (n : nat) : Z := Z.of_nat n.
Definition fault_junk : rbtree_node := RBNode BLACK 0 0 0 None None.
Definition fault_switches : switches := Switches 1 1 1.
Definition fault_sync : sync_state := SyncState 0 (Sock [] [] []) [].

Notation fault_store := (store kvs_array_t rbtree kvs_hash_t SkipList (modules Fifo.t)).

(** One life of the server with an array of [SIZE] cells: a start on the
    files [dump] and [log], then a connection that sends [reqs]; the replies,
    the store, the log file and the snapshot it could take at the end. *)
Record life_end := Life { l_replies : list Z; l_store : fault_store; l_log : list Z; l_dump : option (list Z) }.

Definition l_eng (l : life_end) : engines kvs_array_t rbtree kvs_hash_t SkipList := eng (l_store l).

Section Life.
Context (SIZE : Z).
#[local] Existing Instance system_modules.
#[local] Instance fault_array : Engine Unlimited.t kvs_array_t := array_engine SIZE.
#[local] Instance fault_rbtree : Engine Unlimited.t rbtree := rb_engine.
#[local] Instance fault_hash : Engine Unlimited.t kvs_hash_t := hash_engine fault_xxh 8.
#[local] Instance fault_skip : Engine Unlimited.t SkipList := skip_engine fault_random.

Definition life (dump : option (list Z)) (log : list Z) (reqs : list request) : res life_end :=
  '(st, a) ← kvs_init fault_xxh SIZE 8 fault_random (zero_cells SIZE) (zero_heads 8) fault_junk dump true true
    (LogEnv 3 true true log) (fresh_modules fault_switches fault_sync) Unlimited.start;
  '(_, _, _, st, a) ← main_start fault_xxh SIZE 8 fault_random 0 (-1) (-1) (Sock [] [] []) st a;
  '(_, sk, st, a) ← server kvs_protocol 5 2 (Sock [Some (frames (tokens_of <$> reqs))] [] []) st a;
  '(_, f) ← kvs_save_start (R := Fifo.t) 3 (eng st) a;
  Ok (Life (sk_out sk) st (logged st) f).

(** The value the array engine holds for a key. *)
Definition array_value (k : list Z) (g : engines kvs_array_t rbtree kvs_hash_t SkipList) : res cptr := e_get (global_array g) (Some k).

(** A slave with the store of [l] synchronises with a master that sends the
    snapshot [f]. *)
Definition synced (f : list Z) (l : life_end) : res (Z * engines kvs_array_t rbtree kvs_hash_t SkipList) :=
  '(r, _, g, _) ← kvs_slave_full_sync 6 (Sock [Some (kvsp_frame [fullsync_ok (zlen f)]); Some f] [] []) (l_eng l) Unlimited.start;
  Ok (r, g).

End Life.

(** A snapshot followed by the whole log needs room in the array for the
    keys of the snapshot and of the replayed writes together: with an array of
    two cells a write that succeeded, and is in the snapshot and the log, is
    lost by the restart. *)
Theorem array_capacity_replay :
  (l1 ← life 2 None []
          [(EArray, OpSet (BS "k") (BS "0")); (EArray, OpDel (BS "k")); (EArray, OpSet (BS "x") (BS "1"));
           (EArray, OpSet (BS "k") (BS "1")); (EArray, OpDel (BS "x")); (EArray, OpSet (BS "y") (BS "1"))];
   k1 ← array_value 2 (BS "k") (l_eng l1);
   l2 ← life 2 (l_dump l1) (l_log l1) [];
   k2 ← array_value 2 (BS "k") (l_eng l2);
   Ok (k1, k2)) = Ok (Some (BS "1"), None).
Proof. vm_compute. reflexivity. Qed.

(** The walk of the save child over the red-black tree returns the result
    of the root record only: when a record further down cannot be written for
    want of memory, [kvs_save_start] still succeeds and the file it renames
    over the dump misses pairs. *)
Theorem rbtree_snapshot_incomplete :
  (l ← life 8 None [] [(ERbtree, OpSet (BS "a") (BS "1")); (ERbtree, OpSet (BS "b") (BS "2"))];
   '(r, f) ← kvs_save_start (R := Fifo.t) 3 (l_eng l) (Bump.start (Some 2%nat));
   Ok (r, f, l_dump l))
  = Ok (0, Some (kvsp_frame [BS "RBTREE"; BS "a"; BS "1"]),
        Some (kvsp_frame [BS "RBTREE"; BS "a"; BS "1"] ++ kvsp_frame [BS "RBTREE"; BS "b"; BS "2"])).
Proof. vm_compute. reflexivity. Qed.

(** A slave that recovered its own files before the full synchronisation
    keeps its old values: the snapshot is loaded with SET, which does not touch
    a key that is present, and keys the master no longer has stay. *)
Theorem full_sync_keeps_stale :
  (l1 ← life 8 None [] [(EArray, OpSet (BS "k") (BS "new"))];
   l2 ← life 8 None [] [(EArray, OpSet (BS "k") (BS "old")); (EArray, OpSet (BS "gone") (BS "x"))];
   f ← of_option (l_dump l1);
   '(r, g) ← synced 8 f l2;
   k ← array_value 8 (BS "k") g;
   gone ← array_value 8 (BS "gone") g;
   Ok (r, k, gone)) = Ok (0, Some (BS "old"), Some (BS "x")).
Proof. vm_compute. reflexivity. Qed.

(** ** Replication *)

(** The slave compares the first token of the master's answer without
    testing that there is one: a message without tokens makes it dereference
    NULL. *)
Theorem slave_empty_message :
  kvs_slave_obtain_file_size 6 (Sock [Some (kvsp_frame [])] [] []) Unlimited.start = Undef.
Proof. vm_compute. reflexivity. Qed.

Section Slave.
Context {A TA TR TH TL : Type} `{Allocator A}.
Context `{EA : !Engine A TA} `{ER : !Engine A TR} `{EH : !Engine A TH} `{EL : !Engine A TL}.

(** When the connection to the agent fails after the full synchronisation,
    [kvs_slave_incr_sync] closes the connection to the master and
    [kvs_slave_sync] closes the same descriptor again. *)
Theorem slave_closes_twice enable master_fd agent_fd sk sk' (g g' : engines TA TR TH TL) (a a' : A) :
  enable <> 0 -> 0 <= master_fd -> agent_fd < 0 ->
  kvs_slave_full_sync master_fd sk g a = Ok (0, sk', g', a') ->
  kvs_slave_sync enable master_fd agent_fd sk g a = Ok (-2, None, [master_fd; master_fd], sk', g', a').
Proof.
  intros He Hm Ha Hf. unfold kvs_slave_sync. rewrite (proj2 (Z.eqb_neq enable 0)), (proj2 (Z.ltb_ge master_fd 0)), Hf by done. run.
  change (0 =? KVS_SYNC_RET_BUSY) with false. change (0 =? 0) with true. run. unfold kvs_slave_incr_sync.
  rewrite (proj2 (Z.ltb_ge master_fd 0)), (proj2 (Z.ltb_lt agent_fd 0)) by done. run. done.
Qed.

End Slave.

(** ** Memory exhaustion in the log *)

(** When the context block of a log record cannot be allocated,
    [kvs_log_write] returns -2 but leaves the submission entry it took blank in
    the ring: its completion has no context, and the next call of
    [kvs_log_write] dereferences it. *)
Theorem log_ctx_oom (x : log_state Fifo.t) (r : Fifo.t) :
  fd_log x = 3 -> ring_log_inited x = 1 -> ring_log x = Some r -> Fifo.flight r = [] -> Fifo.room r = None ->
  exists x' a',
    kvs_log_write 1 [Some (BS "DEL"); Some (BS "k")] 2 x (Bump.start (Some 1%nat)) = Ok (-2, x', a') /\
    kvs_log_write 1 [Some (BS "DEL"); Some (BS "k")] 2 x' (Bump.start None) = Undef.
Proof.
  destruct x as [f rg i o]. cbn [fd_log ring_log_inited ring_log]. intros -> -> -> Hf Hr.
  destruct r as [fl dk rm]. cbn in Hf, Hr. subst. eexists _, _. split; [vm_compute; reflexivity |]. vm_compute. reflexivity.
Qed.

(** ** Instances *)

Definition fault_engines : engines kvs_array_t rbtree kvs_hash_t SkipList :=
  Engines (Array None 0 0) (RBTree NULL NULL ∅) (HashTable None 0 0) (MkSkipList None 0 ∅ 0).

#[local] Existing Instance system_modules.
#[local] Instance inst_array : Engine Unlimited.t kvs_array_t := array_engine 8.
#[local] Instance inst_rbtree : Engine Unlimited.t rbtree := rb_engine.
#[local] Instance inst_hash : Engine Unlimited.t kvs_hash_t := hash_engine fault_xxh 8.
#[local] Instance inst_skip : Engine Unlimited.t SkipList := skip_engine fault_random.

Definition fault_client : client_info :=
  ClientInfo 5 16 (replicate 33 0) 32 0 0 0 32 (replicate 33 0) 32 0 0 PROTO_KVSP (Some kvsp_parse_bulk_size).

Lemma unknown_command_overflow_witness :
  kvs_filter_protocol [Some (replicate 50 120)] 1 fault_client
    (Store fault_engines 0 (fresh_modules (R := Fifo.t) fault_switches fault_sync)) Unlimited.start = Undef.
Proof.
  apply (unknown_command_overflow (replicate 50 120) [] 1 fault_client); vm_compute; congruence.
Defined.

Lemma del_absent_reply_witness :
  reply_of (EHash, OpDel (BS "k")) (OutCode (-1)) = BS "-ERR message" ++ CRLF.
Proof.
  pose (absent := fun e => if decide (e = EHash) then -1 else 1).
  destruct (del_absent_reply absent (fun _ _ => false) EHash (BS "k") (OutCode (-1)) (fun _ => ∅) (fun _ => ∅)) as [_ ->];
    [split | | | |]; try done.
  - cbn. apply abs_del. by constructor.
  - intros e' He. unfold absent. by rewrite decide_False.
Defined.

Lemma slave_closes_twice_witness : exists sk' g' a',
  kvs_slave_sync 1 6 (-1) (Sock [Some (kvsp_frame [fullsync_ok 0])] [] []) fault_engines Unlimited.start
    = Ok (-2, None, [6; 6], sk', g', a').
Proof.
  eexists _, _, _. apply slave_closes_twice; [lia | lia | lia | vm_compute; reflexivity].
Defined.

Lemma log_ctx_oom_witness : exists x' a',
  kvs_log_write 1 [Some (BS "DEL"); Some (BS "k")] 2 (LogState 3 (Some (Fifo.mk [] [] None)) 1 0) (Bump.start (Some 1%nat)) = Ok (-2, x', a').
Proof.
  destruct (log_ctx_oom (LogState 3 (Some (Fifo.mk [] [] None)) 1 0) (Fifo.mk [] [] None)) as (x' & a' & Hx & _); try reflexivity.
  exists x', a'. exact Hx.
Defined.
