(* ===== verification/Rdma.v ===== *)
(** * Rdma: the transfer of the snapshot by RDMA (kvs-module/rdma_com.c)

    The branch ENABLE_RDMA of the full synchronisation. The slave registers the
    buffer for the file and tells its address and key in the private data of
    the connection; the master writes the file into that memory and then sends
    the size as a message. librdmacm and libibverbs are not part of the
    repository: what their calls answer is an environment, the calls made are a
    trace, and where the bytes go is a parameter ([Fabric]). *)

From S2P Require Import Prelude CLib Alloc Protocol Engine Uring Log Store Save Net Server Sync AgentDs.
From S2P Require Import Array Hash Skiplist Rbtree.

(** ** Byte order

    A swap of the bytes of an [n]-byte integer, which the conversions to and
    from network order are on a little-endian machine. *)
Definition bswap (n : nat) (v : Z) : Z := le_value (rev (le_bytes n v)).

Definition be64toh (v : Z) : Z := bswap 8 v.
Definition htobe64 (v : Z) : Z := bswap 8 v.
(** The argument of [htonl] is a [uint32_t]. *)
Definition htonl (v : Z) : Z := bswap 4 (v mod 2 ^ 32).
Definition ntohl (v : Z) : Z := bswap 4 (v mod 2 ^ 32).

(** ** Private data of a connection *)

Record pdata := Pdata { buf_size : Z; raddr : Z; rkey : Z }.

(** [sizeof(struct pdata)]: 20 bytes and the padding to a multiple of 8. *)
Definition SIZEOF_PDATA : Z := 24.

Definition pdata_bytes (d : pdata) : list Z :=
  le_bytes 8 (buf_size d) ++ le_bytes 8 (raddr d) ++ le_bytes 4 (rkey d) ++ replicate 4 0.

(** [memcpy(&server_data, private_data, sizeof(struct pdata))] *)
Definition pdata_of (bs : list Z) : res pdata :=
  b ← rd_range bs 0 8;
  r ← rd_range bs 8 8;
  k ← rd_range bs 16 4;
  Ok (Pdata (le_value b) (le_value r) (le_value k)).

Definition MSG_LENGTH : Z := 32.
Definition IBV_WC_SUCCESS : Z := 0.

(** [snprintf(buf, sizeof(buf), s)] *)
Definition snprintf_to (buf s : list Z) : res (list Z) :=
  wr_range buf 0 (take (Z.to_nat (zlen buf - 1)) s ++ [0]).

(** ** Calls of the libraries *)

Inductive verb :=
| V_getaddrinfo
| V_freeaddrinfo
| V_create_ep (id : Z)
| V_destroy_ep (id : Z)
| V_reg_mr (mr : Z)
| V_dereg_mr (mr : Z)
| V_listen (id : Z)
| V_get_request (id : Z)
| V_connect (id : Z)
| V_accept (id : Z) (private_data : list Z)
| V_disconnect (id : Z)
| V_post_recv (id : Z)
| V_post_write (id : Z) (data : list Z) (remote_addr remote_rkey : Z)
| V_post_send (id : Z) (msg : list Z).

(** [while((ibv_ret = ibv_poll_cq(cq, 1, &wc)) == 0)] over the answers of the
    successive polls, each the result and the status of the completion;
    [status] is [wc.status], which only a completion overwrites. The result is
    [-3] for the [goto cleanup] of the body. Without an answer the loop goes on
    for ever. *)
Fixpoint poll_loop (polls : list (Z * Z)) (status : Z) : res (Z * Z * list (Z * Z)) :=
  match polls with
  | [] => NoFuel
  | (ibv_ret, st) :: polls =>
      let status := if 0 <? ibv_ret then st else status in
      if ibv_ret =? 0 then
        if (ibv_ret <? 0) || negb (status =? IBV_WC_SUCCESS) then Ok (-3, status, polls) else poll_loop polls status
      else Ok (0, status, polls)
  end.

(** ** The client: [rdma_client] *)

(** What the calls answer: [ce_private] is the private data of [id->event],
    [None] when there is no event. *)
Record client_env := ClientEnv {
  ce_addrinfo : Z;
  ce_ep : Z;
  ce_id : Z;
  ce_mr : option Z;
  ce_send_mr : option Z;
  ce_connect : Z;
  ce_private : option (list Z);
  ce_post_write : Z;
  ce_post_send : Z;
  ce_polls : list (Z * Z)
}.

(** The variables read at [cleanup]; [connected] is [None] where its
    initialisation was jumped over. *)
Record client_vars := ClientVars {
  cv_res : bool;
  cv_id : option Z;
  cv_mr : option Z;
  cv_send_mr : option Z;
  connected : option bool
}.

(** The message with the size and, when it has been sent, the poll for it. *)
Definition client_notify (e : client_env) (msg : list Z) (polls : list (Z * Z)) (status : Z) : res (Z * list verb) :=
  if negb (ce_post_send e =? 0) then Ok (-2, []) else
  '(r, _, _) ← poll_loop polls status;
  Ok (r, [V_post_send (ce_id e) msg]).

(** From [memcpy(&server_data, ...)] on. *)
Definition client_write (e : client_env) (ptr : list Z) (size : Z) (msg private_data : list Z) : res (Z * list verb) :=
  server_data ← pdata_of private_data;
  let remote_buf_size := be64toh (buf_size server_data) in
  if remote_buf_size <? size then
    msg ← snprintf_to msg (BS "buffer size is not enough" ++ [LF]);
    '(r, t) ← client_notify e msg (ce_polls e) 0;
    Ok (if r =? 0 then -3 else r, t)
  else
    let remote_addr := be64toh (raddr server_data) in
    let remote_rkey := ntohl (rkey server_data) in
    data ← rd_range ptr 0 size;
    if negb (ce_post_write e =? 0) then Ok (-2, []) else
    '(r, status, polls) ← poll_loop (ce_polls e) 0;
    let t := [V_post_write (ce_id e) data remote_addr remote_rkey] in
    if negb (r =? 0) then Ok (r, t) else
    '(r, t') ← client_notify e msg polls status;
    Ok (r, t ++ t').

(** The body of [rdma_client] up to [cleanup]. *)
Definition client_body (e : client_env) (ptr : list Z) (size : Z) : res (Z * client_vars * list verb) :=
  msg ← snprintf_to (replicate (Z.to_nat MSG_LENGTH) 0) (dec size);
  if negb (ce_addrinfo e =? 0) then Ok (-2, ClientVars false None None None None, []) else
  let t := [V_getaddrinfo] in
  if negb (ce_ep e =? 0) then Ok (-2, ClientVars true None None None None, t) else
  let id := ce_id e in
  let t := t ++ [V_create_ep id] in
  match ce_mr e with
  | None => Ok (-2, ClientVars true (Some id) None None None, t)
  | Some mr =>
      let t := t ++ [V_reg_mr mr] in
      match ce_send_mr e with
      | None => Ok (-2, ClientVars true (Some id) (Some mr) None None, t)
      | Some send_mr =>
          let t := t ++ [V_reg_mr send_mr] in
          if negb (ce_connect e =? 0)
          then Ok (-2, ClientVars true (Some id) (Some mr) (Some send_mr) (Some false), t) else
          let t := t ++ [V_connect id] in
          let v := ClientVars true (Some id) (Some mr) (Some send_mr) (Some true) in
          match ce_private e with
          | None => Ok (-3, v, t)
          | Some private_data =>
              if zlen private_data <? SIZEOF_PDATA then Ok (-3, v, t) else
              '(r, t') ← client_write e ptr size msg private_data;
              Ok (r, v, t ++ t')
          end
      end
  end.

(** [rdma_disconnect(id)] dereferences [id]. *)
Definition rdma_disconnect (id : option Z) : res (list verb) := i ← of_option id; Ok [V_disconnect i].

(** The call [release x] unless [x] is NULL. *)
Definition if_set (release : Z -> verb) (x : option Z) : list verb :=
  match x with Some v => [release v] | None => [] end.

(** The label [cleanup]; the value of a variable that was never initialised
    is not defined. *)
Definition client_cleanup (v : client_vars) : res (list verb) :=
  c ← of_option (connected v);
  d ← (if (c : bool) then rdma_disconnect (cv_id v) else Ok []);
  Ok ((if cv_res v then [V_freeaddrinfo] else []) ++ d ++
      if_set V_dereg_mr (cv_send_mr v) ++ if_set V_dereg_mr (cv_mr v) ++ if_set V_destroy_ep (cv_id v)).

Definition rdma_client (server_ip port : cptr) (ptr : option (list Z)) (size : Z) (e : client_env) : res (Z * list verb) :=
  match server_ip, port, ptr with
  | Some _, Some _, Some p =>
      if size <=? 0 then Ok (-1, []) else
      '(ret, v, t) ← client_body e p size;
      t' ← client_cleanup v;
      Ok (ret, t ++ t')
  | _, _, _ => Ok (-1, [])
  end.

(** ** The server: [rdma_server] *)

(** [ve_buf] and [ve_msg] are the contents of [rdma_buf] and [notify_msg] when
    the poll for the message is over. *)
Record server_env := ServerEnv {
  ve_addrinfo : Z;
  ve_ep : Z;
  ve_listen_id : Z;
  ve_listen : Z;
  ve_request : Z;
  ve_id : Z;
  ve_mr : option Z;
  ve_rkey : Z;
  ve_recv_mr : option Z;
  ve_post_recv : Z;
  ve_accept : Z;
  ve_polls : list (Z * Z);
  ve_buf : list Z;
  ve_msg : list Z
}.

Record server_vars := ServerVars {
  sv_res : bool;
  sv_listen_id : option Z;
  sv_id : option Z;
  sv_mr : option Z;
  sv_recv_mr : option Z;
  get_request : option bool
}.

(** [strnlen(msg, n)] for a message of at most [n] bytes *)
Fixpoint strnlen (msg : list Z) : Z :=
  match msg with
  | [] => 0
  | c :: msg => if c =? 0 then 0 else 1 + strnlen msg
  end.

(** The loop over the digits of the message: [file_size] and [pos]. A signed
    overflow is undefined. *)
Fixpoint notify_digits (msg : list Z) (file_size pos : Z) : res (Z * Z) :=
  match msg with
  | [] => Ok (file_size, pos)
  | c :: msg =>
      if negb (is_digit c) then Ok (file_size, pos) else
      let digit := c - 48 in
      if (SSIZE_MAX - digit) / 10 <? file_size then Ok (file_size, pos) else
      if SSIZE_MAX <? file_size * 10 + digit then Undef else
      notify_digits msg (file_size * 10 + digit) (pos + 1)
  end.

(** From [ssize_t file_size = 0] to [cleanup]: the result. *)
Definition notified_size (notify_msg : list Z) : res Z :=
  let msg_len := strnlen notify_msg in
  '(file_size, pos) ← notify_digits (take (Z.to_nat msg_len) notify_msg) 0 0;
  Ok (if (file_size <=? 0) || negb (pos =? msg_len) then -4 else file_size).

(** The private data of a server with a buffer of [size] bytes at [addr]. *)
Definition server_pdata (size addr key : Z) : pdata := Pdata (htonl size) (htobe64 addr) (htonl key).

Section Server.
Context {A : Type} `{Allocator A}.

(** From [rdma_get_request] to [cleanup], with the connection [id]. *)
Definition server_receive (e : server_env) (addr : Z) (rdma_buf : list Z) (size : Z) (t : list verb)
    : res (Z * server_vars * list verb * list Z) :=
  let lid := Some (ve_listen_id e) in
  let id := ve_id e in
  let t := t ++ [V_get_request id] in
  match ve_mr e with
  | None => Ok (-2, ServerVars true lid (Some id) None None (Some true), t, rdma_buf)
  | Some mr =>
      let t := t ++ [V_reg_mr mr] in
      match ve_recv_mr e with
      | None => Ok (-2, ServerVars true lid (Some id) (Some mr) None (Some true), t, rdma_buf)
      | Some recv_mr =>
          let t := t ++ [V_reg_mr recv_mr] in
          let v := ServerVars true lid (Some id) (Some mr) (Some recv_mr) (Some true) in
          if negb (ve_post_recv e =? 0) then Ok (-2, v, t, rdma_buf) else
          let t := t ++ [V_post_recv id] in
          let server_data := server_pdata size addr (ve_rkey e) in
          if negb (ve_accept e =? 0) then Ok (-2, v, t, rdma_buf) else
          let t := t ++ [V_accept id (pdata_bytes server_data)] in
          '(r, _, _) ← poll_loop (ve_polls e) 0;
          if negb (r =? 0) then Ok (r, v, t, ve_buf e) else
          ret ← notified_size (ve_msg e);
          Ok (ret, v, t, ve_buf e)
      end
  end.

(** The body of [rdma_server] up to [cleanup]; also the contents of the
    buffer. *)
Definition server_body (e : server_env) (addr : Z) (rdma_buf : list Z) (size sockfd : Z) (sk : sock) (a : A)
    : res (Z * server_vars * list verb * list Z * sock * A) :=
  if negb (ve_addrinfo e =? 0) then Ok (-2, ServerVars false None None None None None, [], rdma_buf, sk, a) else
  let t := [V_getaddrinfo] in
  if negb (ve_ep e =? 0) then Ok (-2, ServerVars true None None None None None, t, rdma_buf, sk, a) else
  let lid := Some (ve_listen_id e) in
  let t := t ++ [V_create_ep (ve_listen_id e)] in
  if negb (ve_listen e =? 0) then Ok (-2, ServerVars true lid None None None None, t, rdma_buf, sk, a) else
  let t := t ++ [V_listen (ve_listen_id e)] in
  '(r, sk, a) ← kvs_send_single_command sockfd (Some KVS_SLAVE_FULLSYNC_READY) sk a;
  if negb (r =? 0) then Ok (-2, ServerVars true lid None None None None, t, rdma_buf, sk, a) else
  if negb (ve_request e =? 0) then Ok (-2, ServerVars true lid None None None (Some false), t, rdma_buf, sk, a) else
  '(ret, v, t, buf) ← server_receive e addr rdma_buf size t;
  Ok (ret, v, t, buf, sk, a).

Definition server_cleanup (v : server_vars) : res (list verb) :=
  g ← of_option (get_request v);
  d ← (if (g : bool) then rdma_disconnect (sv_id v) else Ok []);
  Ok ((if sv_res v then [V_freeaddrinfo] else []) ++ d ++
      if_set V_dereg_mr (sv_recv_mr v) ++ if_set V_dereg_mr (sv_mr v) ++
      if_set V_destroy_ep (sv_id v) ++ if_set V_destroy_ep (sv_listen_id v)).

(** [rdma_server] with the buffer [rdma_buf] at address [addr]. *)
Definition rdma_server (port : cptr) (rdma_buf : option (list Z)) (addr size sockfd : Z) (e : server_env) (sk : sock) (a : A)
    : res (Z * list verb * option (list Z) * sock * A) :=
  match port, rdma_buf with
  | Some _, Some buf =>
      if size <=? 0 then Ok (-1, [], rdma_buf, sk, a) else
      '(ret, v, t, buf, sk, a) ← server_body e addr buf size sockfd sk a;
      t' ← server_cleanup v;
      Ok (ret, t ++ t', Some buf, sk, a)
  | _, _ => Ok (-1, [], rdma_buf, sk, a)
  end.

(** ** The branch ENABLE_RDMA of kvs_sync.c *)

(** [kvs_slave_obtain_file]: the block and [*mod_size]. *)
Definition slave_obtain_file_rdma (port : cptr) (file_size sockfd : Z) (e : server_env) (sk : sock) (a : A)
    : res (option block * Z * list verb * sock * A) :=
  if (file_size <=? 0) || (sockfd <? 0) then Ok (None, 0, [], sk, a) else
  match kvs_malloc (file_size + 1) a with
  | (None, a) => Ok (None, 0, [], sk, a)
  | (Some p, a) =>
      let buf := replicate (Z.to_nat (file_size + 1)) 0 in
      '(rdma_mod_size, t, buf, sk, a) ← rdma_server port (Some buf) p file_size sockfd e sk a;
      if rdma_mod_size <? file_size then Ok (None, 0, t, sk, kvs_free p a) else
      mem ← of_option buf;
      Ok (Some (Block p mem), rdma_mod_size, t, sk, a)
  end.

(** [kvs_master_send_file]: [mapped] is what [mmap] answers, the bytes of the
    file at its address; [slave_ip] what [inet_ntop] prints. *)
Definition master_send_file_rdma (fd file_size : Z) (mapped : option (list Z)) (slave_ip port : cptr) (e : client_env)
    : res (Z * list verb) :=
  if file_size =? 0 then Ok (0, []) else
  if fd <? 0 then Ok (-1, []) else
  match mapped with
  | None => Ok (-2, [])
  | Some ptr =>
      '(r, t) ← rdma_client slave_ip port (Some ptr) file_size e;
      Ok (if negb (r =? 0) then -2 else 0, t)
  end.

Section Slave.
Context {TA TR TH TL : Type}.
Context `{EA : !Engine A TA} `{ER : !Engine A TR} `{EH : !Engine A TH} `{EL : !Engine A TL}.
Notation engines := (engines TA TR TH TL).

(** [kvs_slave_full_sync] *)
Definition slave_full_sync_rdma (port : cptr) (sockfd : Z) (e : server_env) (sk : sock) (g : engines) (a : A)
    : res (Z * list verb * sock * engines * A) :=
  if sockfd <? 0 then Ok (-1, [], sk, g, a) else
  '(file_size, sk, a) ← kvs_slave_obtain_file_size sockfd sk a;
  if file_size =? KVS_SYNC_RET_BUSY then Ok (KVS_SYNC_RET_BUSY, [], sk, g, a) else
  if file_size =? KVS_SYNC_RET_ERROR then Ok (KVS_SYNC_RET_ERROR, [], sk, g, a) else
  if file_size =? 0 then Ok (0, [], sk, g, a) else
  if file_size <? 0 then '(r, sk, g, a) ← slave_cleanup (-2) sockfd None sk g a; Ok (r, [], sk, g, a) else
  '(buf, buf_len, t, sk, a) ← slave_obtain_file_rdma port file_size sockfd e sk a;
  '(r, sk, g, a) ←
    match buf with
    | None => slave_cleanup (-3) sockfd None sk g a
    | Some b =>
        if buf_len <=? 0 then slave_cleanup (-3) sockfd buf sk g a else
        data ← rd_range (b_str b) 0 buf_len;
        '(r, g, a) ← kvs_file_read data kvs_save_handler g a;
        slave_cleanup (if negb (r =? 0) then -3 else 0) sockfd buf sk g a
    end;
  Ok (r, t, sk, g, a).

End Slave.

Context {R : Type} `{Uring R}.
Notation engines := (engines kvs_array_t rbtree kvs_hash_t SkipList).

(** [kvs_master_full_sync] for the connection [cli]; [mapped] tells whether
    [mmap] succeeds. *)
Definition master_full_sync_rdma (enable_sync : Z) (cli : client_info) (g : engines) (mapped : bool) (slave_ip port : cptr)
    (e : client_env) (x : sync_state) (a : A) : res (Z * list verb * sync_state * A) :=
  if enable_sync =? 0 then Ok (0, [], x, a) else
  if negb (is_full_sync x =? 0) then
    '(_, sk, a) ← kvs_send_single_command (fd cli) (Some KVS_MASTER_FULLSYNC_BUSY) (sy_sock x) a;
    Ok (0, [], SyncState (is_full_sync x) sk (sy_env x), a)
  else
    let '(env, envs) := match sy_env x with
      | [] => (SyncEnv (-1) false (-1) 0 (-1) false false [], []) | e :: es => (e, es) end in
    '(ret, sent, t, sk, a) ←
      ('(fd0, file) ← kvs_master_write_snapshot (R := R) env g a;
       if fd0 <? 0 then Ok (-2, false, [], sy_sock x, a) else
       if negb (se_fstat env) then Ok (-2, false, [], sy_sock x, a) else
       '(r, sk, a) ← kvs_master_notify_and_wait_slave (fd cli) (zlen file) (sy_sock x) a;
       if negb (r =? 0) then Ok (-2, false, [], sk, a) else
       '(r, t) ← master_send_file_rdma fd0 (zlen file) (if mapped then Some file else None) slave_ip port e;
       if negb (r =? 0) then Ok (-2, true, t, sk, a) else Ok (0, true, t, sk, a));
    '(sk, a) ←
      (if negb (ret =? 0) && negb sent
       then '(_, sk, a) ← kvs_send_single_command (fd cli) (Some KVS_MASTER_FULLSYNC_ERROR) sk a; Ok (sk, a)
       else Ok (sk, a));
    Ok (ret, t, SyncState 0 sk envs, a).

End Server.

(** ** The network between the two ends

    [rdma_write region addr key data]: the memory of a region after a write
    request, [rdma_receive buf msg]: the buffer of a posted receive after the
    message. The laws are those of the verbs: a request inside the region with
    its key places the bytes there, a message that fits is placed at the front
    of the buffer. *)
Record region := Region { rg_addr : Z; rg_key : Z; rg_mem : list Z }.

Class Fabric := {
  rdma_write : region -> Z -> Z -> list Z -> list Z;
  rdma_receive : list Z -> list Z -> list Z
}.

Class FabricLaws `{Fabric} := {
  rdma_write_ok : forall r off data, 0 <= off -> off + zlen data <= zlen (rg_mem r) ->
    Ok (rdma_write r (rg_addr r + off) (rg_key r) data) = wr_range (rg_mem r) off data;
  rdma_receive_ok : forall buf msg, zlen msg <= zlen buf -> Ok (rdma_receive buf msg) = wr_range buf 0 msg
}.

(** What the requests of the client leave in the region and in the buffer of
    the posted receive of the server. *)
Fixpoint deliver `{Fabric} (t : list verb) (r : region) (msg : list Z) : list Z * list Z :=
  match t with
  | [] => (rg_mem r, msg)
  | V_post_write _ data addr key :: t => deliver t (Region (rg_addr r) (rg_key r) (rdma_write r addr key data)) msg
  | V_post_send _ m :: t => deliver t r (rdma_receive msg m)
  | _ :: t => deliver t r msg
  end.

(** ** The resources of a trace

    What has been obtained and not given back; [None] when something is given
    back, or a connection used, that is not held. *)
Inductive robj := OAddrinfo | OEp (id : Z) | OMr (mr : Z).

#[export] Instance robj_eq_dec : EqDecision robj.
Proof. solve_decision. Defined.

Fixpoint give_back (o : robj) (held : list robj) : option (list robj) :=
  match held with
  | [] => None
  | o' :: held => if decide (o = o') then Some held else (o' ::.) <$> give_back o held
  end.

Definition verb_step (v : verb) (held : list robj) : option (list robj) :=
  let use id := if decide (OEp id ∈ held) then Some held else None in
  match v with
  | V_getaddrinfo => Some (OAddrinfo :: held)
  | V_freeaddrinfo => give_back OAddrinfo held
  | V_create_ep id | V_get_request id => Some (OEp id :: held)
  | V_destroy_ep id => give_back (OEp id) held
  | V_reg_mr mr => Some (OMr mr :: held)
  | V_dereg_mr mr => give_back (OMr mr) held
  | V_listen id | V_connect id | V_accept id _ | V_disconnect id | V_post_recv id
  | V_post_write id _ _ _ | V_post_send id _ => use id
  end.

Fixpoint resources (t : list verb) (held : list robj) : option (list robj) :=
  match t with
  | [] => Some held
  | v :: t => held ← verb_step v held; resources t held
  end.

(** ** What one end sees of the other

    The client sees the private data of the server; the server finds in its
    memory what the requests of the client left there. *)
Definition see_private (e : client_env) (private_data : list Z) : client_env :=
  ClientEnv (ce_addrinfo e) (ce_ep e) (ce_id e) (ce_mr e) (ce_send_mr e) (ce_connect e) (Some private_data)
    (ce_post_write e) (ce_post_send e) (ce_polls e).

Definition see_memory (e : server_env) (buf msg : list Z) : server_env :=
  ServerEnv (ve_addrinfo e) (ve_ep e) (ve_listen_id e) (ve_listen e) (ve_request e) (ve_id e) (ve_mr e) (ve_rkey e)
    (ve_recv_mr e) (ve_post_recv e) (ve_accept e) (ve_polls e) buf msg.
