(* ===== verification/RdmaFacts.v ===== *)
(** * RdmaFacts: the RDMA transfer copies the file and gives everything back

    The byte order of the private data, the size in the message, the release
    of every resource on the error paths, and the two ends of a full
    synchronisation. *)

From S2P Require Import Prelude CLib Alloc Protocol ProtocolFacts Engine Uring Log Store StoreFacts Save Net Server Sync SyncFacts SaveFacts LoadFacts LogFacts Owner.
From S2P Require Import Array Hash Skiplist SkiplistFacts Rbtree RbTheory RbFacts RbEngine AgentDs AgentDsFacts Rdma.

(** ** Byte order *)

Definition is_byte (b : Z) : Prop := 0 <= b < 256.

Lemma le_bytes_byte n v : 0 <= v -> Forall is_byte (le_bytes n v).
Proof.
  revert v. induction n as [| n IH]; intros v Hv; cbn; constructor.
  - apply Z.mod_pos_bound. lia.
  - apply IH, Z.div_pos; lia.
Qed.

Lemma le_value_bound bs : Forall is_byte bs -> 0 <= le_value bs < 256 ^ Z.of_nat (length bs).
Proof.
  induction 1 as [| b bs Hb _ IH]; cbn [le_value length]; [lia |].
  rewrite Nat2Z.inj_succ, Z.pow_succ_r by lia. unfold is_byte in Hb. lia.
Qed.

Lemma le_value_app s t : le_value (s ++ t) = le_value s + 256 ^ Z.of_nat (length s) * le_value t.
Proof.
  induction s as [| b s IH]; cbn [le_value length app]; [lia |].
  rewrite IH, Nat2Z.inj_succ, Z.pow_succ_r by lia. lia.
Qed.

Lemma le_bytes_value bs : Forall is_byte bs -> le_bytes (length bs) (le_value bs) = bs.
Proof.
  induction 1 as [| b bs Hb _ IH]; cbn [le_value length le_bytes]; [done |]. unfold is_byte in Hb.
  rewrite (Z.mul_comm 256), Z.mod_add, Z.div_add by lia. rewrite Z.mod_small, Z.div_small by lia. by rewrite Z.add_0_l, IH.
Qed.

Lemma le_bytes_pad n k v : 0 <= v < 256 ^ Z.of_nat n -> le_bytes (n + k) v = le_bytes n v ++ replicate k 0.
Proof.
  revert v. induction n as [| n IH]; intros v Hv; cbn [Nat.add le_bytes app].
  - replace v with 0 by (cbn in Hv; lia). clear. induction k as [| k IH]; [done |]. cbn [le_bytes replicate]. change (0 / 256) with 0. by rewrite IH.
  - rewrite Nat2Z.inj_succ, Z.pow_succ_r in Hv by lia. rewrite IH; [done |].
    split; [apply Z.div_pos; lia | apply Z.div_lt_upper_bound; lia].
Qed.

Lemma bswap_bytes n v : 0 <= v -> le_bytes n (bswap n v) = rev (le_bytes n v).
Proof.
  intros Hv. unfold bswap. rewrite <- (le_bytes_len n v) at 1. rewrite <- length_rev at 1.
  apply le_bytes_value. by apply List.Forall_rev, le_bytes_byte.
Qed.

Lemma bswap_bound n v : 0 <= v -> 0 <= bswap n v < 256 ^ Z.of_nat n.
Proof.
  intros Hv. unfold bswap. pose proof (le_value_bound (rev (le_bytes n v))) as Hb. rewrite length_rev, le_bytes_len in Hb.
  apply Hb. by apply List.Forall_rev, le_bytes_byte.
Qed.

(** Twice swapped is the number. *)
Lemma bswap_involutive n v : 0 <= v < 256 ^ Z.of_nat n -> bswap n (bswap n v) = v.
Proof.
  intros Hv. unfold bswap at 1. rewrite bswap_bytes, rev_involutive, le_value_bytes by lia. by apply Z.mod_small.
Qed.

Lemma raddr_read v : 0 <= v < 2 ^ 64 -> be64toh (htobe64 v) = v.
Proof. apply (bswap_involutive 8). Qed.

Lemma rkey_read v : 0 <= v < 2 ^ 32 -> ntohl (htonl v) = v.
Proof.
  intros Hv. unfold ntohl, htonl. rewrite (Z.mod_small v) by lia. pose proof (bswap_bound 4 v ltac:(lia)) as Hb.
  change (256 ^ Z.of_nat 4) with (2 ^ 32) in Hb. rewrite Z.mod_small by lia. by apply (bswap_involutive 4).
Qed.

(** The size is written with the 32-bit conversion and read with the 64-bit
    one: the reader finds its lower half as the upper half. *)
Lemma buf_size_read size : 0 <= size -> be64toh (htonl size) = (size mod 2 ^ 32) * 2 ^ 32.
Proof.
  intros Hs. unfold be64toh, htonl. set (x := size mod 2 ^ 32). pose proof (Z.mod_pos_bound size (2 ^ 32) ltac:(lia)) as Hx. fold x in Hx.
  unfold bswap at 1. rewrite (le_bytes_pad 4 4) by (apply bswap_bound; lia). rewrite bswap_bytes by lia.
  rewrite rev_app_distr, rev_involutive. change (rev (replicate 4 0)) with (replicate 4 0).
  rewrite le_value_app, le_value_bytes by lia. change (le_value (replicate 4 0)) with 0.
  change (256 ^ Z.of_nat (length (replicate 4 0))) with (2 ^ 32). change (256 ^ Z.of_nat 4) with (2 ^ 32). rewrite Z.mod_small by lia. lia.
Qed.

(** The private data arrives, whatever padding the transport adds. *)
Lemma pdata_read d pad :
  0 <= buf_size d < 2 ^ 64 -> 0 <= raddr d < 2 ^ 64 -> 0 <= rkey d < 2 ^ 32 -> pdata_of (pdata_bytes d ++ pad) = Ok d.
Proof.
  intros Hb Hr Hk. unfold pdata_of, pdata_bytes. rewrite <- !app_assoc.
  set (B := le_bytes 8 (buf_size d)). set (R := le_bytes 8 (raddr d)). set (K := le_bytes 4 (rkey d)). set (rest := _ ++ pad).
  assert (LB : zlen B = 8) by (unfold zlen, B; by rewrite le_bytes_len).
  assert (LR : zlen R = 8) by (unfold zlen, R; by rewrite le_bytes_len).
  assert (LK : zlen K = 4) by (unfold zlen, K; by rewrite le_bytes_len).
  pose proof (rd_range_app_mid [] B (R ++ K ++ rest)) as E1. rewrite LB in E1. cbn [app] in E1. change (zlen []) with 0 in E1. rewrite E1. run.
  pose proof (rd_range_app_mid B R (K ++ rest)) as E2. rewrite LB, LR in E2. rewrite E2. run.
  pose proof (rd_range_app_mid (B ++ R) K rest) as E3. rewrite zlen_app, LB, LR, LK, <- app_assoc in E3. change (8 + 8) with 16 in E3. rewrite E3. run.
  unfold B, R, K. rewrite !le_size, le_value_bytes by lia. change (256 ^ Z.of_nat 4) with (2 ^ 32). rewrite Z.mod_small by lia. by destruct d.
Qed.

Lemma pdata_len d : zlen (pdata_bytes d) = SIZEOF_PDATA.
Proof. unfold pdata_bytes, zlen. by rewrite !length_app, !le_bytes_len, length_replicate. Qed.

(** ** The size in the message *)

(** The digits in front of a list. *)
Lemma notify_digits_run ds fs pos :
  0 <= fs <= SSIZE_MAX ->
  exists fs' n rest, notify_digits ds fs pos = Ok (fs', pos + n) /\ 0 <= fs' <= SSIZE_MAX /\ 0 <= n /\
    ds = rest.1 ++ rest.2 /\ n = zlen rest.1 /\ Forall (fun c => is_digit c = true) rest.1 /\ fs' = dval fs rest.1 /\
    match rest.2 with [] => True | c :: _ => is_digit c = true -> SSIZE_MAX < dval fs' [c] end.
Proof.
  revert fs pos. induction ds as [| c ds IH]; intros fs pos Hfs; cbn [notify_digits].
  { exists fs, 0, ([], []). rewrite Z.add_0_r. split; [done |]. repeat split; try done; try lia; constructor. }
  destruct (is_digit c) eqn:Hc; cbn [negb].
  2: { exists fs, 0, ([], c :: ds). rewrite Z.add_0_r. split; [done |]. repeat split; try done; try lia; try constructor. cbn [snd]. congruence. }
  assert (Hd : 0 <= c - 48 <= 9) by (unfold is_digit in Hc; zguard).
  destruct (Z.ltb_spec ((SSIZE_MAX - (c - 48)) / 10) fs) as [Hbig | Hok].
  - exists fs, 0, ([], c :: ds). rewrite Z.add_0_r. split; [done |]. repeat split; try done; try lia; try constructor.
    intros _. change (dval fs [c]) with (10 * fs + (c - 48)). pose proof (Z.div_mod (SSIZE_MAX - (c - 48)) 10 ltac:(lia)). pose proof (Z.mod_pos_bound (SSIZE_MAX - (c - 48)) 10 ltac:(lia)). lia.
  - assert (Hm : fs * 10 + (c - 48) <= SSIZE_MAX).
    { pose proof (Z.mul_div_le (SSIZE_MAX - (c - 48)) 10 ltac:(lia)). lia. }
    rewrite (proj2 (Z.ltb_ge _ _)) by done.
    destruct (IH (fs * 10 + (c - 48)) (pos + 1) ltac:(lia)) as (fs' & n & [d r] & -> & Hb & Hn & -> & Hl & Hds & Hv & Hr).
    exists fs', (n + 1), (c :: d, r). cbn [fst snd] in *. split; [do 2 f_equal; lia |]. rewrite zlen_cons. repeat split; try done; try lia.
    + by constructor.
    + rewrite Hv. change (dval fs (c :: d)) with (dval (10 * fs + (c - 48)) d). by rewrite (Z.mul_comm 10).
Qed.

Lemma strnlen_app s rest : nul_free s -> strnlen (s ++ 0 :: rest) = zlen s.
Proof.
  induction 1 as [| c s Hc _ IH]; [done |]. cbn [app strnlen]. rewrite (proj2 (Z.eqb_neq c 0)) by done.
  by rewrite IH, zlen_cons.
Qed.

Lemma strnlen_bound msg : 0 <= strnlen msg <= zlen msg.
Proof.
  induction msg as [| c msg IH]; cbn [strnlen]; [done |]. rewrite zlen_cons. destruct (c =? 0); lia.
Qed.

(** A message is accepted when it is the decimal text of a positive [ssize_t],
    with nothing behind it. *)
Definition sized (text : list Z) : bool :=
  forallb is_digit text && (0 <? dval 0 text) && (dval 0 text <=? SSIZE_MAX).

Lemma all_digits s : forallb is_digit s = true <-> Forall (fun c => is_digit c = true) s.
Proof. rewrite forallb_forall, List.Forall_forall. done. Qed.

Lemma dval_mono_prefix acc s t : 0 <= acc -> Forall (fun c => is_digit c = true) (s ++ t) -> dval acc s <= dval acc (s ++ t).
Proof.
  intros Ha Hd. apply Forall_app in Hd as [Hs Ht]. rewrite dval_app. apply dval_mono; [| done].
  pose proof (dval_mono acc s Ha Hs). lia.
Qed.

Lemma notified_size_run msg :
  let text := take (Z.to_nat (strnlen msg)) msg in
  notified_size msg = Ok (if sized text then dval 0 text else -4).
Proof.
  intros text. unfold notified_size. fold text. pose proof (strnlen_bound msg) as Hb.
  assert (Hl : zlen text = strnlen msg) by (unfold text, zlen in *; rewrite length_take; lia).
  destruct (notify_digits_run text 0 0 ltac:(unfold SSIZE_MAX; lia)) as (fs & n & [d r] & -> & Hfs & Hn & Ht & Hd & Hds & Hv & Hr).
  run. cbn [fst snd] in *. f_equal. unfold sized. rewrite <- Hl, Ht, zlen_app, Hd. destruct r as [| c r].
  - rewrite !app_nil_r. change (zlen []) with 0. rewrite (proj2 (Z.eqb_eq (0 + zlen d) _)) by lia. rewrite orb_false_r.
    rewrite (proj2 (all_digits d)) by done. cbn [andb].
    rewrite <- Hv. rewrite (proj2 (Z.leb_le fs SSIZE_MAX)) by lia. rewrite andb_true_r. zguard.
  - rewrite zlen_cons. pose proof (zlen_nonneg r). rewrite (proj2 (Z.eqb_neq (0 + zlen d) _)) by lia. rewrite orb_true_r.
    destruct (forallb is_digit (d ++ c :: r)) eqn:Hall; [| done]. cbn [andb].
    assert (Hall' : Forall (fun c => is_digit c = true) (d ++ c :: r)).
    { by apply all_digits. }
    assert (SSIZE_MAX < dval 0 (d ++ c :: r)).
    { replace (d ++ c :: r) with ((d ++ [c]) ++ r) in * by (by rewrite <- app_assoc).
      pose proof (dval_mono_prefix 0 (d ++ [c]) r ltac:(lia) Hall'). rewrite dval_app, <- Hv in H0.
      apply Forall_app in Hall' as [Hdc _]. apply Forall_app in Hdc as [_ Hc]. apply Forall_cons in Hc as [Hc _]. specialize (Hr Hc). lia. }
    rewrite (proj2 (Z.leb_gt _ SSIZE_MAX)) by lia. by rewrite andb_false_r.
Qed.

(** ** Polls *)

(** Polls that find nothing. *)
Definition waiting (polls : list (Z * Z)) : Prop := Forall (fun p => p.1 = 0) polls.

Lemma poll_waits ws n st rest :
  waiting ws -> n <> 0 ->
  poll_loop (ws ++ (n, st) :: rest) IBV_WC_SUCCESS = Ok (0, if 0 <? n then st else IBV_WC_SUCCESS, rest).
Proof.
  intros Hw Hn. induction Hw as [| [r s] ws Hr _ IH]; cbn [app poll_loop].
  - by rewrite (proj2 (Z.eqb_neq n 0)).
  - cbn [fst] in Hr. subst r. cbn [Z.ltb Z.compare]. change (0 =? 0) with true. cbn [orb]. exact IH.
Qed.

(** The polls that find something. *)
Definition answers (polls : list (Z * Z)) : nat := length (filter (fun p => p.1 <> 0) polls).

(** A poll loop ends at the next answer at the latest. *)
Lemma poll_ends polls : forall status k, (k < answers polls)%nat ->
  exists r st rest, poll_loop polls status = Ok (r, st, rest) /\ (r = 0 /\ (k <= answers rest)%nat \/ r = -3).
Proof.
  unfold answers. induction polls as [| [n s] polls IH]; intros status k Hk; [cbn in Hk; lia |].
  cbn [poll_loop]. rewrite filter_cons in Hk. cbn [fst] in Hk. destruct (Z.eqb_spec n 0) as [-> | Hn].
  - rewrite decide_False in Hk by auto. destruct ((0 <? 0) || _); [eauto 10 | by apply IH].
  - rewrite decide_True in Hk by auto. cbn [length] in Hk. eexists _, _, _. split; [done |]. left. split; [done | lia].
Qed.

(** ** Resources *)

Lemma resources_app s t held : resources (s ++ t) held = held ← resources s held; resources t held.
Proof.
  revert held. induction s as [| v s IH]; intros held; cbn [app resources]; [done |].
  destruct (verb_step v held); cbn [mbind option_bind]; [apply IH | done].
Qed.

Lemma give_back_top o held : give_back o (o :: held) = Some held.
Proof. cbn [give_back]. by rewrite decide_True. Qed.

Lemma give_back_skip o o' held : o <> o' -> give_back o (o' :: held) = (o' ::.) <$> give_back o held.
Proof. intros Hne. cbn [give_back]. by rewrite decide_False. Qed.

Lemma use_held id (held : list robj) : OEp id ∈ held -> (if decide (OEp id ∈ held) then Some held else None) = Some held.
Proof. intros Hh. by rewrite decide_True. Qed.

(** Runs a trace whose resources are given back in the reverse order. *)
Ltac resources_run :=
  cbn [sv_res sv_listen_id sv_id sv_mr sv_recv_mr get_request cv_res cv_id cv_mr cv_send_mr connected];
  repeat (cbn [resources verb_step mbind option_bind option_fmap fmap option_map app]; first
    [ rewrite give_back_top | rewrite give_back_skip by done | rewrite use_held by set_solver ]);
  cbn [resources mbind option_bind].

Lemma notify_trace e msg polls status :
  (0 < answers polls)%nat ->
  exists r t, client_notify e msg polls status = Ok (r, t) /\ (t = [] \/ t = [V_post_send (ce_id e) msg]).
Proof.
  intros Hp. unfold client_notify. destruct (ce_post_send e =? 0); cbn [negb]; [| by eauto 10].
  destruct (poll_ends polls status 0 Hp) as (r & st & rest & -> & _). run. eauto 10.
Qed.

(** The requests of a client, whatever the calls answer. *)
Lemma write_trace e ptr size msg pd :
  (1 < answers (ce_polls e))%nat -> 0 <= size <= zlen ptr -> zlen msg = MSG_LENGTH -> SIZEOF_PDATA <= zlen pd ->
  exists r t, client_write e ptr size msg pd = Ok (r, t) /\
    Forall (fun v => match v with V_post_write id _ _ _ | V_post_send id _ => id = ce_id e | _ => False end) t.
Proof.
  intros Hp Hs Hm Hpd. unfold SIZEOF_PDATA, MSG_LENGTH in *. unfold client_write, pdata_of.
  assert (Hr : forall i n, 0 <= i -> 0 <= n -> i + n <= 24 -> exists s, rd_range pd i n = Ok s).
  { intros i n Hi Hn Hin. unfold rd_range. rewrite !(proj2 (Z.leb_le _ _)) by lia. eauto. }
  destruct (Hr 0 8) as [s1 ->]; [lia.. |]. run. destruct (Hr 8 8) as [s2 ->]; [lia.. |]. run. destruct (Hr 16 4) as [s3 ->]; [lia.. |]. run.
  destruct (be64toh _ <? size).
  - unfold snprintf_to. rewrite Hm. set (text := take _ _ ++ [0]). assert (Ht : zlen text = 27) by reflexivity.
    unfold wr_range. rewrite Ht, Hm. change ((0 <=? 0) && (0 + 27 <=? 32)) with true. cbn match. run. set (m := _ ++ _).
    destruct (notify_trace e m (ce_polls e) 0) as (r & t & -> & Ht'); [lia |]. run. eexists _, t. split; [done |].
    destruct Ht' as [-> | ->]; repeat constructor.
  - unfold rd_range. rewrite !(proj2 (Z.leb_le _ _)) by lia. cbn [andb]. run. destruct (ce_post_write e =? 0); cbn [negb]; [| by eauto].
    destruct (poll_ends (ce_polls e) 0 1 Hp) as (r & st & rest & -> & [[-> Hrest] | ->]); run.
    + change (0 =? 0) with true. cbn [negb]. destruct (notify_trace e msg rest st) as (r & t & -> & Ht'); [lia |]. run. eexists _, _. split; [done |].
      destruct Ht' as [-> | ->]; repeat constructor.
    + cbn [Z.eqb negb]. eexists _, _. split; [done |]. repeat constructor.
Qed.

Lemma requests_hold e t held :
  Forall (fun v => match v with V_post_write id _ _ _ | V_post_send id _ => id = ce_id e | _ => False end) t ->
  OEp (ce_id e) ∈ held -> resources t held = Some held.
Proof.
  intros Ht Hh. induction Ht as [| v t Hv _ IH]; [done |]. cbn [resources].
  destruct v; try done; subst; cbn [verb_step]; rewrite use_held by done; exact IH.
Qed.

(** The message with the size, as the client keeps it. *)
Definition size_msg (size : Z) : list Z := take 31 (dec size) ++ [0] ++ replicate (31 - length (take 31 (dec size))) 0.

Lemma size_msg_init size : snprintf_to (replicate (Z.to_nat MSG_LENGTH) 0) (dec size) = Ok (size_msg size).
Proof.
  unfold snprintf_to. change (zlen (replicate (Z.to_nat MSG_LENGTH) 0)) with 32. change (Z.to_nat (32 - 1)) with 31%nat.
  set (s := take 31 (dec size)). assert (Hl : (length s <= 31)%nat) by (unfold s; rewrite length_take; lia).
  pose proof (wr_range_app [] (replicate (Z.to_nat MSG_LENGTH) 0) (s ++ [0])) as Hw. cbn [app] in Hw. change (zlen []) with 0 in Hw.
  rewrite Hw by (change (zlen (replicate (Z.to_nat MSG_LENGTH) 0)) with 32; rewrite zlen_app; change (zlen [0]) with 1; unfold zlen; lia).
  unfold size_msg. fold s. rewrite <- app_assoc. do 4 f_equal. change (Z.to_nat MSG_LENGTH) with 32%nat.
  rewrite drop_replicate, length_app. f_equal. cbn [length]. lia.
Qed.

Lemma size_msg_len size : zlen (size_msg size) = MSG_LENGTH.
Proof.
  unfold size_msg, zlen. set (s := take 31 _). assert (Hl : (length s <= 31)%nat) by (unfold s; rewrite length_take; lia).
  rewrite !length_app, length_replicate. cbn [length]. unfold MSG_LENGTH. lia.
Qed.

(** ** Every path behind the initialisations gives everything back *)

(** The calls in front of the initialisation of [connected] succeed. *)
Record client_setup (e : client_env) : Prop := {
  cs_addrinfo : ce_addrinfo e = 0;
  cs_ep : ce_ep e = 0;
  cs_mr : is_Some (ce_mr e);
  cs_send_mr : is_Some (ce_send_mr e)
}.

Lemma client_ends e ip port ptr size :
  client_setup e -> (1 < answers (ce_polls e))%nat -> 0 < size <= zlen ptr ->
  exists ret t, rdma_client (Some ip) (Some port) (Some ptr) size e = Ok (ret, t) /\ resources t [] = Some [].
Proof.
  intros [H1 H2 [mr H3] [smr H4]] Hp Hs. unfold rdma_client. rewrite (proj2 (Z.leb_gt size 0)) by lia.
  unfold client_body. rewrite size_msg_init, H1, H2, H3, H4. run. change (0 =? 0) with true. cbn [negb app].
  destruct (Z.eqb_spec (ce_connect e) 0); cbn [negb].
  2: { run. unfold client_cleanup. cbn. eexists _, _. split; [done |]. by resources_run. }
  unfold client_cleanup, rdma_disconnect, if_set.
  assert (Hgen : forall t, Forall (fun v => match v with V_post_write id _ _ _ | V_post_send id _ => id = ce_id e | _ => False end) t ->
    resources (([V_getaddrinfo; V_create_ep (ce_id e); V_reg_mr mr; V_reg_mr smr; V_connect (ce_id e)] ++ t) ++
      [V_freeaddrinfo; V_disconnect (ce_id e); V_dereg_mr smr; V_dereg_mr mr; V_destroy_ep (ce_id e)]) [] = Some []).
  { intros t Ht. rewrite !resources_app. resources_run. rewrite (requests_hold e) by (done || set_solver). by resources_run. }
  destruct (ce_private e) as [pd |]; [| eexists _, _; split; [done | apply (Hgen []); constructor]].
  destruct (Z.ltb_spec (zlen pd) SIZEOF_PDATA); [eexists _, _; split; [done | apply (Hgen []); constructor] |].
  destruct (write_trace e ptr size (size_msg size) pd Hp ltac:(lia) (size_msg_len size) ltac:(lia)) as (r & t & -> & Ht).
  eexists _, _. split; [done | by apply Hgen].
Qed.

(** The calls in front of the initialisation of [get_request] succeed. *)
Record server_setup (e : server_env) : Prop := {
  ss_addrinfo : ve_addrinfo e = 0;
  ss_ep : ve_ep e = 0;
  ss_listen : ve_listen e = 0
}.

Section Server.
Context {A : Type} `{AL : AllocatorLaws A} `{TOT : !AllocatorTotal A}.

Lemma server_receive_ends e addr buf size t0 :
  (0 < answers (ve_polls e))%nat -> resources t0 [] = Some [OEp (ve_listen_id e); OAddrinfo] ->
  exists ret v t b t', server_receive e addr buf size t0 = Ok (ret, v, t, b) /\ server_cleanup v = Ok t' /\ resources (t ++ t') [] = Some [].
Proof.
  intros Hp Ht0. unfold server_receive, server_cleanup, rdma_disconnect, if_set.
  destruct (ve_mr e) as [mr |].
  2: { do 5 eexists. split; [done |]. split; [done |]. rewrite !resources_app, Ht0. by resources_run. }
  destruct (ve_recv_mr e) as [rmr |].
  2: { do 5 eexists. split; [done |]. split; [done |]. rewrite !resources_app, Ht0. by resources_run. }
  destruct (ve_post_recv e =? 0); cbn [negb].
  2: { do 5 eexists. split; [done |]. split; [done |]. rewrite !resources_app, Ht0. by resources_run. }
  destruct (ve_accept e =? 0); cbn [negb].
  2: { do 5 eexists. split; [done |]. split; [done |]. rewrite !resources_app, Ht0. by resources_run. }
  destruct (poll_ends (ve_polls e) 0 0 Hp) as (r & st & rest & -> & _). run. destruct (r =? 0); cbn [negb].
  - rewrite notified_size_run. run. do 5 eexists. split; [done |]. split; [done |]. rewrite !resources_app, Ht0. by resources_run.
  - do 5 eexists. split; [done |]. split; [done |]. rewrite !resources_app, Ht0. by resources_run.
Qed.

Lemma server_ends e port buf addr size sockfd sk (a : A) :
  server_setup e -> (0 < answers (ve_polls e))%nat -> 0 < size -> 0 <= sockfd -> sk_send sk = [] -> al_inv a ->
  exists ret t b a', rdma_server (Some port) (Some buf) addr size sockfd e sk a
    = Ok (ret, t, Some b, Sock (sk_in sk) (sk_out sk ++ kvsp_frame [KVS_SLAVE_FULLSYNC_READY]) [], a') /\
    resources t [] = Some [] /\ al_inv a' /\ al_live a' = al_live a.
Proof.
  intros [H1 H2 H3] Hp Hs Hfd Hsk Hi. unfold rdma_server, server_body. rewrite (proj2 (Z.leb_gt size 0)) by lia.
  rewrite H1, H2, H3. change (0 =? 0) with true. cbn [negb app].
  destruct (send_command_ok sockfd KVS_SLAVE_FULLSYNC_READY sk a) as (a' & -> & Hi' & Hl'); [done | vm_compute; congruence | done | done |].
  run. change (0 =? 0) with true. cbn [negb]. destruct (ve_request e =? 0); cbn [negb].
  - edestruct (server_receive_ends e addr buf size) as (ret & v & t & b & t' & -> & Hc & Hr); [done | by resources_run |].
    run. rewrite Hc. run. eauto 10.
  - run. unfold server_cleanup, rdma_disconnect, if_set. cbn [get_request sv_res sv_id sv_mr sv_recv_mr sv_listen_id of_option]. run.
    do 4 eexists. split; [done |]. split; [by resources_run |]. done.
Qed.

End Server.

(** ** Both ends *)

Lemma dec_length_31 n : 0 <= n <= SSIZE_MAX -> zlen (dec n) <= 31.
Proof.
  intros Hn. pose proof (dec_aux_length (S (Z.to_nat (Z.log2 n))) n 31) as Hd. unfold dec, zlen.
  assert (0 <= n < 10 ^ Z.of_nat 31) as H1 by (unfold SSIZE_MAX in Hn; cbn; lia). specialize (Hd H1 ltac:(lia)). lia.
Qed.

(** What the client prints, the server reads. *)
Lemma size_roundtrip size : 0 < size <= SSIZE_MAX -> notified_size (size_msg size) = Ok size.
Proof.
  intros Hs. pose proof (dec_length_31 size ltac:(lia)) as Hl. rewrite notified_size_run. unfold size_msg.
  rewrite (take_ge (dec size)) by (unfold zlen in Hl; lia). cbn [app].
  assert (Hn : nul_free (dec size)) by (eapply Forall_impl; [apply dec_digits; lia |]; intros c Hc ->; done).
  rewrite strnlen_app by done. unfold zlen. rewrite Nat2Z.id, take_app_length. unfold sized.
  rewrite dec_dval by lia. rewrite (proj2 (all_digits _)) by (apply dec_digits; lia).
  rewrite (proj2 (Z.ltb_lt 0 size)), (proj2 (Z.leb_le size _)) by lia. done.
Qed.

(** The calls of the client succeed: both requests are posted. *)
Record client_posts (e : client_env) : Prop := {
  cp_setup : client_setup e;
  cp_connect : ce_connect e = 0;
  cp_write : ce_post_write e = 0;
  cp_send : ce_post_send e = 0
}.

(** They also complete. *)
Record client_ok (e : client_env) : Prop := {
  co_posts : client_posts e;
  co_polls : exists w1 w2 rest, waiting w1 /\ waiting w2 /\
    ce_polls e = w1 ++ (1, IBV_WC_SUCCESS) :: w2 ++ (1, IBV_WC_SUCCESS) :: rest
}.

Record server_ok (e : server_env) : Prop := {
  so_setup : server_setup e;
  so_request : ve_request e = 0;
  so_mr : is_Some (ve_mr e);
  so_recv_mr : is_Some (ve_recv_mr e);
  so_post : ve_post_recv e = 0;
  so_accept : ve_accept e = 0;
  so_polls : exists w rest, waiting w /\ ve_polls e = w ++ (1, IBV_WC_SUCCESS) :: rest
}.

(** The requests of a client whose poll loops end without an error. *)
Lemma client_requests e ip port file addr key pad st1 polls st2 polls' :
  client_posts e -> poll_loop (ce_polls e) 0 = Ok (0, st1, polls) -> poll_loop polls st1 = Ok (0, st2, polls') -> 0 < zlen file < 2 ^ 32 -> 0 <= addr < 2 ^ 64 -> 0 <= key < 2 ^ 32 ->
  ce_private e = Some (pdata_bytes (server_pdata (zlen file) addr key) ++ pad) ->
  exists pre post, rdma_client (Some ip) (Some port) (Some file) (zlen file) e
    = Ok (0, pre ++ [V_post_write (ce_id e) file addr key; V_post_send (ce_id e) (size_msg (zlen file))] ++ post) /\
    Forall (fun v => match v with V_post_write _ _ _ _ | V_post_send _ _ => False | _ => True end) (pre ++ post).
Proof.
  intros [[H1 H2 [mr H3] [smr H4]] H5 H6 H7] Hp1 Hp2 Hs Ha Hk Hpd. unfold rdma_client.
  rewrite (proj2 (Z.leb_gt (zlen file) 0)) by lia. unfold client_body. rewrite size_msg_init, H1, H2, H3, H4, H5, Hpd. run.
  change (0 =? 0) with true. cbn [negb]. rewrite (proj2 (Z.ltb_ge _ SIZEOF_PDATA)).
  2: { rewrite zlen_app, pdata_len. pose proof (zlen_nonneg pad). lia. }
  unfold client_write. assert (Hb : forall n v, 0 <= v -> 0 <= bswap n v < 256 ^ Z.of_nat n) by (intros; by apply bswap_bound).
  pose proof (Hb 4%nat (zlen file mod 2 ^ 32) ltac:(apply Z.mod_pos_bound; lia)). pose proof (Hb 8%nat addr ltac:(lia)).
  pose proof (Hb 4%nat (key mod 2 ^ 32) ltac:(apply Z.mod_pos_bound; lia)). change (256 ^ Z.of_nat 4) with (2 ^ 32) in *. change (256 ^ Z.of_nat 8) with (2 ^ 64) in *.
  rewrite pdata_read by (unfold server_pdata, htonl, htobe64; cbn [buf_size raddr rkey]; lia). run. unfold server_pdata. cbn [buf_size raddr rkey].
  rewrite buf_size_read, raddr_read, rkey_read by lia. rewrite (Z.mod_small (zlen file)) by lia.
  rewrite (proj2 (Z.ltb_ge _ (zlen file))) by lia. pose proof (rd_range_app_mid [] file []) as Hr. rewrite app_nil_r in Hr. cbn [app] in Hr.
  change (zlen []) with 0 in Hr. rewrite Hr, H6. run. change (0 =? 0) with true. cbn [negb]. rewrite Hp1. run. change (0 =? 0) with true. cbn [negb].
  unfold client_notify. rewrite H7. change (0 =? 0) with true. cbn [negb]. rewrite Hp2. run. unfold client_cleanup. cbn [connected of_option cv_id cv_res cv_mr cv_send_mr if_set rdma_disconnect]. run.
  eexists [_; _; _; _; _], [_; _; _; _; _]. split; [done |]. repeat constructor.
Qed.

Lemma client_polls e : client_ok e ->
  exists polls polls', poll_loop (ce_polls e) 0 = Ok (0, 0, polls) /\ poll_loop polls 0 = Ok (0, 0, polls') /\ (1 < answers (ce_polls e))%nat.
Proof.
  intros [_ (w1 & w2 & rest & H1 & H2 & ->)]. exists (w2 ++ (1, IBV_WC_SUCCESS) :: rest), rest.
  change (poll_loop ?l 0) with (poll_loop l IBV_WC_SUCCESS). rewrite !poll_waits by done. split; [done |]. split; [done |].
  unfold answers. rewrite filter_app, filter_cons_True, filter_app, filter_cons_True by done. rewrite length_app. cbn [length].
  rewrite length_app. cbn [length]. lia.
Qed.

Section Transfer.
Context `{FL : FabricLaws} {A : Type} `{AL : AllocatorLaws A} `{TOT : !AllocatorTotal A}.

Lemma deliver_skip t1 t2 r msg :
  Forall (fun v => match v with V_post_write _ _ _ _ | V_post_send _ _ => False | _ => True end) t1 ->
  deliver (t1 ++ t2) r msg = deliver t2 r msg.
Proof. induction 1 as [| v t1 Hv _ IH]; [done |]. cbn [app]. by destruct v. Qed.

Lemma deliver_file pre post id file msg addr key mem m :
  Forall (fun v => match v with V_post_write _ _ _ _ | V_post_send _ _ => False | _ => True end) (pre ++ post) ->
  zlen mem = zlen file -> zlen m = zlen msg ->
  deliver (pre ++ [V_post_write id file addr key; V_post_send id msg] ++ post) (Region addr key mem) m = (file, msg).
Proof.
  intros Hpp Hr Hm. apply Forall_app in Hpp as [H1 H2]. rewrite deliver_skip by done. cbn [app deliver].
  rewrite <- (app_nil_r post), deliver_skip by done. cbn [deliver rg_mem].
  assert (Hall : forall old new : list Z, zlen old = zlen new -> wr_range old 0 new = Ok new).
  { intros old new Hon. pose proof (wr_range_app [] old new ltac:(lia)) as Hw. cbn [app] in Hw. change (zlen []) with 0 in Hw. rewrite Hw.
    rewrite drop_ge, app_nil_r by (unfold zlen in Hon; lia). done. }
  pose proof (rdma_write_ok (Region addr key mem) 0 file) as Hw. cbn [rg_addr rg_key rg_mem] in *. specialize (Hw ltac:(lia) ltac:(lia)). rewrite Z.add_0_r, Hall in Hw by done.
  pose proof (rdma_receive_ok m msg ltac:(lia)) as Hc. rewrite Hall in Hc by done. by injection Hw as ->; injection Hc as ->.
Qed.

(** A server whose calls succeed returns the size it was told. *)
Lemma server_returns e port buf addr size sockfd sk (a : A) ret t b sk' a' :
  server_ok e -> 0 < size <= SSIZE_MAX -> ve_msg e = size_msg size -> 0 <= sockfd -> sk_send sk = [] -> al_inv a ->
  rdma_server (Some port) (Some buf) addr size sockfd e sk a = Ok (ret, t, Some b, sk', a') ->
  ret = size /\ b = ve_buf e /\ V_accept (ve_id e) (pdata_bytes (server_pdata size addr (ve_rkey e))) ∈ t.
Proof.
  intros [[V1 V2 V3] V4 [mr V5] [rmr V6] V7 V8 (w & rest & Hw & V9)] Hs Hmsg Hfd Hsk Hi Hserv.
  unfold rdma_server, server_body, server_receive in Hserv. rewrite (proj2 (Z.leb_gt size 0)) in Hserv by lia.
  rewrite V1, V2, V3, V4, V5, V6, V7, V8, V9, Hmsg in Hserv. change (0 =? 0) with true in Hserv. cbn [negb] in Hserv.
  destruct (send_command_ok sockfd KVS_SLAVE_FULLSYNC_READY sk a) as (a2 & Hsend & _); [done | vm_compute; congruence | done | done |].
  rewrite Hsend in Hserv. cbn [mbind res_bind] in Hserv. change (0 =? 0) with true in Hserv. cbn [negb mbind res_bind] in Hserv.
  change (poll_loop ?l 0) with (poll_loop l IBV_WC_SUCCESS) in Hserv. rewrite poll_waits in Hserv by done.
  cbn [mbind res_bind] in Hserv. change (0 =? 0) with true in Hserv. cbn [negb mbind res_bind] in Hserv.
  rewrite size_roundtrip in Hserv by done. cbn [mbind res_bind] in Hserv. unfold server_cleanup, rdma_disconnect, if_set in Hserv.
  cbn [get_request sv_res sv_id sv_mr sv_recv_mr sv_listen_id of_option mbind res_bind app] in Hserv. injection Hserv as <- <- <- _. split; [done |]. split; [done |].
  set_solver.
Qed.

(** The master's file goes into the region the private data names. *)
Lemma master_sends file ip port pad fd addr key ce :
  client_ok ce -> 0 < zlen file < 2 ^ 32 -> 0 <= addr < 2 ^ 64 -> 0 <= key < 2 ^ 32 -> 0 <= fd ->
  exists tc, master_send_file_rdma fd (zlen file) (Some file) (Some ip) (Some port)
      (see_private ce (pdata_bytes (server_pdata (zlen file) addr key) ++ pad)) = Ok (0, tc) /\
    resources tc [] = Some [] /\
    deliver tc (Region addr key (replicate (length file) 0)) (replicate (Z.to_nat MSG_LENGTH) 0) = (file, size_msg (zlen file)).
Proof.
  intros Hce Hs Haddr Hk Hfd. unfold master_send_file_rdma.
  rewrite (proj2 (Z.eqb_neq (zlen file) 0)), (proj2 (Z.ltb_ge fd 0)) by lia.
  set (pd := pdata_bytes _ ++ pad). assert (Hce' : client_posts (see_private ce pd)) by (destruct Hce as [[[? ? ? ?] ? ? ?] _]; by split).
  destruct (client_polls ce Hce) as (polls & polls' & Hp1 & Hp2 & Hcp).
  destruct (client_requests (see_private ce pd) ip port file addr key pad 0 polls 0 polls' Hce' Hp1 Hp2 Hs Haddr Hk eq_refl) as (pre & post & Hcr & Hpp).
  destruct (client_ends (see_private ce pd) ip port file (zlen file) (cp_setup _ Hce') Hcp ltac:(lia)) as (rc & tc & Hc & Hrc).
  rewrite Hc in Hcr. injection Hcr as -> ->. rewrite Hc. run. eexists. split; [done |]. split; [exact Hrc |].
  apply (deliver_file pre post); [done | unfold zlen; by rewrite length_replicate | by rewrite size_msg_len].
Qed.

(** The slave gets the file in a new block. *)
Lemma slave_obtains file port sockfd addr se sk (a a1 : A) :
  server_ok se -> 0 < zlen file < 2 ^ 32 -> 0 <= sockfd -> sk_send sk = [] -> al_inv a -> kvs_malloc (zlen file + 1) a = (Some addr, a1) ->
  exists ts a', slave_obtain_file_rdma (Some port) (zlen file) sockfd (see_memory se (file ++ [0]) (size_msg (zlen file))) sk a
    = Ok (Some (Block addr (file ++ [0])), zlen file, ts, Sock (sk_in sk) (sk_out sk ++ kvsp_frame [KVS_SLAVE_FULLSYNC_READY]) [], a') /\
    resources ts [] = Some [] /\ al_inv a' /\ al_live a' = al_live a1 /\
    V_accept (ve_id se) (pdata_bytes (server_pdata (zlen file) addr (ve_rkey se))) ∈ ts.
Proof.
  intros Hse Hs Hsfd Hsk Hi Hm.
  unfold slave_obtain_file_rdma. rewrite (proj2 (Z.leb_gt (zlen file) 0)), (proj2 (Z.ltb_ge sockfd 0)) by lia. cbn [orb]. rewrite Hm.
  destruct (malloc_some _ _ _ _ Hi Hm) as (Hf & Hl & Hi1). set (se' := see_memory se (file ++ [0]) (size_msg (zlen file))).
  assert (Hsp : (0 < answers (ve_polls se'))%nat).
  { destruct (so_polls _ Hse) as (w & rest & _ & Hp). unfold se', answers. cbn [see_memory ve_polls].
    rewrite Hp, filter_app, filter_cons_True by done. rewrite length_app. cbn [length]. lia. }
  assert (Hse' : server_ok se') by (destruct Hse as [[? ? ?] ? ? ? ? ? ?]; by split).
  destruct (server_ends se' port (replicate (Z.to_nat (zlen file + 1)) 0) addr (zlen file) sockfd sk a1 (so_setup _ Hse') Hsp ltac:(lia) Hsfd Hsk Hi1)
    as (ret & ts & b & a' & Hserv & Hts & Hi' & Hl').
  destruct (server_returns se' port _ addr (zlen file) sockfd sk a1 _ _ _ _ _ Hse' ltac:(unfold SSIZE_MAX; lia) eq_refl Hsfd Hsk Hi1 Hserv) as (-> & -> & Hacc).
  rewrite Hserv. run. cbn [se' see_memory ve_buf]. rewrite Z.ltb_irrefl. run. cbn [of_option]. run. eauto 10.
Qed.

End Transfer.

(** ** A full synchronisation *)

Section FullSync.
Context `{FL : FabricLaws} {A R : Type} `{AL : AllocatorLaws A} `{TOT : !AllocatorTotal A} `{UL : UringLaws R} `{UT : !UringTotal R}.
Context (XXH : list Z -> Z) (SIZE HSIZE : Z) (random : nat -> Z).
Context (Hsize : 0 < SIZE) (Hhsize : 0 < HSIZE <= INT_MAX).
Notation engines := (engines kvs_array_t rbtree kvs_hash_t SkipList).

#[local] Instance rdma_array : Engine A kvs_array_t := array_engine SIZE.
#[local] Instance rdma_rbtree : Engine A rbtree := rb_engine.
#[local] Instance rdma_hash : Engine A kvs_hash_t := hash_engine XXH HSIZE.
#[local] Instance rdma_skip : Engine A SkipList := skip_engine random.
#[local] Instance rdma_array_laws : EngineLaws A kvs_array_t := array_laws SIZE Hsize.
#[local] Instance rdma_hash_laws : EngineLaws A kvs_hash_t := hash_laws XXH HSIZE Hhsize.

Lemma rdma_master_run cli (g : engines) nl t env envs ip port pad addr key ce a :
  snap_inv XXH SIZE HSIZE nl t g -> storable XXH SIZE HSIZE random g -> env_ok env -> 0 <= fd cli -> al_inv a ->
  client_ok ce -> 0 <= addr < 2 ^ 64 -> 0 <= key < 2 ^ 32 ->
  let f := snapshot_file t g in
  zlen f < INT_MAX -> f <> [] ->
  exists tc a', master_full_sync_rdma (R := R) 1 cli g true (Some ip) (Some port)
      (see_private ce (pdata_bytes (server_pdata (zlen f) addr key) ++ pad))
      (SyncState 0 (Sock [Some (kvsp_frame [KVS_SLAVE_FULLSYNC_READY])] [] []) (env :: envs)) a
    = Ok (0, tc, SyncState 0 (Sock [] (kvsp_frame [fullsync_ok (zlen f)]) []) envs, a') /\ al_live a' = al_live a /\
    resources tc [] = Some [] /\
    deliver tc (Region addr key (replicate (length f) 0)) (replicate (Z.to_nat MSG_LENGTH) 0) = (f, size_msg (zlen f)).
Proof.
  intros Hinv Hst Henv Hfd Hi Hce Haddr Hk f Hf Hne. pose proof (nonempty_pos f Hne) as Hpos. unfold master_full_sync_rdma.
  cbn [Z.eqb negb is_full_sync sy_env sy_sock]. rewrite (write_snapshot_ok XXH SIZE HSIZE random g nl t env a Hinv Hst Henv). run. fold f.
  rewrite (proj2 (Z.ltb_ge (se_open env) 0)), (eo_fstat _ Henv) by apply (eo_open _ Henv). cbn [negb].
  destruct (notify_ok (fd cli) (zlen f) [] [] a Hfd ltac:(lia) Hi) as (a2 & -> & Hi2 & Hl2). run. cbn [Z.eqb negb].
  destruct (master_sends f ip port pad (se_open env) addr key ce Hce ltac:(unfold INT_MAX in Hf; lia) Haddr Hk (eo_open _ Henv)) as (tc & -> & Hr & Hd).
  run. cbn [Z.eqb negb andb]. run. exists tc, a2. done.
Qed.

Lemma rdma_slave_run sockfd (g g0 : engines) nl t port se rest a :
  snap_inv XXH SIZE HSIZE nl t g -> storable XXH SIZE HSIZE random g -> 0 <= sockfd ->
  state_wf eng_inv eng_own g0 rest a -> (forall e, db g0 e = ∅) -> server_ok se ->
  let f := snapshot_file t g in
  zlen f < INT_MAX -> f <> [] ->
  exists p ts g' a', slave_full_sync_rdma (Some port) sockfd (see_memory se (f ++ [0]) (size_msg (zlen f)))
      (Sock [Some (kvsp_frame [fullsync_ok (zlen f)])] [] []) g0 a
    = Ok (0, ts, Sock [] (kvsp_frame [KVS_SYNC_COMMAND] ++ kvsp_frame [KVS_SLAVE_FULLSYNC_READY]) [], g', a') /\
    V_accept (ve_id se) (pdata_bytes (server_pdata (zlen f) p (ve_rkey se))) ∈ ts /\ resources ts [] = Some [] /\ (forall e, db g' e = db g e) /\ state_wf eng_inv eng_own g' rest a' /\ state_frame eng_own g0 rest a g' rest a'.
Proof.
  intros Hinv Hst Hfd (Hp0 & Hi & Ho) Hempty Hse f Hf Hne. pose proof (nonempty_pos f Hne) as Hnz. unfold slave_full_sync_rdma.
  rewrite (proj2 (Z.ltb_ge sockfd 0)) by done.
  destruct (obtain_size_ok sockfd (zlen f) [] [] a Hfd ltac:(lia) Hi) as (a1 & -> & Hi1 & Hl1). run.
  unfold KVS_SYNC_RET_BUSY, KVS_SYNC_RET_ERROR.
  rewrite (proj2 (Z.eqb_neq (zlen f) (-101))), (proj2 (Z.eqb_neq (zlen f) (-100))), (proj2 (Z.eqb_neq (zlen f) 0)), (proj2 (Z.ltb_ge (zlen f) 0)) by lia.
  assert (Hwf1 : state_wf eng_inv eng_own g0 rest a1) by (split; [done |]; split; [done |]; by rewrite Hl1).
  destruct (malloc_total (zlen f + 1) a1 ltac:(pos_size)) as (p & a2 & Hm). destruct (state_take _ _ _ _ _ _ _ _ Hwf1 Hm) as [Hwf2 Hfr2].
  destruct (slave_obtains f port sockfd p se (Sock [] ([] ++ kvsp_frame [KVS_SYNC_COMMAND]) []) a1 a2 Hse ltac:(unfold INT_MAX in Hf; lia) Hfd eq_refl Hi1 Hm)
    as (ts & a3 & -> & Hts & Hi3 & Hl3 & Hacc). run. rewrite (proj2 (Z.leb_gt (zlen f) 0)) by lia. cbn [b_str].
  pose proof (rd_range_app_mid [] f [0]) as Hr. cbn [app] in Hr. change (zlen []) with 0 in Hr. rewrite Hr. cbn [mbind res_bind]. cbn [sk_in sk_out].
  assert (Hwf3 : state_wf eng_inv eng_own g0 ({[p]} :: rest) a3)
    by (destruct Hwf2 as (? & _ & ?); split; [done |]; split; [done |]; by rewrite Hl3).
  destruct (slave_load_ok XXH SIZE HSIZE random Hsize Hhsize sockfd g g0 nl t p (f ++ [0]) rest
    (Sock [] (([] ++ kvsp_frame [KVS_SYNC_COMMAND]) ++ kvsp_frame [KVS_SLAVE_FULLSYNC_READY]) []) a3 Hinv Hst Hwf3 Hempty Hf Hne)
    as (g' & a' & Hload & Hdb & Hwf' & Hfr').
  exists p, ts, g', a'. split; [exact (f_equal (fun m => m ≫= (fun '(r, sk, g1, a0) => Ok (r, ts, sk, g1, a0))) Hload) |]. split; [done |]. split; [done |]. split; [done |]. split; [done |].
  eapply state_frame_trans; [| exact Hfr']. unfold state_frame in *. rewrite Hl3, Hfr2, Hl1. done.
Qed.

End FullSync.
