(* ===== verification/RdmaClaims.v ===== *)
(** * RdmaClaims: the properties of the RDMA transfer *)

From S2P Require Import Prelude CLib Alloc Protocol Engine Owner Uring Log LogFacts Store StoreFacts Save SaveFacts LoadFacts Net Server Sync SyncFacts.
From S2P Require Import Array Hash Skiplist SkiplistFacts Rbtree RbTheory RbFacts RbEngine AgentDs AgentDsFacts Rdma RdmaFacts.
From S2P Require Import System RecoveryFacts Main MainFacts SystemClaims.

(** ** A network that places every permitted request *)

Module Direct.

#[global] Instance fabric : Fabric := {
  rdma_write r addr key data :=
    match (if key =? rg_key r then wr_range (rg_mem r) (addr - rg_addr r) data else Undef) with Ok m => m | _ => rg_mem r end;
  rdma_receive buf msg := match wr_range buf 0 msg with Ok m => m | _ => buf end
}.

#[global] Instance laws : FabricLaws.
Proof.
  split.
  - intros r off data Ho Hl. cbn. rewrite Z.eqb_refl. replace (rg_addr r + off - rg_addr r) with off by lia.
    unfold wr_range. rewrite !(proj2 (Z.leb_le _ _)) by lia. done.
  - intros buf msg Hl. cbn. unfold wr_range. rewrite !(proj2 (Z.leb_le _ _)) by lia. done.
Qed.

Definition client (polls : list (Z * Z)) : client_env := ClientEnv 0 0 7 (Some 1) (Some 2) 0 None 0 0 polls.
Definition server (polls : list (Z * Z)) : server_env := ServerEnv 0 0 3 0 0 4 (Some 5) 77 (Some 6) 0 0 polls [] [].

End Direct.

Section FullSync.
Context `{FL : FabricLaws} {A R : Type} `{AL : AllocatorLaws A} `{TOT : !AllocatorTotal A} `{UL : UringLaws R} `{UT : !UringTotal R}.
Context (XXH : list Z -> Z) (SIZE HSIZE : Z) (random : nat -> Z).
Context (Hsize : 0 < SIZE) (Hhsize : 0 < HSIZE <= INT_MAX).
Notation engines := (engines kvs_array_t rbtree kvs_hash_t SkipList).

#[local] Instance rc_array : Engine A kvs_array_t := mf_array SIZE.
#[local] Instance rc_rbtree : Engine A rbtree := mf_rbtree.
#[local] Instance rc_hash : Engine A kvs_hash_t := mf_hash XXH HSIZE.
#[local] Instance rc_skip : Engine A SkipList := mf_skip random.
#[local] Instance rc_array_laws : EngineLaws A kvs_array_t := array_laws SIZE Hsize.
#[local] Instance rc_hash_laws : EngineLaws A kvs_hash_t := hash_laws XXH HSIZE Hhsize.

(** C20: a full synchronisation with the transfer by RDMA between a master with
    contents [g], which are not empty and whose snapshot [f] is below 2 GB, and
    a slave that starts empty, when every call of the RDMA libraries and every
    completion succeeds ([client_ok], [server_ok]) and the control messages on
    the socket arrive in one piece. The slave announces its block at [addr] in
    the private data of the connection it accepts; the requests of the master,
    which sees these data, leave exactly the snapshot and its size in the
    slave's memory. Both sides answer 0, the slave holds the master's contents,
    neither leaks a block, and both have given back every resource of the RDMA
    libraries. [AllocatorTotal] and [UringTotal] as for the transfer with
    [sendfile]. *)
Theorem rdma_full_sync cli sockfd (g g0 : engines) env envs ip port pad ce se rest am a e0 k0 v0 :
  eng_inv g -> storable XXH SIZE HSIZE random g -> env_ok env -> 0 <= fd cli -> 0 <= sockfd -> al_inv am ->
  state_wf eng_inv eng_own g0 rest a -> (forall e, db g0 e = ∅) -> db g e0 !! k0 = Some v0 ->
  client_ok ce -> server_ok se -> 0 <= ve_rkey se < 2 ^ 32 ->
  exists f, kvs_master_write_snapshot (R := R) env g am = Ok (se_open env, f) /\ (zlen f < INT_MAX ->
  exists addr ts g' a', slave_full_sync_rdma (Some port) sockfd (see_memory se (f ++ [0]) (size_msg (zlen f)))
      (Sock [Some (kvsp_frame [fullsync_ok (zlen f)])] [] []) g0 a
    = Ok (0, ts, Sock [] (kvsp_frame [KVS_SYNC_COMMAND] ++ kvsp_frame [KVS_SLAVE_FULLSYNC_READY]) [], g', a') /\
    V_accept (ve_id se) (pdata_bytes (server_pdata (zlen f) addr (ve_rkey se))) ∈ ts /\
    resources ts [] = Some [] /\ (forall e, db g' e = db g e) /\ state_wf eng_inv eng_own g' rest a' /\ state_frame eng_own g0 rest a g' rest a' /\
    (0 <= addr < 2 ^ 64 ->
     exists tc am', master_full_sync_rdma (R := R) 1 cli g true (Some ip) (Some port)
         (see_private ce (pdata_bytes (server_pdata (zlen f) addr (ve_rkey se)) ++ pad))
         (SyncState 0 (Sock [Some (kvsp_frame [KVS_SLAVE_FULLSYNC_READY])] [] []) (env :: envs)) am
       = Ok (0, tc, SyncState 0 (Sock [] (kvsp_frame [fullsync_ok (zlen f)]) []) envs, am') /\ al_live am' = al_live am /\
       resources tc [] = Some [] /\
       deliver tc (Region addr (ve_rkey se) (replicate (length f) 0)) (replicate (Z.to_nat MSG_LENGTH) 0) = (f, size_msg (zlen f)))).
Proof.
  intros (I1 & (nl & t & I2) & I3 & I4) Hst Henv Hfd Hsock Hi Hwf Hempty Hk0 Hce Hse Hkey.
  assert (Hinv : snap_inv XXH SIZE HSIZE nl t g) by done. exists (snapshot_file t g).
  split; [exact (write_snapshot_ok XXH SIZE HSIZE random g nl t env am Hinv Hst Henv) |]. intros Hmax.
  assert (Hne : snapshot_file t g <> []) by exact (snapshot_nonempty XXH SIZE HSIZE random nl t g e0 k0 v0 Hinv Hk0).
  destruct (rdma_slave_run XXH SIZE HSIZE random Hsize Hhsize sockfd g g0 nl t port se rest a Hinv Hst Hsock Hwf Hempty Hse Hmax Hne)
    as (addr & ts & g' & a' & Hrun & Hacc & Hres & Hdb & Hwf' & Hfr).
  exists addr, ts, g', a'. split; [exact Hrun |]. split; [exact Hacc |]. split; [exact Hres |]. split; [exact Hdb |]. split; [exact Hwf' |]. split; [exact Hfr |].
  intros Haddr.
  exact (rdma_master_run XXH SIZE HSIZE random (R := R) cli g nl t env envs ip port pad addr (ve_rkey se) ce am Hinv Hst Henv Hfd Hi Hce Haddr Hkey Hmax Hne).
Qed.

End FullSync.

Section Release.
Context {A : Type} `{AL : AllocatorLaws A} `{TOT : !AllocatorTotal A}.

(** C28: whatever the calls of the libraries and the peer answer, once the
    variables of the cleanup are initialised both functions return as soon as
    the polls are answered, and every address record, region and connection they
    obtained is given back exactly once, in an order in which no connection is
    used after it was destroyed. The socket takes the one message of the server,
    and no allocation fails. *)
Theorem rdma_releases_all ce se ip port ptr buf addr size sockfd sk (a : A) :
  client_setup ce -> server_setup se -> (1 < answers (ce_polls ce))%nat -> (0 < answers (ve_polls se))%nat ->
  0 < size <= zlen ptr -> 0 <= sockfd -> sk_send sk = [] -> al_inv a ->
  (exists ret t, rdma_client (Some ip) (Some port) (Some ptr) size ce = Ok (ret, t) /\ resources t [] = Some []) /\
  (exists ret t b a', rdma_server (Some port) (Some buf) addr size sockfd se sk a
     = Ok (ret, t, Some b, Sock (sk_in sk) (sk_out sk ++ kvsp_frame [KVS_SLAVE_FULLSYNC_READY]) [], a') /\
     resources t [] = Some [] /\ al_inv a' /\ al_live a' = al_live a).
Proof.
  intros Hc Hs Hpc Hps Hz Hfd Hsk Hi. split; [by apply client_ends | apply server_ends; [done | done | lia | done | done | done]].
Qed.

End Release.

(** C31: the server reads the size from the message of any peer without an
    overflow: it returns the number when the bytes before the first NUL are the
    decimal digits of a positive [ssize_t], and -4 for every other message. *)
Theorem rdma_message_size msg :
  let text := take (Z.to_nat (strnlen msg)) msg in
  notified_size msg = Ok (if sized text then dval 0 text else -4).
Proof. apply notified_size_run. Qed.

(** ** Where the code leaves its contract *)

(** The test of a completion is inside the loop that waits for it, where
    there is none: a request that completes with an error, or a poll that
    fails, counts as done, and the client reports success although nothing may
    have been written. *)
Theorem rdma_completion_unchecked ce ip port file addr key pad n1 st1 n2 st2 rest :
  client_posts ce -> 0 < zlen file < 2 ^ 32 -> 0 <= addr < 2 ^ 64 -> 0 <= key < 2 ^ 32 ->
  ce_private ce = Some (pdata_bytes (server_pdata (zlen file) addr key) ++ pad) ->
  ce_polls ce = (n1, st1) :: (n2, st2) :: rest -> n1 <> 0 -> n2 <> 0 ->
  exists t, rdma_client (Some ip) (Some port) (Some file) (zlen file) ce = Ok (0, t).
Proof.
  intros Hc Hs Ha Hk Hpd Hp H1 H2.
  assert (Hl : forall n st polls s, n <> 0 -> poll_loop ((n, st) :: polls) s = Ok (0, if 0 <? n then st else s, polls))
    by (intros; cbn [poll_loop]; by rewrite (proj2 (Z.eqb_neq n 0)) by done).
  destruct (client_requests ce ip port file addr key pad (if 0 <? n1 then st1 else 0) ((n2, st2) :: rest)
    (if 0 <? n2 then st2 else if 0 <? n1 then st1 else 0) rest Hc) as (pre & post & -> & _); [rewrite Hp; by apply Hl | by apply Hl | done.. | eauto].
Qed.

(** A call that fails before the variable tested at [cleanup] is initialised
    makes the function read a variable without a value. *)
Theorem rdma_setup_undefined ce ip port ptr size :
  0 < size -> ce_addrinfo ce <> 0 \/ ce_ep ce <> 0 \/ ce_mr ce = None \/ ce_send_mr ce = None ->
  rdma_client (Some ip) (Some port) (Some ptr) size ce = Undef.
Proof.
  intros Hs Hf. unfold rdma_client, client_body. rewrite (proj2 (Z.leb_gt size 0)), size_msg_init by lia. run.
  destruct (Z.eqb_spec (ce_addrinfo ce) 0), (Z.eqb_spec (ce_ep ce) 0), (ce_mr ce), (ce_send_mr ce); try done.
  naive_solver.
Qed.

(** The size of the buffer is announced with the 32-bit conversion and read
    with the 64-bit one: every buffer below 4 gigabytes looks large enough for
    every file below 4 gigabytes, and a buffer of a multiple of 4 gigabytes for
    none. *)
Theorem rdma_size_check buffer size :
  0 < size -> 0 < buffer ->
  (buffer < 2 ^ 32 -> size < 2 ^ 32 -> (be64toh (buf_size (server_pdata buffer 0 0)) <? size) = false) /\
  (buffer mod 2 ^ 32 = 0 -> (be64toh (buf_size (server_pdata buffer 0 0)) <? size) = true).
Proof.
  intros Hs Hb. cbn [server_pdata buf_size]. rewrite buf_size_read by lia. split.
  - intros H1 H2. rewrite Z.mod_small by lia. apply Z.ltb_ge. lia.
  - intros ->. by apply Z.ltb_lt.
Qed.

(** The size in the message is not compared with the size of the buffer: a
    message with a greater number makes [kvs_slave_obtain_file] return more
    bytes than the block has. *)
Theorem rdma_size_exceeds_block :
  exists b t sk a, slave_obtain_file_rdma (Some (BS "18515")) 4 9
      (see_memory (Direct.server [(1, 0)]) (BS "abcd" ++ [0]) (size_msg 1000)) (Sock [] [] []) Unlimited.start
    = Ok (Some b, 1000, t, sk, a) /\ zlen (b_str b) = 5.
Proof. do 4 eexists. split; vm_compute; reflexivity. Qed.

(** ** Instances *)

#[local] Existing Instance demo_array.
#[local] Existing Instance demo_rbtree.
#[local] Existing Instance demo_hash.
#[local] Existing Instance demo_skip.

Lemma rdma_full_sync_witness : exists (st : demo_store) f (g0 : engines kvs_array_t rbtree kvs_hash_t SkipList) (a0 : Unlimited.t) addr ts sk g' a',
  zlen f < INT_MAX /\
  slave_full_sync_rdma (Some (BS "18515")) 6 (see_memory (Direct.server [(0, 0); (1, 0)]) (f ++ [0]) (size_msg (zlen f)))
    (Sock [Some (kvsp_frame [fullsync_ok (zlen f)])] [] []) g0 a0 = Ok (0, ts, sk, g', a') /\
  V_accept 4 (pdata_bytes (server_pdata (zlen f) addr 77)) ∈ ts /\ forall e, db g' e = db (eng st) e.
Proof.
  destruct demo_served as (st & xs & st' & a & f0 & Hr & Hwf & Hd & _ & _ & Hsave & Hmax & _ & Hk).
  destruct (init_engines_ok demo_xxh 64 8 demo_random ltac:(lia) ltac:(unfold INT_MAX; lia) demo_junk [] Unlimited.start)
    as (g0 & a0 & _ & He & Hwf0 & _); [apply Bump.start_inv | split; [done | cbn; set_solver] |].
  destruct (rdma_full_sync (R := Roomy.t) demo_xxh 64 8 demo_random ltac:(lia) ltac:(unfold INT_MAX; lia) demo_client 6 (eng st') g0
    demo_env [] (BS "10.0.0.2") (BS "18515") [0; 0] (Direct.client [(0, 0); (1, 0); (1, 0)]) (Direct.server [(0, 0); (1, 0)]) [] Unlimited.start a0
    ERbtree (BS "k") (BS "5")) as (f & Hw & Hf);
    [apply Hwf | exact (demo_storable _ _ _ Hr Hd) | exact demo_env_ok | cbn; lia | lia | apply Bump.start_inv | exact Hwf0 | exact He | exact Hk | | | cbn; lia |].
  - split; [split; [split; [done | done | eexists; done | eexists; done] | done | done | done] |].
    exists [(0, 0)], [], []. repeat constructor.
  - split; [done | done | eexists; done | eexists; done | done | done |]. exists [(0, 0)], []. repeat constructor.
  - rewrite (demo_snapshot _ _ _ _ _ (proj1 Hwf) (demo_storable _ _ _ Hr Hd) Hsave Hw) in Hf.
    destruct (Hf Hmax) as (addr & ts & g' & a' & Hrun & Hacc & _ & Hdb & _).
    eexists st', f0, g0, a0, addr, ts, _, g', a'. split; [exact Hmax |]. split; [exact Hrun |]. split; [exact Hacc | exact Hdb].
Defined.

Lemma rdma_releases_all_witness :
  (exists ret t, rdma_client (Some (BS "h")) (Some (BS "1")) (Some (BS "ab")) 2 (Direct.client [(1, 4); (-1, 0)]) = Ok (ret, t) /\ resources t [] = Some []) /\
  (exists ret t b a', rdma_server (Some (BS "1")) (Some (BS "ab")) 8 2 9 (Direct.server [(1, 4)]) (Sock [] [] []) Unlimited.start
     = Ok (ret, t, Some b, Sock [] ([] ++ kvsp_frame [KVS_SLAVE_FULLSYNC_READY]) [], a') /\
     resources t [] = Some [] /\ al_inv a' /\ al_live a' = al_live Unlimited.start).
Proof.
  apply (rdma_releases_all (Direct.client [(1, 4); (-1, 0)]) (Direct.server [(1, 4)]) (BS "h") (BS "1") (BS "ab") (BS "ab") 8 2 9 (Sock [] [] []) Unlimited.start);
    try apply Bump.start_inv; try (vm_compute; intuition congruence); try reflexivity; try (vm_compute; lia).
  - split; [done | done | eexists; done | eexists; done].
  - split; done.
Defined.

Lemma rdma_completion_unchecked_witness :
  exists t, rdma_client (Some (BS "h")) (Some (BS "1")) (Some (BS "ab")) 2
    (see_private (Direct.client [(1, 10); (1, 5)]) (pdata_bytes (server_pdata 2 4096 77))) = Ok (0, t).
Proof.
  apply (rdma_completion_unchecked (see_private (Direct.client [(1, 10); (1, 5)]) (pdata_bytes (server_pdata 2 4096 77)))
    (BS "h") (BS "1") (BS "ab") 4096 77 [] 1 10 1 5 []); try (vm_compute; intuition congruence); try reflexivity.
  split; [split; [done | done | eexists; done | eexists; done] | done | done | done].
Defined.

Lemma rdma_setup_undefined_witness :
  rdma_client (Some (BS "h")) (Some (BS "1")) (Some (BS "ab")) 2 (ClientEnv (-1) 0 0 None None 0 None 0 0 []) = Undef.
Proof. apply rdma_setup_undefined; [lia |]. left. cbn. lia. Defined.

Lemma rdma_size_check_witness : (be64toh (buf_size (server_pdata 1 0 0)) <? 4000) = false.
Proof. apply (rdma_size_check 1 4000); lia. Defined.
