(* ===== verification/SyncSend.v ===== *)
(** * SyncSend: replication over the connection of the slave (ENABLE_SEND of kvs_sync.c)

    The other way the code has to send increments: the server puts the frame of
    each write into a ring and a thread of the same process, [agent], sends the
    frames to the slave over the connection on which it asked for the full
    synchronisation. The ring is the one of kvs_agent_ds.c, whose text
    kvs_sync.c repeats. The steps of the two threads between two critical
    sections are functions; an interleaving is a list of events.

    Frames are allocated with kvs_malloc ([A]), the ring and the messages read
    from it with malloc ([HP]). *)

From S2P Require Import Prelude CLib Alloc Protocol Engine Uring Log Store Save Net Server Sync AgentDs.
From S2P Require Import Array Hash Skiplist Rbtree.

Definition MAX_CACHE_SIZE : Z := 128 * 1024 * 1024.

(** Where [agent] is: not created, in front of the lock, behind the critical
    section with the descriptor and the message it read, returned. *)
Inductive thread :=
| T_none
| T_top
| T_send (fd : Z) (buf : option block) (buf_len : Z)
| T_done.

(** The globals. *)
Record send_state := SendState {
  global_agent_cache : agent_cache;
  global_slave_fd : Z;
  kvs_agent_is_init : bool;
  is_incr_send_ready : bool;
  agent_thread : thread
}.

(** The globals when the program starts. *)
Definition send_start : send_state := SendState (AgentCache 0 0 0 0 None) (-1) false false T_none.

Definition set_slave_fd (fd : Z) (st : send_state) : send_state :=
  SendState (global_agent_cache st) fd (kvs_agent_is_init st) (is_incr_send_ready st) (agent_thread st).
Definition set_thread (t : thread) (st : send_state) : send_state :=
  SendState (global_agent_cache st) (global_slave_fd st) (kvs_agent_is_init st) (is_incr_send_ready st) t.
Definition set_cache (ac : agent_cache) (st : send_state) : send_state :=
  SendState ac (global_slave_fd st) (kvs_agent_is_init st) (is_incr_send_ready st) (agent_thread st).
Definition set_ready (st : send_state) : send_state :=
  SendState (global_agent_cache st) (global_slave_fd st) (kvs_agent_is_init st) true (agent_thread st).

(** What [pthread_mutex_init], [pthread_cond_init] and [pthread_create]
    answer, and the bytes the block of the ring starts with. *)
Record init_env := InitEnv { ie_mutex : Z; ie_cond : Z; ie_create : Z; ie_junk : list Z }.

Section Agent.
Context {HP : Type} `{Allocator HP}.

(** [kvs_agent_init] *)
Definition kvs_agent_init (env : init_env) (st : send_state) (h : HP) : Z * send_state * HP :=
  if kvs_agent_is_init st then (0, st, h) else
  let '(ret, ac, h) := kvs_agent_cache_create (global_agent_cache st) MAX_CACHE_SIZE (ie_junk env) h in
  let st := set_cache ac st in
  if negb (ret =? 0) then (-2, st, h) else
  if negb (ie_mutex env =? 0) then
    let '(ac, h) := kvs_agent_cache_destroy ac h in (-2, set_cache ac st, h) else
  if negb (ie_cond env =? 0) then
    let '(ac, h) := kvs_agent_cache_destroy ac h in (-2, set_cache ac st, h) else
  if negb (ie_create env =? 0) then
    let '(ac, h) := kvs_agent_cache_destroy ac h in (-2, set_cache ac st, h) else
  (0, SendState (global_agent_cache st) (global_slave_fd st) true (is_incr_send_ready st) T_top, h).

(** The critical section of the loop of [agent]: the thread goes on waiting
    while there is nothing to send or the slave is not ready. *)
Definition agent_take (st : send_state) (h : HP) : res (send_state * HP) :=
  match agent_thread st with
  | T_top =>
      if (used (global_agent_cache st) =? 0) || negb (is_incr_send_ready st) then Ok (st, h) else
      '(buf, buf_len, ac, h) ← kvs_agent_cache_read (global_agent_cache st) 0 h;
      Ok (set_thread (T_send (global_slave_fd st) buf buf_len) (set_cache ac st), h)
  | _ => Ok (st, h)
  end.

(** The rest of the round: [ret] is what [send] answers, [None] when it takes
    all the bytes. Also the bytes sent and the descriptors closed. *)
Definition agent_send (ret : option Z) (st : send_state) (h : HP)
    : res (send_state * HP * list (Z * list Z) * list Z) :=
  match agent_thread st with
  | T_send fd buf buf_len =>
      match buf with
      | None => Ok (set_thread T_done st, h, [], [])
      | Some b =>
          if buf_len =? 0 then Ok (set_thread T_done st, kvs_free (b_addr b) h, [], []) else
          if fd <? 0 then Ok (set_thread T_top st, kvs_free (b_addr b) h, [], []) else
          data ← rd_range (b_str b) 0 buf_len;
          let r := match ret with Some r => r | None => buf_len end in
          if r <=? 0 then
            let st := if global_slave_fd st =? fd then set_slave_fd (-1) st else st in
            Ok (set_thread T_done st, kvs_free (b_addr b) h, [], [fd])
          else
            Ok (set_thread T_top st, kvs_free (b_addr b) h, [(fd, take (Z.to_nat r) data)], [])
      end
  | _ => Ok (st, h, [], [])
  end.

End Agent.

(** ** The server *)

Section Server.
Context {A : Type} `{Allocator A}.

(** [kvs_master_incr_sync] *)
Definition master_incr_send (enable_sync : Z) (tokens : list cptr) (count : Z) (st : send_state) (a : A)
    : res (Z * send_state * A) :=
  if enable_sync =? 0 then Ok (0, st, a) else
  if count <=? 0 then Ok (-1, st, a) else
  if negb (kvs_agent_is_init st) then Ok (0, st, a) else
  if global_slave_fd st <? 0 then Ok (0, st, a) else
  '(frame, a) ← kvs_build_kvsp_frame tokens a;
  match frame with
  | None => Ok (-2, st, a)
  | Some (buf, buf_len) =>
      if buf_len <=? 0 then Ok (-2, st, a) else
      '(ret, ac) ← kvs_agent_cache_write (global_agent_cache st) (b_str buf) buf_len;
      let st := set_cache ac st in
      let a := kvs_free (b_addr buf) a in
      if negb (ret =? 0) then Ok (-2, st, a) else Ok (0, st, a)
  end.

(** [kvs_slave_incr_sync]: the increments come over the connection to the
    master. *)
Definition slave_incr_send (master_fd : Z) (sk : sock) (a : A) : res (Z * option (Z * client_info) * list Z * sock * A) :=
  kvs_slave_incr_sync master_fd master_fd sk a.

Context {R HP : Type} `{Uring R} `{AH : !Allocator HP}.
Notation engines := (engines kvs_array_t rbtree kvs_hash_t SkipList).

(** [kvs_master_full_sync] *)
Definition master_full_send (enable_sync : Z) (cli : client_info) (g : engines) (ienv : init_env)
    (x : sync_state) (st : send_state) (a : A) (h : HP) : res (Z * sync_state * send_state * A * HP) :=
  if enable_sync =? 0 then Ok (0, x, st, a, h) else
  if negb (is_full_sync x =? 0) then
    '(_, sk, a) ← kvs_send_single_command (fd cli) (Some KVS_MASTER_FULLSYNC_BUSY) (sy_sock x) a;
    Ok (0, SyncState (is_full_sync x) sk (sy_env x), st, a, h)
  else
    let st := set_slave_fd (fd cli) st in
    let '(_, st, h) := kvs_agent_init ienv st h in
    let '(env, envs) := match sy_env x with
      | [] => (SyncEnv (-1) false (-1) 0 (-1) false false [], []) | e :: es => (e, es) end in
    '(ret, sent, sk, a) ← master_transfer (R := R) (fd cli) env g (sy_sock x) a;
    let st := if ret =? 0 then set_ready st else st in
    '(sk, a) ←
      (if negb (ret =? 0) && negb sent
       then '(_, sk, a) ← kvs_send_single_command (fd cli) (Some KVS_MASTER_FULLSYNC_ERROR) sk a; Ok (sk, a)
       else Ok (sk, a));
    Ok (ret, SyncState 0 sk envs, st, a, h).

(** ** Interleavings

    A write of the server, the critical section of the agent, the rest of its
    round. The result has what [kvs_master_incr_sync] answered to each write,
    the bytes sent, with their descriptor, and the descriptors closed. *)
Inductive send_event :=
| S_write (tokens : list cptr)
| S_take
| S_send (ret : option Z).

Definition send_step (ev : send_event) (st : send_state) (a : A) (h : HP)
    : res (list Z * list (Z * list Z) * list Z * send_state * A * HP) :=
  match ev with
  | S_write tokens => '(r, st, a) ← master_incr_send 1 tokens (zlen tokens) st a; Ok ([r], [], [], st, a, h)
  | S_take => '(st, h) ← agent_take st h; Ok ([], [], [], st, a, h)
  | S_send ret => '(st, h, out, closed) ← agent_send ret st h; Ok ([], out, closed, st, a, h)
  end.

Fixpoint send_run (evs : list send_event) (st : send_state) (a : A) (h : HP)
    : res (list Z * list (Z * list Z) * list Z * send_state * A * HP) :=
  match evs with
  | [] => Ok ([], [], [], st, a, h)
  | ev :: evs =>
      '(rs, out, closed, st, a, h) ← send_step ev st a h;
      '(rs', out', closed', st, a, h) ← send_run evs st a h;
      Ok (rs ++ rs', out ++ out', closed ++ closed', st, a, h)
  end.

End Server.
