(* ===== verification/SyncSendFacts.v ===== *)
(** * SyncSendFacts: the writes reach the slave in order

    [sending] is the invariant of the ring and the thread while a slave is
    connected; [send_run_fifo]: under every interleaving what has been sent,
    what the thread holds and what is in the ring are the frames of the
    accepted writes in order. *)

From S2P Require Import Prelude CLib Alloc Protocol ProtocolFacts Engine Owner Uring Log LogFacts Store StoreFacts Save SaveFacts LoadFacts.
From S2P Require Import Array Hash Skiplist SkiplistFacts Rbtree RbTheory RbFacts RbEngine Net Server Sync SyncFacts AgentDs AgentDsFacts SyncSend.

(** The message the thread holds. *)
Definition in_flight (st : send_state) : list Z :=
  match agent_thread st with T_send _ (Some b) _ => b_str b | _ => [] end.

Definition in_flight_block (st : send_state) : gset Z :=
  match agent_thread st with T_send _ (Some b) _ => {[b_addr b]} | _ => ∅ end.

(** The thread serves the slave [fd] and the ring holds the messages [q]. *)
Record sending (fd : Z) (q : list (list Z)) (st : send_state) : Prop := {
  sd_queue : queue_repr (global_agent_cache st) q;
  sd_fd : global_slave_fd st = fd;
  sd_pos : 0 <= fd;
  sd_init : kvs_agent_is_init st = true;
  sd_thread : agent_thread st = T_top \/
    exists p m, agent_thread st = T_send fd (Some (Block p m)) (zlen m) /\ 0 < zlen m
}.

(** The blocks of the heap besides [L]: the message the thread holds. *)
Definition heap_holds {HP} `{Allocator HP} (L : gset Z) (st : send_state) (h : HP) : Prop :=
  al_inv h /\ al_live h = L ∪ in_flight_block st /\ L ## in_flight_block st.

(** A write of C strings whose frame fits an [int]; a [send] that takes all
    bytes or some of them. *)
Definition event_ok (ev : send_event) : Prop :=
  match ev with
  | S_write ts => exists argv, ts = Some <$> argv /\ argv <> [] /\ zlen (kvsp_frame argv) < INT_MAX
  | S_take => True
  | S_send r => match r with Some n => 0 < n | None => True end
  end.

(** No [send] is short. *)
Definition complete (ev : send_event) : Prop := match ev with S_send (Some _) => False | _ => True end.

(** The bytes of a message that [send] takes. *)
Definition taken (ret : option Z) (m : list Z) : list Z := match ret with Some n => take (Z.to_nat n) m | None => m end.

(** The frames of the writes that were answered with 0. *)
Fixpoint accepted (evs : list send_event) (rs : list Z) : list (list Z) :=
  match evs with
  | [] => []
  | S_write ts :: evs =>
      match rs with
      | [] => []
      | r :: rs => if r =? 0 then kvsp_frame (omap id ts) :: accepted evs rs else accepted evs rs
      end
  | _ :: evs => accepted evs rs
  end.

Definition is_write (ev : send_event) : bool := match ev with S_write _ => true | _ => false end.
Definition write_count (evs : list send_event) : nat := length (filter is_write evs).

Lemma omap_id_some (l : list (list Z)) : omap id (Some <$> l) = l.
Proof. induction l as [| x l IH]; [done |]. cbn. by f_equal. Qed.

Definition sent (out : list (Z * list Z)) : list Z := mjoin (snd <$> out).

Lemma sent_app o1 o2 : sent (o1 ++ o2) = sent o1 ++ sent o2.
Proof. unfold sent. by rewrite fmap_app, join_app. Qed.

Section Facts.
Context {A HP : Type} `{AL : AllocatorLaws A} `{TOT : !AllocatorTotal A} `{HL : AllocatorLaws HP} `{HT : !AllocatorTotal HP}.

(** A write puts its frame at the end of the ring, or finds it full. *)
Lemma write_step fd q st argv (a : A) :
  sending fd q st -> argv <> [] -> zlen (kvsp_frame argv) < INT_MAX -> al_inv a ->
  exists r st' a', master_incr_send 1 (Some <$> argv) (zlen (Some <$> argv)) st a = Ok (r, st', a') /\ al_inv a' /\ al_live a' = al_live a /\
    agent_thread st' = agent_thread st /\ is_incr_send_ready st' = is_incr_send_ready st /\
    capacity (global_agent_cache st') = capacity (global_agent_cache st) /\
    (r = 0 /\ sending fd (q ++ [kvsp_frame argv]) st' \/
     r = -2 /\ sending fd q st' /\ capacity (global_agent_cache st) - q_size q < SIZEOF_SIZE_T + zlen (kvsp_frame argv)).
Proof.
  intros [Hq Hfd Hpos Hinit Hth] Hne Hm Hi. unfold master_incr_send. change (1 =? 0) with false.
  assert (Hn : 0 < zlen (Some <$> argv)) by (destruct argv; [done |]; cbn [fmap list_fmap]; rewrite zlen_cons; pose proof (zlen_nonneg (Some <$> argv)); unfold fmap, zlen in *; lia).
  rewrite (proj2 (Z.leb_gt _ 0)) by done. rewrite Hinit, Hfd, (proj2 (Z.ltb_ge fd 0)) by done. cbn [negb].
  pose proof (build_frame_run argv a Hne Hm) as Hb. destruct (malloc_total (zlen (kvsp_frame argv) + 1) a ltac:(pos_size)) as (p & a1 & Hal). rewrite Hal in Hb.
  destruct Hb as (buf & -> & Htake & Hlen). run. cbn [b_str b_addr]. set (F := kvsp_frame argv) in *.
  pose proof (kvsp_frame_pos argv) as HF. fold F in HF. rewrite (proj2 (Z.leb_gt (zlen F) 0)) by done.
  rewrite <- (take_drop (length F) buf), Htake. destruct (cache_write_queue (global_agent_cache st) q F (drop (length F) buf) Hq) as (ac & -> & Hq' & Hblk & Hcap).
  run. destruct (malloc_some _ _ _ _ Hi Hal) as (Hf & Hl & Hi1). destruct (free_live p a1 Hi1) as [Hl2 Hi2]; [rewrite Hl; set_solver |].
  assert (Hlive : al_live (kvs_free p a1) = al_live a) by (rewrite Hl2, Hl; clear - Hf; set_solver).
  unfold q_push in *. rewrite (proj2 (Z.eqb_neq (zlen F) 0)) in * by lia.
  destruct (Z.ltb_spec (capacity (global_agent_cache st) - q_size q) (SIZEOF_SIZE_T + zlen F)) as [Hfull | Hroom]; cbn [fst snd] in *.
  - change (-2 =? 0) with false. cbn [negb]. do 3 eexists. split; [done |]. do 5 (split; [done |]). right. split; [done |]. split; [by split | done].
  - change (0 =? 0) with true. cbn [negb]. do 3 eexists. split; [done |]. do 5 (split; [done |]). left. split; [done |]. by split.
Qed.

(** The thread takes the oldest message when the slave is ready. *)
Lemma take_step fd q st L (h : HP) :
  sending fd q st -> heap_holds L st h ->
  exists st' h' q', agent_take st h = Ok (st', h') /\ sending fd q' st' /\ heap_holds L st' h' /\
    is_incr_send_ready st' = is_incr_send_ready st /\ capacity (global_agent_cache st') = capacity (global_agent_cache st) /\
    in_flight st' ++ mjoin q' = in_flight st ++ mjoin q /\
    (is_incr_send_ready st = false -> agent_thread st = T_top -> agent_thread st' = T_top) /\
    (is_incr_send_ready st = true -> agent_thread st = T_top -> q' = tail q) /\ q_size q' <= q_size q.
Proof.
  intros Hs Hh. pose proof Hs as [Hq Hfd Hpos Hinit Hth]. unfold agent_take. destruct Hth as [Ht | (p & m & Ht & Hm)]; rewrite Ht.
  2: { exists st, h, q. split_and!; done. }
  destruct (is_incr_send_ready st) eqn:Hr.
  2: { rewrite orb_true_r. exists st, h, q. split_and!; done. }
  rewrite orb_false_r, (repr_used _ _ Hq). destruct q as [| m q].
  { change (q_size [] =? 0) with true. exists st, h, []. split_and!; done. }
  pose proof (qr_nonempty _ _ Hq) as Hne. apply Forall_cons in Hne as [Hm Hne].
  rewrite (proj2 (Z.eqb_neq _ 0)).
  2: { unfold q_size. change ((m :: q) ≫= encode) with (encode m ++ (q ≫= encode)). rewrite zlen_app, zlen_encode. pose proof (zlen_nonneg (q ≫= encode)).
       unfold SIZEOF_SIZE_T. lia. }
  pose proof (cache_read_queue (global_agent_cache st) m q 0 h Hq) as Hread. destruct (malloc_total (zlen m) h ltac:(pos_size)) as (b & h1 & Hal). rewrite Hal in Hread.
  destruct Hread as (ac & -> & Hq' & _ & Hcap). run. destruct Hh as (Hi & Hl & Hd). destruct (malloc_some _ _ _ _ Hi Hal) as (Hf & Hl1 & Hi1).
  assert (Hfl : in_flight_block st = ∅) by (unfold in_flight_block; by rewrite Ht). rewrite Hfl in *.
  eexists _, h1, q. split; [done |]. split; [split; cbn; try done; right; rewrite Hfd; eauto |].
  split; [split; [done |]; cbn; split; [rewrite Hl1, Hl | rewrite Hl in Hf]; clear - Hf; set_solver |].
  unfold in_flight. rewrite Ht. cbn [agent_thread set_thread set_cache]. split_and!; try done.
  unfold q_size. change ((m :: q) ≫= encode) with (encode m ++ (q ≫= encode)). rewrite zlen_app. pose proof (zlen_nonneg (encode m)). lia.
Qed.

(** A [send] passes the message on, as far as it takes it. *)
Lemma send_step_ok fd q st ret L (h : HP) :
  sending fd q st -> event_ok (S_send ret) -> heap_holds L st h ->
  exists st' h', agent_send ret st h = Ok (st', h', match in_flight st with [] => [] | m => [(fd, taken ret m)] end, []) /\
    sending fd q st' /\ heap_holds L st' h' /\ agent_thread st' = T_top /\
    is_incr_send_ready st' = is_incr_send_ready st /\ capacity (global_agent_cache st') = capacity (global_agent_cache st).
Proof.
  intros [Hq Hfd Hpos Hinit Hth] Hret (Hi & Hl & Hd). unfold agent_send, in_flight, heap_holds, in_flight_block in *.
  destruct Hth as [Ht | (p & m & Ht & Hm)]; rewrite Ht in *.
  { exists st, h. split_and!; try done; [split; try done; by left | by rewrite Ht..]. }
  rewrite (proj2 (Z.eqb_neq (zlen m) 0)), (proj2 (Z.ltb_ge fd 0)) by lia. cbn [b_str b_addr] in *.
  pose proof (rd_range_app_mid [] m []) as Hr. rewrite app_nil_r in Hr. change (zlen []) with 0 in Hr. cbn [app] in Hr. rewrite Hr. run.
  rewrite (proj2 (Z.leb_gt _ 0)) by (by destruct ret).
  assert (Htk : take (Z.to_nat (match ret with Some r => r | None => zlen m end)) m = taken ret m) by (destruct ret; [done | apply take_zlen]).
  rewrite Htk. destruct (free_live p h Hi) as [Hl2 Hi2]; [rewrite Hl; set_solver |].
  do 2 eexists. split; [destruct m; [done | reflexivity] |]. split; [split; try done; by left |].
  split; [| done]. split; [done |]. cbn. rewrite Hl2, Hl. split; [clear - Hd; set_solver | set_solver].
Qed.

(** Under every interleaving, what has been sent, what the thread holds and
    what the ring holds are the accepted writes, in order. *)
Lemma send_run_fifo evs : forall fd q st L (a : A) (h : HP),
  Forall event_ok evs -> sending fd q st -> al_inv a -> heap_holds L st h ->
  exists rs out st' a' h' q', send_run evs st a h = Ok (rs, out, [], st', a', h') /\
    length rs = write_count evs /\ sending fd q' st' /\ al_inv a' /\ al_live a' = al_live a /\ heap_holds L st' h' /\
    is_incr_send_ready st' = is_incr_send_ready st /\
    goes_out (Forall complete evs) (sent out ++ in_flight st' ++ mjoin q') (in_flight st ++ mjoin q ++ mjoin (accepted evs rs)) /\
    Forall (fun o => o.1 = fd) out /\
    (is_incr_send_ready st = false -> agent_thread st = T_top -> out = [] /\ agent_thread st' = T_top).
Proof.
  induction evs as [| ev evs IH]; intros fd q st L a h Hev Hs Hi Hh.
  { exists [], [], st, a, h, q. cbn. rewrite app_nil_r. split_and!; done. }
  apply Forall_cons in Hev as [Hev Hevs]. cbn [send_run]. destruct ev as [ts | | ret]; cbn [send_step event_ok] in *.
  - destruct Hev as (argv & -> & Hne & Hm). destruct (write_step fd q st argv a Hs Hne Hm Hi) as (r & st1 & a1 & -> & Hi1 & Hl1 & Ht1 & Hr1 & _ & Hcase).
    run. assert (Hfl : in_flight st1 = in_flight st) by (unfold in_flight; by rewrite Ht1).
    assert (Hh1 : heap_holds L st1 h) by (unfold heap_holds, in_flight_block in *; by rewrite Ht1).
    assert (exists q1, sending fd q1 st1 /\ mjoin q1 = mjoin q ++ mjoin (if r =? 0 then [kvsp_frame argv] else [])) as (q1 & Hs1 & Hq1).
    { destruct Hcase as [[-> Hs1] | (-> & Hs1 & _)]; [exists (q ++ [kvsp_frame argv]) | exists q]; (split; [done |]).
      - change (0 =? 0) with true. by rewrite join_app.
      - change (-2 =? 0) with false. by rewrite app_nil_r. }
    destruct (IH fd q1 st1 L a1 h Hevs Hs1 Hi1 Hh1) as (rs & out & st' & a' & h' & q' & -> & Hlen & Hs' & Hi' & Hl' & Hh' & Hr' & Heq & Hout & Hwait).
    run. exists ([r] ++ rs), out, st', a', h', q'. cbn [app]. split; [done |]. unfold write_count. rewrite filter_cons_True by done. cbn [length].
    split; [by rewrite Hlen |]. split; [done |]. split; [done |]. split; [by rewrite Hl' |]. split; [done |]. split; [by rewrite Hr' |].
    split; [| split; [done |]; intros ??; apply Hwait; by rewrite ?Hr1, ?Ht1].
    rewrite Hfl, Hq1, <- app_assoc in Heq. cbn [accepted]. rewrite omap_id_some.
    assert (Hacc : mjoin (if r =? 0 then [kvsp_frame argv] else []) ++ mjoin (accepted evs rs)
      = mjoin (if r =? 0 then kvsp_frame argv :: accepted evs rs else accepted evs rs)) by (destruct (r =? 0); [cbn; by rewrite app_nil_r | done]).
    rewrite Hacc in Heq. eapply goes_out_trans; [exact Heq | apply goes_out_refl with (full := True) |]. by intros [_ ?]%Forall_cons.
  - destruct (take_step fd q st L h Hs Hh) as (st1 & h1 & q1 & -> & Hs1 & Hh1 & Hr1 & _ & Heq1 & Hw1 & _ & _). run.
    destruct (IH fd q1 st1 L a h1 Hevs Hs1 Hi Hh1) as (rs & out & st' & a' & h' & q' & -> & Hlen & Hs' & Hi' & Hl' & Hh' & Hr' & Heq & Hout & Hwait).
    run. exists rs, out, st', a', h', q'. split; [done |]. unfold write_count. rewrite filter_cons_False by auto. split; [done |].
    split; [done |]. split; [done |]. split; [done |]. split; [done |]. split; [by rewrite Hr' |].
    split; [| split; [done |]; intros ??; apply Hwait; [by rewrite Hr1 | by apply Hw1]].
    rewrite (app_assoc (in_flight st1)), Heq1, <- app_assoc in Heq.
    eapply goes_out_trans; [exact Heq | apply goes_out_refl with (full := True) |]. by intros [_ ?]%Forall_cons.
  - destruct (send_step_ok fd q st ret L h Hs Hev Hh) as (st1 & h1 & -> & Hs1 & Hh1 & Ht1 & Hr1 & _). run.
    destruct (IH fd q st1 L a h1 Hevs Hs1 Hi Hh1) as (rs & out & st' & a' & h' & q' & -> & Hlen & Hs' & Hi' & Hl' & Hh' & Hr' & Heq & Hout & Hwait).
    run. set (o := match in_flight st with [] => [] | m => _ end). assert (Ho : goes_out (complete (S_send ret)) (sent o) (in_flight st) /\ Forall (fun o => o.1 = fd) o).
    { unfold o. destruct (in_flight st); [split; [apply goes_out_refl | done] |]. unfold sent. cbn [fmap list_fmap snd mjoin list_join].
      rewrite app_nil_r. split; [destruct ret; [apply goes_out_take | apply goes_out_refl] | by repeat constructor]. }
    destruct Ho as [Ho1 Ho2]. exists rs, (o ++ out), st', a', h', q'. split; [done |]. unfold write_count. rewrite filter_cons_False by auto. split; [done |].
    split; [done |]. split; [done |]. split; [done |]. split; [done |]. split; [by rewrite Hr' |].
    assert (Hfl1 : in_flight st1 = []) by (unfold in_flight; by rewrite Ht1). rewrite Hfl1 in Heq. cbn [app] in Heq.
    split; [rewrite sent_app, <- app_assoc; eapply goes_out_app; [exact Ho1 | exact Heq |]; by intros [? ?]%Forall_cons |]. split; [by apply Forall_app |].
    intros Hr0 Ht0. destruct (Hwait ltac:(by rewrite Hr1) Ht1) as [-> Ht']. split; [| done]. unfold o, in_flight. by rewrite Ht0.
Qed.

(** What the frames of the writes need in the ring. *)
Fixpoint ring_need (evs : list send_event) : Z :=
  match evs with
  | [] => 0
  | S_write ts :: evs => SIZEOF_SIZE_T + zlen (kvsp_frame (omap id ts)) + ring_need evs
  | _ :: evs => ring_need evs
  end.

(** Writes the ring has room for are all accepted. *)
Lemma send_run_accepts evs : forall fd q st L (a : A) (h : HP) rs out closed st' a' h',
  Forall event_ok evs -> sending fd q st -> al_inv a -> heap_holds L st h ->
  q_size q + ring_need evs <= capacity (global_agent_cache st) ->
  send_run evs st a h = Ok (rs, out, closed, st', a', h') -> Forall (fun r => r = 0) rs.
Proof.
  induction evs as [| ev evs IH]; intros fd q st L a h rs out closed st' a' h' Hev Hs Hi Hh Hcap Hrun.
  { by injection Hrun as <- <- <- <- <- <-. }
  apply Forall_cons in Hev as [Hev Hevs]. cbn [send_run] in Hrun. destruct ev as [ts | | ret]; cbn [send_step event_ok ring_need] in *.
  - destruct Hev as (argv & -> & Hne & Hm). rewrite omap_id_some in Hcap.
    destruct (write_step fd q st argv a Hs Hne Hm Hi) as (r & st1 & a1 & E & Hi1 & Hl1 & Ht1 & Hr1 & Hc1 & Hcase). rewrite E in Hrun. cbn [mbind res_bind] in Hrun.
    assert (Hh1 : heap_holds L st1 h) by (unfold heap_holds, in_flight_block in *; by rewrite Ht1).
    assert (Hneed : 0 <= ring_need evs). { clear. induction evs as [| [] evs IH]; cbn [ring_need]; try lia. pose proof (zlen_nonneg (kvsp_frame (omap id tokens))). unfold SIZEOF_SIZE_T. lia. }
    destruct Hcase as [[-> Hs1] | (_ & _ & Hfull)]; [| lia].
    destruct (send_run evs st1 a1 h) as [[[[[[rs1 out1] cl1] st2] a2] h2] | |] eqn:E2; try done. cbn in Hrun. injection Hrun as <- _ _ _ _ _.
    constructor; [done |]. eapply (IH fd (q ++ [kvsp_frame argv])); [done | exact Hs1 | done | exact Hh1 | | exact E2].
    rewrite Hc1. unfold q_size in *. rewrite bind_app, zlen_app. cbn [mbind list_bind]. rewrite app_nil_r, zlen_encode. lia.
  - destruct (take_step fd q st L h Hs Hh) as (st1 & h1 & q1 & E & Hs1 & Hh1 & Hr1 & Hc1 & _ & _ & _ & Hq1). rewrite E in Hrun. cbn [mbind res_bind] in Hrun.
    destruct (send_run evs st1 a h1) as [[[[[[rs1 out1] cl1] st2] a2] h2] | |] eqn:E2; try done. cbn in Hrun. injection Hrun as <- _ _ _ _ _.
    eapply (IH fd q1); [done | exact Hs1 | done | exact Hh1 | rewrite Hc1; lia | exact E2].
  - destruct (send_step_ok fd q st ret L h Hs Hev Hh) as (st1 & h1 & E & Hs1 & Hh1 & Ht1 & Hr1 & Hc1). rewrite E in Hrun. cbn [mbind res_bind] in Hrun.
    destruct (send_run evs st1 a h1) as [[[[[[rs1 out1] cl1] st2] a2] h2] | |] eqn:E2; try done. cbn in Hrun. injection Hrun as <- _ _ _ _ _.
    eapply (IH fd q); [done | exact Hs1 | done | exact Hh1 | rewrite Hc1; lia | exact E2].
Qed.

(** [n] rounds of the thread. *)
Definition rounds (n : nat) : list send_event := mjoin (replicate n [S_take; S_send None]).

(** A ready thread empties the ring. *)
Lemma rounds_drain q : forall fd st L (a : A) (h : HP),
  sending fd q st -> agent_thread st = T_top -> is_incr_send_ready st = true -> heap_holds L st h ->
  exists out st' h', send_run (rounds (length q)) st a h = Ok ([], out, [], st', a, h') /\
    sending fd [] st' /\ agent_thread st' = T_top /\ heap_holds L st' h' /\ sent out = mjoin q.
Proof.
  induction q as [| m q IH]; intros fd st L a h Hs Ht Hr Hh; [exists [], st, h; split_and!; done |].
  change (rounds (length (m :: q))) with (S_take :: S_send None :: rounds (length q)). cbn [send_run send_step].
  destruct (take_step fd (m :: q) st L h Hs Hh) as (st1 & h1 & q1 & -> & Hs1 & Hh1 & Hr1 & _ & Heq1 & _ & Hq1 & _). specialize (Hq1 Hr Ht). subst q1. cbn [tail] in *. run.
  destruct (send_step_ok fd q st1 None L h1 Hs1 I Hh1) as (st2 & h2 & -> & Hs2 & Hh2 & Ht2 & Hr2 & _). run.
  destruct (IH fd st2 L a h2 Hs2 Ht2 ltac:(congruence) Hh2) as (out & st' & h' & -> & Hs' & Ht' & Hh' & Ho). run. cbn [app].
  eexists _, st', h'. split; [done |]. split_and!; try done. unfold in_flight in Heq1 at 2. rewrite Ht in Heq1. cbn [app] in Heq1.
  rewrite sent_app, Ho, <- Heq1. f_equal. destruct (in_flight st1); [done |]. unfold sent. cbn. by rewrite app_nil_r.
Qed.

(** [kvs_agent_init] in a process without an agent. *)
Lemma agent_init_ok ienv st (h : HP) :
  kvs_agent_is_init st = false -> ie_mutex ienv = 0 -> ie_cond ienv = 0 -> ie_create ienv = 0 -> zlen (ie_junk ienv) = MAX_CACHE_SIZE -> al_inv h ->
  exists st' p h', kvs_agent_init ienv st h = (0, st', h') /\ queue_repr (global_agent_cache st') [] /\ capacity (global_agent_cache st') = MAX_CACHE_SIZE /\
    global_slave_fd st' = global_slave_fd st /\ kvs_agent_is_init st' = true /\ agent_thread st' = T_top /\
    is_incr_send_ready st' = is_incr_send_ready st /\ al_inv h' /\ al_live h' = al_live h ∪ {[p]} /\ p ∉ al_live h.
Proof.
  intros Hn H1 H2 H3 Hj Hi. unfold kvs_agent_init. rewrite Hn, H1, H2, H3.
  pose proof (cache_create_queue (global_agent_cache st) MAX_CACHE_SIZE (ie_junk ienv) h ltac:(unfold MAX_CACHE_SIZE, PTRDIFF_MAX; lia) Hj Hi) as Hc.
  destruct (malloc_total MAX_CACHE_SIZE h ltac:(pos_size)) as (p & h1 & Hal). rewrite Hal in Hc. destruct Hc as (ac & -> & Hq & Hcap & _).
  change (0 =? 0) with true. cbn [negb]. destruct (malloc_some _ _ _ _ Hi Hal) as (Hf & Hl & Hi1).
  eexists _, p, h1. split; [done |]. cbn. split_and!; try done. rewrite Hl. set_solver.
Qed.

End Facts.

Section FullSync.
Context {A R HP : Type} `{AL : AllocatorLaws A} `{Uring R} `{AH : !Allocator HP}.
Notation engines := (engines kvs_array_t rbtree kvs_hash_t SkipList).

(** The full synchronisation is the one of Sync.v; a success also makes the
    thread ready. *)
Lemma full_send_sync cli (g : engines) ienv x st (a : A) (h : HP) ret x' a' :
  is_full_sync x = 0 -> kvs_master_full_sync (R := R) 1 cli g x a = Ok (ret, x', a') ->
  let '(_, st1, h1) := kvs_agent_init ienv (set_slave_fd (fd cli) st) h in
  master_full_send (R := R) 1 cli g ienv x st a h = Ok (ret, x', if ret =? 0 then set_ready st1 else st1, a', h1).
Proof.
  intros Hx. unfold kvs_master_full_sync, master_full_send. rewrite Hx. change (1 =? 0) with false. change (0 =? 0) with true. cbn [negb].
  destruct (kvs_agent_init _ _ _) as [[r st1] h1]. destruct (match sy_env x with [] => _ | _ => _ end) as [env envs].
  destruct (master_transfer _ _ _ _ _) as [[[[ret1 sent1] sk1] a1] | |]; [| done | done]. run.
  destruct (negb (ret1 =? 0) && negb sent1).
  - destruct (kvs_send_single_command _ _ _ _) as [[[r2 sk2] a2] | |]; [| done | done]. run. by intros [= <- <- <-].
  - run. by intros [= <- <- <-].
Qed.

End FullSync.
