(* ===== verification/SyncSendClaims.v ===== *)
(** * SyncSendClaims: the properties of the replication over the slave's connection *)

From S2P Require Import Prelude CLib Alloc Protocol ProtocolFacts Engine Owner Uring Log LogFacts Store StoreFacts Save SaveFacts LoadFacts.
From S2P Require Import Array Hash Skiplist SkiplistFacts Rbtree RbTheory RbFacts RbEngine Net Server Sync SyncFacts AgentDs AgentDsFacts SyncSend SyncSendFacts.
From S2P Require Import System RecoveryFacts Main MainFacts SystemClaims.

Section Direct.
Context {A R HP : Type} `{AL : AllocatorLaws A} `{TOT : !AllocatorTotal A} `{UL : UringLaws R} `{UT : !UringTotal R}.
Context `{HL : AllocatorLaws HP} `{HT : !AllocatorTotal HP}.
Context (XXH : list Z -> Z) (SIZE HSIZE : Z) (random : nat -> Z).
Notation engines := (engines kvs_array_t rbtree kvs_hash_t SkipList).

#[local] Instance dc_array : Engine A kvs_array_t := mf_array SIZE.
#[local] Instance dc_rbtree : Engine A rbtree := mf_rbtree.
#[local] Instance dc_hash : Engine A kvs_hash_t := mf_hash XXH HSIZE.
#[local] Instance dc_skip : Engine A SkipList := mf_skip random.

(** The threads of the process can be created. *)
Definition init_ok (ienv : init_env) : Prop :=
  ie_mutex ienv = 0 /\ ie_cond ienv = 0 /\ ie_create ienv = 0 /\ zlen (ie_junk ienv) = MAX_CACHE_SIZE.

(** C19: the first slave of a master with contents [g], whose snapshot [f] is
    below 2 GB. The full
    synchronisation starts the agent and sends the size and the snapshot; from
    then on, whatever the interleaving of the writes of the server with the
    steps of the agent, and however much each [send] takes, what goes out to the
    slave is a part of the frames of the accepted writes in their order, a prefix
    of them when no [send] is short; every write the ring has room for is
    accepted, the server keeps no block, and the agent alone gets the rest out.
    Writes during the synchronisation itself are not part of the statement, a
    [send] that fails is the subject of [direct_agent_gone]. *)
Theorem direct_replication cli (g : engines) env envs ienv (am : A) (h : HP) evs e0 k0 v0 :
  eng_inv g -> storable XXH SIZE HSIZE random g -> env_ok env -> 0 <= fd cli -> al_inv am -> db g e0 !! k0 = Some v0 ->
  init_ok ienv -> al_inv h -> Forall event_ok evs ->
  exists f, kvs_master_write_snapshot (R := R) env g am = Ok (se_open env, f) /\ (zlen f < INT_MAX ->
  exists st1 a1 h1, master_full_send (R := R) 1 cli g ienv
      (SyncState 0 (Sock [Some (kvsp_frame [KVS_SLAVE_FULLSYNC_READY])] [] []) (env :: envs)) send_start am h
    = Ok (0, SyncState 0 (Sock [] (kvsp_frame [fullsync_ok (zlen f)] ++ f) []) envs, st1, a1, h1) /\
  exists rs out st2 a2 h2, send_run evs st1 a1 h1 = Ok (rs, out, [], st2, a2, h2) /\
    length rs = write_count evs /\ (ring_need evs <= MAX_CACHE_SIZE -> Forall (fun r => r = 0) rs) /\
    al_live a2 = al_live am /\ Forall (fun o => o.1 = fd cli) out /\
  exists rest n out' st3 h3, sublist (sent out ++ rest) (mjoin (accepted evs rs)) /\
    (Forall complete evs -> sent out ++ rest = mjoin (accepted evs rs)) /\
    send_run (S_send None :: rounds n) st2 a2 h2 = Ok ([], out', [], st3, a2, h3) /\ sent out' = rest).
Proof.
  intros (I1 & (nl & t & I2) & I3 & I4) Hst Henv Hfd Hi Hk0 (E1 & E2 & E3 & E4) Hih Hev.
  assert (Hinv : snap_inv XXH SIZE HSIZE nl t g) by done. exists (snapshot_file t g).
  split; [exact (write_snapshot_ok XXH SIZE HSIZE random g nl t env am Hinv Hst Henv) |]. intros Hmax.
  assert (Hne : snapshot_file t g <> []) by exact (snapshot_nonempty XXH SIZE HSIZE random nl t g e0 k0 v0 Hinv Hk0).
  destruct (master_run XXH SIZE HSIZE random (R := R) cli g nl t env envs [] [] am Hinv Hst Henv Hfd Hi Hmax Hne) as (am' & Hm & Hi' & Hl).
  pose proof (fun Hx => full_send_sync cli g ienv _ send_start am h _ _ _ Hx Hm) as Hfull. specialize (Hfull eq_refl).
  destruct (agent_init_ok ienv (set_slave_fd (fd cli) send_start) h eq_refl E1 E2 E3 E4 Hih)
    as (st0 & p & h1 & E & Hq & Hcap & Hf0 & Hin & Hth & Hrd & Hih1 & Hlh & Hp).
  rewrite E in Hfull. change (0 =? 0) with true in Hfull. cbv beta iota in Hfull. exists (set_ready st0), am', h1. split; [exact Hfull |].
  assert (Hs0 : sending (fd cli) [] (set_ready st0)) by (split; try done; by left).
  assert (Hh0 : heap_holds (al_live h1) (set_ready st0) h1).
  { split; [done |]. unfold in_flight_block. cbn [set_ready agent_thread]. rewrite Hth. split; [symmetry; apply union_empty_r_L | apply disjoint_empty_r]. }
  destruct (send_run_fifo evs (fd cli) [] (set_ready st0) (al_live h1) am' h1 Hev Hs0 Hi' Hh0)
    as (rs & out & st2 & a2 & h2 & q2 & Hrun & Hlen & Hs2 & Hi2 & Hl2 & Hh2 & Hr2 & Heq & Hout & _).
  exists rs, out, st2, a2, h2. split; [done |]. split; [done |]. split.
  { intros Hneed. eapply (send_run_accepts evs (fd cli) [] (set_ready st0) (al_live h1) am' h1); [done | exact Hs0 | done | exact Hh0 | | exact Hrun].
    cbn [set_ready global_agent_cache]. rewrite Hcap. change (q_size []) with 0. lia. }
  split; [congruence |]. split; [done |]. exists (in_flight st2 ++ mjoin q2), (length q2).
  destruct (send_step_ok (fd cli) q2 st2 None (al_live h1) h2 Hs2 I Hh2) as (st3 & h3 & Hsend & Hs3 & Hh3 & Ht3 & Hr3 & _).
  destruct (rounds_drain q2 (fd cli) st3 (al_live h1) a2 h3 Hs3 Ht3 ltac:(by rewrite Hr3, Hr2) Hh3) as (out' & st4 & h4 & Hd & _ & _ & _ & Ho).
  assert (Hnone : in_flight (set_ready st0) = []) by (unfold in_flight; cbn [set_ready agent_thread]; by rewrite Hth).
  rewrite Hnone in Heq. destruct Heq as [Hsub Hall]. eexists _, st4, h4. split; [exact Hsub |]. split; [exact Hall |].
  cbn [send_run send_step]. rewrite Hsend. run. rewrite Hd. run. split; [done |]. rewrite sent_app, Ho. f_equal.
  destruct (in_flight st2); [done |]. unfold sent. cbn. by rewrite app_nil_r.
Qed.

End Direct.

(** ** Where the code leaves its contract *)

Section Faults.
Context {A HP : Type} `{Allocator A} `{HL : AllocatorLaws HP}.

(** A thread that has returned sends nothing. *)
Lemma done_stays ev st (a : A) (h : HP) rs out closed st' a' h' :
  agent_thread st = T_done -> send_step ev st a h = Ok (rs, out, closed, st', a', h') -> out = [] /\ agent_thread st' = T_done.
Proof.
  intros Ht. destruct ev as [ts | | r]; cbn [send_step].
  - unfold master_incr_send. change (1 =? 0) with false. destruct (zlen ts <=? 0); [cbn; by intros [= <- <- <- <- <- <-] |].
    destruct (negb _); [cbn; by intros [= <- <- <- <- <- <-] |]. destruct (_ <? 0); [cbn; by intros [= <- <- <- <- <- <-] |].
    destruct (kvs_build_kvsp_frame ts a) as [[[[buf len] |] a1] | |]; cbn; try done; [| by intros [= <- <- <- <- <- <-]].
    destruct (len <=? 0); [cbn; by intros [= <- <- <- <- <- <-] |].
    destruct (kvs_agent_cache_write _ _ _) as [[ret ac] | |]; cbn; try done. destruct (negb (ret =? 0)); cbn; by intros [= <- <- <- <- <- <-].
  - unfold agent_take. rewrite Ht. cbn. by intros [= <- <- <- <- <- <-].
  - unfold agent_send. rewrite Ht. cbn. by intros [= <- <- <- <- <- <-].
Qed.

(** When a send fails the agent closes the connection and its thread
    returns, but [kvs_agent_is_init] stays set: neither a further write nor the
    full synchronisation of a new slave starts it again, and no increment is
    ever sent. *)
Theorem direct_agent_gone st (a : A) (h : HP) ienv fd p m r :
  agent_thread st = T_send fd (Some (Block p m)) (zlen m) -> 0 < zlen m -> 0 <= fd -> r <= 0 -> kvs_agent_is_init st = true ->
  exists st' h', agent_send (Some r) st h = Ok (st', h', [], [fd]) /\ agent_thread st' = T_done /\
    (forall newfd h0, kvs_agent_init ienv (set_slave_fd newfd st') h0 = (0, set_slave_fd newfd st', h0)) /\
    forall evs newfd ready rs out closed st'' a'' h'',
      send_run evs (if ready : bool then set_ready (set_slave_fd newfd st') else set_slave_fd newfd st') a h' = Ok (rs, out, closed, st'', a'', h'') -> out = [].
Proof.
  intros Ht Hm Hfd Hr Hin. unfold agent_send. rewrite Ht, (proj2 (Z.eqb_neq (zlen m) 0)), (proj2 (Z.ltb_ge fd 0)) by lia.
  pose proof (rd_range_app_mid [] m []) as Hrd. rewrite app_nil_r in Hrd. change (zlen []) with 0 in Hrd. cbn [app] in Hrd. cbn [b_str b_addr]. rewrite Hrd. run.
  rewrite (proj2 (Z.leb_le r 0)) by done. do 2 eexists. split; [done |]. split; [done |]. split.
  { intros newfd h0. unfold kvs_agent_init. cbn [kvs_agent_is_init set_slave_fd set_thread]. by destruct (_ =? fd); cbn [kvs_agent_is_init set_slave_fd]; rewrite Hin. }
  intros evs newfd ready rs out closed st2 a2 h2. set (st1 := if ready then _ else _).
  assert (H1 : agent_thread st1 = T_done) by (unfold st1; by destruct ready). clearbody st1. generalize (kvs_free p h). revert rs out closed a st1 H1.
  induction evs as [| ev evs IH]; intros rs out closed a1 st1 H1 h1; cbn [send_run]; [by intros [= <- <- <- <- <- <-] |].
  destruct (send_step ev st1 a1 h1) as [[[[[[rs1 out1] cl1] st3] a3] h3] | |] eqn:E; cbn; try done.
  destruct (done_stays _ _ _ _ _ _ _ _ _ _ H1 E) as [-> H3].
  destruct (send_run evs st3 a3 h3) as [[[[[[rs2 out2] cl2] st4] a4] h4] | |] eqn:E2; cbn; try done.
  intros [= <- <- <- <- <- <-]. by rewrite (IH _ _ _ _ _ H3 _ E2).
Qed.

(** A [send] that takes only a part of a frame: the rest is freed with the
    block, so the slave's stream goes on with the next frame in the middle of
    this one. *)
Theorem direct_short_send fd q st L (h : HP) m r :
  sending fd q st -> heap_holds L st h -> in_flight st = m -> 0 < r < zlen m ->
  exists st' h', agent_send (Some r) st h = Ok (st', h', [(fd, take (Z.to_nat r) m)], []) /\ sending fd q st' /\ in_flight st' = [].
Proof.
  intros [Hq Hfd Hpos Hinit Hth] (Hi & Hl & Hd) Hm Hr. unfold agent_send, in_flight in *.
  destruct Hth as [Ht | (p & m' & Ht & Hm')]; rewrite Ht in *; [subst m; change (zlen []) with 0 in Hr; lia |]. cbn [b_str] in Hm. subst m'.
  rewrite (proj2 (Z.eqb_neq (zlen m) 0)), (proj2 (Z.ltb_ge fd 0)) by lia. cbn [b_str b_addr].
  pose proof (rd_range_app_mid [] m []) as Hrd. rewrite app_nil_r in Hrd. change (zlen []) with 0 in Hrd. cbn [app] in Hrd. rewrite Hrd. run.
  rewrite (proj2 (Z.leb_gt r 0)) by lia. do 2 eexists. split; [done |]. split; [split; try done; by left | done].
Qed.

End Faults.

(** [is_incr_send_ready] is set by the first full synchronisation and never
    reset: while a second slave is being synchronised, the increments already
    go out to it, in front of the size and the snapshot it waits for. *)
Theorem direct_ready_stays {A R HP} `{Allocator A} `{Uring R} `{AH : !Allocator HP} cli
    (g : engines kvs_array_t rbtree kvs_hash_t SkipList) ienv x st (a : A) (h : HP) ret x' st' a' h' :
  is_incr_send_ready st = true -> master_full_send (R := R) 1 cli g ienv x st a h = Ok (ret, x', st', a', h') ->
  is_incr_send_ready (set_slave_fd (fd cli) st) = true /\ is_incr_send_ready st' = true.
Proof.
  intros Hr Hm. split; [done |]. revert Hm. unfold master_full_send. change (1 =? 0) with false. cbv iota.
  destruct (negb _).
  { destruct (kvs_send_single_command _ _ _ _) as [[[? ?] ?] | |]; cbn; [| done | done]. by intros [= <- <- <- <- <-]. }
  assert (Hi : forall st0, is_incr_send_ready st0 = true -> is_incr_send_ready (kvs_agent_init ienv st0 h).1.2 = true).
  { intros st0 Hst0. unfold kvs_agent_init. destruct (kvs_agent_is_init st0); [done |]. destruct (kvs_agent_cache_create _ _ _ _) as [[r1 ac1] h1].
    repeat (case_match; cbn; try done). }
  specialize (Hi (set_slave_fd (fd cli) st) Hr). destruct (kvs_agent_init _ _ _) as [[r1 st1] h1]. cbn [fst snd] in Hi.
  destruct (match sy_env x with [] => _ | _ => _ end) as [env envs].
  destruct (master_transfer _ _ _ _ _) as [[[[ret1 sent1] sk1] a1] | |]; cbn; [| done | done].
  assert (Hi' : is_incr_send_ready (if ret1 =? 0 then set_ready st1 else st1) = true) by (by destruct (ret1 =? 0)).
  destruct (negb (ret1 =? 0) && negb sent1); [destruct (kvs_send_single_command _ _ _ _) as [[[? ?] ?] | |]; cbn; [| done | done] | cbn];
    by intros [= <- <- <- <- <-].
Qed.

(** ** Instances *)

Lemma some_init : exists ienv, init_ok ienv.
Proof.
  exists (InitEnv 0 0 0 (replicate (Z.to_nat MAX_CACHE_SIZE) 0)). split; [done |]. split; [done |]. split; [done |].
  cbn [ie_junk]. unfold zlen. rewrite length_replicate. unfold MAX_CACHE_SIZE. lia.
Qed.

Definition demo_write : list (list Z) := [BS "SET"; BS "k"; BS "7"].

Lemma direct_replication_witness : exists ienv (st : demo_store) x st1 a1 h1 rs out st2 a2 h2,
  master_full_send (R := Roomy.t) 1 demo_client (eng st) ienv
    (SyncState 0 (Sock [Some (kvsp_frame [KVS_SLAVE_FULLSYNC_READY])] [] []) [demo_env]) send_start Unlimited.start Unlimited.start
  = Ok (0, x, st1, a1, h1) /\
  send_run [S_write (Some <$> demo_write); S_take; S_send (Some 3)] st1 a1 h1 = Ok (rs, out, [], st2, a2, h2) /\ rs = [0].
Proof.
  destruct demo_served as (st & xs & st' & a & f0 & Hr & Hwf & Hd & _ & _ & Hsave & Hmax & _ & Hk). destruct some_init as [ienv Hienv].
  destruct (direct_replication (R := Roomy.t) demo_xxh 64 8 demo_random demo_client (eng st') demo_env [] ienv Unlimited.start Unlimited.start
    [S_write (Some <$> demo_write); S_take; S_send (Some 3)] ERbtree (BS "k") (BS "5")) as (f & Hw & Hf);
    [apply Hwf | exact (demo_storable _ _ _ Hr Hd) | exact demo_env_ok | cbn; lia | apply Bump.start_inv | exact Hk
    | exact Hienv | apply Bump.start_inv | repeat constructor; exists demo_write; split; [done |]; split; [done | vm_compute; reflexivity] |].
  rewrite (demo_snapshot _ _ _ _ _ (proj1 Hwf) (demo_storable _ _ _ Hr Hd) Hsave Hw) in Hf.
  destruct (Hf Hmax) as (st1 & a1 & h1 & Hm & rs & out & st2 & a2 & h2 & Hrun & Hlen & Hall & _).
  eexists ienv, st', _, st1, a1, h1, rs, out, st2, a2, h2. split; [exact Hm |]. split; [exact Hrun |].
  specialize (Hall ltac:(vm_compute; congruence)). destruct rs as [| r [| r' rs]]; try discriminate Hlen. apply Forall_cons in Hall as [-> _]. reflexivity.
Defined.

Definition demo_sending : send_state :=
  SendState (AgentCache 0 0 64 0 (Some (16, replicate 64 0))) 9 true true (T_send 9 (Some (Block 32 (BS "frame"))) 5).

Definition demo_heap : Unlimited.t := Unlimited.mk (Bump.mk 48 {[16; 32]} ∅ None).

Lemma direct_agent_gone_witness : exists st' h',
  agent_send (Some (-1)) demo_sending demo_heap = Ok (st', h', [], [9]) /\ agent_thread st' = T_done.
Proof.
  destruct (direct_agent_gone demo_sending Unlimited.start demo_heap (InitEnv 0 0 0 []) 9 32 (BS "frame") (-1)) as (st' & h' & E & Ht & _);
    [reflexivity | vm_compute; reflexivity | lia | lia | reflexivity |].
  exists st', h'. split; [exact E | exact Ht].
Defined.

Lemma direct_short_send_witness : exists st' h',
  agent_send (Some 2) demo_sending demo_heap = Ok (st', h', [(9, BS "fr")], []) /\ in_flight st' = [].
Proof.
  destruct (direct_short_send 9 [] demo_sending {[16]} demo_heap (BS "frame") 2) as (st' & h' & E & _ & Hn).
  - split; [| reflexivity | lia | reflexivity | right; exists 32, (BS "frame"); split; reflexivity].
    split; [| reflexivity | constructor]. exists 16, (replicate 64 0). split; cbn; try reflexivity; unfold PTRDIFF_MAX; lia.
  - split; [| split]; [intros p Hp | vm_compute; reflexivity | cbn; intros x Hx Hy; apply elem_of_singleton in Hx as ->; by apply elem_of_singleton in Hy].
    apply elem_of_union in Hp as [Hp | Hp]; apply elem_of_singleton in Hp as ->; cbn; lia.
  - reflexivity.
  - vm_compute. split; reflexivity.
  - exists st', h'. split; [exact E | exact Hn].
Defined.
