(* ===== verification/Reactor.v ===== *)
(** * Reactor: the epoll and the io_uring servers (kvs-server/reactor.c, proactor.c)

    The two servers the build can select instead of the coroutine server. Their
    request handler is a function of a message and a response buffer, which
    the repository no longer has ([kvs_protocol] takes a connection now): it is
    a parameter. The kernel's side, epoll and the submission ring, is a set of
    registered descriptors and a set of operations in flight; what accept, recv
    and send answer comes with the events. *)

From S2P Require Import Prelude CLib.

(** [msg_handler]: message, length, response buffer and the state of the
    application; the result and both buffers, which it may overwrite. *)
Class Handler (S : Type) := kvs_handler : list Z -> Z -> list Z -> S -> res (Z * list Z * list Z * S).

(** What a handler has to do: answer the message with [answer], at the front
    of a response buffer of any contents. *)
Class HandlerLaws (S : Type) `{Handler S} := {
  answer : list Z -> S -> list Z;
  after : list Z -> S -> S;
  answer_fits : forall m s, zlen (answer m s) <= 1024;
  handler_ok : forall m rest resp s, 0 < zlen m -> zlen m + zlen rest = 1024 -> zlen resp = 1024 ->
    exists msg' rest', kvs_handler (m ++ rest) (zlen m) resp s = Ok (zlen (answer m s), msg', answer m s ++ rest', after m s) /\
      zlen msg' = 1024 /\ zlen (answer m s) + zlen rest' = 1024
}.

Definition BUFFER_LENGTH : Z := 1024.
Definition zeros : list Z := replicate (Z.to_nat BUFFER_LENGTH) 0.

(** ** reactor.c *)

Definition CONNECTION_SIZE : Z := 1024.
Definition EPOLLIN : Z := 1.
Definition EPOLLOUT : Z := 4.

(** The callbacks a connection can have. *)
Inductive callback := CbNull | CbAccept | CbRecv | CbSend.

Record conn := Conn {
  c_fd : Z;
  rbuffer : list Z;
  rlength : Z;
  wbuffer : list Z;
  wlength : Z;
  send_callback : callback;
  r_action : callback
}.

Definition conn0 : conn := Conn 0 zeros 0 zeros 0 CbNull CbNull.

(** [conn_list], the interest list of [epfd] and the application. *)
Record reactor (S : Type) := Reactor { conn_list : list conn; epfd : gmap Z Z; r_app : S }.
Arguments Reactor {S}.
Arguments conn_list {S}.
Arguments epfd {S}.
Arguments r_app {S}.

(** [set_event]: [EPOLL_CTL_ADD] of a registered descriptor and
    [EPOLL_CTL_MOD] of another one fail without an effect. *)
Definition set_event (fd event : Z) (flag : bool) (ep : gmap Z Z) : gmap Z Z :=
  match flag, ep !! fd with
  | true, None | false, Some _ => <[fd := event]> ep
  | _, _ => ep
  end.

(** What the kernel reports and answers: a ready descriptor with its events,
    the descriptor [accept] would return, what [recv] would return with the
    bytes, what [send] would return ([None]: everything). *)
Record ready := Ready { r_fd : Z; r_events : Z; r_accept : Z; r_recv : Z * list Z; r_send : option Z }.

Section Reactor.
Context {S : Type} `{Handler S}.
Notation reactor := (reactor S).

(** [kvs_request] *)
Definition kvs_request (c : conn) (s : S) : res (conn * S) :=
  '(n, rb, wb, s) ← kvs_handler (rbuffer c) (rlength c) (wbuffer c) s;
  Ok (Conn (c_fd c) rb (rlength c) wb n (send_callback c) (r_action c), s).

(** [event_register] *)
Definition event_register (fd event : Z) (st : reactor) : res (Z * reactor) :=
  if fd <? 0 then Ok (-1, st) else
  l ← wr (conn_list st) fd (Conn fd zeros 0 zeros 0 CbSend CbRecv);
  Ok (0, Reactor l (set_event fd event true (epfd st)) (r_app st)).

(** [accept_cb]: [clientfd] is what [accept] answers. *)
Definition accept_cb (fd clientfd : Z) (st : reactor) : res (Z * reactor) :=
  if clientfd <? 0 then Ok (-1, st) else
  '(_, st) ← event_register clientfd EPOLLIN st;
  Ok (0, st).

(** [recv_cb]: also the descriptors closed. *)
Definition recv_cb (fd : Z) (ret : Z * list Z) (st : reactor) : res (Z * reactor * list Z) :=
  c ← rd (conn_list st) fd;
  let '(count, data) := ret in
  if count <=? 0 then
    let c := Conn (c_fd c) zeros (rlength c) (wbuffer c) (wlength c) (send_callback c) (r_action c) in
    l ← wr (conn_list st) fd c;
    Ok (0, Reactor l (delete fd (epfd st)) (r_app st), [fd])
  else
    rb ← wr_range zeros 0 (take (Z.to_nat count) data);
    '(c, s) ← kvs_request (Conn (c_fd c) rb count (wbuffer c) (wlength c) (send_callback c) (r_action c)) (r_app st);
    l ← wr (conn_list st) fd c;
    Ok (count, Reactor l (set_event fd EPOLLOUT false (epfd st)) s, []).

(** [send_cb]: also the bytes sent. *)
Definition send_cb (fd : Z) (ret : option Z) (st : reactor) : res (Z * reactor * list (Z * list Z)) :=
  c ← rd (conn_list st) fd;
  '(count, out) ←
    (if negb (wlength c =? 0) then
       data ← rd_range (wbuffer c) 0 (to_size_t (wlength c));
       let count := match ret with Some r => r | None => zlen data end in
       Ok (count, [(fd, take (Z.to_nat count) data)])
     else Ok (0, []));
  Ok (count, Reactor (conn_list st) (set_event fd EPOLLIN false (epfd st)) (r_app st), out).

(** [conn_list[connfd].r_action.recv_callback(connfd)]; a call through a null
    pointer is undefined. *)
Definition call (cb : callback) (e : ready) (st : reactor) : res (reactor * list (Z * list Z) * list Z) :=
  match cb with
  | CbNull => Undef
  | CbAccept => '(_, st) ← accept_cb (r_fd e) (r_accept e) st; Ok (st, [], [])
  | CbRecv => '(_, st, closed) ← recv_cb (r_fd e) (r_recv e) st; Ok (st, [], closed)
  | CbSend => '(_, st, out) ← send_cb (r_fd e) (r_send e) st; Ok (st, out, [])
  end.

(** The body of the loop over the ready descriptors. *)
Definition dispatch (e : ready) (st : reactor) : res (reactor * list (Z * list Z) * list Z) :=
  '(st, out1, closed1) ←
    (if negb (Z.land (r_events e) EPOLLIN =? 0)
     then c ← rd (conn_list st) (r_fd e); call (r_action c) e st else Ok (st, [], []));
  '(st, out2, closed2) ←
    (if negb (Z.land (r_events e) EPOLLOUT =? 0)
     then c ← rd (conn_list st) (r_fd e); call (send_callback c) e st else Ok (st, [], []));
  Ok (st, out1 ++ out2, closed1 ++ closed2).

(** The main loop over the events it meets. *)
Fixpoint reactor_loop (es : list ready) (st : reactor) : res (reactor * list (Z * list Z) * list Z) :=
  match es with
  | [] => Ok (st, [], [])
  | e :: es =>
      '(st, out, closed) ← dispatch e st;
      '(st, out', closed') ← reactor_loop es st;
      Ok (st, out ++ out', closed ++ closed')
  end.

(** The listening sockets of [reactor_start], as [r_init_server] returned
    them. *)
Fixpoint add_listeners (sockfds : list Z) (st : reactor) : res reactor :=
  match sockfds with
  | [] => Ok st
  | fd :: sockfds =>
      c ← rd (conn_list st) fd;
      l ← wr (conn_list st) fd (Conn fd (rbuffer c) (rlength c) (wbuffer c) (wlength c) (send_callback c) CbAccept);
      add_listeners sockfds (Reactor l (set_event fd EPOLLIN true (epfd st)) (r_app st))
  end.

(** [reactor_start] on the listening sockets and the events it meets. *)
Definition reactor_start (sockfds : list Z) (es : list ready) (s : S) : res (reactor * list (Z * list Z) * list Z) :=
  st ← add_listeners sockfds (Reactor (replicate (Z.to_nat CONNECTION_SIZE) conn0) ∅ s);
  reactor_loop es st.

End Reactor.

(** ** proactor.c *)

(** [conn_info.event] *)
Inductive event := EVENT_ACCEPT | EVENT_READ | EVENT_WRITE.

(** A submission: the operation with its descriptor, and the length of a
    [send]. All receive into [buffer] and send from [response]. *)
Record sqe := Sqe { q_event : event; q_fd : Z; q_len : Z }.
Record cqe := Cqe { e_event : event; e_fd : Z; e_res : Z }.

#[export] Instance event_eq_dec : EqDecision event.
Proof. solve_decision. Defined.
#[export] Instance sqe_eq_dec : EqDecision sqe.
Proof. solve_decision. Defined.

(** The two buffers, the entries prepared and not submitted, the operations in
    flight, the completions not yet seen, the application. *)
Record proactor (S : Type) := Proactor {
  buffer : list Z;
  response : list Z;
  prepared : list sqe;
  in_flight : list sqe;
  completed : list cqe;
  p_app : S
}.
Arguments Proactor {S}.
Arguments buffer {S}.
Arguments response {S}.
Arguments prepared {S}.
Arguments in_flight {S}.
Arguments completed {S}.
Arguments p_app {S}.

Section Proactor.
Context {S : Type} `{Handler S}.
Notation proactor := (proactor S).

(** [set_event_recv], [set_event_send], [set_event_accept] *)
Definition prepare (q : sqe) (p : proactor) : proactor :=
  Proactor (buffer p) (response p) (prepared p ++ [q]) (in_flight p) (completed p) (p_app p).
Definition set_event_recv (sockfd : Z) : proactor -> proactor := prepare (Sqe EVENT_READ sockfd BUFFER_LENGTH).
Definition set_event_send (sockfd len : Z) : proactor -> proactor := prepare (Sqe EVENT_WRITE sockfd len).
Definition set_event_accept (sockfd : Z) : proactor -> proactor := prepare (Sqe EVENT_ACCEPT sockfd 0).

(** The body of the loop over a batch; also the descriptors closed. *)
Definition handle_cqe (sockfd : Z) (e : cqe) (p : proactor) : res (proactor * list Z) :=
  match e_event e with
  | EVENT_ACCEPT => Ok (set_event_recv (e_res e) (set_event_accept sockfd p), [])
  | EVENT_READ =>
      if e_res e =? 0 then Ok (p, [e_fd e]) else
      if 0 <? e_res e then
        '(ret, b, r, s) ← kvs_handler (buffer p) (e_res e) (response p) (p_app p);
        Ok (set_event_send (e_fd e) ret (Proactor b r (prepared p) (in_flight p) (completed p) s), [])
      else Ok (p, [])
  | EVENT_WRITE => Ok (set_event_recv (e_fd e) p, [])
  end.

Fixpoint handle_batch (sockfd : Z) (es : list cqe) (p : proactor) : res (proactor * list Z) :=
  match es with
  | [] => Ok (p, [])
  | e :: es =>
      '(p, closed) ← handle_cqe sockfd e p;
      '(p, closed') ← handle_batch sockfd es p;
      Ok (p, closed ++ closed')
  end.

(** One turn of [while (1)] from the wait for completions to the next
    submission. *)
Definition proactor_turn (sockfd : Z) (p : proactor) : res (proactor * list Z) :=
  let batch := take 128 (completed p) in
  '(p, closed) ← handle_batch sockfd batch p;
  Ok (Proactor (buffer p) (response p) [] (in_flight p ++ prepared p) (drop 128 (completed p)) (p_app p), closed).

(** The kernel performs an operation in flight: a connection arrives, bytes
    arrive ([ret] and the data) in [buffer], [ret] of the [len] bytes of
    [response] go out, none when [ret] is an error. *)
Inductive kernel_op :=
| K_accept (connfd : Z)
| K_recv (fd ret : Z) (data : list Z)
| K_send (fd len ret : Z).

Fixpoint remove_one (q : sqe) (l : list sqe) : option (list sqe) :=
  match l with
  | [] => None
  | x :: l => if decide (x = q) then Some l else (x ::.) <$> remove_one q l
  end.

Definition kernel_step (sockfd : Z) (k : kernel_op) (p : proactor) : res (proactor * list (Z * list Z)) :=
  match k with
  | K_accept connfd =>
      fl ← of_option (remove_one (Sqe EVENT_ACCEPT sockfd 0) (in_flight p));
      Ok (Proactor (buffer p) (response p) (prepared p) fl (completed p ++ [Cqe EVENT_ACCEPT sockfd connfd]) (p_app p), [])
  | K_recv fd ret data =>
      fl ← of_option (remove_one (Sqe EVENT_READ fd BUFFER_LENGTH) (in_flight p));
      b ← wr_range (buffer p) 0 (take (Z.to_nat ret) data);
      Ok (Proactor b (response p) (prepared p) fl (completed p ++ [Cqe EVENT_READ fd ret]) (p_app p), [])
  | K_send fd len ret =>
      fl ← of_option (remove_one (Sqe EVENT_WRITE fd len) (in_flight p));
      data ← rd_range (response p) 0 (to_size_t len);
      Ok (Proactor (buffer p) (response p) (prepared p) fl (completed p ++ [Cqe EVENT_WRITE fd ret]) (p_app p),
          [(fd, take (Z.to_nat ret) data)])
  end.

Inductive proactor_event := P_kernel (k : kernel_op) | P_turn.

Fixpoint proactor_loop (sockfd : Z) (evs : list proactor_event) (p : proactor) : res (proactor * list (Z * list Z) * list Z) :=
  match evs with
  | [] => Ok (p, [], [])
  | P_kernel k :: evs =>
      '(p, out) ← kernel_step sockfd k p;
      '(p, out', closed) ← proactor_loop sockfd evs p;
      Ok (p, out ++ out', closed)
  | P_turn :: evs =>
      '(p, closed) ← proactor_turn sockfd p;
      '(p, out, closed') ← proactor_loop sockfd evs p;
      Ok (p, out, closed ++ closed')
  end.

(** [proactor_start] on the listening socket: the first accept is submitted. *)
Definition proactor_start (sockfd : Z) (evs : list proactor_event) (s : S) : res (proactor * list (Z * list Z) * list Z) :=
  let p := set_event_accept sockfd (Proactor zeros zeros [] [] [] s) in
  proactor_loop sockfd evs (Proactor (buffer p) (response p) [] (in_flight p ++ prepared p) (completed p) (p_app p)).

End Proactor.
