(* ===== verification/ReactorFacts.v ===== *)
(** * ReactorFacts: every message gets the handler's answer

    [served] is what the epoll server promises: a connection alternates between
    waiting for a message and having an answer to send. [dispatch_ok]: the code
    refines it. For the io_uring server, whose connections share one buffer,
    the rounds of a single connection. *)

From S2P Require Import Prelude CLib Reactor.

(** ** What the server promises *)

(** The connections, each with the answer it has not sent yet, and the
    application. *)
Notation conns S := (gmap Z (option (list Z)) * S)%type.

Section Spec.
Context {S : Type} `{LAWS : HandlerLaws S}.

(** What the kernel reports for a descriptor that is registered for [want]:
    this, errors and hang-ups in any combination, never the other direction. *)
Definition reports (ev want : Z) : Prop :=
  Z.land ev (if want =? EPOLLIN then EPOLLOUT else EPOLLIN) = 0 /\ Z.land ev want <> 0.

(** The bytes of an answer that [send] takes. *)
Definition taken (sd : option Z) (r : list Z) : list Z := match sd with Some n => take (Z.to_nat n) r | None => r end.

(** One event for the listeners [L]: the answers it gave, the bytes it sent,
    the descriptors it closed. [send] takes as much as it likes; what it does
    not take is lost. *)
Inductive served (L : gset Z) : ready -> conns S -> conns S -> list (Z * list Z) -> list (Z * list Z) -> list Z -> Prop :=
| served_accept fd ev c rv sd p s :
    reports ev EPOLLIN -> fd ∈ L -> 0 <= c < CONNECTION_SIZE -> c ∉ L -> p !! c = None ->
    served L (Ready fd ev c rv sd) (p, s) (<[c := None]> p, s) [] [] []
| served_refuse fd ev c rv sd p s :
    reports ev EPOLLIN -> fd ∈ L -> c < 0 -> served L (Ready fd ev c rv sd) (p, s) (p, s) [] [] []
| served_message fd ev c m sd p s :
    reports ev EPOLLIN -> p !! fd = Some None -> 0 < zlen m <= BUFFER_LENGTH ->
    served L (Ready fd ev c (zlen m, m) sd) (p, s) (<[fd := Some (answer m s)]> p, after m s) [(fd, answer m s)] [] []
| served_end fd ev c n data sd p s :
    reports ev EPOLLIN -> p !! fd = Some None -> n <= 0 ->
    served L (Ready fd ev c (n, data) sd) (p, s) (delete fd p, s) [] [] [fd]
| served_send fd ev c rv sd r p s :
    reports ev EPOLLOUT -> p !! fd = Some (Some r) ->
    served L (Ready fd ev c rv sd) (p, s) (<[fd := None]> p, s) [] (if decide (r = []) then [] else [(fd, taken sd r)]) []
| served_other fd ev c rv sd x :
    (Z.land ev EPOLLIN =? 0) = true -> (Z.land ev EPOLLOUT =? 0) = true -> served L (Ready fd ev c rv sd) x x [] [] [].

Inductive served_run (L : gset Z) : list ready -> conns S -> conns S -> list (Z * list Z) -> list (Z * list Z) -> list Z -> Prop :=
| run_nil x : served_run L [] x x [] [] []
| run_cons e es x y z answers answers' out out' closed closed' :
    served L e x y answers out closed -> served_run L es y z answers' out' closed' ->
    served_run L (e :: es) x z (answers ++ answers') (out ++ out') (closed ++ closed').

(** The bytes for one descriptor. *)
Definition stream (fd : Z) (l : list (Z * list Z)) : list Z := mjoin (snd <$> filter (fun o => o.1 = fd) l).

Definition unsent (fd : Z) (p : gmap Z (option (list Z))) : list Z :=
  match p !! fd with Some (Some r) => r | _ => [] end.

Lemma stream_app fd l k : stream fd (l ++ k) = stream fd l ++ stream fd k.
Proof. unfold stream. by rewrite filter_app, fmap_app, join_app. Qed.

Lemma stream_one fd fd' r : stream fd [(fd', r)] = if decide (fd' = fd) then r else [].
Proof. unfold stream. rewrite filter_cons. cbn [fst]. destruct (decide (fd' = fd)); [cbn; by rewrite app_nil_r | done]. Qed.

Lemma unsent_insert fd fd' o p : unsent fd (<[fd' := o]> p) = if decide (fd' = fd) then default [] o else unsent fd p.
Proof. unfold unsent. rewrite lookup_insert. destruct (decide (fd' = fd)); [by destruct o | done]. Qed.

(** What is sent and what waits is a part of the answers, in their order; when
    the sends take everything it is all of them. *)
Lemma served_stream L e x y answers out closed fd :
  served L e x y answers out closed ->
  goes_out (r_send e = None) (stream fd out ++ unsent fd y.1) (unsent fd x.1 ++ stream fd answers).
Proof.
  destruct 1 as [? ? c ? ? p ? _ _ _ _ Hc | | fd' ? ? m ? p s _ Hp | fd' ? ? ? ? ? p ? _ Hp | fd' ? ? ? sd r p ? _ Hp | ];
    cbn [fst r_send]; rewrite ?app_nil_r; try apply goes_out_refl.
  - rewrite unsent_insert. destruct (decide (c = fd)) as [-> |]; [| apply goes_out_refl]. unfold unsent. rewrite Hc. apply goes_out_refl.
  - rewrite unsent_insert, stream_one. destruct (decide (fd' = fd)) as [-> |]; [unfold unsent; rewrite Hp | rewrite app_nil_r]; apply goes_out_refl.
  - unfold unsent. destruct (decide (fd' = fd)) as [-> | Hne]; [rewrite lookup_delete_eq, Hp | rewrite lookup_delete_ne by done]; apply goes_out_refl.
  - rewrite unsent_insert. destruct (decide (r = [])) as [-> |].
    + destruct (decide (fd' = fd)) as [-> |]; [unfold unsent; rewrite Hp |]; apply goes_out_refl.
    + rewrite stream_one. destruct (decide (fd' = fd)) as [-> |]; [| apply goes_out_refl]. unfold unsent. rewrite Hp. cbn [default from_option id].
      rewrite app_nil_r. destruct sd; [split; [apply sublist_take | done] | apply goes_out_refl].
Qed.

Lemma served_run_stream L es x y answers out closed fd :
  served_run L es x y answers out closed ->
  goes_out (Forall (fun e => r_send e = None) es) (stream fd out ++ unsent fd y.1) (unsent fd x.1 ++ stream fd answers).
Proof.
  induction 1 as [x | e es x y z ans ans' out out' cl cl' Hs _ [IH1 IH2]]; [rewrite app_nil_r; apply goes_out_refl |].
  destruct (served_stream _ _ _ _ _ _ _ fd Hs) as [H1 H2]. rewrite !stream_app, <- app_assoc, (app_assoc (unsent fd x.1)). split.
  - etrans; [by apply sublist_app |]. rewrite app_assoc. by apply sublist_app.
  - intros [He Hes]%Forall_cons. rewrite (IH2 Hes), app_assoc. by rewrite (H2 He).
Qed.

(** ** The code refines it *)

(** A registered connection: its buffers and what it is registered for. *)
Definition conn_ok (st : reactor S) (fd : Z) (o : option (list Z)) : Prop :=
  exists c, rd (conn_list st) fd = Ok c /\ r_action c = CbRecv /\ send_callback c = CbSend /\ zlen (wbuffer c) = BUFFER_LENGTH /\
    match o with
    | None => epfd st !! fd = Some EPOLLIN
    | Some r => epfd st !! fd = Some EPOLLOUT /\ wlength c = zlen r /\ exists rest, wbuffer c = r ++ rest
    end.

Record reactor_ok (L : gset Z) (x : conns S) (st : reactor S) : Prop := {
  rk_len : zlen (conn_list st) = CONNECTION_SIZE;
  rk_app : r_app st = x.2;
  rk_listen : forall fd, fd ∈ L -> epfd st !! fd = Some EPOLLIN /\ exists c, rd (conn_list st) fd = Ok c /\ r_action c = CbAccept;
  rk_conn : forall fd o, x.1 !! fd = Some o -> fd ∉ L /\ conn_ok st fd o;
  rk_free : forall fd, fd ∉ L -> x.1 !! fd = None -> epfd st !! fd = None
}.

Lemma rd_wr {X} (l l' : list X) i x j : wr l i x = Ok l' -> rd l' j = if decide (i = j) then Ok x else rd l j.
Proof.
  unfold wr, rd, zlen. destruct (Z.leb_spec 0 i), (Z.ltb_spec i (Z.of_nat (length l))); cbn [andb]; try done. intros [= <-].
  destruct (decide (i = j)) as [-> | Hne].
  - rewrite (proj2 (Z.ltb_ge j 0)), list_lookup_insert_eq by lia. done.
  - destruct (Z.ltb_spec j 0); [done |]. rewrite list_lookup_insert_ne by lia. done.
Qed.

Lemma rd_range_of {X} (l : list X) i x : rd l i = Ok x -> 0 <= i < zlen l.
Proof.
  rewrite rd_spec. intros [Hi Hl]. split; [done |]. apply lookup_lt_Some in Hl. unfold zlen. lia.
Qed.

(** A new entry and a new registration for one descriptor keep the rest. *)
Lemma reactor_set L p s st fd c l o ep :
  reactor_ok L (p, s) st -> fd ∉ L -> wr (conn_list st) fd c = Ok l -> r_action c = CbRecv -> send_callback c = CbSend ->
  zlen (wbuffer c) = BUFFER_LENGTH -> ep = (if o is Some _ then EPOLLOUT else EPOLLIN) ->
  match o with None => True | Some r => wlength c = zlen r /\ exists rest, wbuffer c = r ++ rest end ->
  forall s', reactor_ok L (<[fd := o]> p, s') (Reactor l (<[fd := ep]> (epfd st)) s').
Proof.
  intros [H1 H2 H3 H4 H5] HL Hw Hr Hsnd Hlen -> Ho s'. split; cbn [conn_list epfd r_app fst snd] in *.
  - rewrite (wr_length _ _ _ _ Hw). done.
  - done.
  - intros fd' Hfd'. destruct (H3 fd' Hfd') as (E & c' & Hc' & Ha'). rewrite lookup_insert_ne by congruence. split; [done |].
    exists c'. rewrite (rd_wr _ _ _ _ fd' Hw), decide_False by congruence. done.
  - intros fd' o' Hl. destruct (decide (fd = fd')) as [<- | Hne].
    + rewrite lookup_insert_eq in Hl. injection Hl as <-. split; [done |]. exists c. cbn [conn_list epfd].
      rewrite (rd_wr _ _ _ _ fd Hw), decide_True, lookup_insert_eq by done. split_and!; try done. destruct o; [done | done].
    + rewrite lookup_insert_ne in Hl by done. destruct (H4 fd' o' Hl) as (HL' & c' & Hc' & R1 & R2 & R3 & R4). split; [done |].
      exists c'. cbn [conn_list epfd]. rewrite (rd_wr _ _ _ _ fd' Hw), decide_False, lookup_insert_ne by done. done.
  - intros fd' HL' Hl. destruct (decide (fd = fd')) as [<- | Hne]; [by rewrite lookup_insert_eq in Hl |].
    rewrite lookup_insert_ne in Hl by done. rewrite lookup_insert_ne by done. by apply H5.
Qed.

Lemma fresh_buffers m : 0 < zlen m <= BUFFER_LENGTH ->
  exists rest, wr_range zeros 0 (take (Z.to_nat (zlen m)) m) = Ok (m ++ rest) /\ zlen m + zlen rest = BUFFER_LENGTH.
Proof.
  intros Hm. unfold zlen at 1. rewrite Nat2Z.id, firstn_all. exists (drop (length m) zeros). unfold wr_range.
  change (zlen zeros) with BUFFER_LENGTH. rewrite !(proj2 (Z.leb_le _ _)) by lia. cbn [andb]. split; [done |].
  unfold zlen in *. rewrite length_drop. unfold zeros. rewrite length_replicate. unfold BUFFER_LENGTH in *. lia.
Qed.

Lemma reports_in ev : reports ev EPOLLIN -> (Z.land ev EPOLLIN =? 0) = false /\ (Z.land ev EPOLLOUT =? 0) = true.
Proof. intros [H1 H2]. cbn in H1. rewrite Z.eqb_neq, Z.eqb_eq. done. Qed.

Lemma reports_out ev : reports ev EPOLLOUT -> (Z.land ev EPOLLIN =? 0) = true /\ (Z.land ev EPOLLOUT =? 0) = false.
Proof. intros [H1 H2]. cbn in H1. rewrite Z.eqb_neq, Z.eqb_eq. done. Qed.

Lemma dispatch_ok L e x y answers out closed st :
  served L e x y answers out closed -> reactor_ok L x st ->
  exists st', dispatch e st = Ok (st', out, closed) /\ reactor_ok L y st'.
Proof.
  destruct 1 as [fd ev c rv sd p s Hev HL Hc HcL Hp | fd ev c rv sd p s Hev HL Hc | fd ev c m sd p s Hev Hp Hm | fd ev c n data sd p s Hev Hp Hn
    | fd ev c rv sd r p s Hev Hp | fd ev c rv sd x Hi Ho];
    [apply reports_in in Hev as [Hi Ho].. | apply reports_out in Hev as [Hi Ho] |];
    intros Hok; pose proof Hok as [H1 H2 H3 H4 H5]; unfold dispatch; cbn [r_events r_fd fst snd] in *; rewrite Hi, Ho; cbn [negb].
  - destruct (H3 fd HL) as (_ & cl & Hcl & Ha).
    rewrite Hcl. run. rewrite Ha. cbn [call r_fd r_accept]. unfold accept_cb, event_register. rewrite (proj2 (Z.ltb_ge c 0)) by lia.
    set (cn := Conn c zeros 0 zeros 0 CbSend CbRecv). rewrite wr_in_range by (unfold CONNECTION_SIZE in *; lia). run.
    unfold set_event. rewrite (H5 c HcL Hp). eexists. split; [done |]. rewrite H2.
    eapply (reactor_set L p s st c cn _ None); [done | done | apply wr_in_range; unfold CONNECTION_SIZE in *; lia | done..].
  - destruct (H3 fd HL) as (_ & cl & Hcl & Ha).
    rewrite Hcl. run. rewrite Ha. cbn [call r_fd r_accept]. unfold accept_cb. rewrite (proj2 (Z.ltb_lt c 0)) by lia. run. eauto.
  - destruct (H4 fd _ Hp) as (HL & cn & Hcn & R1 & R2 & R3 & R4).
    rewrite Hcn. run. rewrite R1. cbn [call r_fd r_recv]. unfold recv_cb. rewrite Hcn. run. rewrite (proj2 (Z.leb_gt (zlen m) 0)) by lia.
    destruct (fresh_buffers m Hm) as (rest & -> & Hrest). run. unfold kvs_request. cbn [rbuffer rlength wbuffer c_fd send_callback r_action]. rewrite H2.
    destruct (handler_ok m rest (wbuffer cn) s ltac:(lia) Hrest R3) as (msg' & rest' & -> & Hmsg & Hrep). run.
    pose proof (rd_range_of _ _ _ Hcn). rewrite wr_in_range by done. run. unfold set_event. rewrite R4. eexists. split; [done |].
    eapply (reactor_set L p s st fd _ _ (Some (answer m s))); [done | done | by apply wr_in_range | done | done | | done | cbn; eauto].
    cbn [wbuffer]. by rewrite zlen_app.
  - destruct (H4 fd _ Hp) as (HL & cn & Hcn & R1 & R2 & R3 & R4).
    rewrite Hcn. run. rewrite R1. cbn [call r_fd r_recv]. unfold recv_cb. rewrite Hcn. run. rewrite (proj2 (Z.leb_le n 0)) by lia.
    pose proof (rd_range_of _ _ _ Hcn). set (cz := Conn _ _ _ _ _ _ _). pose proof (wr_in_range (conn_list st) fd cz ltac:(done)) as Hw. rewrite Hw. run.
    eexists. split; [done |]. split; cbn [conn_list epfd r_app fst snd].
    + by rewrite (wr_length _ _ _ _ Hw).
    + done.
    + intros fd' Hfd'. destruct (H3 fd' Hfd') as (E & c' & Hc' & Ha'). rewrite lookup_delete_ne by congruence. split; [done |].
      exists c'. rewrite (rd_wr _ _ _ _ fd' Hw), decide_False by congruence. done.
    + intros fd' o' Hl. destruct (decide (fd = fd')) as [<- | Hne]; [by rewrite lookup_delete_eq in Hl |]. rewrite lookup_delete_ne in Hl by done.
      destruct (H4 fd' o' Hl) as (HL' & c' & Hc' & Q1 & Q2 & Q3 & Q4). split; [done |]. exists c'. cbn [conn_list epfd].
      rewrite (rd_wr _ _ _ _ fd' Hw), decide_False, lookup_delete_ne by done. done.
    + intros fd' HL' Hl. destruct (decide (fd = fd')) as [<- | Hne]; [by rewrite lookup_delete_eq |].
      rewrite lookup_delete_ne in Hl by done. rewrite lookup_delete_ne by done. by apply H5.
  - destruct (H4 fd _ Hp) as (HL & cn & Hcn & R1 & R2 & R3 & R4 & R5 & rest & R6).
    run. rewrite Hcn. run. rewrite R2. cbn [call r_fd r_send]. unfold send_cb. rewrite Hcn. run.
    pose proof (rd_range_of _ _ _ Hcn). assert (Hself : wr (conn_list st) fd cn = Ok (conn_list st)).
    { rewrite wr_in_range by done. f_equal. apply list_insert_id. by apply rd_spec in Hcn as [_ ?]. }
    assert (Hst : reactor_ok L (<[fd := None]> p, s) (Reactor (conn_list st) (set_event fd EPOLLIN false (epfd st)) (r_app st))).
    { unfold set_event. rewrite R4, H2. eapply (reactor_set L p s st fd cn _ None); done. }
    rewrite R5. destruct (decide (r = [])) as [-> | Hne]; [change (zlen [] =? 0) with true; cbn [negb]; run; eauto |].
    assert (0 < zlen r) by (destruct r; [done |]; rewrite zlen_cons; pose proof (zlen_nonneg r); lia).
    rewrite (proj2 (Z.eqb_neq (zlen r) 0)) by lia. cbn [negb].
    assert (zlen r <= BUFFER_LENGTH) by (rewrite <- R3, R6, zlen_app; pose proof (zlen_nonneg rest); lia).
    replace (to_size_t (zlen r)) with (zlen r) by (symmetry; apply Z.mod_small; unfold BUFFER_LENGTH in *; lia).
    pose proof (rd_range_app_mid [] r rest) as Hrd. cbn [app] in Hrd. change (zlen []) with 0 in Hrd. rewrite R6, Hrd. run.
    destruct sd; [by eauto |]. cbn [taken]. unfold zlen at 1. rewrite Nat2Z.id, firstn_all. eauto.
  - run. eauto.
Qed.

Lemma loop_ok L es x y answers out closed st :
  served_run L es x y answers out closed -> reactor_ok L x st ->
  exists st', reactor_loop es st = Ok (st', out, closed) /\ reactor_ok L y st'.
Proof.
  intros Hr. revert st. induction Hr as [x | e es x y z ans ans' out out' cl cl' Hs _ IH]; intros st Hok; [eauto |].
  destruct (dispatch_ok _ _ _ _ _ _ _ _ Hs Hok) as (st1 & E1 & Hok1). destruct (IH st1 Hok1) as (st2 & E2 & Hok2).
  cbn [reactor_loop]. rewrite E1. run. rewrite E2. run. eauto.
Qed.

(** The listening sockets. *)
Lemma listeners_ok fds : forall L st s, NoDup fds -> Forall (fun fd => 0 <= fd < CONNECTION_SIZE /\ fd ∉ L) fds ->
  reactor_ok L (∅, s) st ->
  exists st', add_listeners fds st = Ok st' /\ reactor_ok (list_to_set fds ∪ L) (∅, s) st'.
Proof.
  induction fds as [| fd fds IH]; intros L st s Hnd Hf Hok.
  { exists st. split; [done |]. by replace (list_to_set [] ∪ L) with L by set_solver. }
  apply NoDup_cons in Hnd as [Hnin Hnd]. apply Forall_cons in Hf as [[Hr HL] Hf]. pose proof Hok as [H1 H2 H3 H4 H5]. cbn [add_listeners].
  destruct (rd_in_range (conn_list st) fd ltac:(lia)) as [c Hc]. rewrite Hc. run. set (cn := Conn _ _ _ _ _ _ _).
  pose proof (wr_in_range (conn_list st) fd cn ltac:(lia)) as Hw. rewrite Hw. run. unfold set_event. rewrite (H5 fd HL (lookup_empty _)).
  destruct (IH ({[fd]} ∪ L) (Reactor (<[Z.to_nat fd := cn]> (conn_list st)) (<[fd := EPOLLIN]> (epfd st)) (r_app st)) s) as (st' & E & Hok'); [done | | |].
  - apply Forall_forall. intros fd' Hin. rewrite Forall_forall in Hf. destruct (Hf fd' Hin). split; [done |]. set_solver.
  - split; cbn [conn_list epfd r_app fst snd] in *.
    + by rewrite (wr_length _ _ _ _ Hw).
    + done.
    + intros fd' Hin. destruct (decide (fd = fd')) as [<- | Hne].
      * rewrite lookup_insert_eq. split; [done |]. exists cn. rewrite (rd_wr _ _ _ _ fd Hw), decide_True by done. done.
      * rewrite lookup_insert_ne by done. destruct (H3 fd') as (E & c' & Hc' & Ha'); [set_solver |]. split; [done |].
        exists c'. rewrite (rd_wr _ _ _ _ fd' Hw), decide_False by done. done.
    + intros fd' o Ho. by rewrite lookup_empty in Ho.
    + intros fd' Hn Ho. rewrite lookup_insert_ne by set_solver. apply H5; [set_solver | done].
  - exists st'. split; [done |]. by replace (list_to_set (fd :: fds) ∪ L) with (list_to_set fds ∪ ({[fd]} ∪ L)) by set_solver.
Qed.

Lemma start_ok s : reactor_ok ∅ (∅, s) (Reactor (replicate (Z.to_nat CONNECTION_SIZE) conn0) ∅ s).
Proof.
  split; cbn [conn_list epfd r_app fst snd].
  - unfold zlen. by rewrite length_replicate.
  - done.
  - set_solver.
  - intros fd o Ho. by rewrite lookup_empty in Ho.
  - intros. apply lookup_empty.
Qed.

End Spec.

(** ** A connection of the io_uring server *)

Section Single.
Context {S : Type} `{LAWS : HandlerLaws S}.

Lemma remove_top q l : remove_one q (q :: l) = Some l.
Proof. cbn [remove_one]. by rewrite decide_True. Qed.

Lemma remove_skip q q' l : q_event q' <> q_event q -> remove_one q (q' :: l) = (q' ::.) <$> remove_one q l.
Proof. intros Hne. cbn [remove_one]. rewrite decide_False by congruence. done. Qed.

(** A message at the front of the buffer. *)
Lemma recv_into (b m : list Z) : zlen b = BUFFER_LENGTH -> 0 < zlen m <= BUFFER_LENGTH ->
  exists rest, wr_range b 0 (take (Z.to_nat (zlen m)) m) = Ok (m ++ rest) /\ zlen m + zlen rest = BUFFER_LENGTH.
Proof.
  intros Hb Hm. unfold zlen at 1. rewrite Nat2Z.id, firstn_all. exists (drop (length m) b). unfold wr_range.
  rewrite Hb, !(proj2 (Z.leb_le _ _)) by lia. cbn [andb]. split; [done |]. unfold zlen in *. rewrite length_drop. lia.
Qed.

(** The answer at the front of [response] is sent. *)
Lemma send_front (r rest : list Z) : zlen r + zlen rest = BUFFER_LENGTH -> rd_range (r ++ rest) 0 (to_size_t (zlen r)) = Ok r.
Proof.
  intros Hl. pose proof (zlen_nonneg r). pose proof (zlen_nonneg rest).
  replace (to_size_t (zlen r)) with (zlen r) by (symmetry; apply Z.mod_small; unfold BUFFER_LENGTH in *; lia).
  exact (rd_range_app_mid [] r rest).
Qed.

Lemma send_range (buf r : list Z) : zlen buf = BUFFER_LENGTH -> zlen r <= BUFFER_LENGTH ->
  rd_range buf 0 (to_size_t (zlen r)) = Ok (take (length r) buf).
Proof.
  intros Hb Hr. pose proof (zlen_nonneg r).
  replace (to_size_t (zlen r)) with (zlen r) by (symmetry; apply Z.mod_small; unfold BUFFER_LENGTH in *; lia).
  unfold rd_range. rewrite Hb, !(proj2 (Z.leb_le _ _)) by lia. cbn [andb Z.to_nat drop]. unfold zlen. by rewrite Nat2Z.id.
Qed.

(** The server waits for one connection to send and for others to connect. *)
Definition waits_for (sockfd fd : Z) (s : S) (p : proactor S) : Prop :=
  zlen (buffer p) = BUFFER_LENGTH /\ zlen (response p) = BUFFER_LENGTH /\ prepared p = [] /\ completed p = [] /\
  in_flight p = [Sqe EVENT_ACCEPT sockfd 0; Sqe EVENT_READ fd BUFFER_LENGTH] /\ p_app p = s.

(** A message comes in, the server answers it, and [n] bytes of the answer are
    sent. *)
Definition round (fd : Z) (m : list Z) (n : Z) (s : S) : list proactor_event :=
  [P_kernel (K_recv fd (zlen m) m); P_turn; P_kernel (K_send fd (zlen (answer m s)) n); P_turn].

Lemma round_ok sockfd fd m n s p evs :
  waits_for sockfd fd s p -> 0 < zlen m <= BUFFER_LENGTH ->
  exists p', waits_for sockfd fd (after m s) p' /\
    proactor_loop sockfd (round fd m n s ++ evs) p
    = '(q, out, closed) ← proactor_loop sockfd evs p'; Ok (q, (fd, take (Z.to_nat n) (answer m s)) :: out, closed).
Proof.
  intros (Hb & Hr & H1 & H2 & H3 & H4) Hm. destruct p as [b r pr fl cq s0]. cbn [buffer response prepared completed in_flight p_app] in *. subst.
  unfold round. cbn [app proactor_loop kernel_step in_flight buffer response prepared completed p_app].
  rewrite remove_skip, remove_top by done. cbn [fmap option_fmap option_map of_option]. run.
  destruct (recv_into b m Hb Hm) as (rest & -> & Hrest). run. unfold proactor_turn. cbn [completed take app handle_batch handle_cqe e_event e_res e_fd].
  rewrite (proj2 (Z.eqb_neq (zlen m) 0)), (proj2 (Z.ltb_lt 0 (zlen m))) by lia. cbn [buffer response p_app prepared in_flight].
  destruct (handler_ok m rest r s ltac:(lia) Hrest Hr) as (msg' & rest' & -> & Hmsg & Hrep). run.
  unfold set_event_send, set_event_recv, prepare. cbn [buffer response p_app prepared in_flight completed app take drop].
  rewrite remove_skip, remove_top by done. cbn [fmap option_fmap option_map of_option]. run.
  rewrite (send_front _ _ Hrep). run.
  cbn [completed take app handle_batch handle_cqe e_event e_res e_fd]. run. unfold set_event_recv, prepare. cbn [buffer response p_app prepared in_flight completed app take drop].
  match goal with |- context [proactor_loop sockfd evs ?q] => exists q end.
  split; [| by destruct (proactor_loop sockfd evs _) as [[[? ?] ?] | |]].
  split_and!; try done. cbn [response]. by rewrite zlen_app.
Qed.

(** Messages one after the other, each with the number of bytes of its answer
    that are sent; the answers, and what is sent of them. *)
Fixpoint rounds (fd : Z) (ms : list (list Z * Z)) (s : S) : list proactor_event :=
  match ms with [] => [] | (m, n) :: ms => round fd m n s ++ rounds fd ms (after m s) end.

Fixpoint answers (ms : list (list Z)) (s : S) : list (list Z) :=
  match ms with [] => [] | m :: ms => answer m s :: answers ms (after m s) end.

Definition sent (fd : Z) (ns : list Z) (rs : list (list Z)) : list (Z * list Z) :=
  zip_with (fun n r => (fd, take (Z.to_nat n) r)) ns rs.

Lemma sent_all fd ns rs : Forall2 (fun n r => zlen r <= n) ns rs -> sent fd ns rs = (fd,.) <$> rs.
Proof. induction 1 as [| n r ns rs Hn _ IH]; cbn; [done |]. unfold sent in IH. rewrite IH, take_ge by (unfold zlen in *; lia). done. Qed.

Lemma rounds_ok sockfd fd ms : forall s p evs, waits_for sockfd fd s p -> Forall (fun m => 0 < zlen m.1 <= BUFFER_LENGTH) ms ->
  exists p', waits_for sockfd fd (fold_left (fun s m => after m s) ms.*1 s) p' /\
    proactor_loop sockfd (rounds fd ms s ++ evs) p
    = '(q, out, closed) ← proactor_loop sockfd evs p'; Ok (q, sent fd ms.*2 (answers ms.*1 s) ++ out, closed).
Proof.
  induction ms as [| [m n] ms IH]; intros s p evs Hp Hms.
  { exists p. split; [done |]. cbn [rounds answers app fmap list_fmap sent zip_with]. by destruct (proactor_loop sockfd evs p) as [[[? ?] ?] | |]. }
  apply Forall_cons in Hms as [Hm Hms]. cbn [rounds answers fold_left fmap list_fmap fst snd sent zip_with app]. rewrite <- app_assoc.
  destruct (round_ok sockfd fd m n s p (rounds fd ms (after m s) ++ evs) Hp Hm) as (p1 & Hp1 & ->).
  destruct (IH (after m s) p1 evs Hp1 Hms) as (p2 & Hp2 & ->). exists p2. split; [done |].
  by destruct (proactor_loop sockfd evs p2) as [[[? ?] ?] | |].
Qed.

(** The first connection. *)
Lemma accept_ok sockfd fd s evs : exists p, waits_for sockfd fd s p /\
  proactor_start sockfd (P_kernel (K_accept fd) :: P_turn :: evs) s = proactor_loop sockfd evs p.
Proof.
  unfold proactor_start, set_event_accept, prepare. cbn [buffer response prepared in_flight completed p_app app proactor_loop kernel_step].
  rewrite remove_top. cbn [of_option]. run. unfold proactor_turn. cbn [completed take drop app handle_batch handle_cqe e_event e_res e_fd]. run.
  unfold set_event_recv, set_event_accept, prepare. cbn [buffer response prepared in_flight completed p_app app drop].
  match goal with |- context [proactor_loop sockfd evs ?q] => exists q end.
  split; [| by destruct (proactor_loop sockfd evs _) as [[[? ?] ?] | |]]. split_and!; done.
Qed.

(** The end of the connection, or an error of [recv]. *)
Lemma end_ok sockfd fd s p n : waits_for sockfd fd s p -> n <= 0 ->
  exists p', proactor_loop sockfd [P_kernel (K_recv fd n []); P_turn] p = Ok (p', [], if n =? 0 then [fd] else []) /\
    in_flight p' = [Sqe EVENT_ACCEPT sockfd 0] /\ completed p' = [] /\ prepared p' = [] /\ p_app p' = s.
Proof.
  intros (Hb & Hr & H1 & H2 & H3 & H4) Hn. destruct p as [b r pr fl cq s0]. cbn [buffer response prepared completed in_flight p_app] in *. subst.
  cbn [app proactor_loop kernel_step in_flight buffer response prepared completed p_app].
  rewrite remove_skip, remove_top by done. cbn [fmap option_fmap option_map of_option]. run. rewrite take_nil.
  assert (Hw : wr_range b 0 [] = Ok b) by (unfold wr_range; rewrite Hb; done). rewrite Hw. run. unfold proactor_turn.
  cbn [completed take drop app handle_batch handle_cqe e_event e_res e_fd]. destruct (Z.eqb_spec n 0) as [-> | Hne]; [run; eexists; done |].
  rewrite (proj2 (Z.ltb_ge 0 n)) by lia. run. eexists. done.
Qed.

(** *** Two connections *)

(** Two connections wait for a message. *)
Definition waits_for_two (sockfd fd1 fd2 : Z) (s : S) (p : proactor S) : Prop :=
  zlen (buffer p) = BUFFER_LENGTH /\ zlen (response p) = BUFFER_LENGTH /\ prepared p = [] /\ completed p = [] /\
  in_flight p = [Sqe EVENT_ACCEPT sockfd 0; Sqe EVENT_READ fd1 BUFFER_LENGTH; Sqe EVENT_READ fd2 BUFFER_LENGTH] /\ p_app p = s.

(** Both messages arrive before the server looks, the second at least as long
    as the first: the handler, when it leaves its message alone, sees the second
    message both times, and both clients are sent the front of [response] as the second
    answer left it. *)
Lemma two_ok sockfd fd1 fd2 m1 m2 s p :
  (forall m n r s v m' r' s', kvs_handler m n r s = Ok (v, m', r', s') -> m' = m) ->
  waits_for_two sockfd fd1 fd2 s p -> fd1 <> fd2 -> 0 < zlen m1 <= zlen m2 -> zlen m2 <= BUFFER_LENGTH ->
  let seen := take (length m1) m2 in let r1 := answer seen s in let r2 := answer m2 (after seen s) in
  exists p' rest, zlen r2 + zlen rest = BUFFER_LENGTH /\
    proactor_loop sockfd [P_kernel (K_recv fd1 (zlen m1) m1); P_kernel (K_recv fd2 (zlen m2) m2); P_turn;
      P_kernel (K_send fd1 (zlen r1) (zlen r1)); P_kernel (K_send fd2 (zlen r2) (zlen r2))] p
    = Ok (p', [(fd1, take (length r1) (r2 ++ rest)); (fd2, r2)], []).
Proof.
  intros Hkeep (Hb & Hr & H1 & H2 & H3 & H4) Hne Hm1 Hm2 seen r1 r2. destruct p as [b r pr fl cq s0].
  cbn [buffer response prepared completed in_flight p_app] in *. subst.
  cbn [proactor_loop kernel_step in_flight buffer response prepared completed p_app].
  rewrite remove_skip, remove_top by done. cbn [fmap option_fmap option_map of_option]. run.
  destruct (recv_into b m1 Hb ltac:(lia)) as (x1 & -> & Hx1). run. cbn [in_flight buffer completed response prepared p_app].
  rewrite remove_skip, remove_top by done. cbn [fmap option_fmap option_map of_option]. run.
  destruct (recv_into (m1 ++ x1) m2 ltac:(by rewrite zlen_app) ltac:(lia)) as (x2 & -> & Hx2). run.
  unfold proactor_turn. cbn [completed take drop app handle_batch handle_cqe e_event e_res e_fd].
  rewrite (proj2 (Z.eqb_neq (zlen m1) 0)), (proj2 (Z.ltb_lt 0 (zlen m1))) by lia. cbn [buffer response p_app prepared in_flight].
  assert (Hseen : zlen seen = zlen m1) by (unfold seen, zlen in *; rewrite length_take; lia).
  assert (Hbuf : m2 ++ x2 = seen ++ (drop (length m1) m2 ++ x2)) by (unfold seen; by rewrite app_assoc, take_drop).
  destruct (handler_ok seen (drop (length m1) m2 ++ x2) r s ltac:(lia)) as (msg & rest1 & Hh1 & Hmsg & Hrep1);
    [rewrite <- zlen_app, <- Hbuf, zlen_app; done | done |].
  rewrite <- Hbuf, Hseen in Hh1. rewrite Hh1. run. rewrite (Hkeep _ _ _ _ _ _ _ _ Hh1). unfold set_event_send, prepare. cbn [buffer response p_app prepared in_flight completed app].
  rewrite (proj2 (Z.eqb_neq (zlen m2) 0)), (proj2 (Z.ltb_lt 0 (zlen m2))) by lia.
  destruct (handler_ok m2 x2 (answer seen s ++ rest1) (after seen s) ltac:(lia) Hx2 ltac:(by rewrite zlen_app)) as (msg2 & rest2 & -> & Hmsg2 & Hrep2). run.
  cbn [in_flight buffer completed response prepared p_app app drop]. rewrite remove_skip, remove_top by done. cbn [fmap option_fmap option_map of_option]. run.
  fold r1 r2 in Hrep2 |- *. rewrite (send_range (r2 ++ rest2) r1); [| by rewrite zlen_app | apply answer_fits]. run.
  cbn [in_flight response]. rewrite remove_skip, remove_top by done. cbn [fmap option_fmap option_map of_option]. run.
  rewrite (send_front _ _ Hrep2). run. unfold zlen. rewrite !Nat2Z.id, take_take, Nat.min_id, firstn_all. eexists _, rest2.
  split; [exact Hrep2 | done].
Qed.

End Single.
