(* ===== verification/ReactorClaims.v ===== *)
(** * ReactorClaims: the properties of the epoll and io_uring servers *)

From S2P Require Import Prelude CLib Reactor ReactorFacts.

(** ** A handler: the message is its own answer, the state counts messages *)

Module Echo.

Definition t : Type := nat.

#[global] Instance handler : Handler t := fun msg n resp s =>
  data ← rd_range msg 0 n;
  resp ← wr_range resp 0 data;
  Ok (n, msg, resp, Datatypes.S s).

#[global] Instance laws : HandlerLaws t.
Proof.
  refine {| answer := fun m _ => take 1024 m; after := fun _ s => Datatypes.S s |}.
  - intros m s. unfold zlen. rewrite length_take. lia.
  - intros m rest resp s Hm Hl Hr. pose proof (zlen_nonneg rest). rewrite !take_ge by (unfold zlen in *; lia).
    exists (m ++ rest), (drop (length m) resp). unfold kvs_handler, handler.
    pose proof (rd_range_app_mid [] m rest) as Hrd. cbn [app] in Hrd. change (zlen []) with 0 in Hrd. rewrite Hrd. run.
    unfold wr_range. rewrite !(proj2 (Z.leb_le _ _)) by lia. cbn [andb]. run. split; [done |]. rewrite zlen_app. split; [done |].
    unfold zlen in *. rewrite length_drop. lia.
Defined.

End Echo.

Section Claims.
Context {S : Type} `{LAWS : HandlerLaws S}.

(** C21: the epoll server on any sequence of events the kernel can report for
    its descriptors, which are below [CONNECTION_SIZE], with any number of
    connections that come, send, receive and go, and a handler that answers at
    the front of its response buffer: the code never leaves defined behaviour
    and does what the specification says. On each connection the bytes sent are
    a part of the handler's answers to its messages in order (what a [send]
    does not take is lost); when the sends take everything they are these answers, all
    of them but the one to the last message while it waits to be sent. *)
Theorem reactor_answers sockfds es s y ans out closed :
  NoDup sockfds -> Forall (fun fd => 0 <= fd < CONNECTION_SIZE) sockfds ->
  served_run (list_to_set sockfds) es (∅, s) y ans out closed ->
  exists st, reactor_start sockfds es s = Ok (st, out, closed) /\ reactor_ok (list_to_set sockfds) y st /\
    forall fd, sublist (stream fd out ++ unsent fd y.1) (stream fd ans) /\
      (Forall (fun e => r_send e = None) es -> stream fd out ++ unsent fd y.1 = stream fd ans).
Proof.
  intros Hnd Hf Hrun. unfold reactor_start.
  destruct (listeners_ok sockfds ∅ (Reactor (replicate (Z.to_nat CONNECTION_SIZE) conn0) ∅ s) s Hnd) as (st0 & -> & Hok0);
    [eapply Forall_impl; [exact Hf |]; set_solver | apply start_ok |].
  rewrite union_empty_r_L in Hok0. run. destruct (loop_ok _ _ _ _ _ _ _ _ Hrun Hok0) as (st & E & Hok). exists st. split; [done |]. split; [done |].
  intros fd. pose proof (served_run_stream _ _ _ _ _ _ _ fd Hrun) as Hs. cbn [fst] in Hs.
  change (unsent fd ∅) with (@nil Z) in Hs. exact Hs.
Qed.

(** C29: the io_uring server with one connection, and a handler that answers at
    the front of its response buffer: its messages, of any number and contents,
    are answered in order, one after the other; of each answer the bytes that
    the [send] took reach the client, all of them when it took them all; and the connection is
    closed at its end. *)
Theorem proactor_single sockfd fd ms s :
  Forall (fun m => 0 < zlen m.1 <= BUFFER_LENGTH) ms ->
  exists p, proactor_start sockfd ([P_kernel (K_accept fd); P_turn] ++ rounds fd ms s ++ [P_kernel (K_recv fd 0 []); P_turn]) s
    = Ok (p, sent fd ms.*2 (answers ms.*1 s), [fd]) /\
    in_flight p = [Sqe EVENT_ACCEPT sockfd 0] /\ p_app p = fold_left (fun s m => after m s) ms.*1 s /\
    (Forall2 (fun n r => zlen r <= n) ms.*2 (answers ms.*1 s) -> sent fd ms.*2 (answers ms.*1 s) = (fd,.) <$> answers ms.*1 s).
Proof.
  intros Hms. cbn [app]. destruct (accept_ok sockfd fd s (rounds fd ms s ++ [P_kernel (K_recv fd 0 []); P_turn])) as (p1 & H1 & ->).
  destruct (rounds_ok sockfd fd ms s p1 [P_kernel (K_recv fd 0 []); P_turn] H1 Hms) as (p2 & H2 & ->).
  destruct (end_ok sockfd fd _ p2 0 H2 ltac:(lia)) as (p3 & -> & Hfl & _ & _ & Happ). run. exists p3. rewrite app_nil_r.
  split; [done |]. split; [done |]. split; [done |]. apply sent_all.
Qed.

(** C40: all connections of the io_uring server receive into one buffer and
    send from another: of two messages that arrive before the server looks, the
    second at least as long as the first, the first is overwritten. Its sender
    is sent the beginning of what the second left in the response buffer, whatever
    it had asked. (The handler leaves its message alone.) *)
Theorem proactor_crosstalk sockfd fd1 fd2 m1 m2 s (p : proactor S) :
  (forall m n r s v m' r' s', kvs_handler m n r s = Ok (v, m', r', s') -> m' = m) ->
  waits_for_two sockfd fd1 fd2 s p -> fd1 <> fd2 -> 0 < zlen m1 <= zlen m2 -> zlen m2 <= BUFFER_LENGTH ->
  let seen := take (length m1) m2 in let r1 := answer seen s in let r2 := answer m2 (after seen s) in
  exists p' rest, zlen r2 + zlen rest = BUFFER_LENGTH /\
    proactor_loop sockfd [P_kernel (K_recv fd1 (zlen m1) m1); P_kernel (K_recv fd2 (zlen m2) m2); P_turn;
      P_kernel (K_send fd1 (zlen r1) (zlen r1)); P_kernel (K_send fd2 (zlen r2) (zlen r2))] p
    = Ok (p', [(fd1, take (length r1) (r2 ++ rest)); (fd2, r2)], []).
Proof. apply two_ok. Qed.

(** ** Where the code leaves its contract *)

(** The table of connections has 1024 entries and is indexed with the
    descriptor: the connection with descriptor 1024 writes behind it. *)
Theorem reactor_fd_overflow fd clientfd (st : reactor S) :
  zlen (conn_list st) = CONNECTION_SIZE -> CONNECTION_SIZE <= clientfd -> accept_cb fd clientfd st = Undef.
Proof.
  intros Hl Hc. unfold accept_cb, event_register, CONNECTION_SIZE in *. rewrite (proj2 (Z.ltb_ge clientfd 0)) by lia.
  unfold wr. rewrite Hl, (proj2 (Z.ltb_ge clientfd _)), andb_false_r by lia. done.
Qed.

(** A [send] that takes a part of the answer: the connection goes back to
    waiting for a message and the rest is never sent. *)
Theorem reactor_short_send L p s (st : reactor S) fd r n :
  reactor_ok L (p, s) st -> p !! fd = Some (Some r) -> 0 < n < zlen r ->
  exists st', send_cb fd (Some n) st = Ok (n, st', [(fd, take (Z.to_nat n) r)]) /\ epfd st' !! fd = Some EPOLLIN.
Proof.
  intros Hok Hp Hn. destruct (rk_conn _ _ _ Hok fd _ Hp) as (_ & c & Hc & _ & _ & Hlen & Hep & Hwl & rest & Hwb). unfold send_cb. rewrite Hc. run. rewrite Hwl.
  rewrite (proj2 (Z.eqb_neq (zlen r) 0)) by lia. cbn [negb].
  assert (zlen r <= BUFFER_LENGTH) by (rewrite <- Hlen, Hwb, zlen_app; pose proof (zlen_nonneg rest); lia).
  replace (to_size_t (zlen r)) with (zlen r) by (symmetry; apply Z.mod_small; unfold BUFFER_LENGTH in *; lia).
  pose proof (rd_range_app_mid [] r rest) as Hrd. cbn [app] in Hrd. change (zlen []) with 0 in Hrd. rewrite Hwb, Hrd. run.
  eexists. split; [done |]. cbn [epfd]. unfold set_event. rewrite Hep. apply lookup_insert_eq.
Qed.

(** A [recv] of the io_uring server that fails: nothing is submitted for the
    connection any more and it is not closed. *)
Theorem proactor_error_leak sockfd fd s (p : proactor S) n :
  waits_for sockfd fd s p -> n < 0 ->
  exists p', proactor_loop sockfd [P_kernel (K_recv fd n []); P_turn] p = Ok (p', [], []) /\ in_flight p' = [Sqe EVENT_ACCEPT sockfd 0].
Proof.
  intros Hw Hn. destruct (end_ok sockfd fd s p n Hw ltac:(lia)) as (p' & E & Hfl & _). rewrite (proj2 (Z.eqb_neq n 0)) in E by lia. eauto.
Qed.

End Claims.

(** ** Instances *)

Ltac reports_tac := split; vm_compute; congruence.

Lemma reactor_answers_witness :
  exists st, reactor_start [3; 4] [Ready 3 EPOLLIN 5 (0, []) None; Ready 5 EPOLLIN 0 (4, BS "ping") None; Ready 5 EPOLLOUT 0 (0, []) None;
      Ready 5 EPOLLIN 0 (4, BS "pong") None] 0%nat
    = Ok (st, [(5, BS "ping")], []) /\
    forall fd, stream fd [(5, BS "ping")] ++ unsent fd (<[5 := Some (BS "pong")]> (<[5 := None]> (<[5 := Some (BS "ping")]> (<[5 := None]> ∅))))
      = stream fd [(5, BS "ping"); (5, BS "pong")].
Proof.
  destruct (reactor_answers [3; 4] [Ready 3 EPOLLIN 5 (0, []) None; Ready 5 EPOLLIN 0 (4, BS "ping") None; Ready 5 EPOLLOUT 0 (0, []) None;
      Ready 5 EPOLLIN 0 (4, BS "pong") None] 0%nat
    (<[5 := Some (BS "pong")]> (<[5 := None]> (<[5 := Some (BS "ping")]> (<[5 := None]> ∅))), 2%nat) [(5, BS "ping"); (5, BS "pong")] [(5, BS "ping")] [])
    as (st & E & _ & Hs).
  - repeat constructor; set_solver.
  - repeat constructor; unfold CONNECTION_SIZE; lia.
  - apply (run_cons _ _ _ _ (<[5 := None]> ∅, 0%nat) _ [] [(5, BS "ping"); (5, BS "pong")] [] [(5, BS "ping")] [] []);
      [apply served_accept; [reports_tac | set_solver | unfold CONNECTION_SIZE; lia | set_solver | reflexivity] |].
    apply (run_cons _ _ _ _ (<[5 := Some (BS "ping")]> (<[5 := None]> ∅), 1%nat) _ [(5, BS "ping")] [(5, BS "pong")] [] [(5, BS "ping")] [] []);
      [refine (served_message (list_to_set [3; 4]) 5 EPOLLIN 0 (BS "ping") None (<[5 := None]> ∅) 0%nat _ _ _); [reports_tac | reflexivity | split; vm_compute; congruence] |].
    apply (run_cons _ _ _ _ (<[5 := None]> (<[5 := Some (BS "ping")]> (<[5 := None]> ∅)), 1%nat) _ [] [(5, BS "pong")] [(5, BS "ping")] [] [] []);
      [refine (served_send (list_to_set [3; 4]) 5 EPOLLOUT 0 (0, []) None (BS "ping") (<[5 := Some (BS "ping")]> (<[5 := None]> ∅)) 1%nat _ _); [reports_tac | reflexivity] |].
    apply (run_cons _ _ _ _ (<[5 := Some (BS "pong")]> (<[5 := None]> (<[5 := Some (BS "ping")]> (<[5 := None]> ∅))), 2%nat) _ [(5, BS "pong")] [] [] [] [] []);
      [refine (served_message (list_to_set [3; 4]) 5 EPOLLIN 0 (BS "pong") None (<[5 := None]> (<[5 := Some (BS "ping")]> (<[5 := None]> ∅))) 1%nat _ _ _); [reports_tac | reflexivity | split; vm_compute; congruence] | constructor].
  - exists st. split; [exact E |]. intros fd. apply (Hs fd). repeat constructor.
Defined.

(** The second answer is cut. *)
Lemma proactor_single_witness : exists p,
  proactor_start 3 ([P_kernel (K_accept 5); P_turn] ++ rounds 5 [(BS "a", 1); (BS "bcd", 2)] 0%nat ++ [P_kernel (K_recv 5 0 []); P_turn]) 0%nat
    = Ok (p, [(5, BS "a"); (5, BS "bc")], [5]) /\ p_app p = 2%nat.
Proof.
  destruct (proactor_single 3 5 [(BS "a", 1); (BS "bcd", 2)] 0%nat) as (p & E & _ & Ha & _); [repeat constructor; vm_compute; congruence |].
  exists p. split; [exact E | exact Ha].
Defined.

Lemma proactor_crosstalk_witness : exists p' rest,
  proactor_loop 3 [P_kernel (K_recv 5 5 (BS "GET a")); P_kernel (K_recv 6 5 (BS "GET b")); P_turn;
      P_kernel (K_send 5 5 5); P_kernel (K_send 6 5 5)]
    (Proactor zeros zeros [] [Sqe EVENT_ACCEPT 3 0; Sqe EVENT_READ 5 BUFFER_LENGTH; Sqe EVENT_READ 6 BUFFER_LENGTH] [] 0%nat)
  = Ok (p', [(5, take 5 (BS "GET b" ++ rest)); (6, BS "GET b")], []).
Proof.
  destruct (proactor_crosstalk 3 5 6 (BS "GET a") (BS "GET b") 0%nat
    (Proactor zeros zeros [] [Sqe EVENT_ACCEPT 3 0; Sqe EVENT_READ 5 BUFFER_LENGTH; Sqe EVENT_READ 6 BUFFER_LENGTH] [] 0%nat))
    as (p' & rest & _ & E); [| split_and!; reflexivity | lia | split; vm_compute; congruence | vm_compute; congruence |].
  - intros m n r s v m' r' s'. unfold kvs_handler, Echo.handler. destruct (rd_range m 0 n); [| done..]. cbn [mbind res_bind].
    destruct (wr_range r 0 a); [| done..]. by intros [= _ <- _ _].
  - exists p', rest. exact E.
Defined.

Lemma reactor_fd_overflow_witness :
  accept_cb 3 1024 (Reactor (replicate (Z.to_nat CONNECTION_SIZE) conn0) ∅ 0%nat) = Undef.
Proof.
  apply (reactor_fd_overflow 3 1024 (Reactor (replicate (Z.to_nat CONNECTION_SIZE) conn0) ∅ 0%nat)); [| unfold CONNECTION_SIZE; lia].
  cbn [conn_list]. unfold zlen. by rewrite length_replicate.
Defined.

Lemma proactor_error_leak_witness : exists p',
  proactor_loop 3 [P_kernel (K_recv 5 (-104) []); P_turn]
    (Proactor zeros zeros [] [Sqe EVENT_ACCEPT 3 0; Sqe EVENT_READ 5 BUFFER_LENGTH] [] 0%nat) = Ok (p', [], []) /\ in_flight p' = [Sqe EVENT_ACCEPT 3 0].
Proof. apply (proactor_error_leak 3 5 0%nat); [split_and!; reflexivity | lia]. Defined.
