(* ===== verification/ReplicaClaims.v ===== *)
(** * ReplicaClaims: a slave follows its master

    The increments of the replication on the slave's side: [kvs_slave_incr_sync]
    starts a coroutine on the connection over which the write commands of the
    master come, and the coroutine serves them like requests of a client, without
    answers. A slave that starts from the master's contents ends with them. *)

From S2P Require Import Prelude CLib Alloc Protocol ProtocolFacts Engine Owner Uring Log LogFacts Store StoreFacts RequestFacts Save SaveFacts LoadFacts.
From S2P Require Import Array Hash Skiplist SkiplistFacts Rbtree RbTheory RbFacts RbEngine.
From S2P Require Import AgentDs AgentDsFacts Agent AgentFacts.
From S2P Require Import Net Server ServerFacts Sync SyncFacts System RecoveryFacts Main MainFacts SystemClaims.

#[export] Instance changes_dec o : Decision (changes o).
Proof. destruct o; cbn; apply _. Defined.

(** The commands the agent forwards: all that may change the contents, whether
    they did or not. *)
Definition change_commands (qs : list request) : list request := filter (fun q => changes q.2) qs.

Lemma change_commands_after full qs : forall d e, db_after full (change_commands qs) d e = db_after full qs d e.
Proof.
  unfold change_commands. induction qs as [| q qs IH]; intros d e; [done |]. rewrite filter_cons. cbn [db_after].
  destruct (decide (changes q.2)) as [Hc | Hc]; cbn [db_after]; [apply IH |]. rewrite IH. apply db_after_ext.
  intros e'. unfold db_apply. destruct (decide _); [| done]. by destruct (q.2).
Qed.

Lemma change_commands_forall (P : request -> Prop) qs : Forall P qs -> Forall P (change_commands qs).
Proof. intros Hp. unfold change_commands. rewrite Forall_forall in Hp |- *. intros q Hq. apply list_elem_of_filter in Hq as [_ Hq]. auto. Qed.

(** The agent's table of commands has exactly the words of these requests. *)
Lemma agent_find_request q :
  exists word, head (tokens_of q) = Some word /\
    agent_find word = if decide (changes q.2) then CMD_ALLOWED_SEND else CMD_OTHER.
Proof. destruct q as [[] []]; by eexists. Qed.

(** What the agent makes of a request, while a slave synchronises and after. *)
Lemma fwd_request q x :
  fwd_cmd (tokens_of q) x =
    if decide (changes q.2) then
      if bool_decide (f_state x = KVS_SLAVE_FULL_SYNC)
      then (Fwd (f_state x) (f_kept x ++ [kvsp_frame (tokens_of q)]), []) else (x, kvsp_frame (tokens_of q))
    else (x, []).
Proof.
  destruct (agent_find_request q) as (word & Hh & Hf). unfold fwd_cmd. destruct (tokens_of q) as [| t ts]; [done |].
  injection Hh as ->. unfold fwd_step. rewrite Hf. by destruct (decide _).
Qed.

Lemma fwd_keeps qs : forall kept,
  fwd_run (tokens_of <$> qs) (Fwd KVS_SLAVE_FULL_SYNC kept)
    = (Fwd KVS_SLAVE_FULL_SYNC (kept ++ (kvsp_frame <$> (tokens_of <$> change_commands qs))), []).
Proof.
  unfold change_commands. induction qs as [| q qs IH]; intros kept; cbn [fwd_run fmap list_fmap]; [by rewrite app_nil_r |].
  rewrite fwd_request, filter_cons. destruct (decide _); cbn [f_state f_kept fmap list_fmap];
    [rewrite bool_decide_eq_true_2 by done |]; rewrite IH; [| done]. by rewrite <- app_assoc.
Qed.

Lemma fwd_forwards qs kept :
  fwd_run (tokens_of <$> qs) (Fwd KVS_SLAVE_INCR_SYNC kept)
    = (Fwd KVS_SLAVE_INCR_SYNC kept, frames (tokens_of <$> change_commands qs)).
Proof.
  unfold change_commands, frames. induction qs as [| q qs IH]; cbn [fwd_run fmap list_fmap]; [done |].
  rewrite fwd_request, filter_cons. destruct (decide _); cbn [f_state f_kept fmap list_fmap];
    [rewrite bool_decide_eq_false_2 by done |]; by rewrite IH.
Qed.

Lemma frames_mjoin cmds : mjoin (kvsp_frame <$> cmds) = frames cmds.
Proof.
  induction cmds as [| ts cmds IH]; [done |]. change (kvsp_frame ts ++ mjoin (kvsp_frame <$> cmds) = kvsp_frame ts ++ frames cmds).
  by rewrite IH.
Qed.

(** The stream the agent captures: [SYNC], requests during the full
    synchronisation, its end, requests after it. *)
Definition captured (qs1 qs2 : list request) : list (list (list Z)) :=
  [KVS_SYNC_COMMAND] :: (tokens_of <$> qs1) ++ [KVS_SLAVE_FULLSYNC_FINISHED] :: (tokens_of <$> qs2).

Lemma captured_forwards qs1 qs2 s0 :
  (fwd_run (captured qs1 qs2) (Fwd s0 [])).2 = frames (tokens_of <$> change_commands (qs1 ++ qs2)).
Proof.
  unfold captured. cbn [fwd_run]. change (fwd_cmd [KVS_SYNC_COMMAND] (Fwd s0 [])) with (Fwd KVS_SLAVE_FULL_SYNC [], [] : list Z).
  cbn iota. rewrite fwd_run_app, fwd_keeps. cbn [fwd_run app].
  set (k := kvsp_frame <$> _).
  change (fwd_cmd [KVS_SLAVE_FULLSYNC_FINISHED] (Fwd KVS_SLAVE_FULL_SYNC k)) with (Fwd KVS_SLAVE_INCR_SYNC [], mjoin k).
  cbn iota. rewrite fwd_forwards. cbn. unfold k. rewrite frames_mjoin.
  unfold change_commands, frames. by rewrite filter_app, fmap_app, bind_app.
Qed.

Section Replica.
Context {A TA TR TH TL X : Type} `{AL : AllocatorLaws A} `{TOT : !AllocatorTotal A}.
Context `{EA : !Engine A TA} `{ER : !Engine A TR} `{EH : !Engine A TH} `{EL : !Engine A TL}.
Context `{LA : !EngineLaws A TA} `{LR : !EngineLaws A TR} `{LH : !EngineLaws A TH} `{LL : !EngineLaws A TL}.
Context `{MX : !Modules A (engines TA TR TH TL) X} `{ML : !ModulesLaws A (engines TA TR TH TL) X}.
Implicit Types (st ss : store TA TR TH TL X) (a : A).

Lemma store_wf_live st rest a a' :
  store_wf st rest a -> al_inv a' -> al_live a' = al_live a -> store_wf st rest a'.
Proof. rewrite !store_state. intros (Hg & _ & Hh) Hi Hl. split; [done |]. split; [done |]. by rewrite Hl. Qed.

(** The connection over which the increments come, after [kvs_slave_incr_sync]
    told the master that the full synchronisation ended. *)
Lemma incr_sync_ok V W L master_fd agent_fd n sk ss a others :
  store_wf ss others a -> Z.of_nat n * (V + 32) <= W -> 0 <= master_fd -> 0 <= agent_fd -> sk_send sk = [] ->
  exists p cli closed a', kvs_slave_incr_sync master_fd agent_fd sk a
    = Ok (0, Some (p, cli), closed, Sock (sk_in sk) (sk_out sk ++ kvsp_frame [KVS_SLAVE_FULLSYNC_FINISHED]) [], a') /\
    conn_wf V W L cli [] n /\ role cli = 1 /\
    store_wf ss ({[wbuf_p cli]} :: {[rbuf_p cli]} :: {[p]} :: others) a' /\
    store_frame ss others a ss ({[wbuf_p cli]} :: {[rbuf_p cli]} :: {[p]} :: others) a'.
Proof.
  intros Hwf Hn Hm Hag Hs. unfold kvs_slave_incr_sync.
  rewrite (proj2 (Z.ltb_ge master_fd 0)), (proj2 (Z.ltb_ge agent_fd 0)) by done.
  destruct (client_init_ok V W L agent_fd n ss a others Hwf Hn) as (p & cli & a1 & -> & Hc & _ & Hwf1 & Hf1).
  run. assert (Hi1 : al_inv a1) by (apply store_state in Hwf1; apply Hwf1).
  destruct (send_command_ok master_fd KVS_SLAVE_FULLSYNC_FINISHED sk a1) as (a2 & -> & Hi2 & Hl2);
    [done | vm_compute; congruence | done | done |].
  run. cbn [Z.eqb negb]. eexists p, (set_role 1 cli), _, a2. split; [done |].
  split; [by destruct Hc as [[[] ? ? ? ?] ? ? [] ?] |]. split; [done |]. split; [by eapply store_wf_live |].
  unfold store_frame in *. by rewrite Hl2.
Qed.

(** What the slave stores after the commands [ws], from the master's contents. *)
Lemma follows_after qs xs ws ys st st' ss ss' :
  store_run qs xs st st' -> ws = writes qs xs \/ ws = change_commands qs ->
  (forall e, db (eng ss) e = db (eng st) e) -> store_run ws ys ss ss' ->
  forall e, db (eng ss') e = db (eng st') e.
Proof.
  intros Hm Hws Hd Hsl e. apply store_run_db in Hm, Hsl.
  rewrite (db_run_after _ _ _ _ _ _ Hsl e), (db_after_ext _ _ _ _ Hd e).
  destruct Hws as [-> | ->].
  - by rewrite (writes_after _ _ _ _ _ _ db_absent_nonzero Hm e).
  - rewrite change_commands_after. symmetry. by eapply db_run_after.
Qed.

(** What the slave receives: the successful writes, as the master sends them
    itself, or what the agent, in whatever state it was before, forwards. *)
Definition increments (qs1 qs2 : list request) (xs : list eout) (bs : list Z) : Prop :=
  bs = frames (tokens_of <$> writes (qs1 ++ qs2) xs) \/
  exists s0, bs = (fwd_run (captured qs1 qs2) (Fwd s0 [])).2.

Lemma increments_commands qs1 qs2 xs bs :
  increments qs1 qs2 xs bs -> exists ws, bs = frames (tokens_of <$> ws) /\
    (ws = writes (qs1 ++ qs2) xs \/ ws = change_commands (qs1 ++ qs2)) /\ (length ws <= length (qs1 ++ qs2))%nat.
Proof.
  intros [-> | [s0 ->]]; eexists; (split; [done || apply captured_forwards |]).
  - split; [by left | apply writes_length].
  - split; [by right | apply length_filter].
Qed.

(** C10: a slave follows its master. The master, holding what the slave holds,
    served [qs1] during the full synchronisation and [qs2] after it; the slave
    gets the successful writes, or what the agent by its specification [fwd_run]
    makes of the captured stream ([SYNC], [qs1], [FULLSYNC FINISHED], [qs2]),
    cut into segments in any way. It reports the end of the full
    synchronisation, its coroutine for the increments executes the commands
    without a fault and without an answer, and when the stream ends it holds
    what the master holds, in every engine, with every block of the connection
    given back. [V], [W] and [L] bound values, replies and stream;
    [AllocatorTotal] as in the session. *)
Theorem replica_follows V W L qs1 qs2 xs st st' ss chunks master_fd agent_fd sk a others :
  0 <= V < 10 ^ 9 -> 2 * W + 4096 <= 2 ^ 29 -> V + 64 <= W -> L <= 2 ^ 28 ->
  store_run (qs1 ++ qs2) xs st st' -> Forall request_ok (qs1 ++ qs2) -> Forall (fun q => op_below V q.2) (qs1 ++ qs2) ->
  Z.of_nat (length (qs1 ++ qs2)) * (V + 32) <= W ->
  store_wf ss others a -> (forall e, db (eng ss) e = db (eng st) e) -> values_below V (db (eng ss)) ->
  0 <= master_fd -> 0 <= agent_fd -> sk_send sk = [] ->
  Forall (fun c => 0 < zlen c <= SERVER_BUFFER_SIZE) chunks -> zlen (mjoin chunks) <= L ->
  increments qs1 qs2 xs (mjoin chunks) ->
  exists p cli closed a1 ss' a',
    kvs_slave_incr_sync master_fd agent_fd sk a
      = Ok (0, Some (p, cli), closed, Sock (sk_in sk) (sk_out sk ++ kvsp_frame [KVS_SLAVE_FULLSYNC_FINISHED]) [], a1) /\
    server_reader kvs_protocol (S (length chunks)) p cli (Sock (Some <$> chunks) [] []) ss a1
      = Ok (Sock [] [] [], ss', a') /\
    (forall e, db (eng ss') e = db (eng st') e) /\ store_wf ss' others a' /\ store_frame ss others a ss' others a'.
Proof.
  intros HV HW HWV HL Hm Hok Hlow Hn Hwf Hd Hv Hmf Haf Hs Hch HLj (ws & Hj & Hws & Hlen)%increments_commands.
  destruct (incr_sync_ok V W L master_fd agent_fd (length ws) sk ss a others)
    as (p & cli & closed & a1 & Hrun & Hc & Hr & Hwf1 & Hf1); [done | nia | done.. |].
  assert (Hall : forall P : request -> Prop, Forall P (qs1 ++ qs2) -> Forall P ws).
  { intros P HP. destruct Hws as [-> | ->]; [by apply writes_forall | by apply change_commands_forall]. }
  destruct (stream_run V W HV HW HWV L HL chunks ws [] cli (Sock (Some <$> chunks) [] []) ss a1 p others (S (length chunks)))
    as (ys & rs & ss' & a' & Hrd & ->%suffix_nil_inv & Hst & Hwf' & Hf');
    [done | done | done | done | | auto | auto | done | constructor | done | lia | done |].
  { destruct ws; [done |]. apply kvsp_frame_pos. }
  exists p, cli, closed, a1, ss', a'. split; [exact Hrun |]. unfold output in Hrd. rewrite Hr in Hrd.
  split; [exact Hrd |]. split; [by eapply follows_after |]. split; [done |]. by eapply store_frame_trans.
Qed.

End Replica.

(** ** An instance: an empty slave, a master that serves [demo_reqs] *)

#[local] Existing Instance demo_array.
#[local] Existing Instance demo_rbtree.
#[local] Existing Instance demo_hash.
#[local] Existing Instance demo_skip.
#[local] Existing Instance demo_array_laws.
#[local] Existing Instance demo_hash_laws.
#[local] Existing Instance system_modules.

Definition demo_increments : list Z := frames (tokens_of <$> change_commands demo_reqs).

Lemma replica_follows_witness : exists (st : demo_store) xs st' (ss : demo_store) (a : Unlimited.t) p cli closed a1 ss' a',
  store_run demo_reqs xs st st' /\ db (eng st') ERbtree !! BS "k" = Some (BS "5") /\
  kvs_slave_incr_sync 3 4 (Sock [] [] []) a
    = Ok (0, Some (p, cli), closed, Sock [] (kvsp_frame [KVS_SLAVE_FULLSYNC_FINISHED]) [], a1) /\
  server_reader kvs_protocol 3 p cli (Sock (Some <$> [take 50 demo_increments; drop 50 demo_increments]) [] []) ss a1
    = Ok (Sock [] [] [], ss', a') /\
  forall e, db (eng ss') e = db (eng st') e.
Proof.
  destruct demo_served as (st & xs & st' & a0 & f0 & Hr & _ & Hd & _ & _ & _ & _ & _ & Hk).
  destruct demo_start as (ss & a & _ & Hwf & Hds & _ & _). destruct demo_reqs_ok as [Hok Hlow].
  destruct (replica_follows 1000 10000 1000 (take 4 demo_reqs) (drop 4 demo_reqs) xs st st' ss
      [take 50 demo_increments; drop 50 demo_increments] 3 4 (Sock [] [] []) a [])
    as (p & cli & closed & a1 & ss' & a' & H1 & H2 & H3 & _);
    [lia | lia | lia | lia | by rewrite take_drop | by rewrite take_drop | by rewrite take_drop | cbn; lia | done | | | done | done | done | | | |].
  - intros e. by rewrite Hds, Hd.
  - intros e k v. by rewrite Hds, lookup_empty.
  - repeat constructor; vm_compute; congruence.
  - vm_compute. congruence.
  - right. exists KVS_SLAVE_INCR_SYNC. vm_compute. reflexivity.
  - exists st, xs, st', ss, a, p, cli, closed, a1, ss', a'. do 4 (split; [assumption |]). assumption.
Defined.
